(** * OpenTESArena: the voxel render-chunk manager

    A shallow embedding of [Rendering/RenderChunkManager.cpp] together with the
    parts of [World/ArenaMeshUtils.h] it relies on, followed by the properties
    of the texture caches, the mesh buffer builder, the chasm wall index table,
    the draw call assembler and the chunk lifecycle.

    Conventions of the embedding:
    - [int], handles and sizes are [Z]; sizes of vectors are taken below 2^31;
    - [double] is IEEE 754 binary64: a finite value is the rational it
      denotes, an operation rounds its exact result to the nearest binary64
      number;
    - [std::vector] is [list]; [emplace_back] appends at the end;
    - a failed [DebugAssert], [DebugUnhandledReturn], [DebugNotImplemented]
      terminates the program: the operation yields [Fatal];
    - [DebugLogWarning] and [DebugLogError] append to the debug log and return. *)

From Stdlib Require Import String.
From Stdlib Require Import ZArith QArith Qround Qabs Qpower List Bool Lia Lqa Permutation.
From Stdlib Require Import DecimalString.
Import ListNotations.
Open Scope Z_scope.

(** ** Results of operations and the debug macros *)

Inductive Fault : Type :=
| AssertionFailed
| UnhandledReturn
| NotImplemented
| UndefinedBehavior.

Inductive Result (A : Type) : Type :=
| Ok (a : A)
| Fatal (f : Fault).

Arguments Ok {A} a.
Arguments Fatal {A} f.

Definition isOk {A : Type} (r : Result A) : bool :=
  match r with Ok _ => true | Fatal _ => false end.

Inductive LogEntry : Type :=
| LogWarning (msg : string)
| LogError (msg : string).

Definition DebugLog := list LogEntry.

(** A computation over a state [S] that may end in a fatal fault. *)
Definition M (S A : Type) : Type := S -> Result (A * S).

Definition ret {S A : Type} (a : A) : M S A := fun s => Ok (a, s).

Definition bind {S A B : Type} (m : M S A) (k : A -> M S B) : M S B :=
  fun s => match m s with
           | Ok (a, s') => k a s'
           | Fatal f => Fatal f
           end.

Definition crash {S A : Type} (f : Fault) : M S A := fun _ => Fatal f.

Definition gets {S A : Type} (f : S -> A) : M S A := fun s => Ok (f s, s).

Definition modify {S : Type} (f : S -> S) : M S unit := fun s => Ok (tt, f s).

(** [DebugAssert(condition)]. *)
Definition DebugAssert {S : Type} (condition : bool) : M S unit :=
  if condition then ret tt else crash AssertionFailed.

(** A pure fallible value used inside a computation. *)
Definition lift {S A : Type} (r : Result A) : M S A :=
  fun s => match r with Ok a => Ok (a, s) | Fatal f => Fatal f end.

Declare Scope m_scope.
Delimit Scope m_scope with m.
Notation "x <- m ;; k" := (bind m (fun x => k))
  (at level 100, m at next level, right associativity) : m_scope.
Notation "m ;;; k" := (bind m (fun _ => k))
  (at level 100, right associativity) : m_scope.

(** [for (x : xs) body(x)]: the loops of the source, over the list of the
    values the loop variable takes. *)
Fixpoint forEach {S X : Type} (xs : list X) (body : X -> M S unit) : M S unit :=
  match xs with
  | [] => ret tt
  | x :: rest => bind (body x) (fun _ => forEach rest body)
  end.

(** First index at which [p] holds: [std::find_if] followed by
    [std::distance] from [begin()]. *)
Fixpoint findIndexFrom {A : Type} (p : A -> bool) (l : list A) (i : Z) : option Z :=
  match l with
  | [] => None
  | a :: rest => if p a then Some i else findIndexFrom p rest (i + 1)
  end.

Definition findIndex {A : Type} (p : A -> bool) (l : list A) : option Z :=
  findIndexFrom p l 0.

(** [v[i]] for an [int] index. *)
Definition at_ {A : Type} (l : list A) (i : Z) : option A :=
  if i <? 0 then None else nth_error l (Z.to_nat i).

(** ** Numbers *)

Definition INT_MIN : Z := - 2 ^ 31.
Definition INT_MAX : Z := 2 ^ 31 - 1.

(** *** IEEE 754 binary64

    A [double] is a finite value, an infinity or NaN. A finite value is held
    as the rational it denotes; the two zeros are one value, which no code
    here tells apart. The binary64 numbers are the multiples [m * 2^e] with
    [|m| < 2^53] and [-1074 <= e]; an arithmetic operation computes the exact
    result and rounds it to the nearest of them, to the one with the even
    mantissa in a tie, and to an infinity from [2^1024] on. *)

Inductive double : Type :=
| Finite (value : Q)
| Infinity (negative : bool)
| NaN.

Coercion Finite : Q >-> double.

(** [2^k] for an integer exponent. *)
Definition pow2 (k : Z) : Q := (2 ^ k)%Q.

(** [floor (log2 x)] of a positive rational. *)
Definition ilog2 (x : Q) : Z :=
  let k := Z.log2 (Qnum x) - Z.log2 (Zpos (Qden x)) in
  if Qle_bool (pow2 k) x then k else k - 1.

(** The integer nearest to [y], the even one of two equally near. *)
Definition roundHalfEven (y : Q) : Z :=
  let f := Qfloor y in
  match (y - inject_Z f ?= 1 # 2)%Q with
  | Lt => f
  | Gt => f + 1
  | Eq => if Z.even f then f else f + 1
  end.

(** The binary64 numbers around a positive [x] are the multiples of [2^e]
    for this [e]: 53 significant bits, and the spacing [2^-1074] of the
    subnormal numbers below [2^-1022]. *)
Definition ulpExponent (x : Q) : Z := Z.max (ilog2 x - 52) (-1074).

Definition roundPositive (x : Q) : Q :=
  let e := ulpExponent x in
  Qred (inject_Z (roundHalfEven (x / pow2 e)) * pow2 e).

(** Round to nearest, ties to even, with an unbounded exponent range. *)
Definition round64 (x : Q) : Q :=
  match (x ?= 0)%Q with
  | Eq => 0%Q
  | Gt => roundPositive x
  | Lt => (- roundPositive (- x))%Q
  end.

Definition isNegative (x : Q) : bool := negb (Qle_bool 0 x).

(** The binary64 result of an operation whose exact result is [x]. *)
Definition roundResult (x : Q) : double :=
  let r := round64 x in
  if Qle_bool (pow2 1024) (Qabs r) then Infinity (isNegative r) else Finite r.

(** [-a]. *)
Definition fneg (a : double) : double :=
  match a with
  | Finite x => Finite (- x)
  | Infinity s => Infinity (negb s)
  | NaN => NaN
  end.

(** [a + b]. *)
Definition fadd (a b : double) : double :=
  match a, b with
  | Finite x, Finite y => roundResult (x + y)
  | Finite _, Infinity s | Infinity s, Finite _ => Infinity s
  | Infinity s, Infinity t => if Bool.eqb s t then Infinity s else NaN
  | _, _ => NaN
  end.

(** [a - b]. *)
Definition fsub (a b : double) : double := fadd a (fneg b).

(** [a * b]. *)
Definition fmul (a b : double) : double :=
  match a, b with
  | Finite x, Finite y => roundResult (x * y)
  | Finite x, Infinity s | Infinity s, Finite x =>
      if Qeq_bool x 0 then NaN else Infinity (xorb s (isNegative x))
  | Infinity s, Infinity t => Infinity (xorb s t)
  | _, _ => NaN
  end.

(** [static_cast<double>(int)]: every [int] is a binary64 number. *)
Definition int_to_double (n : Z) : double := Finite (inject_Z n).

(** [static_cast<int>(double)]: the fractional part is discarded. C++ leaves
    the conversion undefined when the truncated value is no [int], and for
    infinities and NaN; the conversion instruction of the x86-64 target
    ([cvttsd2si]) yields [INT_MIN] then, which is what the program computes
    with. *)
Definition double_to_int (d : double) : Z :=
  match d with
  | Finite x =>
      let t := Z.quot (Qnum x) (Zpos (Qden x)) in
      if (INT_MIN <=? t) && (t <=? INT_MAX) then t else INT_MIN
  | _ => INT_MIN
  end.

(** [std::clamp(v, lo, hi)]. *)
Definition clamp (v lo hi : Z) : Z :=
  if v <? lo then lo else if hi <? v then hi else v.

(** ** Assets and handles *)

Record TextureAsset : Type := mkTextureAsset {
  filename : string;
  index : option Z
}.

Definition TextureAsset_eqb (a b : TextureAsset) : bool :=
  String.eqb (filename a) (filename b) &&
  match index a, index b with
  | Some i, Some j => i =? j
  | None, None => true
  | _, _ => false
  end.

Definition ObjectTextureID := Z.
Definition VertexBufferID := Z.
Definition AttributeBufferID := Z.
Definition IndexBufferID := Z.
Definition TextureBuilderID := Z.
Definition ChasmDefID := Z.
Definition ChunkInt2 := (Z * Z)%type.

Definition ChunkInt2_eqb (a b : ChunkInt2) : bool :=
  (fst a =? fst b) && (snd a =? snd b).

(** ** The graphics backend and the texture manager

    Modelled from the spec: the graphics backend ([Renderer]) and the asset
    service ([TextureManager]) are consumed through their interface. Every
    creation call is fallible; [outcomes] lists the results of the fallible
    calls still to come, in call order, and a call after the end of the list
    succeeds. A failed creation leaves its out-parameter as it was. Handles
    are drawn from one counter. *)

Inductive BufferKind : Type := VertexBuffer | AttributeBuffer | IndexBuffer.

Record GpuBuffer : Type := mkGpuBuffer {
  bufferID : Z;
  bufferKind : BufferKind;
  elementCount : Z;
  componentsPerElement : Z;
  indexData : list Z
}.

Record GpuTexture : Type := mkGpuTexture {
  gpuTextureID : ObjectTextureID;
  texWidth : Z;
  texHeight : Z;
  isTrueColor : bool;
  builtFrom : option TextureBuilderID;
  texels : list Z
}.

Record Renderer : Type := mkRenderer {
  outcomes : list bool;
  nextID : Z;
  buffers : list GpuBuffer;
  objectTextures : list GpuTexture
}.

Record TextureManager : Type := mkTextureManager {
  tryGetTextureBuilderID : TextureAsset -> option TextureBuilderID
}.

Definition nextOutcome (r : Renderer) : bool * Renderer :=
  match outcomes r with
  | [] => (true, r)
  | b :: rest => (b, mkRenderer rest (nextID r) (buffers r) (objectTextures r))
  end.

Definition tryCreateBuffer (kind : BufferKind) (count components : Z) (r : Renderer)
  : option Z * Renderer :=
  let (ok, r1) := nextOutcome r in
  if ok then
    (Some (nextID r1),
     mkRenderer (outcomes r1) (nextID r1 + 1)
       (buffers r1 ++ [mkGpuBuffer (nextID r1) kind count components []])
       (objectTextures r1))
  else (None, r1).

Definition tryCreateVertexBuffer (vertexCount components : Z) :=
  tryCreateBuffer VertexBuffer vertexCount components.

Definition tryCreateAttributeBuffer (vertexCount components : Z) :=
  tryCreateBuffer AttributeBuffer vertexCount components.

Definition tryCreateIndexBuffer (indexCount : Z) :=
  tryCreateBuffer IndexBuffer indexCount 1.

Definition populateIndexBuffer (id : IndexBufferID) (indices : list Z) (r : Renderer)
  : Renderer :=
  mkRenderer (outcomes r) (nextID r)
    (map (fun b => if bufferID b =? id
                   then mkGpuBuffer (bufferID b) (bufferKind b) (elementCount b)
                          (componentsPerElement b) indices
                   else b) (buffers r))
    (objectTextures r).

Definition freeBuffer (id : Z) (r : Renderer) : Renderer :=
  mkRenderer (outcomes r) (nextID r)
    (filter (fun b => negb (bufferID b =? id)) (buffers r))
    (objectTextures r).

Definition tryCreateObjectTextureDims (width height : Z) (trueColor : bool) (r : Renderer)
  : option ObjectTextureID * Renderer :=
  let (ok, r1) := nextOutcome r in
  if ok then
    (Some (nextID r1),
     mkRenderer (outcomes r1) (nextID r1 + 1) (buffers r1)
       (objectTextures r1 ++
        [mkGpuTexture (nextID r1) width height trueColor None
           (repeat 0 (Z.to_nat (width * height)))]))
  else (None, r1).

Definition tryCreateObjectTexture (textureBuilder : TextureBuilderID) (r : Renderer)
  : option ObjectTextureID * Renderer :=
  let (ok, r1) := nextOutcome r in
  if ok then
    (Some (nextID r1),
     mkRenderer (outcomes r1) (nextID r1 + 1) (buffers r1)
       (objectTextures r1 ++
        [mkGpuTexture (nextID r1) 0 0 false (Some textureBuilder) []]))
  else (None, r1).

Definition freeObjectTexture (id : ObjectTextureID) (r : Renderer) : Renderer :=
  mkRenderer (outcomes r) (nextID r) (buffers r)
    (filter (fun t => negb (gpuTextureID t =? id)) (objectTextures r)).

(** [lockObjectTexture]: the locked view is valid when the call succeeds; it
    reports whether the texture is true-colour. *)
Definition lockObjectTexture (id : ObjectTextureID) (r : Renderer)
  : option bool * Renderer :=
  let (ok, r1) := nextOutcome r in
  if ok then
    match find (fun t => gpuTextureID t =? id) (objectTextures r1) with
    | Some t => (Some (isTrueColor t), r1)
    | None => (None, r1)
    end
  else (None, r1).

(** [*texels = value] on the locked view of texture [id]. *)
Definition writeFirstTexel (id : ObjectTextureID) (value : Z) (r : Renderer) : Renderer :=
  mkRenderer (outcomes r) (nextID r) (buffers r)
    (map (fun t => if gpuTextureID t =? id
                   then mkGpuTexture (gpuTextureID t) (texWidth t) (texHeight t)
                          (isTrueColor t) (builtFrom t) (value :: tl (texels t))
                   else t) (objectTextures r)).

(** The world outside the manager: the backend and the debug log. *)
Record World : Type := mkWorld {
  renderer : Renderer;
  debugLog : DebugLog
}.

Definition DebugLogWarning (msg : string) (w : World) : World :=
  mkWorld (renderer w) (debugLog w ++ [LogWarning msg]).

Definition DebugLogError (msg : string) (w : World) : World :=
  mkWorld (renderer w) (debugLog w ++ [LogError msg]).

Definition withRenderer (r : Renderer) (w : World) : World :=
  mkWorld r (debugLog w).

(** ** The world side: chunk definitions read by the manager

    Modelled from the spec: the world/chunk service exposes, per voxel
    coordinate, the mesh, texture and traits definition ids and the optional
    door, chasm, fade and chasm wall data. A [tryGet...InstIndex] followed by
    the matching [get...Inst] is one accessor returning the instance. Ids
    stored in a chunk index its own definition lists. *)

Inductive VoxelType : Type :=
| VT_None | VT_Wall | VT_Floor | VT_Ceiling | VT_Raised | VT_Diagonal
| VT_TransparentWall | VT_Edge | VT_Chasm | VT_Door.

Inductive ChasmType : Type := Dry | Wet | Lava.

Inductive DoorType : Type := Swinging | Sliding | Raising | Splitting.

Inductive VoxelFacing2D : Type := PositiveX | NegativeX | PositiveZ | NegativeZ.

Inductive AnimationType : Type := SolidColor | Animated.

Definition VoxelType_eqb (a b : VoxelType) : bool :=
  match a, b with
  | VT_None, VT_None | VT_Wall, VT_Wall | VT_Floor, VT_Floor
  | VT_Ceiling, VT_Ceiling | VT_Raised, VT_Raised | VT_Diagonal, VT_Diagonal
  | VT_TransparentWall, VT_TransparentWall | VT_Edge, VT_Edge
  | VT_Chasm, VT_Chasm | VT_Door, VT_Door => true
  | _, _ => false
  end.

Definition VoxelFacing2D_eqb (a b : VoxelFacing2D) : bool :=
  match a, b with
  | PositiveX, PositiveX | NegativeX, NegativeX
  | PositiveZ, PositiveZ | NegativeZ, NegativeZ => true
  | _, _ => false
  end.

Definition AnimationType_eqb (a b : AnimationType) : bool :=
  match a, b with
  | SolidColor, SolidColor | Animated, Animated => true
  | _, _ => false
  end.

Record ChasmDefinition : Type := mkChasmDefinition {
  chasmAnimType : AnimationType;
  solidColorPaletteIndex : Z;
  animatedTextureAssets : list TextureAsset;
  wallTextureAsset : TextureAsset
}.

Record VoxelTextureDefinition : Type := mkVoxelTextureDefinition {
  defTextureAssets : list TextureAsset
}.

Definition textureCount (d : VoxelTextureDefinition) : Z :=
  Z.of_nat (length (defTextureAssets d)).

(** [VoxelTextureDefinition::getTextureAsset]: the index is asserted. *)
Definition getTextureAsset (d : VoxelTextureDefinition) (i : Z) : Result TextureAsset :=
  match at_ (defTextureAssets d) i with
  | Some a => Ok a
  | None => Fatal AssertionFailed
  end.

Record VoxelMeshDefinition : Type := mkVoxelMeshDefinition {
  meshIsEmpty : bool;
  rendererVertexCount : Z;
  opaqueIndices : list (list Z);
  alphaTestedIndicesListCount : Z;
  alphaTestedIndices : list Z
}.

Definition opaqueIndicesListCount (d : VoxelMeshDefinition) : Z :=
  Z.of_nat (length (opaqueIndices d)).

(** The union of [VoxelTraitsDefinition]: one member is active. *)
Inductive VoxelTraitsUnion : Type :=
| TraitsGeneral
| TraitsFloor (isWildWallColored : bool)
| TraitsRaised (yOffset ySize : double)
| TraitsTransparentWall (collider : bool)
| TraitsEdge (facing : VoxelFacing2D) (collider : bool)
| TraitsChasm (type : ChasmType).

Record VoxelTraitsDefinition : Type := mkVoxelTraitsDefinition {
  traitsType : VoxelType;
  traitsUnion : VoxelTraitsUnion
}.

Record DoorDefinition : Type := mkDoorDefinition {
  doorType : DoorType
}.

Record VoxelDoorAnimationInstance : Type := mkVoxelDoorAnimationInstance {
  percentOpen : double
}.

Record VoxelFadeAnimationInstance : Type := mkVoxelFadeAnimationInstance {
  percentFaded : double
}.

Record VoxelDoorVisibilityInstance : Type := mkVoxelDoorVisibilityInstance {
  visibleFaces : list VoxelFacing2D;
  visibleFaceCount : nat
}.

Record VoxelChasmWallInstance : Type := mkVoxelChasmWallInstance {
  north : bool;
  east : bool;
  south : bool;
  west : bool
}.

Definition VoxelInt3 := (nat * nat * nat)%type.

Definition VoxelInt3_eqb (a b : VoxelInt3) : bool :=
  let '(ax, ay, az) := a in
  let '(bx, by_, bz) := b in
  Nat.eqb ax bx && Nat.eqb ay by_ && Nat.eqb az bz.

Record VoxelChunk : Type := mkVoxelChunk {
  getPosition : ChunkInt2;
  getHeight : nat;
  chunkTextureDefs : list VoxelTextureDefinition;
  chunkChasmDefs : list ChasmDefinition;
  chunkMeshDefs : list VoxelMeshDefinition;
  chunkTraitsDefs : list VoxelTraitsDefinition;
  chunkDoorDefs : list DoorDefinition;
  getMeshDefID : nat -> nat -> nat -> Z;
  getTextureDefID : nat -> nat -> nat -> Z;
  getTraitsDefID : nat -> nat -> nat -> Z;
  tryGetDoorDefID : nat -> nat -> nat -> option Z;
  tryGetChasmDefID : nat -> nat -> nat -> option ChasmDefID;
  tryGetFadeAnimInst : nat -> nat -> nat -> option VoxelFadeAnimationInstance;
  tryGetDoorAnimInst : nat -> nat -> nat -> option VoxelDoorAnimationInstance;
  tryGetDoorVisibilityInst : nat -> nat -> nat -> option VoxelDoorVisibilityInstance;
  tryGetChasmWallInst : nat -> nat -> nat -> option VoxelChasmWallInstance
}.

Definition emptyTextureAsset : TextureAsset := mkTextureAsset EmptyString None.

Definition getTextureDef (chunk : VoxelChunk) (id : Z) : VoxelTextureDefinition :=
  match at_ (chunkTextureDefs chunk) id with
  | Some d => d
  | None => mkVoxelTextureDefinition []
  end.

Definition getChasmDef (chunk : VoxelChunk) (id : ChasmDefID) : ChasmDefinition :=
  match at_ (chunkChasmDefs chunk) id with
  | Some d => d
  | None => mkChasmDefinition SolidColor 0 [] emptyTextureAsset
  end.

Definition getMeshDef (chunk : VoxelChunk) (id : Z) : VoxelMeshDefinition :=
  match at_ (chunkMeshDefs chunk) id with
  | Some d => d
  | None => mkVoxelMeshDefinition true 0 [] 0 []
  end.

Definition getTraitsDef (chunk : VoxelChunk) (id : Z) : VoxelTraitsDefinition :=
  match at_ (chunkTraitsDefs chunk) id with
  | Some d => d
  | None => mkVoxelTraitsDefinition VT_None TraitsGeneral
  end.

Definition getDoorDef (chunk : VoxelChunk) (id : Z) : DoorDefinition :=
  match at_ (chunkDoorDefs chunk) id with
  | Some d => d
  | None => mkDoorDefinition Swinging
  end.

(** [0, 1, ..., n-1] as [int] loop indices. *)
Definition indices (n : nat) : list Z := map Z.of_nat (seq 0 n).

(** ** sgTexture: the texture caches *)

Record LoadedVoxelTexture : Type := mkLoadedVoxelTexture {
  textureAsset : TextureAsset;
  objectTextureRef : ObjectTextureID
}.

Record LoadedChasmFloorTextureList : Type := mkLoadedChasmFloorTextureList {
  animType : AnimationType;
  paletteIndex : Z;
  textureAssets : list TextureAsset;
  objectTextureRefs : list ObjectTextureID
}.

Module LoadedChasmTextureKey.
Record t : Type := init {
  chunkPos : ChunkInt2;
  chasmDefID : ChasmDefID;
  chasmFloorListIndex : Z;
  chasmWallIndex : Z
}.
End LoadedChasmTextureKey.

(** [LoadedChasmFloorTextureList::initColor]. *)
Definition initColor (paletteIndex : Z) (objectTextureRef : ObjectTextureID)
  : LoadedChasmFloorTextureList :=
  mkLoadedChasmFloorTextureList SolidColor paletteIndex [] [objectTextureRef].

(** [LoadedChasmFloorTextureList::initTextured]. *)
Definition initTextured (textureAssets : list TextureAsset)
  (objectTextureRefs : list ObjectTextureID) : LoadedChasmFloorTextureList :=
  mkLoadedChasmFloorTextureList Animated 0 textureAssets objectTextureRefs.

(** [sgTexture::GetVoxelOpaqueTextureAssetIndex]. *)
Definition GetVoxelOpaqueTextureAssetIndex (voxelType : VoxelType) (indexBufferIndex : Z)
  : Result Z :=
  match voxelType with
  | VT_Wall | VT_Floor | VT_Ceiling | VT_Diagonal => Ok indexBufferIndex
  | VT_Raised =>
      if indexBufferIndex =? 0 then Ok 1
      else if indexBufferIndex =? 1 then Ok 2
      else Fatal UnhandledReturn
  | VT_Chasm =>
      if indexBufferIndex =? 0 then Ok 0 else Fatal UnhandledReturn
  | VT_TransparentWall | VT_Edge | VT_Door => Fatal UnhandledReturn
  | VT_None => Fatal NotImplemented
  end.

(** [sgTexture::GetVoxelAlphaTestedTextureAssetIndex]. *)
Definition GetVoxelAlphaTestedTextureAssetIndex (voxelType : VoxelType) : Result Z :=
  match voxelType with
  | VT_Wall | VT_Floor | VT_Ceiling | VT_Diagonal => Fatal UnhandledReturn
  | VT_Raised | VT_TransparentWall | VT_Edge | VT_Door => Ok 0
  | VT_Chasm => Ok 1
  | VT_None => Fatal NotImplemented
  end.

(** One iteration of the loop of [sgTexture::LoadVoxelDefTextures]. *)
Definition LoadVoxelDefTexture (textureManager : TextureManager)
  (st : list LoadedVoxelTexture * World) (asset : TextureAsset)
  : list LoadedVoxelTexture * World :=
  let (voxelTextures, w) := st in
  if existsb (fun loadedTexture => TextureAsset_eqb (textureAsset loadedTexture) asset)
       voxelTextures
  then st
  else
    match tryGetTextureBuilderID textureManager asset with
    | None => (voxelTextures, DebugLogWarning "Couldn't load voxel texture." w)
    | Some textureBuilder =>
        match tryCreateObjectTexture textureBuilder (renderer w) with
        | (None, r) =>
            (voxelTextures,
             DebugLogWarning "Couldn't create voxel texture." (withRenderer r w))
        | (Some voxelTextureID, r) =>
            (voxelTextures ++ [mkLoadedVoxelTexture asset voxelTextureID],
             withRenderer r w)
        end
    end.

(** [sgTexture::LoadVoxelDefTextures]: loads the definition's textures into
    the voxel textures list if they haven't been loaded yet. *)
Definition LoadVoxelDefTextures (voxelTextureDef : VoxelTextureDefinition)
  (voxelTextures : list LoadedVoxelTexture) (textureManager : TextureManager) (w : World)
  : list LoadedVoxelTexture * World :=
  fold_left (LoadVoxelDefTexture textureManager) (defTextureAssets voxelTextureDef)
    (voxelTextures, w).

Fixpoint TextureAssets_eqb (l1 l2 : list TextureAsset) : bool :=
  match l1, l2 with
  | [], [] => true
  | a :: r1, b :: r2 => TextureAsset_eqb a b && TextureAssets_eqb r1 r2
  | _, _ => false
  end.

(** [sgTexture::LoadedChasmFloorComparer]. *)
Definition LoadedChasmFloorComparer (textureList : LoadedChasmFloorTextureList)
  (chasmDef : ChasmDefinition) : bool :=
  if negb (AnimationType_eqb (animType textureList) (chasmAnimType chasmDef)) then false
  else
    match animType textureList with
    | SolidColor => paletteIndex textureList =? solidColorPaletteIndex chasmDef
    | Animated =>
        if negb (Z.of_nat (length (textureAssets textureList)) =?
                 Z.of_nat (length (animatedTextureAssets chasmDef)))
        then false
        else TextureAssets_eqb (textureAssets textureList) (animatedTextureAssets chasmDef)
    end.

(** One iteration of the frame loop in the Animated branch of
    [sgTexture::LoadChasmDefTextures]. *)
Definition LoadChasmFrame (textureManager : TextureManager)
  (st : list TextureAsset * list ObjectTextureID * World) (asset : TextureAsset)
  : list TextureAsset * list ObjectTextureID * World :=
  let '(newTextureAssets, newObjectTextureRefs, w) := st in
  match tryGetTextureBuilderID textureManager asset with
  | None =>
      (newTextureAssets, newObjectTextureRefs,
       DebugLogWarning "Couldn't load chasm texture." w)
  | Some textureBuilder =>
      match tryCreateObjectTexture textureBuilder (renderer w) with
      | (None, r) =>
          (newTextureAssets, newObjectTextureRefs,
           DebugLogWarning "Couldn't create chasm texture." (withRenderer r w))
      | (Some chasmTextureID, r) =>
          (newTextureAssets ++ [asset], newObjectTextureRefs ++ [chasmTextureID],
           withRenderer r w)
      end
  end.

(** The chasm wall lookup and the new key at the end of
    [sgTexture::LoadChasmDefTextures]. *)
Definition addChasmTextureKey (chunkPos : ChunkInt2) (chasmDefID : ChasmDefID)
  (chasmDef : ChasmDefinition) (voxelTextures : list LoadedVoxelTexture)
  (chasmFloorListIndex : Z) (chasmTextureKeys : list LoadedChasmTextureKey.t)
  : Result (list LoadedChasmTextureKey.t) :=
  match findIndex (fun voxelTexture =>
                     TextureAsset_eqb (textureAsset voxelTexture) (wallTextureAsset chasmDef))
          voxelTextures with
  | None => Fatal AssertionFailed
  | Some chasmWallIndex =>
      if (chasmFloorListIndex >=? 0) && (chasmWallIndex >=? 0)
      then Ok (chasmTextureKeys ++
               [LoadedChasmTextureKey.init chunkPos chasmDefID chasmFloorListIndex chasmWallIndex])
      else Fatal AssertionFailed
  end.

(** [sgTexture::LoadChasmDefTextures]. *)
Definition LoadChasmDefTextures (chasmDefID : ChasmDefID) (chunk : VoxelChunk)
  (voxelTextures : list LoadedVoxelTexture)
  (chasmFloorTextureLists : list LoadedChasmFloorTextureList)
  (chasmTextureKeys : list LoadedChasmTextureKey.t)
  (textureManager : TextureManager) (w : World)
  : Result (list LoadedChasmFloorTextureList * list LoadedChasmTextureKey.t * World) :=
  let chunkPos := getPosition chunk in
  let chasmDef := getChasmDef chunk chasmDefID in
  if existsb (fun loadedKey => (LoadedChasmTextureKey.chasmDefID loadedKey =? chasmDefID) &&
                               ChunkInt2_eqb (LoadedChasmTextureKey.chunkPos loadedKey) chunkPos)
       chasmTextureKeys
  then Ok (chasmFloorTextureLists, chasmTextureKeys, w)
  else
    let finish lists idx w' :=
      match addChasmTextureKey chunkPos chasmDefID chasmDef voxelTextures idx
              chasmTextureKeys with
      | Ok keys => Ok (lists, keys, w')
      | Fatal f => Fatal f
      end in
    match findIndex (fun textureList => LoadedChasmFloorComparer textureList chasmDef)
            chasmFloorTextureLists with
    | Some chasmFloorListIndex => finish chasmFloorTextureLists chasmFloorListIndex w
    | None =>
        match chasmAnimType chasmDef with
        | SolidColor =>
            match tryCreateObjectTextureDims 1 1 false (renderer w) with
            | (None, r) =>
                Ok (chasmFloorTextureLists, chasmTextureKeys,
                    DebugLogWarning "Couldn't create dry chasm texture." (withRenderer r w))
            | (Some dryChasmTextureID, r) =>
                match lockObjectTexture dryChasmTextureID r with
                | (None, r1) =>
                    (* the scoped texture reference is destroyed on return *)
                    Ok (chasmFloorTextureLists, chasmTextureKeys,
                        DebugLogWarning "Couldn't lock dry chasm texture for writing."
                          (withRenderer (freeObjectTexture dryChasmTextureID r1) w))
                | (Some lockedIsTrueColor, r1) =>
                    if lockedIsTrueColor then Fatal AssertionFailed
                    else
                      let paletteIndex := solidColorPaletteIndex chasmDef in
                      let r2 := writeFirstTexel dryChasmTextureID paletteIndex r1 in
                      let lists := chasmFloorTextureLists ++
                                   [initColor paletteIndex dryChasmTextureID] in
                      finish lists (Z.of_nat (length lists) - 1) (withRenderer r2 w)
                end
            end
        | Animated =>
            let '(newTextureAssets, newObjectTextureRefs, w1) :=
              fold_left (LoadChasmFrame textureManager) (animatedTextureAssets chasmDef)
                ([], [], w) in
            let lists := chasmFloorTextureLists ++
                         [initTextured newTextureAssets newObjectTextureRefs] in
            finish lists (Z.of_nat (length lists) - 1) w1
        end
    end.

(** [LoadedChasmFloorTextureList::getTextureIndex]. *)
Definition getTextureIndex (textureList : LoadedChasmFloorTextureList)
  (chasmAnimPercent : double) : Result Z :=
  let textureCount := Z.of_nat (length (objectTextureRefs textureList)) in
  if textureCount >=? 1 then
    match animType textureList with
    | SolidColor => Ok 0
    | Animated =>
        Ok (clamp (double_to_int (fmul (int_to_double textureCount) chasmAnimPercent))
              0 (textureCount - 1))
    end
  else Fatal AssertionFailed.

(** [LoadedChasmFloorTextureList::LoadedChasmFloorTextureList] gives the tag
    an invalid value until [initColor] or [initTextured] sets it; every list
    placed in the cache has been initialised, so the tag has two values here. *)

(** ** Constants and tables of headers outside this translation unit

    [Chunk::WIDTH], [Chunk::DEPTH], the [MeshUtils] component counts,
    [Constants::HalfPi], [Constants::Epsilon],
    [ArenaRenderUtils::DOOR_MIN_VISIBLE], the [DoorUtils] face tables,
    [VoxelDoorVisibilityInstance::MAX_FACE_COUNT], the chasm wall face bits
    with the size of the manager's table, and the four index patterns written
    by [ArenaMeshUtils::WriteChasmWallRendererIndexBuffers]. *)

Definition Double3 := (double * double * double)%type.

(** [ArenaMeshUtils::ChasmWallIndexBuffer]: [std::array<int32_t, 6>]. *)
Record ChasmWallIndexBuffer : Type := mkChasmWallIndexBuffer {
  idx0 : Z; idx1 : Z; idx2 : Z; idx3 : Z; idx4 : Z; idx5 : Z
}.

Definition faceIndices (b : ChasmWallIndexBuffer) : list Z :=
  [idx0 b; idx1 b; idx2 b; idx3 b; idx4 b; idx5 b].

Record Constants : Type := mkConstants {
  Chunk_WIDTH : nat;
  Chunk_DEPTH : nat;
  POSITION_COMPONENTS_PER_VERTEX : Z;
  NORMAL_COMPONENTS_PER_VERTEX : Z;
  TEX_COORDS_PER_VERTEX : Z;
  HalfPi : double;
  Epsilon : double;
  DOOR_MIN_VISIBLE : double;
  FACE_COUNT : nat;
  Facings : Z -> VoxelFacing2D;
  SwingingHingeOffsets : Z -> Double3;
  BaseAngles : Z -> double;
  MAX_FACE_COUNT : Z;
  CHASM_WALL_NORTH : Z;
  CHASM_WALL_EAST : Z;
  CHASM_WALL_SOUTH : Z;
  CHASM_WALL_WEST : Z;
  CHASM_WALL_COMBINATION_COUNT : nat;
  northIndices : ChasmWallIndexBuffer;
  eastIndices : ChasmWallIndexBuffer;
  southIndices : ChasmWallIndexBuffer;
  westIndices : ChasmWallIndexBuffer
}.

(** [indicesPerFace] in [RenderChunkManager::init]: the size of a
    [ChasmWallIndexBuffer]. *)
Definition indicesPerFace : Z := 6.

(** [v[i] = x] on a fixed-size array. *)
Fixpoint setAt {A : Type} (l : list A) (i : nat) (x : A) : list A :=
  match l, i with
  | [], _ => []
  | _ :: rest, O => x :: rest
  | a :: rest, S j => a :: setAt rest j x
  end.

(** [std::copy(src.begin(), src.end(), dst.begin() + pos)]. *)
Definition copyAt {A : Type} (src dst : list A) (pos : nat) : list A :=
  firstn pos dst ++ src ++ skipn (pos + length src) dst.

(** Modelled from the spec: [ArenaMeshUtils::GetChasmWallIndex] is not part
    of the sources at hand; it is the inverse of the slot numbering of
    [RenderChunkManager::init], which gives slot [i] the face bits of [i + 1]. *)
Definition GetChasmWallIndex (K : Constants) (n e s w : bool) : Z :=
  Z.lor (Z.lor (Z.lor (if n then CHASM_WALL_NORTH K else 0)
                      (if e then CHASM_WALL_EAST K else 0))
               (if s then CHASM_WALL_SOUTH K else 0))
        (if w then CHASM_WALL_WEST K else 0) - 1.

(** ** Render-side records *)

Module RenderVoxelMeshDefinition.

Record t : Type := mk {
  vertexBufferID : VertexBufferID;
  normalBufferID : AttributeBufferID;
  texCoordBufferID : AttributeBufferID;
  opaqueIndexBufferIDs : list IndexBufferID;
  opaqueIndexBufferIdCount : Z;
  alphaTestedIndexBufferID : IndexBufferID
}.

(** Modelled from the spec: a default-constructed definition owns no buffer. *)
Definition default : t := mk (-1) (-1) (-1) [-1; -1; -1] 0 (-1).

Definition freeIfValid (id : Z) (r : Renderer) : Renderer :=
  if id >=? 0 then freeBuffer id r else r.

(** Modelled from the spec: [freeBuffers] releases every buffer the
    definition created so far and resets its handles. *)
Definition freeBuffers (d : t) (r : Renderer) : t * Renderer :=
  let r1 := freeIfValid (vertexBufferID d) r in
  let r2 := freeIfValid (normalBufferID d) r1 in
  let r3 := freeIfValid (texCoordBufferID d) r2 in
  let r4 := fold_left (fun acc id => freeBuffer id acc)
              (firstn (Z.to_nat (opaqueIndexBufferIdCount d)) (opaqueIndexBufferIDs d)) r3 in
  let r5 := freeIfValid (alphaTestedIndexBufferID d) r4 in
  (default, r5).

(** Every buffer handle the definition holds. *)
Definition ownedBuffers (d : t) : list Z :=
  filter (fun id => id >=? 0)
    ([vertexBufferID d; normalBufferID d; texCoordBufferID d] ++
     opaqueIndexBufferIDs d ++ [alphaTestedIndexBufferID d]).

End RenderVoxelMeshDefinition.

Inductive Matrix4d : Type :=
| Matrix4d_identity
| Matrix4d_yRotation (radians : double)
| Matrix4d_scale (x y z : double).

Inductive TextureSamplingType : Type := Sampling_Default | ScreenSpaceRepeatY.

Inductive VertexShaderType : Type :=
| VS_Voxel | VS_SwingingDoor | VS_SlidingDoor | VS_RaisingDoor.

Inductive PixelShaderType : Type :=
| PS_Opaque
| PS_OpaqueWithAlphaTestLayer
| PS_AlphaTested
| PS_AlphaTestedWithVariableTexCoordUMin
| PS_AlphaTestedWithVariableTexCoordVMin
| PS_OpaqueWithFade.

Module RenderDrawCall.

Record t : Type := mk {
  position : Double3;
  preScaleTranslation : Double3;
  rotation : Matrix4d;
  scale : Matrix4d;
  vertexBufferID : VertexBufferID;
  normalBufferID : AttributeBufferID;
  texCoordBufferID : AttributeBufferID;
  indexBufferID : IndexBufferID;
  textureID0 : ObjectTextureID;
  textureID1 : option ObjectTextureID;
  textureSamplingType : TextureSamplingType;
  vertexShaderType : VertexShaderType;
  pixelShaderType : PixelShaderType;
  pixelShaderParam0 : double
}.

End RenderDrawCall.

(** The four draw call vectors of a render chunk, as the target of
    [addVoxelDrawCall]'s [drawCalls] reference. *)
Inductive DrawCallList : Type :=
| StaticDrawCalls | DoorDrawCalls | ChasmDrawCalls | FadingDrawCalls.

Module RenderChunk.

Record t : Type := mk {
  position : ChunkInt2;
  height : nat;
  meshDefs : list RenderVoxelMeshDefinition.t;
  meshDefMappings : list (Z * Z);
  meshDefIDsWidth : nat;
  meshDefIDsHeight : nat;
  meshDefIDsDepth : nat;
  meshDefIDs : VoxelInt3 -> Z;
  chasmWallIndexBufferIDs : list (VoxelInt3 * IndexBufferID);
  staticDrawCalls : list RenderDrawCall.t;
  doorDrawCalls : list RenderDrawCall.t;
  chasmDrawCalls : list RenderDrawCall.t;
  fadingDrawCalls : list RenderDrawCall.t
}.

(** Modelled from the spec: [RenderChunk::init] creates an empty render chunk
    at the chunk's position; its mesh id grid spans the chunk. *)
Definition init (K : Constants) (position : ChunkInt2) (height : nat) : t :=
  mk position height [] [] (Chunk_WIDTH K) height (Chunk_DEPTH K) (fun _ => -1)
     [] [] [] [] [].

(** Modelled from the spec: [addMeshDefinition] appends the definition and
    returns its id. *)
Definition addMeshDefinition (d : RenderVoxelMeshDefinition.t) (rc : t) : Z * t :=
  (Z.of_nat (length (meshDefs rc)),
   mk (position rc) (height rc) (meshDefs rc ++ [d]) (meshDefMappings rc)
      (meshDefIDsWidth rc) (meshDefIDsHeight rc) (meshDefIDsDepth rc) (meshDefIDs rc)
      (chasmWallIndexBufferIDs rc)
      (staticDrawCalls rc) (doorDrawCalls rc) (chasmDrawCalls rc) (fadingDrawCalls rc)).

(** [meshDefMappings.emplace(key, value)]: an existing key keeps its value. *)
Definition emplaceMeshDefMapping (key value : Z) (rc : t) : t :=
  mk (position rc) (height rc) (meshDefs rc)
     (if existsb (fun kv => fst kv =? key) (meshDefMappings rc)
      then meshDefMappings rc else meshDefMappings rc ++ [(key, value)])
     (meshDefIDsWidth rc) (meshDefIDsHeight rc) (meshDefIDsDepth rc) (meshDefIDs rc)
     (chasmWallIndexBufferIDs rc)
     (staticDrawCalls rc) (doorDrawCalls rc) (chasmDrawCalls rc) (fadingDrawCalls rc).

(** [chasmWallIndexBufferIDs.emplace(voxel, id)]. *)
Definition emplaceChasmWall (voxel : VoxelInt3) (id : IndexBufferID) (rc : t) : t :=
  mk (position rc) (height rc) (meshDefs rc) (meshDefMappings rc)
     (meshDefIDsWidth rc) (meshDefIDsHeight rc) (meshDefIDsDepth rc) (meshDefIDs rc)
     (if existsb (fun kv => VoxelInt3_eqb (fst kv) voxel) (chasmWallIndexBufferIDs rc)
      then chasmWallIndexBufferIDs rc else chasmWallIndexBufferIDs rc ++ [(voxel, id)])
     (staticDrawCalls rc) (doorDrawCalls rc) (chasmDrawCalls rc) (fadingDrawCalls rc).

(** [meshDefIDs.set(x, y, z, id)]. *)
Definition setMeshDefID (voxel : VoxelInt3) (id : Z) (rc : t) : t :=
  mk (position rc) (height rc) (meshDefs rc) (meshDefMappings rc)
     (meshDefIDsWidth rc) (meshDefIDsHeight rc) (meshDefIDsDepth rc)
     (fun v => if VoxelInt3_eqb v voxel then id else meshDefIDs rc v)
     (chasmWallIndexBufferIDs rc)
     (staticDrawCalls rc) (doorDrawCalls rc) (chasmDrawCalls rc) (fadingDrawCalls rc).

(** The four draw call vectors, replaced at once. *)
Definition withDrawCalls (s d c f : list RenderDrawCall.t) (rc : t) : t :=
  mk (position rc) (height rc) (meshDefs rc) (meshDefMappings rc)
     (meshDefIDsWidth rc) (meshDefIDsHeight rc) (meshDefIDsDepth rc) (meshDefIDs rc)
     (chasmWallIndexBufferIDs rc) s d c f.

(** [drawCalls.emplace_back(drawCall)] on the vector [target] names. *)
Definition emplace_back (target : DrawCallList) (drawCall : RenderDrawCall.t) (rc : t) : t :=
  match target with
  | StaticDrawCalls =>
      withDrawCalls (staticDrawCalls rc ++ [drawCall]) (doorDrawCalls rc)
        (chasmDrawCalls rc) (fadingDrawCalls rc) rc
  | DoorDrawCalls =>
      withDrawCalls (staticDrawCalls rc) (doorDrawCalls rc ++ [drawCall])
        (chasmDrawCalls rc) (fadingDrawCalls rc) rc
  | ChasmDrawCalls =>
      withDrawCalls (staticDrawCalls rc) (doorDrawCalls rc)
        (chasmDrawCalls rc ++ [drawCall]) (fadingDrawCalls rc) rc
  | FadingDrawCalls =>
      withDrawCalls (staticDrawCalls rc) (doorDrawCalls rc)
        (chasmDrawCalls rc) (fadingDrawCalls rc ++ [drawCall]) rc
  end.

(** Modelled from the spec: [RenderChunk::freeBuffers] releases every GPU
    buffer handle the chunk created. *)
Definition freeBuffers (rc : t) (r : Renderer) : t * Renderer :=
  let r' := fold_left (fun acc d => snd (RenderVoxelMeshDefinition.freeBuffers d acc))
              (meshDefs rc) r in
  (mk (position rc) (height rc) [] [] (meshDefIDsWidth rc) (meshDefIDsHeight rc)
      (meshDefIDsDepth rc) (meshDefIDs rc) [] [] [] [] [], r').

End RenderChunk.

(** The voxels of a [width] x [height] x [depth] grid in the order of the
    loops [for z, for y, for x]. *)
Definition voxelsOf (width height depth : nat) : list VoxelInt3 :=
  flat_map (fun z =>
    flat_map (fun y => map (fun x => (x, y, z)) (seq 0 width)) (seq 0 height))
    (seq 0 depth).

Definition Double3_Zero : Double3 := (Finite 0, Finite 0, Finite 0).

(** [Double3::operator+]. *)
Definition Double3_add (a b : Double3) : Double3 :=
  let '(ax, ay, az) := a in
  let '(bx, by_, bz) := b in
  (fadd ax bx, fadd ay by_, fadd az bz).

Definition ChasmType_eqb (a b : ChasmType) : bool :=
  match a, b with
  | Dry, Dry | Wet, Wet | Lava, Lava => true
  | _, _ => false
  end.

Definition isSome {A : Type} (o : option A) : bool :=
  match o with Some _ => true | None => false end.

(** A loop whose body may end in a fatal fault. *)
Fixpoint foldResult {A X : Type} (f : A -> X -> Result A) (l : list X) (a : A) : Result A :=
  match l with
  | [] => Ok a
  | x :: rest =>
      match f a x with
      | Ok a' => foldResult f rest a'
      | Fatal e => Fatal e
      end
  end.

(** ** RenderChunkManager *)

Module RenderChunkManager.

Record t : Type := mk {
  voxelTextures : list LoadedVoxelTexture;
  chasmFloorTextureLists : list LoadedChasmFloorTextureList;
  chasmTextureKeys : list LoadedChasmTextureKey.t;
  chasmWallIndexBufferIDs : list IndexBufferID;
  renderChunks : list RenderChunk.t;
  drawCallsCache : list RenderDrawCall.t
}.

(** A manager before [init]: empty vectors and a table of the fixed size. *)
Definition create (K : Constants) : t :=
  mk [] [] [] (repeat (-1) (CHASM_WALL_COMBINATION_COUNT K)) [] [].

Definition withRenderChunks (chunks : list RenderChunk.t) (this : t) : t :=
  mk (voxelTextures this) (chasmFloorTextureLists this) (chasmTextureKeys this)
     (chasmWallIndexBufferIDs this) chunks (drawCallsCache this).

Definition countFace (face : bool) : Z := if face then 1 else 0.

(** [std::to_string] of an [int]. *)
Definition to_string (n : Z) : string := NilZero.string_of_int (Z.to_int n).

(** The lambda [tryWriteIndices] of [init], on the buffer being filled and
    the writing index. *)
Definition tryWriteIndices (hasFace : bool) (indicesOfFace : ChasmWallIndexBuffer)
  (acc : list Z * nat) : list Z * nat :=
  let (totalIndicesBuffer, writingIndex) := acc in
  if hasFace
  then (copyAt (faceIndices indicesOfFace) totalIndicesBuffer writingIndex,
        (writingIndex + Z.to_nat indicesPerFace)%nat)
  else acc.

(** One iteration of the loop of [init], for table slot [i]. *)
Definition initSlot (K : Constants) (st : list IndexBufferID * World) (i : nat)
  : list IndexBufferID * World :=
  let (ids, w) := st in
  let baseIndex := Z.of_nat i + 1 in
  let hasNorth := negb (Z.land baseIndex (CHASM_WALL_NORTH K) =? 0) in
  let hasEast := negb (Z.land baseIndex (CHASM_WALL_EAST K) =? 0) in
  let hasSouth := negb (Z.land baseIndex (CHASM_WALL_SOUTH K) =? 0) in
  let hasWest := negb (Z.land baseIndex (CHASM_WALL_WEST K) =? 0) in
  let faceCount := countFace hasNorth + countFace hasEast + countFace hasSouth
                   + countFace hasWest in
  if faceCount =? 0 then st
  else
    let indexCount := faceCount * indicesPerFace in
    match tryCreateIndexBuffer indexCount (renderer w) with
    | (None, r) =>
        (ids,
         DebugLogError
           (String.append "Couldn't create chasm wall index buffer "
              (String.append (to_string (Z.of_nat i)) "."))
           (withRenderer r w))
    | (Some indexBufferID, r) =>
        let totalIndicesBuffer := repeat 0 (Z.to_nat (indicesPerFace * 4)) in
        let '(total, writingIndex) :=
          tryWriteIndices hasWest (westIndices K)
            (tryWriteIndices hasSouth (southIndices K)
               (tryWriteIndices hasEast (eastIndices K)
                  (tryWriteIndices hasNorth (northIndices K) (totalIndicesBuffer, O)))) in
        (setAt ids i indexBufferID,
         withRenderer (populateIndexBuffer indexBufferID (firstn writingIndex total) r) w)
    end.

(** [RenderChunkManager::init]: populates the chasm wall index buffers. *)
Definition init (K : Constants) (this : t) (w : World) : t * World :=
  let filled := repeat (-1) (length (chasmWallIndexBufferIDs this)) in
  let (ids, w') := fold_left (initSlot K) (seq 0 (length filled)) (filled, w) in
  (mk (voxelTextures this) (chasmFloorTextureLists this) (chasmTextureKeys this)
      ids (renderChunks this) (drawCallsCache this), w').

(** [RenderChunkManager::getVoxelTextureID]. *)
Definition getVoxelTextureID (this : t) (asset : TextureAsset) : Result ObjectTextureID :=
  match find (fun loadedTexture => TextureAsset_eqb (textureAsset loadedTexture) asset)
          (voxelTextures this) with
  | Some loadedTexture => Ok (objectTextureRef loadedTexture)
  | None => Fatal AssertionFailed
  end.

Definition findChasmTextureKey (this : t) (chunkPos : ChunkInt2) (chasmDefID : ChasmDefID)
  : option LoadedChasmTextureKey.t :=
  find (fun key => ChunkInt2_eqb (LoadedChasmTextureKey.chunkPos key) chunkPos &&
                   (LoadedChasmTextureKey.chasmDefID key =? chasmDefID))
    (chasmTextureKeys this).

(** [RenderChunkManager::getChasmFloorTextureID]. *)
Definition getChasmFloorTextureID (this : t) (chunkPos : ChunkInt2) (chasmDefID : ChasmDefID)
  (chasmAnimPercent : double) : Result ObjectTextureID :=
  match findChasmTextureKey this chunkPos chasmDefID with
  | None => Fatal AssertionFailed
  | Some key =>
      let floorListIndex := LoadedChasmTextureKey.chasmFloorListIndex key in
      match at_ (chasmFloorTextureLists this) floorListIndex with
      | None => Fatal AssertionFailed
      | Some textureList =>
          match getTextureIndex textureList chasmAnimPercent with
          | Fatal f => Fatal f
          | Ok index =>
              match at_ (objectTextureRefs textureList) index with
              | None => Fatal AssertionFailed
              | Some objectTextureRef => Ok objectTextureRef
              end
          end
      end
  end.

(** [RenderChunkManager::getChasmWallTextureID]; the wall index is not
    checked before it is used. *)
Definition getChasmWallTextureID (this : t) (chunkPos : ChunkInt2) (chasmDefID : ChasmDefID)
  : Result ObjectTextureID :=
  match findChasmTextureKey this chunkPos chasmDefID with
  | None => Fatal AssertionFailed
  | Some key =>
      match at_ (voxelTextures this) (LoadedChasmTextureKey.chasmWallIndex key) with
      | None => Fatal UndefinedBehavior
      | Some voxelTexture => Ok (objectTextureRef voxelTexture)
      end
  end.

(** [RenderChunkManager::tryGetRenderChunkIndex]. *)
Definition tryGetRenderChunkIndex (this : t) (chunkPos : ChunkInt2) : option Z :=
  findIndex (fun renderChunk => ChunkInt2_eqb (RenderChunk.position renderChunk) chunkPos)
    (renderChunks this).

(** [RenderChunkManager::getVoxelDrawCalls]. *)
Definition getVoxelDrawCalls (this : t) : list RenderDrawCall.t := drawCallsCache this.

(** [RenderChunkManager::loadVoxelTextures]. *)
Definition loadVoxelTextures (this : t) (chunk : VoxelChunk)
  (textureManager : TextureManager) (w : World) : Result (t * World) :=
  let (textures, w1) :=
    fold_left (fun st voxelTextureDef =>
                 LoadVoxelDefTextures voxelTextureDef (fst st) textureManager (snd st))
      (chunkTextureDefs chunk) (voxelTextures this, w) in
  match foldResult (fun st chasmDefID =>
                      let '(lists, keys, w') := st in
                      LoadChasmDefTextures chasmDefID chunk textures lists keys
                        textureManager w')
          (indices (length (chunkChasmDefs chunk)))
          (chasmFloorTextureLists this, chasmTextureKeys this, w1) with
  | Ok (lists, keys, w2) =>
      Ok (mk textures lists keys (chasmWallIndexBufferIDs this) (renderChunks this)
            (drawCallsCache this), w2)
  | Fatal f => Fatal f
  end.

(** One iteration of the opaque index buffer loop of [loadVoxelMeshBuffers]. *)
Definition createOpaqueIndexBuffer (voxelMeshDef : VoxelMeshDefinition)
  (st : RenderVoxelMeshDefinition.t * World) (bufferIndex : nat)
  : RenderVoxelMeshDefinition.t * World :=
  let (renderVoxelMeshDef, w) := st in
  let opaqueIndicesList := nth bufferIndex (opaqueIndices voxelMeshDef) [] in
  let opaqueIndexCount := Z.of_nat (length opaqueIndicesList) in
  match tryCreateIndexBuffer opaqueIndexCount (renderer w) with
  | (None, r) =>
      let w1 := DebugLogError "Couldn't create opaque index buffer for voxel mesh."
                  (withRenderer r w) in
      let (freed, r1) := RenderVoxelMeshDefinition.freeBuffers renderVoxelMeshDef
                           (renderer w1) in
      (* continue: the loop over the opaque index buffers goes on *)
      (freed, withRenderer r1 w1)
  | (Some opaqueIndexBufferID, r) =>
      (RenderVoxelMeshDefinition.mk
         (RenderVoxelMeshDefinition.vertexBufferID renderVoxelMeshDef)
         (RenderVoxelMeshDefinition.normalBufferID renderVoxelMeshDef)
         (RenderVoxelMeshDefinition.texCoordBufferID renderVoxelMeshDef)
         (setAt (RenderVoxelMeshDefinition.opaqueIndexBufferIDs renderVoxelMeshDef)
            bufferIndex opaqueIndexBufferID)
         (RenderVoxelMeshDefinition.opaqueIndexBufferIdCount renderVoxelMeshDef + 1)
         (RenderVoxelMeshDefinition.alphaTestedIndexBufferID renderVoxelMeshDef),
       withRenderer (populateIndexBuffer opaqueIndexBufferID opaqueIndicesList r) w)
  end.

(** The end of an iteration of [loadVoxelMeshBuffers]: the render mesh
    definition is added to the chunk and mapped from the voxel mesh id. *)
Definition registerMeshDefinition (voxelMeshDefID : Z)
  (renderVoxelMeshDef : RenderVoxelMeshDefinition.t) (renderChunk : RenderChunk.t)
  : RenderChunk.t :=
  let (renderMeshDefID, rc1) := RenderChunk.addMeshDefinition renderVoxelMeshDef renderChunk in
  RenderChunk.emplaceMeshDefMapping voxelMeshDefID renderMeshDefID rc1.

(** One iteration of the loop of [loadVoxelMeshBuffers], for one mesh
    definition of the chunk. The geometry written into the vertex and
    attribute buffers is not tracked. *)
Definition loadVoxelMeshBuffer (K : Constants) (chunk : VoxelChunk)
  (st : RenderChunk.t * World) (meshDefIndex : nat) : RenderChunk.t * World :=
  let (renderChunk, w) := st in
  let voxelMeshDefID := Z.of_nat meshDefIndex in
  let voxelMeshDef := getMeshDef chunk voxelMeshDefID in
  let d0 := RenderVoxelMeshDefinition.default in
  if meshIsEmpty voxelMeshDef
  then (registerMeshDefinition voxelMeshDefID d0 renderChunk, w)
  else
    let vertexCount := rendererVertexCount voxelMeshDef in
    match tryCreateVertexBuffer vertexCount (POSITION_COMPONENTS_PER_VERTEX K) (renderer w) with
    | (None, r) =>
        (renderChunk,
         DebugLogError "Couldn't create vertex buffer for voxel mesh." (withRenderer r w))
    | (Some vertexBufferID, r) =>
        let d1 := RenderVoxelMeshDefinition.mk vertexBufferID (-1) (-1)
                    (RenderVoxelMeshDefinition.opaqueIndexBufferIDs d0) 0 (-1) in
        match tryCreateAttributeBuffer vertexCount (NORMAL_COMPONENTS_PER_VERTEX K) r with
        | (None, r1) =>
            let w1 := DebugLogError "Couldn't create normal attribute buffer for voxel mesh."
                        (withRenderer r1 w) in
            (renderChunk,
             withRenderer (snd (RenderVoxelMeshDefinition.freeBuffers d1 (renderer w1))) w1)
        | (Some normalBufferID, r1) =>
            let d2 := RenderVoxelMeshDefinition.mk vertexBufferID normalBufferID (-1)
                        (RenderVoxelMeshDefinition.opaqueIndexBufferIDs d0) 0 (-1) in
            match tryCreateAttributeBuffer vertexCount (TEX_COORDS_PER_VERTEX K) r1 with
            | (None, r2) =>
                let w1 := DebugLogError
                            "Couldn't create tex coord attribute buffer for voxel mesh."
                            (withRenderer r2 w) in
                (renderChunk,
                 withRenderer (snd (RenderVoxelMeshDefinition.freeBuffers d2 (renderer w1))) w1)
            | (Some texCoordBufferID, r2) =>
                let d3 := RenderVoxelMeshDefinition.mk vertexBufferID normalBufferID
                            texCoordBufferID
                            (RenderVoxelMeshDefinition.opaqueIndexBufferIDs d0) 0 (-1) in
                let opaqueIndexBufferCount := length (opaqueIndices voxelMeshDef) in
                let (d4, w4) :=
                  fold_left (createOpaqueIndexBuffer voxelMeshDef)
                    (seq 0 opaqueIndexBufferCount) (d3, withRenderer r2 w) in
                let hasAlphaTestedIndexBuffer := alphaTestedIndicesListCount voxelMeshDef >? 0 in
                if hasAlphaTestedIndexBuffer then
                  let alphaTestedIndexCount := Z.of_nat (length (alphaTestedIndices voxelMeshDef)) in
                  match tryCreateIndexBuffer alphaTestedIndexCount (renderer w4) with
                  | (None, r5) =>
                      let w5 := DebugLogError
                                  "Couldn't create alpha-tested index buffer for voxel mesh."
                                  (withRenderer r5 w4) in
                      (renderChunk,
                       withRenderer
                         (snd (RenderVoxelMeshDefinition.freeBuffers d4 (renderer w5))) w5)
                  | (Some alphaTestedIndexBufferID, r5) =>
                      let d5 := RenderVoxelMeshDefinition.mk
                                  (RenderVoxelMeshDefinition.vertexBufferID d4)
                                  (RenderVoxelMeshDefinition.normalBufferID d4)
                                  (RenderVoxelMeshDefinition.texCoordBufferID d4)
                                  (RenderVoxelMeshDefinition.opaqueIndexBufferIDs d4)
                                  (RenderVoxelMeshDefinition.opaqueIndexBufferIdCount d4)
                                  alphaTestedIndexBufferID in
                      (registerMeshDefinition voxelMeshDefID d5 renderChunk,
                       withRenderer
                         (populateIndexBuffer alphaTestedIndexBufferID
                            (alphaTestedIndices voxelMeshDef) r5) w4)
                  end
                else (registerMeshDefinition voxelMeshDefID d4 renderChunk, w4)
            end
        end
    end.

(** [RenderChunkManager::loadVoxelMeshBuffers]. *)
Definition loadVoxelMeshBuffers (K : Constants) (renderChunk : RenderChunk.t)
  (chunk : VoxelChunk) (ceilingScale : double) (w : World) : RenderChunk.t * World :=
  fold_left (loadVoxelMeshBuffer K chunk) (seq 0 (length (chunkMeshDefs chunk)))
    (renderChunk, w).

Definition getFaceCount (inst : VoxelChasmWallInstance) : Z :=
  countFace (north inst) + countFace (east inst) + countFace (south inst)
  + countFace (west inst).

(** One iteration of the loops of [loadVoxelChasmWalls]. *)
Definition loadVoxelChasmWall (K : Constants) (this : t) (chunk : VoxelChunk)
  (renderChunk : RenderChunk.t) (voxel : VoxelInt3) : Result RenderChunk.t :=
  let '(x, y, z) := voxel in
  match tryGetChasmWallInst chunk x y z with
  | None => Ok renderChunk
  | Some chasmWallInst =>
      if getFaceCount chasmWallInst >? 0 then
        let chasmWallIndexBufferIndex :=
          GetChasmWallIndex K (north chasmWallInst) (east chasmWallInst)
            (south chasmWallInst) (west chasmWallInst) in
        match at_ (chasmWallIndexBufferIDs this) chasmWallIndexBufferIndex with
        | None => Fatal UndefinedBehavior
        | Some indexBufferID => Ok (RenderChunk.emplaceChasmWall voxel indexBufferID renderChunk)
        end
      else Fatal AssertionFailed
  end.

(** [RenderChunkManager::loadVoxelChasmWalls]. *)
Definition loadVoxelChasmWalls (K : Constants) (this : t) (renderChunk : RenderChunk.t)
  (chunk : VoxelChunk) : Result RenderChunk.t :=
  match RenderChunk.chasmWallIndexBufferIDs renderChunk with
  | [] =>
      foldResult (loadVoxelChasmWall K this chunk)
        (voxelsOf (Chunk_WIDTH K) (getHeight chunk) (Chunk_DEPTH K)) renderChunk
  | _ :: _ => Fatal AssertionFailed
  end.

(** *** The draw call assembler

    [loadVoxelDrawCalls] works on the render chunk it was given and writes to
    the debug log: its state is the pair of the two. *)

Definition DrawState : Type := (RenderChunk.t * DebugLog)%type.

Definition logError (msg : string) : M DrawState unit :=
  modify (fun st => (fst st, snd st ++ [LogError msg])).

(** [RenderChunkManager::addVoxelDrawCall]. *)
Definition addVoxelDrawCall (position preScaleTranslation : Double3)
  (rotationMatrix scaleMatrix : Matrix4d) (vertexBufferID : VertexBufferID)
  (normalBufferID texCoordBufferID : AttributeBufferID) (indexBufferID : IndexBufferID)
  (textureID0 : ObjectTextureID) (textureID1 : option ObjectTextureID)
  (textureSamplingType : TextureSamplingType) (vertexShaderType : VertexShaderType)
  (pixelShaderType : PixelShaderType) (pixelShaderParam0 : double)
  (drawCalls : DrawCallList) : M DrawState unit :=
  modify (fun st =>
    (RenderChunk.emplace_back drawCalls
       (RenderDrawCall.mk position preScaleTranslation rotationMatrix scaleMatrix
          vertexBufferID normalBufferID texCoordBufferID indexBufferID
          textureID0 textureID1 textureSamplingType vertexShaderType pixelShaderType
          pixelShaderParam0)
       (fst st),
     snd st)).

(** The lookup of a voxel texture by asset in the draw call assembler: the
    handle, or -1 after logging [msg] when the asset is not loaded. *)
Definition findVoxelTextureID (this : t) (asset : TextureAsset) (msg : string)
  : M DrawState ObjectTextureID :=
  match find (fun loadedTexture => TextureAsset_eqb (textureAsset loadedTexture) asset)
          (voxelTextures this) with
  | Some loadedTexture => ret (objectTextureRef loadedTexture)
  | None => bind (logError msg) (fun _ => ret (-1))
  end.

(** One iteration of the opaque index buffer loop of [loadVoxelDrawCalls]. *)
Definition opaqueDrawCall (this : t) (chunkPos : ChunkInt2) (chasmAnimPercent : double)
  (voxelTextureDef : VoxelTextureDefinition) (voxelType : VoxelType)
  (renderMeshDef : RenderVoxelMeshDefinition.t) (worldPos : Double3)
  (chasmDefID : option ChasmDefID) (fadeAnimInst : option VoxelFadeAnimationInstance)
  (bufferIndex : Z) : M DrawState unit :=
  (let isChasm := isSome chasmDefID in
   let isFading := isSome fadeAnimInst in
   textureID <-
     match chasmDefID with
     | None =>
         textureAssetIndex <- lift (GetVoxelOpaqueTextureAssetIndex voxelType bufferIndex) ;;
         asset <- lift (getTextureAsset voxelTextureDef textureAssetIndex) ;;
         findVoxelTextureID this asset "Couldn't find opaque texture asset."
     | Some id => lift (getChasmFloorTextureID this chunkPos id chasmAnimPercent)
     end ;;
   if textureID <? 0 then ret tt
   else
     match at_ (RenderVoxelMeshDefinition.opaqueIndexBufferIDs renderMeshDef) bufferIndex with
     | None => crash UndefinedBehavior
     | Some opaqueIndexBufferID =>
         let textureSamplingType :=
           if negb isChasm then Sampling_Default else ScreenSpaceRepeatY in
         let pixelShaderType := if isFading then PS_OpaqueWithFade else PS_Opaque in
         let pixelShaderParam0 :=
           match fadeAnimInst with Some inst => percentFaded inst | None => Finite 0 end in
         let drawCalls :=
           if isChasm then ChasmDrawCalls
           else if isFading then FadingDrawCalls
           else StaticDrawCalls in
         addVoxelDrawCall worldPos Double3_Zero Matrix4d_identity Matrix4d_identity
           (RenderVoxelMeshDefinition.vertexBufferID renderMeshDef)
           (RenderVoxelMeshDefinition.normalBufferID renderMeshDef)
           (RenderVoxelMeshDefinition.texCoordBufferID renderMeshDef)
           opaqueIndexBufferID textureID None textureSamplingType VS_Voxel
           pixelShaderType pixelShaderParam0 drawCalls
     end)%m.

(** [visibleDoorFaces] of [loadVoxelDrawCalls]: for each door facing, whether
    the visibility instance lists it. *)
Definition visibleDoorFaces (K : Constants) (doorVisInst : VoxelDoorVisibilityInstance)
  : list bool :=
  map (fun i =>
         existsb (fun face => VoxelFacing2D_eqb face (Facings K i))
           (firstn (visibleFaceCount doorVisInst) (visibleFaces doorVisInst)))
    (indices (FACE_COUNT K)).

(** The draw call of door face [i], by door type: the body of the face loop
    in each case of the switch of [loadVoxelDrawCalls]. *)
Definition doorFaceDrawCall (K : Constants) (ceilingScale doorAnimPercent : double)
  (renderMeshDef : RenderVoxelMeshDefinition.t) (worldPos : Double3)
  (textureID : ObjectTextureID) (type : DoorType) (i : Z) : M DrawState unit :=
  let doorHingeOffset := SwingingHingeOffsets K i in
  let doorHingePosition := Double3_add worldPos doorHingeOffset in
  let doorBaseAngle := BaseAngles K i in
  let emit preScale rotation scaling vertexShader pixelShader param :=
    addVoxelDrawCall doorHingePosition preScale rotation scaling
      (RenderVoxelMeshDefinition.vertexBufferID renderMeshDef)
      (RenderVoxelMeshDefinition.normalBufferID renderMeshDef)
      (RenderVoxelMeshDefinition.texCoordBufferID renderMeshDef)
      (RenderVoxelMeshDefinition.alphaTestedIndexBufferID renderMeshDef)
      textureID None Sampling_Default vertexShader pixelShader param DoorDrawCalls in
  match type with
  | Swinging =>
      let rotationAmount := fmul (fneg (fsub (HalfPi K) (Epsilon K))) doorAnimPercent in
      emit Double3_Zero (Matrix4d_yRotation (fadd doorBaseAngle rotationAmount))
        Matrix4d_identity VS_SwingingDoor PS_AlphaTested (Finite 0)
  | Sliding =>
      let uMin := fmul (fsub (Finite 1) (DOOR_MIN_VISIBLE K)) doorAnimPercent in
      let scaleAmount := fsub (Finite 1) uMin in
      emit Double3_Zero (Matrix4d_yRotation doorBaseAngle)
        (Matrix4d_scale (Finite 1) (Finite 1) scaleAmount) VS_SlidingDoor
        PS_AlphaTestedWithVariableTexCoordUMin uMin
  | Raising =>
      let preScaleTranslationY := fneg ceilingScale in
      let vMin := fmul (fsub (Finite 1) (DOOR_MIN_VISIBLE K)) doorAnimPercent in
      let scaleAmount := fsub (Finite 1) vMin in
      emit (Finite 1, preScaleTranslationY, Finite 1) (Matrix4d_yRotation doorBaseAngle)
        (Matrix4d_scale (Finite 1) scaleAmount (Finite 1)) VS_RaisingDoor
        PS_AlphaTestedWithVariableTexCoordVMin vMin
  | Splitting => crash NotImplemented
  end.

(** The door branch of the alpha-tested block of [loadVoxelDrawCalls]; the
    result tells whether the iteration goes on ([false] after [continue]). *)
Definition doorDrawCalls (K : Constants) (chunk : VoxelChunk) (ceilingScale : double)
  (x y z : nat) (renderMeshDef : RenderVoxelMeshDefinition.t) (worldPos : Double3)
  (textureID : ObjectTextureID) (doorDefID : Z) : M DrawState bool :=
  (let doorAnimPercent :=
     match tryGetDoorAnimInst chunk x y z with
     | Some doorAnimInst => percentOpen doorAnimInst
     | None => Finite 0
     end in
   match tryGetDoorVisibilityInst chunk x y z with
   | None => logError "Expected door visibility instance." ;;; ret false
   | Some doorVisInst =>
       let visible := visibleDoorFaces K doorVisInst in
       DebugAssert (Z.of_nat (length (filter (fun b => b) visible)) <=? MAX_FACE_COUNT K) ;;;
       let doorDef := getDoorDef chunk doorDefID in
       match doorType doorDef with
       | Splitting => crash NotImplemented
       | type =>
           forEach (indices (FACE_COUNT K))
             (fun i =>
                if negb (nth (Z.to_nat i) visible false) then ret tt
                else doorFaceDrawCall K ceilingScale doorAnimPercent renderMeshDef
                       worldPos textureID type i) ;;;
           ret true
       end
   end)%m.

(** The alpha-tested block of [loadVoxelDrawCalls], entered when the mesh has
    an alpha-tested index buffer and the update flags select it; the result
    tells whether the iteration goes on ([false] after [continue]). *)
Definition alphaTestedDrawCalls (K : Constants) (this : t) (chunk : VoxelChunk)
  (ceilingScale : double) (x y z : nat) (voxelTextureDef : VoxelTextureDefinition)
  (voxelType : VoxelType) (renderMeshDef : RenderVoxelMeshDefinition.t)
  (worldPos : Double3) (doorDefID : option Z) (isChasm : bool) : M DrawState bool :=
  (DebugAssert (negb isChasm) ;;;
   textureAssetIndex <- lift (GetVoxelAlphaTestedTextureAssetIndex voxelType) ;;
   asset <- lift (getTextureAsset voxelTextureDef textureAssetIndex) ;;
   textureID <- findVoxelTextureID this asset "Couldn't find alpha-tested texture asset." ;;
   if textureID <? 0 then ret false
   else
     match doorDefID with
     | Some id => doorDrawCalls K chunk ceilingScale x y z renderMeshDef worldPos textureID id
     | None =>
         addVoxelDrawCall worldPos Double3_Zero Matrix4d_identity Matrix4d_identity
           (RenderVoxelMeshDefinition.vertexBufferID renderMeshDef)
           (RenderVoxelMeshDefinition.normalBufferID renderMeshDef)
           (RenderVoxelMeshDefinition.texCoordBufferID renderMeshDef)
           (RenderVoxelMeshDefinition.alphaTestedIndexBufferID renderMeshDef)
           textureID None Sampling_Default VS_Voxel PS_AlphaTested (Finite 0) StaticDrawCalls ;;;
         ret true
     end)%m.

(** The chasm wall block of [loadVoxelDrawCalls], entered for a chasm voxel. *)
Definition chasmWallDrawCall (this : t) (chunkPos : ChunkInt2) (chasmAnimPercent : double)
  (updateStatics updateAnimating : bool) (voxel : VoxelInt3)
  (voxelTraitsDef : VoxelTraitsDefinition) (renderMeshDef : RenderVoxelMeshDefinition.t)
  (worldPos : Double3) (chasmDefID : ChasmDefID) : M DrawState unit :=
  (walls <- gets (fun st => RenderChunk.chasmWallIndexBufferIDs (fst st)) ;;
   match find (fun kv => VoxelInt3_eqb (fst kv) voxel) walls with
   | None => ret tt
   | Some (_, chasmWallIndexBufferID) =>
       DebugAssert (VoxelType_eqb (traitsType voxelTraitsDef) VT_Chasm) ;;;
       match traitsUnion voxelTraitsDef with
       | TraitsChasm chasmType =>
           let isAnimatingChasm := negb (ChasmType_eqb chasmType Dry) in
           if (negb isAnimatingChasm && updateStatics) || (isAnimatingChasm && updateAnimating)
           then
             textureID0 <- lift (getChasmFloorTextureID this chunkPos chasmDefID
                                   chasmAnimPercent) ;;
             textureID1 <- lift (getChasmWallTextureID this chunkPos chasmDefID) ;;
             addVoxelDrawCall worldPos Double3_Zero Matrix4d_identity Matrix4d_identity
               (RenderVoxelMeshDefinition.vertexBufferID renderMeshDef)
               (RenderVoxelMeshDefinition.normalBufferID renderMeshDef)
               (RenderVoxelMeshDefinition.texCoordBufferID renderMeshDef)
               chasmWallIndexBufferID textureID0 (Some textureID1) ScreenSpaceRepeatY
               VS_Voxel PS_OpaqueWithAlphaTestLayer (Finite 0) ChasmDrawCalls
           else ret tt
       | _ => crash UndefinedBehavior
       end
   end)%m.

(** Modelled from the spec: [VoxelUtils::chunkVoxelToNewVoxel] places the
    voxel of a chunk in the grid of all chunks. *)
Definition chunkVoxelToNewVoxel (K : Constants) (chunkPos : ChunkInt2) (x z : nat) : Z * Z :=
  (fst chunkPos * Z.of_nat (Chunk_WIDTH K) + Z.of_nat x,
   snd chunkPos * Z.of_nat (Chunk_DEPTH K) + Z.of_nat z).

(** The three blocks of the loop body of [loadVoxelDrawCalls] that emit draw
    calls for one voxel, once its definitions have been looked up. *)
Definition voxelDrawCalls (K : Constants) (this : t) (chunk : VoxelChunk)
  (ceilingScale chasmAnimPercent : double) (updateStatics updateAnimating : bool)
  (chunkPos : ChunkInt2) (voxel : VoxelInt3) (renderMeshDef : RenderVoxelMeshDefinition.t)
  : M DrawState unit :=
  (let '(x, y, z) := voxel in
   let voxelTextureDef := getTextureDef chunk (getTextureDefID chunk x y z) in
   let voxelTraitsDef := getTraitsDef chunk (getTraitsDefID chunk x y z) in
   let worldXZ := chunkVoxelToNewVoxel K chunkPos x z in
   let worldPos : Double3 :=
     (int_to_double (fst worldXZ), fmul (int_to_double (Z.of_nat y)) ceilingScale,
      int_to_double (snd worldXZ)) in
   let voxelType := traitsType voxelTraitsDef in
   let doorDefID := tryGetDoorDefID chunk x y z in
   let isDoor := isSome doorDefID in
   let chasmDefID := tryGetChasmDefID chunk x y z in
   let isChasm := isSome chasmDefID in
   let fadeAnimInst := tryGetFadeAnimInst chunk x y z in
   let isFading := isSome fadeAnimInst in
   let canAnimate := isDoor || isChasm || isFading in
   (if (negb canAnimate && updateStatics) || (canAnimate && updateAnimating)
    then forEach
           (indices (Z.to_nat (RenderVoxelMeshDefinition.opaqueIndexBufferIdCount renderMeshDef)))
           (opaqueDrawCall this chunkPos chasmAnimPercent voxelTextureDef voxelType
              renderMeshDef worldPos chasmDefID fadeAnimInst)
    else ret tt) ;;;
   goesOn <-
     (if RenderVoxelMeshDefinition.alphaTestedIndexBufferID renderMeshDef >=? 0
      then if updateStatics || (updateAnimating && isDoor)
           then alphaTestedDrawCalls K this chunk ceilingScale x y z voxelTextureDef
                  voxelType renderMeshDef worldPos doorDefID isChasm
           else ret true
      else ret true) ;;
   if goesOn then
     match chasmDefID with
     | Some id =>
         chasmWallDrawCall this chunkPos chasmAnimPercent updateStatics updateAnimating
           voxel voxelTraitsDef renderMeshDef worldPos id
     | None => ret tt
     end
   else ret tt)%m.

(** The loop body of [loadVoxelDrawCalls], for one voxel. *)
Definition loadVoxelDrawCallsAt (K : Constants) (this : t) (chunk : VoxelChunk)
  (ceilingScale chasmAnimPercent : double) (updateStatics updateAnimating : bool)
  (chunkPos : ChunkInt2) (voxel : VoxelInt3) : M DrawState unit :=
  (let '(x, y, z) := voxel in
   let voxelMeshDefID := getMeshDefID chunk x y z in
   let voxelMeshDef := getMeshDef chunk voxelMeshDefID in
   if meshIsEmpty voxelMeshDef then ret tt
   else
     mappings <- gets (fun st => RenderChunk.meshDefMappings (fst st)) ;;
     match find (fun kv => fst kv =? voxelMeshDefID) mappings with
     | None => crash AssertionFailed
     | Some (_, renderMeshDefID) =>
         modify (fun st => (RenderChunk.setMeshDefID voxel renderMeshDefID (fst st), snd st)) ;;;
         renderMeshDefs <- gets (fun st => RenderChunk.meshDefs (fst st)) ;;
         match at_ renderMeshDefs renderMeshDefID with
         | None => crash UndefinedBehavior
         | Some renderMeshDef =>
             voxelDrawCalls K this chunk ceilingScale chasmAnimPercent updateStatics
               updateAnimating chunkPos voxel renderMeshDef
         end
     end)%m.

(** [RenderChunkManager::loadVoxelDrawCalls]. *)
Definition loadVoxelDrawCalls (K : Constants) (this : t) (chunk : VoxelChunk)
  (ceilingScale chasmAnimPercent : double) (updateStatics updateAnimating : bool)
  : M DrawState unit :=
  (chunkPos <- gets (fun st => RenderChunk.position (fst st)) ;;
   voxels <- gets (fun st => voxelsOf (RenderChunk.meshDefIDsWidth (fst st))
                               (RenderChunk.meshDefIDsHeight (fst st))
                               (RenderChunk.meshDefIDsDepth (fst st))) ;;
   forEach voxels
     (loadVoxelDrawCallsAt K this chunk ceilingScale chasmAnimPercent updateStatics
        updateAnimating chunkPos))%m.

(** *** Chunk lifecycle *)

(** [RenderChunkManager::loadVoxelChunk]. *)
Definition loadVoxelChunk (K : Constants) (this : t) (chunk : VoxelChunk)
  (ceilingScale : double) (textureManager : TextureManager) (w : World)
  : Result (t * World) :=
  let chunkPos := getPosition chunk in
  let renderChunk := RenderChunk.init K chunkPos (getHeight chunk) in
  match loadVoxelTextures this chunk textureManager w with
  | Fatal f => Fatal f
  | Ok (this1, w1) =>
      let (renderChunk1, w2) := loadVoxelMeshBuffers K renderChunk chunk ceilingScale w1 in
      match loadVoxelChasmWalls K this1 renderChunk1 chunk with
      | Fatal f => Fatal f
      | Ok renderChunk2 =>
          Ok (withRenderChunks (renderChunks this1 ++ [renderChunk2]) this1, w2)
      end
  end.

(** The clearing of the requested vectors in [rebuildVoxelChunkDrawCalls]. *)
Definition clearDrawCalls (updateStatics updateAnimating : bool) (rc : RenderChunk.t)
  : RenderChunk.t :=
  RenderChunk.withDrawCalls
    (if updateStatics then [] else RenderChunk.staticDrawCalls rc)
    (if updateAnimating then [] else RenderChunk.doorDrawCalls rc)
    (if updateAnimating then [] else RenderChunk.chasmDrawCalls rc)
    (if updateAnimating then [] else RenderChunk.fadingDrawCalls rc)
    rc.

(** [RenderChunkManager::rebuildVoxelChunkDrawCalls]. *)
Definition rebuildVoxelChunkDrawCalls (K : Constants) (this : t) (voxelChunk : VoxelChunk)
  (ceilingScale chasmAnimPercent : double) (updateStatics updateAnimating : bool)
  (log : DebugLog) : Result (t * DebugLog) :=
  let chunkPos := getPosition voxelChunk in
  match tryGetRenderChunkIndex this chunkPos with
  | None => Ok (this, log ++ [LogError "No render chunk available."])
  | Some renderChunkIndex =>
      match at_ (renderChunks this) renderChunkIndex with
      | None => Fatal UndefinedBehavior
      | Some renderChunk =>
          match loadVoxelDrawCalls K this voxelChunk ceilingScale chasmAnimPercent
                  updateStatics updateAnimating
                  (clearDrawCalls updateStatics updateAnimating renderChunk, log) with
          | Fatal f => Fatal f
          | Ok (_, (renderChunk', log')) =>
              Ok (withRenderChunks
                    (setAt (renderChunks this) (Z.to_nat renderChunkIndex) renderChunk') this,
                  log')
          end
      end
  end.

(** [vector::erase] at position [i]. *)
Fixpoint eraseAt {A : Type} (l : list A) (i : nat) : list A :=
  match l, i with
  | [], _ => []
  | _ :: rest, O => rest
  | a :: rest, S j => a :: eraseAt rest j
  end.

(** [RenderChunkManager::unloadVoxelChunk]. *)
Definition unloadVoxelChunk (this : t) (chunkPos : ChunkInt2) (w : World) : t * World :=
  match findIndex (fun renderChunk => ChunkInt2_eqb (RenderChunk.position renderChunk) chunkPos)
          (renderChunks this) with
  | Some i =>
      match at_ (renderChunks this) i with
      | Some renderChunk =>
          let (_, r) := RenderChunk.freeBuffers renderChunk (renderer w) in
          (withRenderChunks (eraseAt (renderChunks this) (Z.to_nat i)) this,
           withRenderer r w)
      | None => (this, w)
      end
  | None => (this, w)
  end.

(** [RenderChunkManager::rebuildVoxelDrawCallsList]. *)
Definition rebuildVoxelDrawCallsList (this : t) : t :=
  mk (voxelTextures this) (chasmFloorTextureLists this) (chasmTextureKeys this)
     (chasmWallIndexBufferIDs this) (renderChunks this)
     (flat_map (fun renderChunk =>
                  RenderChunk.staticDrawCalls renderChunk ++
                  RenderChunk.doorDrawCalls renderChunk ++
                  RenderChunk.chasmDrawCalls renderChunk ++
                  RenderChunk.fadingDrawCalls renderChunk)
        (renderChunks this)).

(** [RenderChunkManager::unloadScene]. *)
Definition unloadScene (this : t) (w : World) : t * World :=
  let r0 := fold_left (fun r id => freeObjectTexture id r)
              (map objectTextureRef (voxelTextures this) ++
               flat_map objectTextureRefs (chasmFloorTextureLists this))
              (renderer w) in
  let r1 := fold_left (fun r renderChunk => snd (RenderChunk.freeBuffers renderChunk r))
              (renderChunks this) r0 in
  (mk [] [] [] (chasmWallIndexBufferIDs this) [] [], withRenderer r1 w).

End RenderChunkManager.

(** ** ArenaMeshUtils: the sizes of the voxel meshes

    The [constexpr] tables of [World/ArenaMeshUtils.h]. Their [default]
    cases are taken by values outside the enumeration only; a case of the
    enumeration that ends in [DebugUnhandledReturnMsg] yields [Fatal].
    [MeshUtils::INDICES_PER_TRIANGLE] belongs to a header outside this
    translation unit and is the argument [indicesPerTriangle]. *)

Module ArenaMeshUtils.

Definition MAX_VERTICES : Z := 24.
Definition MAX_INDICES : Z := 36.

(** [GetUniqueVertexCount]: the ideal vertices per voxel (no duplication). *)
Definition GetUniqueVertexCount (voxelType : VoxelType) : Z :=
  match voxelType with
  | VT_None => 0
  | VT_Wall | VT_Raised | VT_TransparentWall | VT_Chasm | VT_Door => 8
  | VT_Floor | VT_Ceiling | VT_Diagonal | VT_Edge => 4
  end.

(** [GetRendererVertexCount]: the vertices per voxel used by the renderer. *)
Definition GetRendererVertexCount (voxelType : VoxelType) : Z :=
  match voxelType with
  | VT_None => 0
  | VT_Wall | VT_Raised => 24
  | VT_TransparentWall | VT_Door => 16
  | VT_Chasm => 20
  | VT_Floor | VT_Ceiling | VT_Diagonal | VT_Edge => 4
  end.

Definition GetRendererVertexPositionComponentCount (K : Constants) (voxelType : VoxelType)
  : Z :=
  GetRendererVertexCount voxelType * POSITION_COMPONENTS_PER_VERTEX K.

Definition GetRendererVertexNormalComponentCount (K : Constants) (voxelType : VoxelType)
  : Z :=
  GetRendererVertexCount voxelType * NORMAL_COMPONENTS_PER_VERTEX K.

Definition GetRendererVertexTexCoordCount (K : Constants) (voxelType : VoxelType) : Z :=
  GetRendererVertexCount voxelType * TEX_COORDS_PER_VERTEX K.

(** [GetOpaqueIndexBufferCount]. *)
Definition GetOpaqueIndexBufferCount (voxelType : VoxelType) : Z :=
  match voxelType with
  | VT_Wall => 3
  | VT_Raised => 2
  | VT_Floor | VT_Ceiling | VT_Diagonal | VT_Chasm => 1
  | VT_None | VT_TransparentWall | VT_Edge | VT_Door => 0
  end.

(** [GetOpaqueIndexCount]: [triangleCount * INDICES_PER_TRIANGLE]. *)
Definition GetOpaqueIndexCount (indicesPerTriangle : Z) (voxelType : VoxelType)
  (bufferIndex : Z) : Result Z :=
  let triangles (triangleCount : Z) : Result Z := Ok (triangleCount * indicesPerTriangle) in
  match voxelType with
  | VT_None | VT_TransparentWall | VT_Door | VT_Edge => Fatal UnhandledReturn
  | VT_Wall =>
      if bufferIndex =? 0 then triangles 8
      else if (bufferIndex =? 1) || (bufferIndex =? 2) then triangles 2
      else Fatal UnhandledReturn
  | VT_Raised =>
      if (bufferIndex =? 0) || (bufferIndex =? 1) then triangles 4
      else Fatal UnhandledReturn
  | VT_Chasm | VT_Floor | VT_Ceiling | VT_Diagonal =>
      if bufferIndex =? 0 then triangles 2 else Fatal UnhandledReturn
  end.

(** [GetAlphaTestedIndexBufferCount]. *)
Definition GetAlphaTestedIndexBufferCount (voxelType : VoxelType) : Z :=
  match voxelType with
  | VT_None | VT_Wall | VT_Floor | VT_Ceiling | VT_Diagonal | VT_Chasm => 0
  | VT_Raised | VT_TransparentWall | VT_Edge | VT_Door => 1
  end.

(** [GetAlphaTestedIndexCount]. *)
Definition GetAlphaTestedIndexCount (indicesPerTriangle : Z) (voxelType : VoxelType)
  (bufferIndex : Z) : Result Z :=
  let triangles (triangleCount : Z) : Result Z := Ok (triangleCount * indicesPerTriangle) in
  match voxelType with
  | VT_None | VT_Wall | VT_Floor | VT_Ceiling | VT_Diagonal | VT_Chasm =>
      Fatal UnhandledReturn
  | VT_Raised =>
      if bufferIndex =? 0 then triangles 12 else Fatal UnhandledReturn
  | VT_TransparentWall | VT_Door =>
      if bufferIndex =? 0 then triangles 8 else Fatal UnhandledReturn
  | VT_Edge =>
      if bufferIndex =? 0 then triangles 2 else Fatal UnhandledReturn
  end.

(** [AllowsBackFacingGeometry]. *)
Definition AllowsBackFacingGeometry (voxelType : VoxelType) : bool :=
  match voxelType with
  | VT_None | VT_Wall | VT_Floor | VT_Ceiling | VT_Raised | VT_TransparentWall
  | VT_Door => false
  | VT_Diagonal | VT_Edge | VT_Chasm => true
  end.

(** [EnablesNeighborVoxelGeometry]. *)
Definition EnablesNeighborVoxelGeometry (voxelType : VoxelType) : bool :=
  match voxelType with
  | VT_None | VT_Chasm => false
  | VT_Wall | VT_Floor | VT_Ceiling | VT_Raised | VT_Diagonal | VT_TransparentWall
  | VT_Edge | VT_Door => true
  end.

(** [HasContextSensitiveGeometry]. *)
Definition HasContextSensitiveGeometry (voxelType : VoxelType) : bool :=
  match voxelType with
  | VT_None | VT_Wall | VT_Floor | VT_Ceiling | VT_Raised | VT_Diagonal
  | VT_TransparentWall | VT_Edge | VT_Door => false
  | VT_Chasm => true
  end.

End ArenaMeshUtils.

(** * Notions used to state the properties *)

(** A rational is a binary64 number when rounding leaves it as it is. *)
Definition representable (x : Q) : Prop := round64 x = x.

(** The values whose conversion to [int] is defined. *)
Definition inIntRange (x : Q) : Prop :=
  (inject_Z INT_MIN <= x /\ x <= inject_Z INT_MAX)%Q.



(** [extends old new]: the vector [new] is [old] with elements appended. *)
Definition extends {A : Type} (old new : list A) : Prop :=
  exists added, new = old ++ added.

(** [(baseIndex & bit) != 0]. *)
Definition hasFace (baseIndex bit : Z) : bool := negb (Z.land baseIndex bit =? 0).

(** The index pattern of a set of chasm wall faces: the two-triangle patterns
    of the faces present, in the order north, east, south, west. *)
Definition chasmWallIndicesOf (K : Constants) (n e s w : bool) : list Z :=
  (if n then faceIndices (northIndices K) else []) ++
  (if e then faceIndices (eastIndices K) else []) ++
  (if s then faceIndices (southIndices K) else []) ++
  (if w then faceIndices (westIndices K) else []).

Definition facesPresent (n e s w : bool) : Z :=
  RenderChunkManager.countFace n + RenderChunkManager.countFace e
  + RenderChunkManager.countFace s + RenderChunkManager.countFace w.

(** Handles of a backend are fresh: every live buffer has a handle below the
    next one, and handles are not negative. *)
Definition freshHandles (r : Renderer) : Prop :=
  0 <= nextID r /\ forall b, In b (buffers r) -> bufferID b < nextID r.

(** The handle [id] names a live index buffer of [r] that holds exactly the
    index pattern of the faces [n], [e], [s], [w]. *)
Definition holdsChasmWallBuffer (K : Constants) (r : Renderer) (id : IndexBufferID)
  (n e s w : bool) : Prop :=
  exists b, In b (buffers r)
    /\ bufferID b = id /\ 0 <= id
    /\ bufferKind b = IndexBuffer
    /\ elementCount b = facesPresent n e s w * indicesPerFace
    /\ indexData b = chasmWallIndicesOf K n e s w
    /\ Z.of_nat (length (indexData b)) = facesPresent n e s w * indicesPerFace.

(** The assets of the voxel texture cache, in cache order. *)
Definition cachedAssets (voxelTextures : list LoadedVoxelTexture) : list TextureAsset :=
  map textureAsset voxelTextures.

(** Every texture asset a chunk's texture definitions name, in load order. *)
Definition chunkAssets (chunk : VoxelChunk) : list TextureAsset :=
  flat_map defTextureAssets (chunkTextureDefs chunk).

(** Every frame asset a chunk's animated chasm definitions name. *)
Definition chunkChasmAssets (chunk : VoxelChunk) : list TextureAsset :=
  flat_map animatedTextureAssets (chunkChasmDefs chunk).

(** The number of assets of [assets] that are duplicates: those already among
    [seen] or occurring earlier in [assets]. *)
Fixpoint duplicates (seen assets : list TextureAsset) : nat :=
  match assets with
  | [] => 0
  | a :: rest =>
      ((if existsb (TextureAsset_eqb a) seen then 1 else 0) + duplicates (a :: seen) rest)%nat
  end.

(** The backend never fails from now on. *)
Definition neverFails (w : World) : Prop := outcomes (renderer w) = [].

(** The texture manager can load every asset of [assets]. *)
Definition knowsAll (tm : TextureManager) (assets : list TextureAsset) : Prop :=
  forall a, In a assets -> tryGetTextureBuilderID tm a <> None.





(** Two cached floor texture lists have the same animation content. *)
Definition sameFloorContent (l1 l2 : LoadedChasmFloorTextureList) : Prop :=
  animType l1 = animType l2
  /\ match animType l1 with
     | SolidColor => paletteIndex l1 = paletteIndex l2
     | Animated => textureAssets l1 = textureAssets l2
     end.

(** The floor list cache holds at most one list per animation content. *)
Definition uniqueFloorLists (lists : list LoadedChasmFloorTextureList) : Prop :=
  forall i j li lj,
    at_ lists i = Some li -> at_ lists j = Some lj -> sameFloorContent li lj -> i = j.

(** The floor list a key points to holds the content of definition [d]. *)
Definition resolves (lists : list LoadedChasmFloorTextureList)
  (key : LoadedChasmTextureKey.t) (d : ChasmDefinition) : Prop :=
  exists l, at_ lists (LoadedChasmTextureKey.chasmFloorListIndex key) = Some l
            /\ LoadedChasmFloorComparer l d = true.

(** No key of the cache belongs to chunk position [pos]. *)
Definition noKeysAt (keys : list LoadedChasmTextureKey.t) (pos : ChunkInt2) : Prop :=
  forall key, In key keys -> LoadedChasmTextureKey.chunkPos key <> pos.

(** The rotation amount of a swinging door that is [openPercent] open. *)
Definition swingRotationAmount (K : Constants) (openPercent : double) : double :=
  fmul (fneg (fsub (HalfPi K) (Epsilon K))) openPercent.

(** The texture coordinate minimum of a sliding or raising door, and its
    scale along the axis it moves on. *)
Definition doorTexCoordMin (K : Constants) (openPercent : double) : double :=
  fmul (fsub (Finite 1) (DOOR_MIN_VISIBLE K)) openPercent.

Definition doorScaleAmount (K : Constants) (openPercent : double) : double :=
  fsub (Finite 1) (doorTexCoordMin K openPercent).

(** [call] is the draw call of face [i] of a door of type [type] that is
    [openPercent] open: at the face's hinge, with the mesh's alpha-tested
    index buffer and the door texture, and with the transform and shaders of
    the door type. *)
Definition isDoorFaceCall (K : Constants) (ceilingScale openPercent : double)
  (renderMeshDef : RenderVoxelMeshDefinition.t) (worldPos : Double3)
  (textureID : ObjectTextureID) (type : DoorType) (i : Z) (call : RenderDrawCall.t) : Prop :=
  RenderDrawCall.position call = Double3_add worldPos (SwingingHingeOffsets K i)
  /\ RenderDrawCall.vertexBufferID call = RenderVoxelMeshDefinition.vertexBufferID renderMeshDef
  /\ RenderDrawCall.indexBufferID call
     = RenderVoxelMeshDefinition.alphaTestedIndexBufferID renderMeshDef
  /\ RenderDrawCall.textureID0 call = textureID
  /\ RenderDrawCall.textureID1 call = None
  /\ match type with
     | Swinging =>
         RenderDrawCall.preScaleTranslation call = Double3_Zero
         /\ RenderDrawCall.rotation call
            = Matrix4d_yRotation (fadd (BaseAngles K i) (swingRotationAmount K openPercent))
         /\ RenderDrawCall.scale call = Matrix4d_identity
         /\ RenderDrawCall.vertexShaderType call = VS_SwingingDoor
         /\ RenderDrawCall.pixelShaderType call = PS_AlphaTested
     | Sliding =>
         RenderDrawCall.preScaleTranslation call = Double3_Zero
         /\ RenderDrawCall.rotation call = Matrix4d_yRotation (BaseAngles K i)
         /\ RenderDrawCall.scale call
            = Matrix4d_scale (Finite 1) (Finite 1) (doorScaleAmount K openPercent)
         /\ RenderDrawCall.pixelShaderParam0 call = doorTexCoordMin K openPercent
         /\ RenderDrawCall.vertexShaderType call = VS_SlidingDoor
         /\ RenderDrawCall.pixelShaderType call = PS_AlphaTestedWithVariableTexCoordUMin
     | Raising =>
         RenderDrawCall.preScaleTranslation call = (Finite 1, fneg ceilingScale, Finite 1)
         /\ RenderDrawCall.rotation call = Matrix4d_yRotation (BaseAngles K i)
         /\ RenderDrawCall.scale call
            = Matrix4d_scale (Finite 1) (doorScaleAmount K openPercent) (Finite 1)
         /\ RenderDrawCall.pixelShaderParam0 call = doorTexCoordMin K openPercent
         /\ RenderDrawCall.vertexShaderType call = VS_RaisingDoor
         /\ RenderDrawCall.pixelShaderType call = PS_AlphaTestedWithVariableTexCoordVMin
     | Splitting => False
     end.

(** The faces of a door that are visible, as indices into the face tables. *)
Definition visibleFaceIndices (K : Constants) (doorVisInst : VoxelDoorVisibilityInstance)
  : list Z :=
  filter (fun i => nth (Z.to_nat i) (RenderChunkManager.visibleDoorFaces K doorVisInst) false)
    (indices (FACE_COUNT K)).

(** [doorAnimPercent] of [loadVoxelDrawCalls]: how far the door at a voxel is
    open, 0 without an animation instance. *)
Definition doorOpenPercent (chunk : VoxelChunk) (x y z : nat) : double :=
  match tryGetDoorAnimInst chunk x y z with
  | Some doorAnimInst => percentOpen doorAnimInst
  | None => Finite 0
  end.

(** The world position [loadVoxelDrawCalls] gives the voxel [(x, y, z)] of
    the chunk at [chunkPos]. *)
Definition voxelWorldPos (K : Constants) (chunkPos : ChunkInt2) (ceilingScale : double)
  (x y z : nat) : Double3 :=
  let worldXZ := RenderChunkManager.chunkVoxelToNewVoxel K chunkPos x z in
  (int_to_double (fst worldXZ), fmul (int_to_double (Z.of_nat y)) ceilingScale,
   int_to_double (snd worldXZ)).

(** The render mesh definition [loadVoxelDrawCalls] draws a voxel with: the
    one its mesh definition is mapped to in the render chunk; none for an
    empty mesh. *)
Definition voxelRenderMeshDef (chunk : VoxelChunk) (renderChunk : RenderChunk.t)
  (x y z : nat) : option RenderVoxelMeshDefinition.t :=
  if meshIsEmpty (getMeshDef chunk (getMeshDefID chunk x y z)) then None
  else
    match find (fun kv => fst kv =? getMeshDefID chunk x y z)
            (RenderChunk.meshDefMappings renderChunk) with
    | Some (_, renderMeshDefID) => at_ (RenderChunk.meshDefs renderChunk) renderMeshDefID
    | None => None
    end.

(** The handle of the loaded texture of a voxel's alpha-tested asset. *)
Definition alphaTestedTextureOf (this : RenderChunkManager.t) (chunk : VoxelChunk)
  (x y z : nat) : option ObjectTextureID :=
  match GetVoxelAlphaTestedTextureAssetIndex
          (traitsType (getTraitsDef chunk (getTraitsDefID chunk x y z))) with
  | Ok textureAssetIndex =>
      match getTextureAsset (getTextureDef chunk (getTextureDefID chunk x y z))
              textureAssetIndex with
      | Ok asset =>
          match RenderChunkManager.getVoxelTextureID this asset with
          | Ok textureID => Some textureID
          | Fatal _ => None
          end
      | Fatal _ => None
      end
  | Fatal _ => None
  end.

(** [calls] are the door draw calls of one voxel: none when the voxel is no
    door; for a door drawn with a render mesh definition that has an
    alpha-tested index buffer, a loaded texture and a visibility instance,
    one call per visible face, in the order of the faces. *)
Definition doorCallsAt (K : Constants) (this : RenderChunkManager.t) (chunk : VoxelChunk)
  (ceilingScale : double) (renderChunk : RenderChunk.t) (voxel : VoxelInt3)
  (calls : list RenderDrawCall.t) : Prop :=
  let '(x, y, z) := voxel in
  match tryGetDoorDefID chunk x y z with
  | None => calls = []
  | Some doorDefID =>
      forall renderMeshDef textureID doorVisInst,
        voxelRenderMeshDef chunk renderChunk x y z = Some renderMeshDef ->
        0 <= RenderVoxelMeshDefinition.alphaTestedIndexBufferID renderMeshDef ->
        alphaTestedTextureOf this chunk x y z = Some textureID ->
        0 <= textureID ->
        tryGetDoorVisibilityInst chunk x y z = Some doorVisInst ->
        Forall2 (isDoorFaceCall K ceilingScale (doorOpenPercent chunk x y z) renderMeshDef
                   (voxelWorldPos K (RenderChunk.position renderChunk) ceilingScale x y z)
                   textureID (doorType (getDoorDef chunk doorDefID)))
          (visibleFaceIndices K doorVisInst) calls
  end.

(** Slot [i] of the chasm wall table stands for a combination with a face. *)
Definition slotHasFaces (K : Constants) (i : nat) : bool :=
  let baseIndex := Z.of_nat i + 1 in
  negb (facesPresent (hasFace baseIndex (CHASM_WALL_NORTH K))
          (hasFace baseIndex (CHASM_WALL_EAST K))
          (hasFace baseIndex (CHASM_WALL_SOUTH K))
          (hasFace baseIndex (CHASM_WALL_WEST K)) =? 0).

(** The number of index buffers [init] asks the backend for before it comes
    to slot [i]: one for each earlier slot with a face. *)
Definition creationsBefore (K : Constants) (i : nat) : nat :=
  length (filter (slotHasFaces K) (seq 0 i)).

(** Whether the backend with the outcomes [script] ahead of it creates the
    index buffer of slot [i]; it does once the script is used up. *)
Definition slotCreated (K : Constants) (script : list bool) (i : nat) : bool :=
  nth (creationsBefore K i) script true.

(** The error [init] logs when the index buffer of slot [i] is not created. *)
Definition slotError (i : Z) : LogEntry :=
  LogError (String.append "Couldn't create chasm wall index buffer "
              (String.append (RenderChunkManager.to_string i) ".")).

(** The state of slot [i] after [init] on a backend with the outcomes
    [script] ahead of it: no buffer when its combination has no face;
    otherwise the buffer of its faces when the backend created it, and no
    buffer and a logged error when it did not. *)
Definition slotDone (K : Constants) (script : list bool) (ids : list IndexBufferID)
  (r : Renderer) (log : DebugLog) (i : nat) : Prop :=
  let baseIndex := Z.of_nat i + 1 in
  let n := hasFace baseIndex (CHASM_WALL_NORTH K) in
  let e := hasFace baseIndex (CHASM_WALL_EAST K) in
  let s := hasFace baseIndex (CHASM_WALL_SOUTH K) in
  let w := hasFace baseIndex (CHASM_WALL_WEST K) in
  (facesPresent n e s w = 0 -> nth i ids (-1) = -1)
  /\ (facesPresent n e s w <> 0 ->
      if slotCreated K script i
      then holdsChasmWallBuffer K r (nth i ids (-1)) n e s w
      else nth i ids (-1) = -1 /\ In (slotError (Z.of_nat i)) log).

(** ** Draw calls emitted by a rebuild *)

(** The draw calls added to the four vectors of a render chunk. *)
Record Emitted : Type := mkEmitted {
  toStatic : list RenderDrawCall.t;
  toDoor : list RenderDrawCall.t;
  toChasm : list RenderDrawCall.t;
  toFading : list RenderDrawCall.t
}.

Definition noCalls : Emitted := mkEmitted [] [] [] [].

Definition appendCalls (a b : Emitted) : Emitted :=
  mkEmitted (toStatic a ++ toStatic b) (toDoor a ++ toDoor b)
    (toChasm a ++ toChasm b) (toFading a ++ toFading b).

Definition callsIn (target : DrawCallList) (e : Emitted) : list RenderDrawCall.t :=
  match target with
  | StaticDrawCalls => toStatic e
  | DoorDrawCalls => toDoor e
  | ChasmDrawCalls => toChasm e
  | FadingDrawCalls => toFading e
  end.

(** The contents of the four vectors in a state of the draw call assembler. *)
Definition callsOf (st : RenderChunkManager.DrawState) : Emitted :=
  mkEmitted (RenderChunk.staticDrawCalls (fst st)) (RenderChunk.doorDrawCalls (fst st))
    (RenderChunk.chasmDrawCalls (fst st)) (RenderChunk.fadingDrawCalls (fst st)).

(** The part of a state the assembler reads: the state with its four
    vectors emptied, its mesh id grid reset and its log dropped. *)
Definition cleared (st : RenderChunkManager.DrawState) : RenderChunkManager.DrawState :=
  (RenderChunk.mk (RenderChunk.position (fst st)) (RenderChunk.height (fst st))
     (RenderChunk.meshDefs (fst st)) (RenderChunk.meshDefMappings (fst st))
     (RenderChunk.meshDefIDsWidth (fst st)) (RenderChunk.meshDefIDsHeight (fst st))
     (RenderChunk.meshDefIDsDepth (fst st)) (fun _ => -1)
     (RenderChunk.chasmWallIndexBufferIDs (fst st)) [] [] [] [],
   []).

(** All calls of [e] are in the vectors [targets] selects. *)
Definition within (targets : DrawCallList -> bool) (e : Emitted) : Prop :=
  forall target, targets target = false -> callsIn target e = [].

Definition DrawCallList_eqb (a b : DrawCallList) : bool :=
  match a, b with
  | StaticDrawCalls, StaticDrawCalls | DoorDrawCalls, DoorDrawCalls
  | ChasmDrawCalls, ChasmDrawCalls | FadingDrawCalls, FadingDrawCalls => true
  | _, _ => false
  end.

Definition anyVector : DrawCallList -> bool := fun _ => true.

(** [m] only appends draw calls, to the vectors [targets] selects: what it
    returns, whether it ends in a fault and the calls it appends depend on
    the state through its cleared part only, and it leaves that part as it
    is. *)
Definition Appends {A : Type} (targets : DrawCallList -> bool)
  (m : M RenderChunkManager.DrawState A) : Prop :=
  forall st,
    match m (cleared st) with
    | Ok (a, s) =>
        within targets (callsOf s)
        /\ exists st', m st = Ok (a, st') /\ cleared st' = cleared st
                       /\ callsOf st' = appendCalls (callsOf st) (callsOf s)
    | Fatal f => m st = Fatal f
    end.

(** What [m] returns and appends when run in the state [st]; [None] when it
    ends in a fault. *)
Definition emitted {A : Type} (m : M RenderChunkManager.DrawState A)
  (st : RenderChunkManager.DrawState) : option (A * Emitted) :=
  match m (cleared st) with
  | Ok (a, s) => Some (a, callsOf s)
  | Fatal _ => None
  end.

(** The vector the opaque draw calls of a voxel go to, and the one its
    alpha-tested draw calls go to. *)
Definition opaqueTarget (chasmDefID : option ChasmDefID)
  (fadeAnimInst : option VoxelFadeAnimationInstance) : DrawCallList :=
  if isSome chasmDefID then ChasmDrawCalls
  else if isSome fadeAnimInst then FadingDrawCalls
  else StaticDrawCalls.

Definition alphaTestedTarget (doorDefID : option Z) : DrawCallList :=
  if isSome doorDefID then DoorDrawCalls else StaticDrawCalls.

(** The opaque index buffer loop of [loadVoxelDrawCalls] for the voxel
    [(x, y, z)], and its alpha-tested block. *)
Definition opaqueCalls (K : Constants) (this : RenderChunkManager.t) (chunk : VoxelChunk)
  (ceilingScale chasmAnimPercent : double) (chunkPos : ChunkInt2) (x y z : nat)
  (renderMeshDef : RenderVoxelMeshDefinition.t) : M RenderChunkManager.DrawState unit :=
  forEach
    (indices (Z.to_nat (RenderVoxelMeshDefinition.opaqueIndexBufferIdCount renderMeshDef)))
    (RenderChunkManager.opaqueDrawCall this chunkPos chasmAnimPercent
       (getTextureDef chunk (getTextureDefID chunk x y z))
       (traitsType (getTraitsDef chunk (getTraitsDefID chunk x y z)))
       renderMeshDef (voxelWorldPos K chunkPos ceilingScale x y z)
       (tryGetChasmDefID chunk x y z) (tryGetFadeAnimInst chunk x y z)).

Definition alphaTestedCalls (K : Constants) (this : RenderChunkManager.t)
  (chunk : VoxelChunk) (ceilingScale : double) (chunkPos : ChunkInt2) (x y z : nat)
  (renderMeshDef : RenderVoxelMeshDefinition.t) : M RenderChunkManager.DrawState bool :=
  RenderChunkManager.alphaTestedDrawCalls K this chunk ceilingScale x y z
    (getTextureDef chunk (getTextureDefID chunk x y z))
    (traitsType (getTraitsDef chunk (getTraitsDefID chunk x y z)))
    renderMeshDef (voxelWorldPos K chunkPos ceilingScale x y z)
    (tryGetDoorDefID chunk x y z) (isSome (tryGetChasmDefID chunk x y z)).

(** The update flags under which the opaque loop and the alpha-tested block
    of a voxel run. *)
Definition opaqueSelected (chunk : VoxelChunk) (updateStatics updateAnimating : bool)
  (x y z : nat) : bool :=
  let canAnimate := isSome (tryGetDoorDefID chunk x y z)
                    || isSome (tryGetChasmDefID chunk x y z)
                    || isSome (tryGetFadeAnimInst chunk x y z) in
  (negb canAnimate && updateStatics) || (canAnimate && updateAnimating).

Definition alphaTestedSelected (chunk : VoxelChunk) (updateStatics updateAnimating : bool)
  (x y z : nat) (renderMeshDef : RenderVoxelMeshDefinition.t) : bool :=
  (RenderVoxelMeshDefinition.alphaTestedIndexBufferID renderMeshDef >=? 0)
  && (updateStatics || (updateAnimating && isSome (tryGetDoorDefID chunk x y z))).

(** The draw calls [calls] in the vector [target], and no others. *)
Definition only (target : DrawCallList) (calls : list RenderDrawCall.t) : Emitted :=
  match target with
  | StaticDrawCalls => mkEmitted calls [] [] []
  | DoorDrawCalls => mkEmitted [] calls [] []
  | ChasmDrawCalls => mkEmitted [] [] calls []
  | FadingDrawCalls => mkEmitted [] [] [] calls
  end.

(** [e] are the draw calls one iteration of [loadVoxelDrawCalls] emits for
    [voxel] in the state [st]: none for an empty mesh, those of the three
    blocks with the render mesh definition the mesh is mapped to otherwise. *)
Definition voxelCallsAt (K : Constants) (this : RenderChunkManager.t) (chunk : VoxelChunk)
  (ceilingScale chasmAnimPercent : double) (updateStatics updateAnimating : bool)
  (st : RenderChunkManager.DrawState) (voxel : VoxelInt3) (e : Emitted) : Prop :=
  let '(x, y, z) := voxel in
  match voxelRenderMeshDef chunk (fst st) x y z with
  | None => e = noCalls
  | Some renderMeshDef =>
      emitted (RenderChunkManager.voxelDrawCalls K this chunk ceilingScale chasmAnimPercent
                 updateStatics updateAnimating (RenderChunk.position (fst st)) (x, y, z)
                 renderMeshDef) st = Some (tt, e)
  end.

(** The calls of a rebuild with both flags set, [e], against those of a
    rebuild of the statics, [e1], and one of the animating voxels, [e2]. *)
Definition splitsInto (same : list RenderDrawCall.t -> list RenderDrawCall.t -> Prop)
  (e e1 e2 : Emitted) : Prop :=
  same (toStatic e) (toStatic e1 ++ toStatic e2)
  /\ toDoor e = toDoor e2
  /\ toChasm e = toChasm e2
  /\ toFading e = toFading e2.

(** No dry chasm voxel of the chunk has a wall index buffer in the render
    chunk. *)
Definition noDryChasmWalls (chunk : VoxelChunk) (rc : RenderChunk.t) : Prop :=
  forall x y z,
    traitsUnion (getTraitsDef chunk (getTraitsDefID chunk x y z)) = TraitsChasm Dry ->
    find (fun kv => VoxelInt3_eqb (fst kv) (x, y, z)) (RenderChunk.chasmWallIndexBufferIDs rc)
    = None.

(** ** Notions used to state the further properties *)

(** The draw calls of a render chunk in the order in which
    [rebuildVoxelDrawCallsList] copies them. *)
Definition drawCallsOfChunk (renderChunk : RenderChunk.t) : list RenderDrawCall.t :=
  RenderChunk.staticDrawCalls renderChunk ++ RenderChunk.doorDrawCalls renderChunk ++
  RenderChunk.chasmDrawCalls renderChunk ++ RenderChunk.fadingDrawCalls renderChunk.

(** The render mesh definition a door voxel of the chunk is drawn with, if
    any, has no opaque index buffer. *)
Definition doorsHaveNoOpaqueBuffers (chunk : VoxelChunk) (rc : RenderChunk.t) : Prop :=
  forall x y z voxelMeshDefID renderMeshDefID renderMeshDef,
    tryGetDoorDefID chunk x y z <> None ->
    find (fun kv => fst kv =? getMeshDefID chunk x y z) (RenderChunk.meshDefMappings rc)
    = Some (voxelMeshDefID, renderMeshDefID) ->
    at_ (RenderChunk.meshDefs rc) renderMeshDefID = Some renderMeshDef ->
    RenderVoxelMeshDefinition.opaqueIndexBufferIdCount renderMeshDef <= 0.

(** No voxel of the chunk is a door. *)
Definition noDoors (chunk : VoxelChunk) : Prop :=
  forall x y z, tryGetDoorDefID chunk x y z = None.

Definition noVector : DrawCallList -> bool := fun _ => false.

(** Every chasm texture key points into the floor texture lists and into
    the voxel textures. *)
Definition keysInRange (this : RenderChunkManager.t) : Prop :=
  forall key, In key (RenderChunkManager.chasmTextureKeys this) ->
    0 <= LoadedChasmTextureKey.chasmFloorListIndex key
      < Z.of_nat (length (RenderChunkManager.chasmFloorTextureLists this))
    /\ 0 <= LoadedChasmTextureKey.chasmWallIndex key
         < Z.of_nat (length (RenderChunkManager.voxelTextures this)).

(** No two chasm texture keys are for the same chunk position and chasm
    definition. *)
Definition keysUnique (keys : list LoadedChasmTextureKey.t) : Prop :=
  forall i j ki kj,
    at_ keys i = Some ki -> at_ keys j = Some kj ->
    LoadedChasmTextureKey.chunkPos ki = LoadedChasmTextureKey.chunkPos kj ->
    LoadedChasmTextureKey.chasmDefID ki = LoadedChasmTextureKey.chasmDefID kj ->
    i = j.

(** Every floor texture list holds a handle per frame: one for a solid
    colour, one per texture asset for an animation. *)
Definition floorListsComplete (lists : list LoadedChasmFloorTextureList) : Prop :=
  forall textureList, In textureList lists ->
    match animType textureList with
    | SolidColor => length (objectTextureRefs textureList) = 1%nat
    | Animated =>
        length (objectTextureRefs textureList) = length (textureAssets textureList)
    end.

(** * Sample inputs

    A set of constants with the values of the game (64 x 64 chunks, four door
    faces, the chasm wall bits 1, 2, 4, 8 over a table of 15 slots) and small
    chunks, used to run the model on concrete inputs. *)

Module Samples.

Definition facings (i : Z) : VoxelFacing2D :=
  if i =? 0 then PositiveX else if i =? 1 then NegativeX
  else if i =? 2 then PositiveZ else NegativeZ.

Definition hingeOffsets (i : Z) : Double3 :=
  if i =? 0 then (Finite 1, Finite 0, Finite 1)
  else if i =? 1 then (Finite 0, Finite 0, Finite 0)
  else if i =? 2 then (Finite 0, Finite 0, Finite 1)
  else (Finite 1, Finite 0, Finite 0).

(** The binary64 numbers nearest to pi/2, pi, 3 pi/2, 10^-5 and 0.1. *)
Definition halfPi : Q := round64 (15707963267948966192 # 10000000000000000000).
Definition pi : Q := round64 (31415926535897932385 # 10000000000000000000).
Definition threeHalfPi : Q := round64 (47123889803846898577 # 10000000000000000000).
Definition epsilon : Q := round64 (1 # 100000).
Definition doorMinVisible : Q := round64 (1 # 10).

Definition baseAngles (i : Z) : double :=
  if i =? 0 then Finite 0 else if i =? 1 then Finite pi
  else if i =? 2 then Finite halfPi else Finite threeHalfPi.

Definition arena : Constants :=
  mkConstants 64 64 3 3 2 (Finite halfPi) (Finite epsilon) (Finite doorMinVisible)
    4 facings hingeOffsets baseAngles 2
    1 2 4 8 15
    (mkChasmWallIndexBuffer 0 1 2 2 3 0)
    (mkChasmWallIndexBuffer 4 5 6 6 7 4)
    (mkChasmWallIndexBuffer 8 9 10 10 11 8)
    (mkChasmWallIndexBuffer 12 13 14 14 15 12).

Definition asset (name : string) : TextureAsset := mkTextureAsset name None.

(** A backend on which every call succeeds, and one whose creation calls
    have the listed outcomes. *)
Definition backend (results : list bool) : World :=
  mkWorld (mkRenderer results 0 [] []) [].

Definition quietBackend : World := backend [].

(** A texture manager that knows the listed assets. *)
Definition textureManagerOf (known : list TextureAsset) : TextureManager :=
  mkTextureManager (fun a =>
    match findIndex (TextureAsset_eqb a) known with
    | Some i => Some i
    | None => None
    end).

Definition airMesh : VoxelMeshDefinition := mkVoxelMeshDefinition true 0 [] 0 [].

Definition quad : list Z := [0; 1; 2; 2; 3; 0].

(** The mesh of a Wall voxel: 24 vertices, three opaque index lists of 8, 2
    and 2 triangles. *)
Definition wallMesh : VoxelMeshDefinition :=
  mkVoxelMeshDefinition false 24 [quad ++ quad ++ quad ++ quad; quad; quad] 0 [].

(** The mesh of a Raised voxel: two opaque lists and an alpha-tested one. *)
Definition raisedMesh : VoxelMeshDefinition :=
  mkVoxelMeshDefinition false 24 [quad ++ quad; quad ++ quad] 1
    (quad ++ quad ++ quad ++ quad ++ quad ++ quad).

(** The mesh of a Door voxel: no opaque list, one alpha-tested list. *)
Definition doorMesh : VoxelMeshDefinition :=
  mkVoxelMeshDefinition false 16 [] 1 (quad ++ quad ++ quad ++ quad).

(** The mesh of a Chasm voxel: the floor as its one opaque list. *)
Definition chasmMesh : VoxelMeshDefinition :=
  mkVoxelMeshDefinition false 20 [quad] 0 [].

Definition isOrigin (x y z : nat) : bool :=
  Nat.eqb x 0 && Nat.eqb y 0 && Nat.eqb z 0.

(** A chunk at [pos], one voxel high, all air except for the voxel at the
    origin, which has mesh, texture and traits definition 1 when [solid]. *)
Definition chunkWith (pos : ChunkInt2) (solid : bool)
  (textures : list VoxelTextureDefinition) (chasms : list ChasmDefinition)
  (mesh : VoxelMeshDefinition) (traits : VoxelTraitsDefinition)
  (door : option DoorDefinition) (isChasm : bool)
  (fade : option VoxelFadeAnimationInstance)
  (doorAnim : option VoxelDoorAnimationInstance)
  (doorVis : option VoxelDoorVisibilityInstance)
  (chasmWall : option VoxelChasmWallInstance) : VoxelChunk :=
  let atOrigin {A : Type} (x y z : nat) (a : option A) : option A :=
    if solid && isOrigin x y z then a else None in
  let idAt (x y z : nat) : Z := if solid && isOrigin x y z then 1 else 0 in
  mkVoxelChunk pos 1
    textures chasms
    [airMesh; mesh]
    [mkVoxelTraitsDefinition VT_None TraitsGeneral; traits]
    (match door with Some d => [d] | None => [] end)
    idAt (fun _ _ _ => 0) idAt
    (fun x y z => atOrigin x y z (match door with Some _ => Some 0 | None => None end))
    (fun x y z => atOrigin x y z (if isChasm then Some 0 else None))
    (fun x y z => atOrigin x y z fade)
    (fun x y z => atOrigin x y z doorAnim)
    (fun x y z => atOrigin x y z doorVis)
    (fun x y z => atOrigin x y z chasmWall).

Definition wallTextures : VoxelTextureDefinition :=
  mkVoxelTextureDefinition [asset "side"; asset "bottom"; asset "top"].


(** An all-air chunk at (0, 0) with one texture. *)
Definition oneTextureChunk : VoxelChunk :=
  chunkWith (0, 0) false [mkVoxelTextureDefinition [asset "a"]] []
    airMesh (mkVoxelTraitsDefinition VT_None TraitsGeneral)
    None false None None None None.

(** A chunk at (0, 0) with one Wall voxel at the origin. *)
Definition wallChunk : VoxelChunk :=
  chunkWith (0, 0) true [wallTextures] []
    wallMesh (mkVoxelTraitsDefinition VT_Wall TraitsGeneral)
    None false None None None None.

(** An animated (wet) chasm definition with one frame. *)
Definition wetChasmDef : ChasmDefinition :=
  mkChasmDefinition Animated 0 [asset "water0"] (asset "wall").

(** A dry chasm definition with palette index 5. *)
Definition dryChasmDef : ChasmDefinition :=
  mkChasmDefinition SolidColor 5 [] (asset "wall").

(** A chunk at (0, 0) with a wet chasm voxel at the origin, walled on its
    north side. *)
Definition wetChasmChunk : VoxelChunk :=
  chunkWith (0, 0) true [mkVoxelTextureDefinition [asset "wall"]] [wetChasmDef]
    chasmMesh (mkVoxelTraitsDefinition VT_Chasm (TraitsChasm Wet))
    None true None None None (Some (mkVoxelChasmWallInstance true false false false)).

(** A chunk at (0, 0) with a dry chasm voxel at the origin, walled on its
    north side. *)
Definition dryChasmChunk : VoxelChunk :=
  chunkWith (0, 0) true [mkVoxelTextureDefinition [asset "wall"]] [dryChasmDef]
    chasmMesh (mkVoxelTraitsDefinition VT_Chasm (TraitsChasm Dry))
    None true None None None (Some (mkVoxelChasmWallInstance true false false false)).

(** A chunk at (0, 0) with a swinging door at the origin, half open, seen
    from its positive X face. *)
Definition doorChunk : VoxelChunk :=
  chunkWith (0, 0) true [mkVoxelTextureDefinition [asset "door"]] []
    doorMesh (mkVoxelTraitsDefinition VT_Door TraitsGeneral)
    (Some (mkDoorDefinition Swinging)) false None
    (Some (mkVoxelDoorAnimationInstance (1 # 2)%Q))
    (Some (mkVoxelDoorVisibilityInstance [PositiveX] 1)) None.

(** A chunk at (0, 0) with a sliding door at the origin, fully open, seen
    from its positive X face. *)
Definition openSlidingDoorChunk : VoxelChunk :=
  chunkWith (0, 0) true [mkVoxelTextureDefinition [asset "door"]] []
    doorMesh (mkVoxelTraitsDefinition VT_Door TraitsGeneral)
    (Some (mkDoorDefinition Sliding)) false None
    (Some (mkVoxelDoorAnimationInstance 1%Q))
    (Some (mkVoxelDoorVisibilityInstance [PositiveX] 1)) None.

(** A chunk at (0, 0) with a Raised voxel at the origin that is fading. *)
Definition fadingRaisedChunk : VoxelChunk :=
  chunkWith (0, 0) true
    [mkVoxelTextureDefinition [asset "side"; asset "bottom"; asset "top"]] []
    raisedMesh (mkVoxelTraitsDefinition VT_Raised (TraitsRaised 0%Q 1%Q))
    None false (Some (mkVoxelFadeAnimationInstance (1 # 4)%Q)) None None None.


(** An animated chasm definition with two frames. *)
Definition twoFrameChasmDef : ChasmDefinition :=
  mkChasmDefinition Animated 0 [asset "water0"; asset "water1"] (asset "wall").



(** An all-air chunk at [pos] that defines the two-frame chasm. *)
Definition twoFrameChasmChunk (pos : ChunkInt2) : VoxelChunk :=
  chunkWith pos false [mkVoxelTextureDefinition [asset "wall"]] [twoFrameChasmDef]
    airMesh (mkVoxelTraitsDefinition VT_None TraitsGeneral)
    None false None None None None.


(** An initialised manager on the quiet backend. *)
Definition started : RenderChunkManager.t * World :=
  RenderChunkManager.init arena (RenderChunkManager.create arena) quietBackend.

(** The manager and world after loading [chunk] into the started manager,
    with a texture manager that knows [known]; the started state again if the
    load ends in a fault. *)
Definition loaded (chunk : VoxelChunk) (known : list TextureAsset)
  : RenderChunkManager.t * World :=
  match RenderChunkManager.loadVoxelChunk arena (fst started) chunk 1%Q
          (textureManagerOf known) (snd started) with
  | Ok s => s
  | Fatal _ => started
  end.



(** The draw call vectors of the first render chunk. *)
Definition drawCallsOf (this : RenderChunkManager.t)
  : list (list RenderDrawCall.t) :=
  match RenderChunkManager.renderChunks this with
  | rc :: _ =>
      [RenderChunk.staticDrawCalls rc; RenderChunk.doorDrawCalls rc;
       RenderChunk.chasmDrawCalls rc; RenderChunk.fadingDrawCalls rc]
  | [] => []
  end.

(** One rebuild, or the manager as it was if the rebuild ends in a fault. *)
Definition rebuilt (chunk : VoxelChunk) (updateStatics updateAnimating : bool)
  (this : RenderChunkManager.t) : RenderChunkManager.t :=
  match RenderChunkManager.rebuildVoxelChunkDrawCalls arena this chunk 1%Q 0%Q
          updateStatics updateAnimating [] with
  | Ok (this', _) => this'
  | Fatal _ => this
  end.

End Samples.

(** * Properties *)

(** ** Loops *)

Lemma fold_left_invariant {A X : Type} (P : A -> Prop) (f : A -> X -> A) (l : list X) (a : A) :
  P a -> (forall a x, P a -> P (f a x)) -> P (fold_left f l a).
Proof.
  intros Ha Hf. revert a Ha.
  induction l as [| x l IH]; intros a Ha; cbn; [exact Ha |].
  apply IH, Hf, Ha.
Qed.

Lemma foldResult_invariant {A X : Type} (P : A -> Prop) (f : A -> X -> Result A)
  (l : list X) (a a' : A) :
  P a -> (forall a x a', P a -> f a x = Ok a' -> P a') ->
  foldResult f l a = Ok a' -> P a'.
Proof.
  intros Ha Hf. revert a Ha.
  induction l as [| x l IH]; intros a Ha H; cbn in H.
  - injection H as <-. exact Ha.
  - destruct (f a x) as [a1 |] eqn:E; [| discriminate].
    apply (IH a1); [apply (Hf a x a1 Ha E) | exact H].
Qed.


(** * Binary64 arithmetic *)
(** ** Powers of two *)

Lemma two_neq_0 : ~ (2 == 0)%Q.
Proof.
  intros H. discriminate H.
Qed.

Lemma pow2_pos (k : Z) : (0 < pow2 k)%Q.
Proof.
  apply Qpower_0_lt. reflexivity.
Qed.

Lemma pow2_add (a b : Z) : (pow2 (a + b) == pow2 a * pow2 b)%Q.
Proof.
  apply Qpower_plus, two_neq_0.
Qed.

Lemma pow2_le (a b : Z) : a <= b -> (pow2 a <= pow2 b)%Q.
Proof.
  intros H. apply Qpower_le_compat_l; [exact H | discriminate].
Qed.

Lemma pow2_lt (a b : Z) : a < b -> (pow2 a < pow2 b)%Q.
Proof.
  intros H. apply Qpower_lt_compat_l; [exact H | reflexivity].
Qed.

Lemma pow2_lt_inv (a b : Z) : (pow2 a < pow2 b)%Q -> a < b.
Proof.
  intros H. apply (Qpower_lt_compat_l_inv 2); [exact H | reflexivity].
Qed.

Lemma pow2_Z (k : Z) : 0 <= k -> (pow2 k == inject_Z (2 ^ k))%Q.
Proof.
  intros H. unfold pow2. rewrite Zpower_Qpower by exact H. reflexivity.
Qed.

Lemma pow2_succ (k : Z) : (pow2 (k + 1) == 2 * pow2 k)%Q.
Proof.
  rewrite pow2_add. change (pow2 1) with 2%Q. ring.
Qed.

Lemma pow2_pred (k : Z) : (2 * pow2 (k - 1) == pow2 k)%Q.
Proof.
  rewrite <- pow2_succ. replace (k - 1 + 1) with k by lia. reflexivity.
Qed.

Lemma pow2_0 : pow2 0 = 1%Q.
Proof.
  reflexivity.
Qed.

(** Division by a power of two. *)
Lemma div_pow2 (x : Q) (e : Z) : (x / pow2 e == x * pow2 (- e))%Q.
Proof.
  unfold Qdiv. apply Qmult_comp; [reflexivity |].
  unfold pow2. rewrite Qpower_opp. reflexivity.
Qed.

Lemma mul_div_pow2 (x : Q) (e : Z) : (x / pow2 e * pow2 e == x)%Q.
Proof.
  pose proof (pow2_pos e). field. lra.
Qed.

(** ** The binary logarithm *)

Lemma inject_Z_log2 (n : Z) :
  0 < n -> (pow2 (Z.log2 n) <= inject_Z n /\ inject_Z n < pow2 (Z.log2 n + 1))%Q.
Proof.
  intros Hn. destruct (Z.log2_spec n Hn) as [Hlo Hhi].
  pose proof (Z.log2_nonneg n) as Hnn.
  rewrite !pow2_Z by lia. rewrite <- Zle_Qle, <- Zlt_Qlt.
  replace (Z.log2 n + 1) with (Z.succ (Z.log2 n)) by lia. split; assumption.
Qed.

Lemma ilog2_spec (x : Q) :
  (0 < x)%Q -> (pow2 (ilog2 x) <= x /\ x < pow2 (ilog2 x + 1))%Q.
Proof.
  intros Hx. unfold ilog2.
  destruct x as [a b]. assert (Ha : 0 < a).
  { unfold Qlt in Hx. cbn in Hx. lia. }
  cbn [Qnum Qden].
  destruct (inject_Z_log2 a Ha) as [Ha1 Ha2].
  destruct (inject_Z_log2 (Zpos b) eq_refl) as [Hb1 Hb2].
  set (la := Z.log2 a) in *. set (lb := Z.log2 (Zpos b)) in *.
  assert (Hx' : (a # b == inject_Z a / inject_Z (Zpos b))%Q) by apply Qmake_Qdiv.
  assert (HB : (0 < inject_Z (Zpos b))%Q) by reflexivity.
  assert (Hmul : ((a # b) * inject_Z (Zpos b) == inject_Z a)%Q).
  { rewrite Hx'. field. lra. }
  pose proof (pow2_pos lb) as Hplb. pose proof (pow2_pos (la - lb)) as Hpk.
  assert (Hk : (pow2 (la - lb) * pow2 lb == pow2 la)%Q).
  { rewrite <- pow2_add. replace (la - lb + lb) with la by lia. reflexivity. }
  assert (Hlb1 : (pow2 (lb + 1) == 2 * pow2 lb)%Q) by apply pow2_succ.
  assert (Hla1 : (pow2 (la + 1) == 2 * pow2 la)%Q) by apply pow2_succ.
  destruct (Qle_bool (pow2 (la - lb)) (a # b)) eqn:E.
  - apply Qle_bool_iff in E. split; [exact E |].
    rewrite pow2_succ.
    apply Qnot_le_lt. intros Hge.
    assert ((2 * pow2 (la - lb)) * pow2 lb <= (a # b) * inject_Z (Zpos b))%Q.
    { apply (Qle_trans _ ((a # b) * pow2 lb)).
      - apply Qmult_le_compat_r; [exact Hge | lra].
      - apply Qmult_le_l; [exact Hx | exact Hb1]. }
    lra.
  - assert (Hlt : (a # b < pow2 (la - lb))%Q).
    { apply Qnot_le_lt. intros H. apply Qle_bool_iff in H. congruence. }
    replace (la - lb - 1 + 1) with (la - lb) by lia.
    split; [| exact Hlt].
    pose proof (pow2_pred (la - lb)) as Hp.
    apply Qnot_lt_le. intros Hlt2.
    assert ((a # b) * inject_Z (Zpos b) < pow2 (la - lb - 1) * (2 * pow2 lb))%Q.
    { apply (Qle_lt_trans _ (pow2 (la - lb - 1) * inject_Z (Zpos b))).
      - apply Qmult_le_compat_r; lra.
      - apply Qmult_lt_l; [apply pow2_pos | lra]. }
    assert (pow2 (la - lb - 1) * (2 * pow2 lb) == pow2 la)%Q.
    { rewrite <- Hk, <- Hp. ring. }
    lra.
Qed.

Lemma ilog2_unique (x : Q) (k : Z) :
  (pow2 k <= x)%Q -> (x < pow2 (k + 1))%Q -> ilog2 x = k.
Proof.
  intros Hlo Hhi.
  assert (Hx : (0 < x)%Q) by (pose proof (pow2_pos k); lra).
  destruct (ilog2_spec x Hx) as [Hlo' Hhi'].
  assert (k < ilog2 x + 1) by (apply pow2_lt_inv; lra).
  assert (ilog2 x < k + 1) by (apply pow2_lt_inv; lra).
  lia.
Qed.

Lemma ilog2_comp (x x' : Q) : (0 < x)%Q -> (x == x')%Q -> ilog2 x = ilog2 x'.
Proof.
  intros Hx Heq. destruct (ilog2_spec x Hx) as [Hlo Hhi].
  symmetry. apply ilog2_unique; lra.
Qed.

Lemma ilog2_mono (x x' : Q) : (0 < x)%Q -> (x <= x')%Q -> ilog2 x <= ilog2 x'.
Proof.
  intros Hx Hle.
  destruct (ilog2_spec x Hx) as [Hlo _].
  destruct (ilog2_spec x' ltac:(lra)) as [_ Hhi'].
  assert (ilog2 x < ilog2 x' + 1) by (apply pow2_lt_inv; lra).
  lia.
Qed.

(** ** Rounding to the nearest integer *)

Lemma roundHalfEven_cases (y : Q) :
  let f := Qfloor y in
  (inject_Z f <= y /\ y < inject_Z f + 1)%Q
  /\ ((y - inject_Z f < 1 # 2)%Q /\ roundHalfEven y = f
      \/ ((1 # 2) < y - inject_Z f)%Q /\ roundHalfEven y = f + 1
      \/ (y - inject_Z f == 1 # 2)%Q
         /\ roundHalfEven y = (if Z.even f then f else f + 1)).
Proof.
  intros f. split.
  - split; [apply Qfloor_le |].
    pose proof (Qlt_floor y) as H. fold f in H.
    rewrite inject_Z_plus in H. exact H.
  - unfold roundHalfEven. fold f.
    destruct (Qcompare_spec (y - inject_Z f) (1 # 2)) as [H | H | H].
    + right. right. split; [exact H | reflexivity].
    + left. split; [exact H | reflexivity].
    + right. left. split; [exact H | reflexivity].
Qed.

Lemma roundHalfEven_error (y : Q) :
  (y - (1 # 2) <= inject_Z (roundHalfEven y) <= y + (1 # 2))%Q.
Proof.
  destruct (roundHalfEven_cases y) as [[Hlo Hhi] [[Hd ->] | [[Hd ->] | [Hd ->]]]].
  - lra.
  - rewrite inject_Z_plus. change (inject_Z 1) with 1%Q. lra.
  - destruct (Z.even (Qfloor y)).
    + lra.
    + rewrite inject_Z_plus. change (inject_Z 1) with 1%Q. lra.
Qed.

Lemma roundHalfEven_Z (n : Z) : roundHalfEven (inject_Z n) = n.
Proof.
  destruct (roundHalfEven_cases (inject_Z n)) as [_ H].
  rewrite Qfloor_Z in H. cbn zeta in H.
  destruct H as [[_ H] | [[Hd _] | [Hd _]]]; [exact H | lra | lra].
Qed.

Lemma roundHalfEven_comp (y y' : Q) : (y == y')%Q -> roundHalfEven y = roundHalfEven y'.
Proof.
  intros H. unfold roundHalfEven.
  rewrite (Qfloor_comp _ _ H).
  assert (Hc : (y - inject_Z (Qfloor y') ?= 1 # 2)%Q = (y' - inject_Z (Qfloor y') ?= 1 # 2)%Q).
  { apply Qcompare_comp; [rewrite H; reflexivity | reflexivity]. }
  rewrite Hc. reflexivity.
Qed.

Lemma roundHalfEven_mono (y y' : Q) :
  (y <= y')%Q -> roundHalfEven y <= roundHalfEven y'.
Proof.
  intros Hle.
  pose proof (Qfloor_resp_le _ _ Hle) as Hf.
  destruct (roundHalfEven_cases y) as [[Hlo Hhi] Hy].
  destruct (roundHalfEven_cases y') as [[Hlo' Hhi'] Hy'].
  cbn zeta in *.
  destruct (Z.eq_dec (Qfloor y) (Qfloor y')) as [Heq | Hne].
  - rewrite <- Heq in *.
    destruct Hy as [[Hd ->] | [[Hd ->] | [Hd ->]]];
      destruct Hy' as [[Hd' ->] | [[Hd' ->] | [Hd' ->]]];
      try destruct (Z.even (Qfloor y)); try lia; exfalso; lra.
  - assert (Hlt : Qfloor y + 1 <= Qfloor y') by lia.
    assert (H1 : roundHalfEven y <= Qfloor y + 1).
    { destruct Hy as [[_ ->] | [[_ ->] | [_ ->]]]; try destruct (Z.even (Qfloor y)); lia. }
    assert (H2 : Qfloor y' <= roundHalfEven y').
    { destruct Hy' as [[_ ->] | [[_ ->] | [_ ->]]]; try destruct (Z.even (Qfloor y')); lia. }
    lia.
Qed.

(** ** Rounding a positive rational *)

Lemma ulpExponent_cases (x : Q) :
  -1074 <= ulpExponent x /\ ilog2 x - 52 <= ulpExponent x
  /\ (ulpExponent x = ilog2 x - 52 \/ ulpExponent x = -1074).
Proof.
  unfold ulpExponent. lia.
Qed.

Lemma roundPositive_eq (x : Q) :
  (roundPositive x
   == inject_Z (roundHalfEven (x / pow2 (ulpExponent x))) * pow2 (ulpExponent x))%Q.
Proof.
  unfold roundPositive. apply Qred_correct.
Qed.

Lemma scaled_lt (x : Q) (e : Z) :
  (0 < x)%Q -> ilog2 x - 52 <= e -> (0 < x / pow2 e /\ x / pow2 e < pow2 53)%Q.
Proof.
  intros Hx He. pose proof (pow2_pos e) as Hpe.
  destruct (ilog2_spec x Hx) as [_ Hhi]. split.
  - apply Qlt_shift_div_l; [exact Hpe | lra].
  - apply Qlt_shift_div_r; [exact Hpe |].
    rewrite <- pow2_add.
    apply (Qlt_le_trans _ _ _ Hhi). apply pow2_le. lia.
Qed.

Lemma scaled_ge (x : Q) :
  (0 < x)%Q -> (pow2 52 <= x / pow2 (ilog2 x - 52))%Q.
Proof.
  intros Hx. destruct (ilog2_spec x Hx) as [Hlo _].
  apply Qle_shift_div_l; [apply pow2_pos |].
  rewrite <- pow2_add. replace (52 + (ilog2 x - 52)) with (ilog2 x) by lia. exact Hlo.
Qed.

Lemma roundHalfEven_le_Z (y : Q) (n : Z) :
  (y <= inject_Z n)%Q -> roundHalfEven y <= n.
Proof.
  intros H. rewrite <- (roundHalfEven_Z n). apply roundHalfEven_mono, H.
Qed.

Lemma roundHalfEven_ge_Z (y : Q) (n : Z) :
  (inject_Z n <= y)%Q -> n <= roundHalfEven y.
Proof.
  intros H. rewrite <- (roundHalfEven_Z n). apply roundHalfEven_mono, H.
Qed.

(** The mantissa of the rounded value. *)
Lemma mantissa_bounds (x : Q) :
  (0 < x)%Q ->
  let n := roundHalfEven (x / pow2 (ulpExponent x)) in
  0 <= n <= 2 ^ 53 /\ (ulpExponent x = ilog2 x - 52 -> 2 ^ 52 <= n).
Proof.
  intros Hx n. destruct (ulpExponent_cases x) as (_ & He & _).
  destruct (scaled_lt x _ Hx He) as [Hy0 Hy1].
  split; [split |].
  - apply roundHalfEven_ge_Z. change (inject_Z 0) with 0%Q. lra.
  - apply roundHalfEven_le_Z. rewrite <- pow2_Z by lia. lra.
  - intros Hnormal. apply roundHalfEven_ge_Z. rewrite <- pow2_Z by lia.
    rewrite Hnormal. apply scaled_ge, Hx.
Qed.

Lemma roundPositive_nonneg (x : Q) : (0 < x)%Q -> (0 <= roundPositive x)%Q.
Proof.
  intros Hx. rewrite roundPositive_eq.
  destruct (mantissa_bounds x Hx) as [[Hn _] _].
  apply Qmult_le_0_compat; [| apply Qlt_le_weak, pow2_pos].
  change 0%Q with (inject_Z 0). rewrite <- Zle_Qle. exact Hn.
Qed.

Lemma roundPositive_upper (x : Q) :
  (0 < x)%Q -> (roundPositive x <= pow2 (ulpExponent x + 53))%Q.
Proof.
  intros Hx. rewrite roundPositive_eq.
  destruct (mantissa_bounds x Hx) as [[_ Hn] _].
  rewrite (Z.add_comm _ 53), pow2_add.
  apply Qmult_le_compat_r; [| apply Qlt_le_weak, pow2_pos].
  rewrite (pow2_Z 53) by lia. rewrite <- Zle_Qle. exact Hn.
Qed.

Lemma roundPositive_lower (x : Q) :
  (0 < x)%Q -> ulpExponent x = ilog2 x - 52 ->
  (pow2 (ulpExponent x + 52) <= roundPositive x)%Q.
Proof.
  intros Hx Hnormal. rewrite roundPositive_eq.
  destruct (mantissa_bounds x Hx) as [_ Hn].
  rewrite (Z.add_comm _ 52), pow2_add.
  apply Qmult_le_compat_r; [| apply Qlt_le_weak, pow2_pos].
  rewrite (pow2_Z 52) by lia. rewrite <- Zle_Qle. apply Hn, Hnormal.
Qed.

Lemma roundPositive_mono (x x' : Q) :
  (0 < x)%Q -> (x <= x')%Q -> (roundPositive x <= roundPositive x')%Q.
Proof.
  intros Hx Hle. assert (Hx' : (0 < x')%Q) by lra.
  pose proof (ilog2_mono x x' Hx Hle) as Hk.
  destruct (ulpExponent_cases x) as (Hmin & He & _).
  destruct (ulpExponent_cases x') as (_ & _ & He').
  destruct (Z.eq_dec (ulpExponent x) (ulpExponent x')) as [Heq | Hne].
  - rewrite !roundPositive_eq, <- Heq.
    apply Qmult_le_compat_r; [| apply Qlt_le_weak, pow2_pos].
    rewrite <- Zle_Qle. apply roundHalfEven_mono.
    apply Qmult_le_compat_r; [exact Hle |].
    apply Qlt_le_weak, Qinv_lt_0_compat, pow2_pos.
  - assert (Hlt : ulpExponent x < ulpExponent x') by (unfold ulpExponent in *; lia).
    assert (Hnormal : ulpExponent x' = ilog2 x' - 52) by lia.
    apply (Qle_trans _ _ _ (roundPositive_upper x Hx)).
    apply (Qle_trans _ (pow2 (ulpExponent x' + 52)));
      [apply pow2_le; lia | apply (roundPositive_lower x' Hx' Hnormal)].
Qed.

(** A positive multiple of a power of two with at most 53 bits is not
    changed by rounding. *)
Lemma roundPositive_exact_lt (x : Q) (m e0 : Z) :
  0 < m < 2 ^ 53 -> -1074 <= e0 -> (x == inject_Z m * pow2 e0)%Q ->
  (roundPositive x == x)%Q.
Proof.
  intros Hm He0 Hx.
  assert (Hm0 : (0 < inject_Z m)%Q) by (change 0%Q with (inject_Z 0); rewrite <- Zlt_Qlt; lia).
  assert (Hm1 : (inject_Z m < pow2 53)%Q) by (rewrite (pow2_Z 53) by lia; rewrite <- Zlt_Qlt; lia).
  pose proof (pow2_pos e0) as Hpe0.
  assert (Hpos : (0 < x)%Q).
  { rewrite Hx. apply Qmult_lt_0_compat; assumption. }
  assert (Hk : ilog2 x < 53 + e0).
  { destruct (ilog2_spec x Hpos) as [Hlo _].
    apply pow2_lt_inv. apply (Qle_lt_trans _ _ _ Hlo).
    rewrite Hx, pow2_add. apply Qmult_lt_compat_r; assumption. }
  assert (He : ulpExponent x <= e0) by (unfold ulpExponent; lia).
  rewrite roundPositive_eq.
  set (e := ulpExponent x) in *.
  assert (Hy : (x / pow2 e == inject_Z (m * 2 ^ (e0 - e)))%Q).
  { rewrite inject_Z_mult, <- pow2_Z by lia. rewrite Hx, div_pow2.
    rewrite <- Qmult_assoc, <- pow2_add. replace (e0 + - e) with (e0 - e) by lia.
    reflexivity. }
  rewrite (roundHalfEven_comp _ _ Hy), roundHalfEven_Z, <- Hy.
  apply mul_div_pow2.
Qed.

Lemma roundPositive_exact (x : Q) (m e0 : Z) :
  0 < m <= 2 ^ 53 -> -1074 <= e0 -> (x == inject_Z m * pow2 e0)%Q ->
  (roundPositive x == x)%Q.
Proof.
  intros Hm He0 Hx.
  destruct (Z.eq_dec m (2 ^ 53)) as [-> | Hne].
  - apply (roundPositive_exact_lt x (2 ^ 52) (e0 + 1)); [lia | lia |].
    rewrite Hx, pow2_succ.
    change (inject_Z (2 ^ 53)) with (2 * inject_Z (2 ^ 52))%Q. ring.
  - apply (roundPositive_exact_lt x m e0); [lia | exact He0 | exact Hx].
Qed.

(** The result of rounding is such a multiple. *)
Lemma roundPositive_representable (x : Q) :
  (0 < x)%Q ->
  exists m e0, 0 <= m <= 2 ^ 53 /\ -1074 <= e0
               /\ (roundPositive x == inject_Z m * pow2 e0)%Q.
Proof.
  intros Hx. exists (roundHalfEven (x / pow2 (ulpExponent x))), (ulpExponent x).
  destruct (mantissa_bounds x Hx) as [Hn _].
  destruct (ulpExponent_cases x) as (Hmin & _).
  split; [exact Hn |]. split; [exact Hmin | apply roundPositive_eq].
Qed.

Lemma roundPositive_error (x : Q) :
  (0 < x)%Q ->
  (x - pow2 (ulpExponent x - 1) <= roundPositive x <= x + pow2 (ulpExponent x - 1))%Q.
Proof.
  intros Hx. rewrite roundPositive_eq.
  set (e := ulpExponent x). pose proof (pow2_pos e) as Hpe.
  pose proof (roundHalfEven_error (x / pow2 e)) as [Hlo Hhi].
  pose proof (mul_div_pow2 x e) as Hxe.
  pose proof (pow2_pred e) as Hp.
  assert (H1 : ((x / pow2 e - (1 # 2)) * pow2 e
                <= inject_Z (roundHalfEven (x / pow2 e)) * pow2 e)%Q)
    by (apply Qmult_le_compat_r; lra).
  assert (H2 : (inject_Z (roundHalfEven (x / pow2 e)) * pow2 e
                <= (x / pow2 e + (1 # 2)) * pow2 e)%Q)
    by (apply Qmult_le_compat_r; lra).
  split; lra.
Qed.

Lemma roundPositive_comp (x x' : Q) :
  (0 < x)%Q -> (x == x')%Q -> roundPositive x = roundPositive x'.
Proof.
  intros Hx Heq. unfold roundPositive, ulpExponent.
  rewrite (ilog2_comp x x' Hx Heq).
  apply Qred_complete.
  rewrite (roundHalfEven_comp (x / pow2 (Z.max (ilog2 x' - 52) (-1074)))
             (x' / pow2 (Z.max (ilog2 x' - 52) (-1074)))); [reflexivity |].
  rewrite Heq. reflexivity.
Qed.

(** ** Rounding *)

Lemma round64_pos (x : Q) : (0 < x)%Q -> round64 x = roundPositive x.
Proof.
  intros Hx. unfold round64.
  destruct (Qcompare_spec x 0) as [H | H | H]; [lra | lra | reflexivity].
Qed.

Lemma round64_neg (x : Q) : (x < 0)%Q -> round64 x = (- roundPositive (- x))%Q.
Proof.
  intros Hx. unfold round64.
  destruct (Qcompare_spec x 0) as [H | H | H]; [lra | reflexivity | lra].
Qed.

Lemma round64_zero (x : Q) : (x == 0)%Q -> round64 x = 0%Q.
Proof.
  intros Hx. unfold round64.
  destruct (Qcompare_spec x 0) as [H | H | H]; [reflexivity | lra | lra].
Qed.

Lemma round64_comp (x x' : Q) : (x == x')%Q -> round64 x = round64 x'.
Proof.
  intros Heq. destruct (Qlt_le_dec 0 x) as [Hpos | Hle].
  - rewrite !round64_pos by lra. apply roundPositive_comp; assumption.
  - destruct (Qlt_le_dec x 0) as [Hneg | Hge].
    + rewrite !round64_neg by lra. f_equal. apply roundPositive_comp; lra.
    + rewrite !round64_zero by lra. reflexivity.
Qed.

Lemma round64_opp (x : Q) : round64 (- x) = (- round64 x)%Q.
Proof.
  destruct (Qlt_le_dec 0 x) as [Hpos | Hle].
  - rewrite round64_neg, round64_pos by lra.
    f_equal. apply roundPositive_comp; lra.
  - destruct (Qlt_le_dec x 0) as [Hneg | Hge].
    + rewrite round64_pos, round64_neg by lra.
      destruct (roundPositive (- x)) as [a b]. unfold Qopp. cbn [Qnum Qden].
      rewrite Z.opp_involutive. reflexivity.
    + rewrite !round64_zero by lra. reflexivity.
Qed.

Lemma round64_mono (x x' : Q) : (x <= x')%Q -> (round64 x <= round64 x')%Q.
Proof.
  intros Hle.
  destruct (Qlt_le_dec 0 x) as [Hpos | Hnp].
  - rewrite !round64_pos by lra. apply roundPositive_mono; assumption.
  - destruct (Qlt_le_dec x 0) as [Hneg | Hge].
    + rewrite (round64_neg x Hneg).
      pose proof (roundPositive_nonneg (- x) ltac:(lra)) as H0.
      destruct (Qlt_le_dec 0 x') as [Hpos' | Hnp'].
      * rewrite round64_pos by exact Hpos'.
        pose proof (roundPositive_nonneg x' Hpos'). lra.
      * destruct (Qlt_le_dec x' 0) as [Hneg' | Hge'].
        -- rewrite (round64_neg x' Hneg').
           pose proof (roundPositive_mono (- x') (- x) ltac:(lra) ltac:(lra)). lra.
        -- rewrite (round64_zero x') by lra. lra.
    + rewrite (round64_zero x) by lra.
      destruct (Qlt_le_dec 0 x') as [Hpos' | Hnp'].
      * rewrite round64_pos by exact Hpos'. apply roundPositive_nonneg, Hpos'.
      * rewrite (round64_zero x') by lra. lra.
Qed.

(** Binary64 numbers: the multiples [m * 2^e0] with at most 53 bits and an
    exponent of -1074 at least. Rounding leaves them as they are. *)
Lemma round64_exact (x : Q) (m e0 : Z) :
  Z.abs m <= 2 ^ 53 -> -1074 <= e0 -> (x == inject_Z m * pow2 e0)%Q ->
  (round64 x == x)%Q.
Proof.
  intros Hm He0 Hx. pose proof (pow2_pos e0) as Hpe0.
  destruct (Z.lt_trichotomy m 0) as [Hneg | [-> | Hpos]].
  - assert (Hxneg : (x < 0)%Q).
    { rewrite Hx. assert (inject_Z m < 0)%Q
        by (change 0%Q with (inject_Z 0); rewrite <- Zlt_Qlt; lia).
      setoid_replace 0%Q with (0 * pow2 e0)%Q by ring.
      apply Qmult_lt_compat_r; assumption. }
    rewrite round64_neg by exact Hxneg.
    rewrite (roundPositive_exact (- x) (- m) e0); [ring | lia | exact He0 |].
    rewrite Hx, inject_Z_opp. ring.
  - rewrite round64_zero; [| rewrite Hx; change (inject_Z 0) with 0%Q; ring].
    rewrite Hx. change (inject_Z 0) with 0%Q. ring.
  - assert (Hxpos : (0 < x)%Q).
    { rewrite Hx. apply Qmult_lt_0_compat; [| exact Hpe0].
      change 0%Q with (inject_Z 0). rewrite <- Zlt_Qlt. lia. }
    rewrite round64_pos by exact Hxpos.
    apply (roundPositive_exact x m e0); [lia | exact He0 | exact Hx].
Qed.

(** The result of rounding is in lowest terms: equal values are equal. *)
Lemma round64_canonical (x : Q) : Qred (round64 x) = round64 x.
Proof.
  unfold round64. destruct (x ?= 0)%Q.
  - reflexivity.
  - rewrite Qred_opp. f_equal. unfold roundPositive.
    apply Qred_complete, Qred_correct.
  - unfold roundPositive. apply Qred_complete, Qred_correct.
Qed.

Lemma round64_eq (x q : Q) : (round64 x == q)%Q -> Qred q = q -> round64 x = q.
Proof.
  intros Heq Hq. rewrite <- (round64_canonical x), <- Hq.
  apply Qred_complete, Heq.
Qed.

Lemma Qred_inject_Z (n : Z) : Qred (inject_Z n) = inject_Z n.
Proof.
  unfold Qred, inject_Z. cbn [Qnum Qden].
  pose proof (Z.ggcd_gcd n 1) as Hg. pose proof (Z.ggcd_correct_divisors n 1) as Hd.
  destruct (Z.ggcd n 1) as [g [a b]]. cbn [fst snd] in *.
  rewrite Z.gcd_1_r in Hg. subst g. destruct Hd as [Ha Hb].
  rewrite !Z.mul_1_l in *. subst a b. reflexivity.
Qed.

Lemma round64_Z (n : Z) : Z.abs n <= 2 ^ 53 -> round64 (inject_Z n) = inject_Z n.
Proof.
  intros Hn. apply round64_eq; [| apply Qred_inject_Z].
  apply (round64_exact _ n 0); [exact Hn | lia |]. rewrite pow2_0. ring.
Qed.

Lemma round64_representable (x : Q) :
  exists m e0, Z.abs m <= 2 ^ 53 /\ -1074 <= e0
               /\ (round64 x == inject_Z m * pow2 e0)%Q.
Proof.
  destruct (Qlt_le_dec 0 x) as [Hpos | Hnp].
  - rewrite round64_pos by exact Hpos.
    destruct (roundPositive_representable x Hpos) as (m & e0 & Hm & He & Hr).
    exists m, e0. split; [lia |]. split; assumption.
  - destruct (Qlt_le_dec x 0) as [Hneg | Hge].
    + rewrite round64_neg by exact Hneg.
      destruct (roundPositive_representable (- x) ltac:(lra)) as (m & e0 & Hm & He & Hr).
      exists (- m), e0. split; [lia |]. split; [exact He |].
      rewrite Hr, inject_Z_opp. ring.
    + exists 0, 0. split; [lia |]. split; [lia |].
      rewrite round64_zero by lra. reflexivity.
Qed.

Lemma round64_idempotent (x : Q) : representable (round64 x).
Proof.
  destruct (round64_representable x) as (m & e0 & Hm & He & Hr).
  apply round64_eq; [| apply round64_canonical].
  apply (round64_exact (round64 x) m e0 Hm He Hr).
Qed.

Lemma representable_Z (n : Z) : Z.abs n <= 2 ^ 53 -> representable (inject_Z n).
Proof.
  apply round64_Z.
Qed.

Lemma representable_opp (x : Q) : representable x -> representable (- x).
Proof.
  unfold representable. intros H. rewrite round64_opp, H. reflexivity.
Qed.

(** Rounding stays between the binary64 numbers around the value. *)
Lemma round64_le (x b : Q) : representable b -> (x <= b)%Q -> (round64 x <= b)%Q.
Proof.
  intros Hb Hle. rewrite <- Hb. apply round64_mono, Hle.
Qed.

Lemma round64_ge (x a : Q) : representable a -> (a <= x)%Q -> (a <= round64 x)%Q.
Proof.
  intros Ha Hle. rewrite <- Ha. apply round64_mono, Hle.
Qed.

Lemma round64_abs (x : Q) : (Qabs (round64 x) == round64 (Qabs x))%Q.
Proof.
  destruct (Qlt_le_dec x 0) as [Hneg | Hge].
  - assert (H0 : (round64 x <= 0)%Q).
    { apply (round64_le x 0); [reflexivity | lra]. }
    rewrite (Qabs_neg _ H0).
    rewrite (round64_comp (Qabs x) (- x)) by (apply Qabs_neg; lra).
    rewrite round64_opp. reflexivity.
  - assert (H0 : (0 <= round64 x)%Q).
    { apply (round64_ge x 0); [reflexivity | lra]. }
    rewrite (Qabs_pos _ H0).
    rewrite (round64_comp (Qabs x) x) by (apply Qabs_pos; lra). reflexivity.
Qed.

(** The rounding error of a value of magnitude below 1 is 2^-54 at most. *)
Lemma round64_error_unit (x : Q) :
  (Qabs x <= 1)%Q -> (Qabs (round64 x - x) <= pow2 (-54))%Q.
Proof.
  intros Hx. apply Qabs_Qle_condition in Hx. destruct Hx as [Hlo Hhi].
  assert (Hpos : forall y, (0 < y)%Q -> (y <= 1)%Q ->
                   (y - pow2 (-54) <= roundPositive y <= y + pow2 (-54))%Q).
  { intros y Hy0 Hy1.
    destruct (Qlt_le_dec y 1) as [Hlt | Hge].
    - pose proof (roundPositive_error y Hy0) as [Ha Hb].
      assert (Hk : ilog2 y < 0).
      { destruct (ilog2_spec y Hy0) as [Hl _]. apply pow2_lt_inv.
        rewrite pow2_0. lra. }
      assert (He : (pow2 (ulpExponent y - 1) <= pow2 (-54))%Q)
        by (apply pow2_le; unfold ulpExponent; lia).
      split; lra.
    - assert (Hy : (y == inject_Z 1 * pow2 0)%Q) by (rewrite pow2_0; change (inject_Z 1) with 1%Q; lra).
      pose proof (roundPositive_exact y 1 0 ltac:(lia) ltac:(lia) Hy) as He.
      pose proof (pow2_pos (-54)). split; lra. }
  apply Qabs_Qle_condition.
  destruct (Qlt_le_dec 0 x) as [Hp | Hnp].
  - rewrite round64_pos by exact Hp. destruct (Hpos x Hp Hhi). split; lra.
  - destruct (Qlt_le_dec x 0) as [Hneg | Hge].
    + rewrite round64_neg by exact Hneg.
      destruct (Hpos (- x)%Q ltac:(lra) ltac:(lra)). split; lra.
    + rewrite round64_zero by lra. pose proof (pow2_pos (-54)). split; lra.
Qed.
(** ** Chasm frame selection *)




Lemma clamp_bounds (v lo hi : Z) : lo <= hi -> lo <= clamp v lo hi <= hi.
Proof.
  intros H. unfold clamp.
  destruct (Z.ltb_spec v lo); [lia |]. destruct (Z.ltb_spec hi v); lia.
Qed.


Lemma inject_Z_INT_MAX : (inject_Z INT_MAX < pow2 1024)%Q.
Proof.
  apply (Qlt_trans _ (pow2 31)); [| apply pow2_lt; lia].
  rewrite (pow2_Z 31) by lia. rewrite <- Zlt_Qlt. unfold INT_MAX. lia.
Qed.

(** A result within the range of [int] is rounded to a finite value in that
    range, which the conversion to [int] truncates. *)
Lemma roundResult_inIntRange (x : Q) :
  inIntRange x ->
  roundResult x = Finite (round64 x) /\ inIntRange (round64 x)
  /\ double_to_int (Finite (round64 x))
     = Z.quot (Qnum (round64 x)) (Zpos (Qden (round64 x))).
Proof.
  intros [Hlo Hhi].
  assert (HM : INT_MIN < 0 < INT_MAX) by (unfold INT_MIN, INT_MAX; lia).
  assert (Hrlo : (inject_Z INT_MIN <= round64 x)%Q).
  { apply round64_ge; [| exact Hlo]. apply representable_Z. unfold INT_MIN. lia. }
  assert (Hrhi : (round64 x <= inject_Z INT_MAX)%Q).
  { apply round64_le; [| exact Hhi]. apply representable_Z. unfold INT_MAX. lia. }
  split; [| split; [split; assumption |]].
  - unfold roundResult.
    destruct (Qle_bool (pow2 1024) (Qabs (round64 x))) eqn:E; [| reflexivity].
    apply Qle_bool_iff in E. pose proof inject_Z_INT_MAX as Hmax.
    assert (Habs : (Qabs (round64 x) <= inject_Z INT_MAX + 1)%Q).
    { apply Qabs_Qle_condition. split; [| lra].
      assert (inject_Z INT_MIN == - (inject_Z INT_MAX + 1))%Q
        by (unfold INT_MIN, INT_MAX; reflexivity).
      lra. }
    assert (Hone : (inject_Z INT_MAX + 1 < pow2 1024)%Q).
    { apply (Qle_lt_trans _ (pow2 31)); [| apply pow2_lt; lia].
      rewrite (pow2_Z 31) by lia. unfold INT_MAX. vm_compute. discriminate. }
    lra.
  - unfold double_to_int.
    destruct (round64 x) as [n den]. unfold Qle in Hrlo, Hrhi.
    cbn [Qnum Qden inject_Z] in *.
    assert (Hr : INT_MIN <= Z.quot n (Zpos den) <= INT_MAX).
    { destruct (Z.lt_ge_cases n 0) as [Hn | Hn].
      - assert (Hq : Z.quot n (Zpos den) = - ((- n) / Zpos den)).
        { replace n with (- (- n)) at 1 by lia. rewrite Z.quot_opp_l by lia.
          rewrite Z.quot_div_nonneg by lia. reflexivity. }
        assert (0 <= (- n) / Zpos den) by (apply Z.div_pos; lia).
        assert ((- n) / Zpos den <= - INT_MIN) by (apply Z.div_le_upper_bound; lia).
        lia.
      - rewrite Z.quot_div_nonneg by lia.
        assert (0 <= n / Zpos den) by (apply Z.div_pos; lia).
        assert (n / Zpos den <= INT_MAX) by (apply Z.div_le_upper_bound; lia).
        lia. }
    destruct (Z.leb_spec INT_MIN (Z.quot n (Zpos den))),
      (Z.leb_spec (Z.quot n (Zpos den)) INT_MAX); try lia.
    reflexivity.
Qed.

(** [getTextureIndex] returns a frame of the list whenever the list has
    one, for every [double]. *)
Lemma getTextureIndex_total (l : LoadedChasmFloorTextureList) (p : double) :
  1 <= Z.of_nat (length (objectTextureRefs l)) ->
  exists i, getTextureIndex l p = Ok i
            /\ 0 <= i <= Z.of_nat (length (objectTextureRefs l)) - 1.
Proof.
  intros HF. unfold getTextureIndex.
  destruct (Z.geb_spec (Z.of_nat (length (objectTextureRefs l))) 1) as [_ | Hlt]; [| lia].
  destruct (animType l).
  - exists 0. split; [reflexivity | lia].
  - eexists. split; [reflexivity |]. apply clamp_bounds. lia.
Qed.






(** ** Mesh buffers when a creation fails *)

(** C5: the mesh buffers of a chunk with one Wall mesh, on a backend whose
    fourth creation call (the first opaque index buffer) fails. The three
    buffers made so far are released, but the loop over the opaque index
    buffers goes on: two more index buffers are created and stay alive, and
    the mesh is registered with no vertex buffer and an index buffer count of
    two, the first counted slot holding no buffer. *)
Theorem opaque_index_failure_keeps_going :
  let (renderChunk, w) :=
    RenderChunkManager.loadVoxelMeshBuffers Samples.arena
      (RenderChunk.init Samples.arena (0, 0) 1) Samples.wallChunk 1%Q
      (Samples.backend [true; true; true; false]) in
  RenderChunk.meshDefs renderChunk =
    [RenderVoxelMeshDefinition.default;
     RenderVoxelMeshDefinition.mk (-1) (-1) (-1) [-1; 3; 4] 2 (-1)]
  /\ RenderChunk.meshDefMappings renderChunk = [(0, 0); (1, 1)]
  /\ map (fun b => (bufferID b, bufferKind b)) (buffers (renderer w)) =
       [(3, IndexBuffer); (4, IndexBuffer)]
  /\ debugLog w = [LogError "Couldn't create opaque index buffer for voxel mesh."].
Proof. vm_compute. repeat split; reflexivity. Qed.

(** ** Rebuilding a chunk that was never loaded *)

Lemma rebuild_unloaded_returns :
  RenderChunkManager.rebuildVoxelChunkDrawCalls Samples.arena
    (fst Samples.started) Samples.wallChunk 1%Q 0%Q true true []
  = Ok (fst Samples.started, [LogError "No render chunk available."]).
Proof. vm_compute. reflexivity. Qed.

(** C7 (amended): rebuilding the draw calls of a chunk position that has no
    render chunk logs one error and returns normally; the manager is left as
    it was. *)
Theorem rebuild_without_render_chunk (K : Constants) (this : RenderChunkManager.t)
  (voxelChunk : VoxelChunk) (ceilingScale chasmAnimPercent : double)
  (updateStatics updateAnimating : bool) (log : DebugLog) :
  RenderChunkManager.tryGetRenderChunkIndex this (getPosition voxelChunk) = None ->
  RenderChunkManager.rebuildVoxelChunkDrawCalls K this voxelChunk ceilingScale
    chasmAnimPercent updateStatics updateAnimating log
  = Ok (this, log ++ [LogError "No render chunk available."]).
Proof.
  intros H. unfold RenderChunkManager.rebuildVoxelChunkDrawCalls. rewrite H. reflexivity.
Qed.

Lemma rebuild_without_render_chunk_witness :
  RenderChunkManager.rebuildVoxelChunkDrawCalls Samples.arena
    (RenderChunkManager.create Samples.arena) Samples.doorChunk 1%Q (1 # 2)%Q false true []
  = Ok (RenderChunkManager.create Samples.arena, [] ++ [LogError "No render chunk available."]).
Proof.
  apply (rebuild_without_render_chunk Samples.arena
           (RenderChunkManager.create Samples.arena) Samples.doorChunk).
  reflexivity.
Defined.

(** ** Chasm floor lists without textures *)

(** C10: a chunk whose animated chasm definition names one frame that the
    texture manager cannot load. The load itself succeeds and leaves a floor
    texture list with no texture handle in the cache; resolving the floor
    texture of that chasm then fails the texture count assertion of
    [getTextureIndex]. *)
Theorem empty_chasm_floor_list :
  match RenderChunkManager.loadVoxelChunk Samples.arena (fst Samples.started)
          Samples.wetChasmChunk 1%Q (Samples.textureManagerOf [Samples.asset "wall"])
          (snd Samples.started) with
  | Ok (this, _) =>
      map objectTextureRefs (RenderChunkManager.chasmFloorTextureLists this) = [[]]
      /\ RenderChunkManager.getChasmFloorTextureID this (0, 0) 0 0%Q = Fatal AssertionFailed
      /\ isOk (RenderChunkManager.rebuildVoxelChunkDrawCalls Samples.arena this
                 Samples.wetChasmChunk 1%Q 0%Q true true []) = false
  | Fatal _ => False
  end.
Proof. vm_compute. repeat split; reflexivity. Qed.

(** ** Loading a chunk and unloading it again *)

Lemma extends_refl {A : Type} (l : list A) : extends l l.
Proof. exists []. symmetry. apply app_nil_r. Qed.

Lemma extends_trans {A : Type} (l1 l2 l3 : list A) :
  extends l1 l2 -> extends l2 l3 -> extends l1 l3.
Proof.
  intros [e1 H1] [e2 H2]. exists (e1 ++ e2). rewrite H2, H1. symmetry. apply app_assoc.
Qed.

Lemma extends_app {A : Type} (l e : list A) : extends l (l ++ e).
Proof. exists e. reflexivity. Qed.

Lemma LoadVoxelDefTexture_extends (tm : TextureManager)
  (st : list LoadedVoxelTexture * World) (a : TextureAsset) :
  extends (fst st) (fst (LoadVoxelDefTexture tm st a)).
Proof.
  unfold LoadVoxelDefTexture. destruct st as [vt w]. cbn [fst].
  destruct (existsb _ vt); [apply extends_refl |].
  destruct (tryGetTextureBuilderID tm a); [| apply extends_refl].
  destruct (tryCreateObjectTexture _ _) as [[id |] r]; cbn [fst];
    [apply extends_app | apply extends_refl].
Qed.

Lemma LoadVoxelDefTextures_extends (def : VoxelTextureDefinition)
  (vt : list LoadedVoxelTexture) (tm : TextureManager) (w : World) :
  extends vt (fst (LoadVoxelDefTextures def vt tm w)).
Proof.
  unfold LoadVoxelDefTextures.
  apply (fold_left_invariant (fun st => extends vt (fst st))).
  - apply extends_refl.
  - intros st a H. eapply extends_trans; [exact H | apply LoadVoxelDefTexture_extends].
Qed.

Lemma addChasmTextureKey_extends (pos : ChunkInt2) (id : ChasmDefID) (def : ChasmDefinition)
  (vt : list LoadedVoxelTexture) (idx : Z) (keys keys' : list LoadedChasmTextureKey.t) :
  addChasmTextureKey pos id def vt idx keys = Ok keys' -> extends keys keys'.
Proof.
  unfold addChasmTextureKey. destruct (findIndex _ vt); [| discriminate].
  destruct (_ && _); [| discriminate].
  intros H. injection H as <-. apply extends_app.
Qed.

Lemma LoadChasmDefTextures_extends (id : ChasmDefID) (chunk : VoxelChunk)
  (vt : list LoadedVoxelTexture) (lists lists' : list LoadedChasmFloorTextureList)
  (keys keys' : list LoadedChasmTextureKey.t) (tm : TextureManager) (w w' : World) :
  LoadChasmDefTextures id chunk vt lists keys tm w = Ok (lists', keys', w') ->
  extends lists lists' /\ extends keys keys'.
Proof.
  unfold LoadChasmDefTextures.
  destruct (existsb _ keys).
  { intros H. injection H as <- <- <-. split; apply extends_refl. }
  destruct (findIndex _ lists) as [i |].
  { destruct (addChasmTextureKey _ _ _ _ _ _) as [k |] eqn:E; [| discriminate].
    intros H. injection H as <- <- <-.
    split; [apply extends_refl | eapply addChasmTextureKey_extends, E]. }
  destruct (chasmAnimType _).
  - destruct (tryCreateObjectTextureDims _ _ _ _) as [[tid |] r].
    + destruct (lockObjectTexture _ _) as [[tc |] r1].
      * destruct tc; [discriminate |].
        destruct (addChasmTextureKey _ _ _ _ _ _) as [k |] eqn:E; [| discriminate].
        intros H. injection H as <- <- <-.
        split; [apply extends_app | eapply addChasmTextureKey_extends, E].
      * intros H. injection H as <- <- <-. split; apply extends_refl.
    + intros H. injection H as <- <- <-. split; apply extends_refl.
  - destruct (fold_left _ _ _) as [[na nr] w1].
    destruct (addChasmTextureKey _ _ _ _ _ _) as [k |] eqn:E; [| discriminate].
    intros H. injection H as <- <- <-.
    split; [apply extends_app | eapply addChasmTextureKey_extends, E].
Qed.

(** [loadVoxelTextures] only appends to the three caches and leaves the rest
    of the manager alone. *)
Lemma loadVoxelTextures_extends (this this' : RenderChunkManager.t) (chunk : VoxelChunk)
  (tm : TextureManager) (w w' : World) :
  RenderChunkManager.loadVoxelTextures this chunk tm w = Ok (this', w') ->
  extends (RenderChunkManager.voxelTextures this) (RenderChunkManager.voxelTextures this')
  /\ extends (RenderChunkManager.chasmFloorTextureLists this)
       (RenderChunkManager.chasmFloorTextureLists this')
  /\ extends (RenderChunkManager.chasmTextureKeys this)
       (RenderChunkManager.chasmTextureKeys this')
  /\ RenderChunkManager.renderChunks this' = RenderChunkManager.renderChunks this
  /\ RenderChunkManager.chasmWallIndexBufferIDs this'
     = RenderChunkManager.chasmWallIndexBufferIDs this.
Proof.
  unfold RenderChunkManager.loadVoxelTextures.
  destruct (fold_left _ (chunkTextureDefs chunk) _) as [textures w1] eqn:E1.
  destruct (foldResult _ _ _) as [[[lists keys] w2] |] eqn:E2; [| discriminate].
  intros H. injection H as <- <-. cbn.
  repeat split.
  - change textures with (fst (textures, w1)). rewrite <- E1.
    apply (fold_left_invariant
             (fun st => extends (RenderChunkManager.voxelTextures this) (fst st))).
    + apply extends_refl.
    + intros st def H. eapply extends_trans; [exact H | apply LoadVoxelDefTextures_extends].
  - refine (foldResult_invariant
              (fun st => extends (RenderChunkManager.chasmFloorTextureLists this)
                           (fst (fst st))) _ _ _ (lists, keys, w2) _ _ E2).
    + apply extends_refl.
    + intros [[l k] w0] x [[l' k'] w0'] H E. cbn in *.
      eapply extends_trans; [exact H | eapply LoadChasmDefTextures_extends, E].
  - refine (foldResult_invariant
              (fun st => extends (RenderChunkManager.chasmTextureKeys this)
                           (snd (fst st))) _ _ _ (lists, keys, w2) _ _ E2).
    + apply extends_refl.
    + intros [[l k] w0] x [[l' k'] w0'] H E. cbn in *.
      eapply extends_trans; [exact H | eapply LoadChasmDefTextures_extends, E].
Qed.

Lemma registerMeshDefinition_position (id : Z) (d : RenderVoxelMeshDefinition.t)
  (rc : RenderChunk.t) :
  RenderChunk.position (RenderChunkManager.registerMeshDefinition id d rc)
  = RenderChunk.position rc.
Proof. reflexivity. Qed.

Lemma loadVoxelMeshBuffer_position (K : Constants) (chunk : VoxelChunk)
  (st : RenderChunk.t * World) (i : nat) :
  RenderChunk.position (fst (RenderChunkManager.loadVoxelMeshBuffer K chunk st i))
  = RenderChunk.position (fst st).
Proof.
  unfold RenderChunkManager.loadVoxelMeshBuffer. destruct st as [rc w]. cbn [fst].
  destruct (meshIsEmpty _); [reflexivity |].
  destruct (tryCreateVertexBuffer _ _ _) as [[vb |] r]; [| reflexivity].
  destruct (tryCreateAttributeBuffer _ _ r) as [[nb |] r1]; [| reflexivity].
  destruct (tryCreateAttributeBuffer _ _ r1) as [[tb |] r2]; [| reflexivity].
  destruct (fold_left _ _ _) as [d4 w4].
  destruct (_ >? 0); [| reflexivity].
  destruct (tryCreateIndexBuffer _ _) as [[ab |] r5]; reflexivity.
Qed.

Lemma loadVoxelMeshBuffers_position (K : Constants) (rc : RenderChunk.t)
  (chunk : VoxelChunk) (ceilingScale : double) (w : World) :
  RenderChunk.position (fst (RenderChunkManager.loadVoxelMeshBuffers K rc chunk ceilingScale w))
  = RenderChunk.position rc.
Proof.
  unfold RenderChunkManager.loadVoxelMeshBuffers.
  apply (fold_left_invariant
           (fun st => RenderChunk.position (fst st) = RenderChunk.position rc)).
  - reflexivity.
  - intros st i H. rewrite loadVoxelMeshBuffer_position. exact H.
Qed.

Lemma loadVoxelChasmWalls_position (K : Constants) (this : RenderChunkManager.t)
  (rc rc' : RenderChunk.t) (chunk : VoxelChunk) :
  RenderChunkManager.loadVoxelChasmWalls K this rc chunk = Ok rc' ->
  RenderChunk.position rc' = RenderChunk.position rc.
Proof.
  unfold RenderChunkManager.loadVoxelChasmWalls.
  destruct (RenderChunk.chasmWallIndexBufferIDs rc); [| discriminate].
  apply (foldResult_invariant (fun r => RenderChunk.position r = RenderChunk.position rc)).
  - reflexivity.
  - intros r [[x y] z] r' H. unfold RenderChunkManager.loadVoxelChasmWall.
    destruct (tryGetChasmWallInst chunk x y z).
    + destruct (_ >? 0); [| discriminate].
      destruct (at_ _ _); [| discriminate].
      intros E. injection E as <-. exact H.
    + intros E. injection E as <-. exact H.
Qed.

Lemma findIndexFrom_None {A : Type} (p : A -> bool) (l : list A) (i : Z) :
  findIndexFrom p l i = None <-> forall x, In x l -> p x = false.
Proof.
  revert i. induction l as [| a l IH]; intros i; cbn.
  - split; [intros _ x [] | reflexivity].
  - destruct (p a) eqn:E.
    + split; [discriminate |]. intros H. rewrite (H a (or_introl eq_refl)) in E. discriminate.
    + rewrite IH. split.
      * intros H x [<- | Hx]; [exact E | apply H, Hx].
      * intros H x Hx. apply H. right. exact Hx.
Qed.

Lemma findIndexFrom_last {A : Type} (p : A -> bool) (l : list A) (x : A) (i : Z) :
  findIndexFrom p l i = None -> p x = true ->
  findIndexFrom p (l ++ [x]) i = Some (i + Z.of_nat (length l)).
Proof.
  revert i. induction l as [| a l IH]; intros i Hn Hx; cbn in *.
  - rewrite Hx. f_equal. lia.
  - destruct (p a); [discriminate |].
    rewrite (IH (i + 1) Hn Hx). f_equal. lia.
Qed.

Lemma at_last {A : Type} (l : list A) (x : A) :
  at_ (l ++ [x]) (Z.of_nat (length l)) = Some x.
Proof.
  unfold at_. destruct (Z.ltb_spec (Z.of_nat (length l)) 0); [lia |].
  rewrite Nat2Z.id, nth_error_app2 by lia. rewrite Nat.sub_diag. reflexivity.
Qed.

Lemma eraseAt_last {A : Type} (l : list A) (x : A) :
  RenderChunkManager.eraseAt (l ++ [x]) (length l) = l.
Proof. induction l as [| a l IH]; cbn; [reflexivity | rewrite IH; reflexivity]. Qed.

(** C6 (amended): a chunk whose position held no render chunk is loaded and
    at once unloaded. The unload removes the render chunk again, so the
    render chunks are those from before the load and none is at that position;
    it leaves the three caches exactly as the load left them, and those are
    the caches from before the load with the entries the load created
    appended: nothing is evicted. *)
Theorem load_then_unload (K : Constants) (this this1 : RenderChunkManager.t)
  (chunk : VoxelChunk) (ceilingScale : double) (tm : TextureManager) (w w1 : World) :
  RenderChunkManager.tryGetRenderChunkIndex this (getPosition chunk) = None ->
  RenderChunkManager.loadVoxelChunk K this chunk ceilingScale tm w = Ok (this1, w1) ->
  let this2 := fst (RenderChunkManager.unloadVoxelChunk this1 (getPosition chunk) w1) in
  RenderChunkManager.renderChunks this2 = RenderChunkManager.renderChunks this
  /\ RenderChunkManager.tryGetRenderChunkIndex this2 (getPosition chunk) = None
  /\ RenderChunkManager.voxelTextures this2 = RenderChunkManager.voxelTextures this1
  /\ RenderChunkManager.chasmFloorTextureLists this2
     = RenderChunkManager.chasmFloorTextureLists this1
  /\ RenderChunkManager.chasmTextureKeys this2 = RenderChunkManager.chasmTextureKeys this1
  /\ extends (RenderChunkManager.voxelTextures this) (RenderChunkManager.voxelTextures this2)
  /\ extends (RenderChunkManager.chasmFloorTextureLists this)
       (RenderChunkManager.chasmFloorTextureLists this2)
  /\ extends (RenderChunkManager.chasmTextureKeys this)
       (RenderChunkManager.chasmTextureKeys this2).
Proof.
  intros Hnone Hload.
  unfold RenderChunkManager.loadVoxelChunk in Hload.
  destruct (RenderChunkManager.loadVoxelTextures this chunk tm w) as [[thisT wT] |] eqn:ET;
    [| discriminate].
  destruct (RenderChunkManager.loadVoxelMeshBuffers _ _ _ _ _) as [rc1 w2] eqn:EM.
  destruct (RenderChunkManager.loadVoxelChasmWalls K thisT rc1 chunk) as [rc2 |] eqn:EW;
    [| discriminate].
  injection Hload as <- <-.
  destruct (loadVoxelTextures_extends _ _ _ _ _ _ ET) as (HV & HL & HK & HR & _).
  assert (Hpos : RenderChunk.position rc2 = getPosition chunk).
  { rewrite (loadVoxelChasmWalls_position _ _ _ _ _ EW).
    change rc1 with (fst (rc1, w2)). rewrite <- EM.
    rewrite loadVoxelMeshBuffers_position. reflexivity. }
  unfold RenderChunkManager.tryGetRenderChunkIndex, findIndex in Hnone.
  unfold RenderChunkManager.unloadVoxelChunk, findIndex.
  cbn [RenderChunkManager.renderChunks RenderChunkManager.withRenderChunks].
  rewrite HR.
  rewrite (findIndexFrom_last _ _ rc2 0 Hnone)
    by (rewrite Hpos; unfold ChunkInt2_eqb; rewrite !Z.eqb_refl; reflexivity).
  rewrite Z.add_0_l, at_last.
  destruct (RenderChunk.freeBuffers rc2 (renderer w2)) as [rcF rF].
  rewrite Nat2Z.id, eraseAt_last. cbn.
  repeat split; try assumption.
Qed.

Lemma load_then_unload_witness :
  let this1 := fst (Samples.loaded Samples.wallChunk
                      [Samples.asset "side"; Samples.asset "bottom"; Samples.asset "top"]) in
  let w1 := snd (Samples.loaded Samples.wallChunk
                   [Samples.asset "side"; Samples.asset "bottom"; Samples.asset "top"]) in
  RenderChunkManager.renderChunks
    (fst (RenderChunkManager.unloadVoxelChunk this1 (getPosition Samples.wallChunk) w1))
  = RenderChunkManager.renderChunks (fst Samples.started).
Proof.
  refine (proj1 (load_then_unload Samples.arena (fst Samples.started) _ Samples.wallChunk 1%Q
                   (Samples.textureManagerOf
                      [Samples.asset "side"; Samples.asset "bottom"; Samples.asset "top"])
                   (snd Samples.started) _ _ _)).
  - reflexivity.
  - vm_compute. reflexivity.
Defined.

(** The caches do not return to their size from before the load: loading a
    chunk with one texture into a manager with empty caches and unloading it
    leaves one voxel texture in the cache. *)
Lemma load_then_unload_keeps_texture :
  match RenderChunkManager.loadVoxelChunk Samples.arena (fst Samples.started)
          Samples.oneTextureChunk 1%Q (Samples.textureManagerOf [Samples.asset "a"])
          (snd Samples.started) with
  | Ok (this1, w1) =>
      length (RenderChunkManager.voxelTextures (fst Samples.started)) = 0%nat
      /\ length (RenderChunkManager.voxelTextures
                   (fst (RenderChunkManager.unloadVoxelChunk this1 (0, 0) w1))) = 1%nat
  | Fatal _ => False
  end.
Proof. vm_compute. split; reflexivity. Qed.

(** ** The chasm wall index table *)

Lemma tryWriteIndices_chain (K : Constants) (n e s w : bool) :
  let '(total, writingIndex) :=
    RenderChunkManager.tryWriteIndices w (westIndices K)
      (RenderChunkManager.tryWriteIndices s (southIndices K)
         (RenderChunkManager.tryWriteIndices e (eastIndices K)
            (RenderChunkManager.tryWriteIndices n (northIndices K)
               (repeat 0 (Z.to_nat (indicesPerFace * 4)), O)))) in
  firstn writingIndex total = chasmWallIndicesOf K n e s w
  /\ Z.of_nat (length (firstn writingIndex total)) = facesPresent n e s w * indicesPerFace.
Proof. destruct n, e, s, w; cbv; split; reflexivity. Qed.

Lemma nextOutcome_frame (r : Renderer) :
  nextID (snd (nextOutcome r)) = nextID r
  /\ buffers (snd (nextOutcome r)) = buffers r
  /\ (outcomes r = [] -> fst (nextOutcome r) = true /\ outcomes (snd (nextOutcome r)) = []).
Proof.
  unfold nextOutcome. destruct (outcomes r) eqn:E; cbn; repeat split; try assumption;
    try reflexivity; discriminate.
Qed.

Lemma nth_setAt_same {A : Type} (l : list A) (i : nat) (x d : A) :
  (i < length l)%nat -> nth i (setAt l i x) d = x.
Proof.
  revert i. induction l as [| a l IH]; intros [| i] H; cbn in *; try lia; [reflexivity |].
  apply IH. lia.
Qed.

Lemma nth_setAt_other {A : Type} (l : list A) (i j : nat) (x d : A) :
  i <> j -> nth j (setAt l i x) d = nth j l d.
Proof.
  revert i j. induction l as [| a l IH]; intros [| i] [| j] H; cbn; try reflexivity; try lia.
  apply IH. lia.
Qed.

Lemma length_setAt {A : Type} (l : list A) (i : nat) (x : A) :
  length (setAt l i x) = length l.
Proof.
  revert i. induction l as [| a l IH]; intros [| i]; cbn; try reflexivity.
  rewrite IH. reflexivity.
Qed.

Lemma holdsChasmWallBuffer_stable (K : Constants) (r r' : Renderer) (id : IndexBufferID)
  (n e s w : bool) :
  (forall b, In b (buffers r) -> In b (buffers r')) ->
  holdsChasmWallBuffer K r id n e s w -> holdsChasmWallBuffer K r' id n e s w.
Proof. intros Hin (b & Hb & H). exists b. split; [apply Hin, Hb | exact H]. Qed.

Lemma skipn_head (script : list bool) (k : nat) :
  match skipn k script with
  | [] => nth k script true = true /\ skipn (S k) script = []
  | b :: rest => nth k script true = b /\ skipn (S k) script = rest
  end.
Proof.
  revert script. induction k as [| k IH]; intros [| b rest];
    try (cbn; split; reflexivity).
  exact (IH rest).
Qed.

Lemma nextOutcome_skipn (r : Renderer) (script : list bool) (k : nat) :
  outcomes r = skipn k script ->
  fst (nextOutcome r) = nth k script true
  /\ outcomes (snd (nextOutcome r)) = skipn (S k) script.
Proof.
  intros H. pose proof (skipn_head script k) as Hhead.
  unfold nextOutcome. destruct (outcomes r) as [| b rest] eqn:E; rewrite <- H in Hhead.
  - destruct Hhead as [H1 H2]. cbn [fst snd]. rewrite E, H1, H2. split; reflexivity.
  - destruct Hhead as [H1 H2]. cbn [fst snd outcomes]. rewrite H1, H2. split; reflexivity.
Qed.

Lemma creationsBefore_S (K : Constants) (i : nat) :
  creationsBefore K (S i)
  = (creationsBefore K i + (if slotHasFaces K i then 1 else 0))%nat.
Proof.
  unfold creationsBefore. rewrite seq_S, filter_app, length_app. cbn [filter Nat.add].
  destruct (slotHasFaces K i); reflexivity.
Qed.

(** What one iteration of the loop of [init] does to slot [i], and what it
    leaves alone. *)
Lemma initSlot_spec (K : Constants) (script : list bool) (ids : list IndexBufferID)
  (w : World) (i : nat) :
  freshHandles (renderer w) -> (i < length ids)%nat ->
  outcomes (renderer w) = skipn (creationsBefore K i) script ->
  let baseIndex := Z.of_nat i + 1 in
  let n := hasFace baseIndex (CHASM_WALL_NORTH K) in
  let e := hasFace baseIndex (CHASM_WALL_EAST K) in
  let s := hasFace baseIndex (CHASM_WALL_SOUTH K) in
  let west := hasFace baseIndex (CHASM_WALL_WEST K) in
  let ids' := fst (RenderChunkManager.initSlot K (ids, w) i) in
  let w' := snd (RenderChunkManager.initSlot K (ids, w) i) in
  freshHandles (renderer w')
  /\ length ids' = length ids
  /\ (forall j, j <> i -> nth j ids' (-1) = nth j ids (-1))
  /\ (forall b, In b (buffers (renderer w)) -> In b (buffers (renderer w')))
  /\ outcomes (renderer w') = skipn (creationsBefore K (S i)) script
  /\ extends (debugLog w) (debugLog w')
  /\ (facesPresent n e s west = 0 -> nth i ids' (-1) = nth i ids (-1))
  /\ (facesPresent n e s west <> 0 ->
      if slotCreated K script i
      then holdsChasmWallBuffer K (renderer w') (nth i ids' (-1)) n e s west
      else nth i ids' (-1) = nth i ids (-1) /\ In (slotError (Z.of_nat i)) (debugLog w')).
Proof.
  intros [Hpos Hfresh] Hi Hscript baseIndex n e s west.
  rewrite creationsBefore_S. unfold slotHasFaces, slotCreated. fold baseIndex n e s west.
  unfold RenderChunkManager.initSlot. fold baseIndex.
  change (negb (Z.land baseIndex (CHASM_WALL_NORTH K) =? 0)) with n.
  change (negb (Z.land baseIndex (CHASM_WALL_EAST K) =? 0)) with e.
  change (negb (Z.land baseIndex (CHASM_WALL_SOUTH K) =? 0)) with s.
  change (negb (Z.land baseIndex (CHASM_WALL_WEST K) =? 0)) with west.
  change (RenderChunkManager.countFace n + RenderChunkManager.countFace e
          + RenderChunkManager.countFace s + RenderChunkManager.countFace west)
    with (facesPresent n e s west).
  destruct (Z.eqb_spec (facesPresent n e s west) 0) as [Hz | Hz]; cbn [negb].
  { cbn [fst snd]. rewrite Nat.add_0_r.
    repeat split; auto; try lia. exists []. now rewrite app_nil_r. }
  unfold tryCreateIndexBuffer, tryCreateBuffer.
  destruct (nextOutcome_frame (renderer w)) as (Hid & Hbuf & _).
  destruct (nextOutcome_skipn (renderer w) script _ Hscript) as (Hok & Hrest).
  destruct (nextOutcome (renderer w)) as [ok r1] eqn:En. cbn [fst snd] in Hid, Hbuf, Hok, Hrest.
  rewrite <- Hok. replace (creationsBefore K i + 1)%nat with (S (creationsBefore K i)) by lia.
  destruct ok.
  - pose proof (tryWriteIndices_chain K n e s west) as Hchain.
    destruct (RenderChunkManager.tryWriteIndices west _ _) as [total writingIndex].
    destruct Hchain as [Hdata Hlen].
    unfold populateIndexBuffer, withRenderer, freshHandles.
    cbn [fst snd renderer nextID buffers outcomes debugLog].
    rewrite Hid, Hbuf.
    assert (Hkeep : forall b, In b (buffers (renderer w)) ->
              (if bufferID b =? nextID (renderer w)
               then mkGpuBuffer (bufferID b) (bufferKind b) (elementCount b)
                      (componentsPerElement b) (firstn writingIndex total)
               else b) = b).
    { intros b Hb. specialize (Hfresh b Hb).
      destruct (Z.eqb_spec (bufferID b) (nextID (renderer w))); [lia | reflexivity]. }
    split; [split |].
    + lia.
    + intros b Hb. rewrite in_map_iff in Hb. destruct Hb as (b0 & <- & Hb0).
      rewrite in_app_iff in Hb0. destruct Hb0 as [Hb0 | [<- | []]].
      * rewrite (Hkeep b0 Hb0). specialize (Hfresh b0 Hb0). lia.
      * cbn. rewrite Z.eqb_refl. cbn. lia.
    + split; [apply length_setAt |].
      split; [intros j Hj; apply nth_setAt_other; congruence |].
      split.
      { intros b Hb. rewrite in_map_iff. exists b. split; [apply Hkeep, Hb |].
        rewrite in_app_iff. left. exact Hb. }
      split; [exact Hrest |].
      split; [exists []; now rewrite app_nil_r |].
      split; [intros Hzero; contradiction |].
      intros _. rewrite nth_setAt_same by exact Hi.
      unfold holdsChasmWallBuffer. cbn [buffers].
      exists (mkGpuBuffer (nextID (renderer w)) IndexBuffer
                (facesPresent n e s west * indicesPerFace) 1 (firstn writingIndex total)).
      split.
      { rewrite in_map_iff.
        exists (mkGpuBuffer (nextID (renderer w)) IndexBuffer
                  (facesPresent n e s west * indicesPerFace) 1 []).
        split; [cbn; rewrite Z.eqb_refl; reflexivity |].
        rewrite in_app_iff. right. left. reflexivity. }
      cbn. repeat split; auto.
  - unfold DebugLogError, withRenderer, freshHandles.
    cbn [fst snd renderer nextID buffers outcomes debugLog].
    rewrite Hid, Hbuf.
    split; [split; assumption |].
    split; [reflexivity |].
    split; [reflexivity |].
    split; [auto |].
    split; [exact Hrest |].
    split; [eexists; reflexivity |].
    split; [reflexivity |].
    intros _. split; [reflexivity |].
    apply in_or_app. right. left. reflexivity.
Qed.

Lemma slotDone_stable (K : Constants) (script : list bool) (ids ids' : list IndexBufferID)
  (r r' : Renderer) (log log' : DebugLog) (i : nat) :
  nth i ids' (-1) = nth i ids (-1) ->
  (forall b, In b (buffers r) -> In b (buffers r')) ->
  extends log log' ->
  slotDone K script ids r log i -> slotDone K script ids' r' log' i.
Proof.
  intros Hnth Hbuf [added Hlog] [Hzero Hbuilt]. subst log'. unfold slotDone. cbv zeta.
  rewrite Hnth. split; [exact Hzero |].
  intros Hz. specialize (Hbuilt Hz). destruct (slotCreated K script i).
  - eapply holdsChasmWallBuffer_stable; [exact Hbuf | exact Hbuilt].
  - destruct Hbuilt as [Hnone Hin]. split; [exact Hnone |].
    apply in_or_app. now left.
Qed.

Lemma init_loop (K : Constants) (script : list bool) (count : nat) :
  forall (first : nat) (ids : list IndexBufferID) (w : World),
    freshHandles (renderer w) ->
    outcomes (renderer w) = skipn (creationsBefore K first) script ->
    (forall i, (first <= i < first + count)%nat ->
       (i < length ids)%nat /\ nth i ids (-1) = -1) ->
    let ids' := fst (fold_left (RenderChunkManager.initSlot K) (seq first count) (ids, w)) in
    let w' := snd (fold_left (RenderChunkManager.initSlot K) (seq first count) (ids, w)) in
    length ids' = length ids
    /\ (forall j, ~ (first <= j < first + count)%nat -> nth j ids' (-1) = nth j ids (-1))
    /\ (forall b, In b (buffers (renderer w)) -> In b (buffers (renderer w')))
    /\ extends (debugLog w) (debugLog w')
    /\ (forall i, (first <= i < first + count)%nat ->
          slotDone K script ids' (renderer w') (debugLog w') i).
Proof.
  induction count as [| count IH]; intros first ids w Hfresh Hscript Hslots;
    cbn [seq fold_left].
  - cbn. split; [reflexivity |]. split; [reflexivity |]. split; [auto |].
    split; [exists []; now rewrite app_nil_r |]. intros i Hi. lia.
  - destruct (Hslots first ltac:(lia)) as [Hi Hinit].
    pose proof (initSlot_spec K script ids w first Hfresh Hi Hscript) as Hstep.
    cbv zeta in Hstep.
    destruct (RenderChunkManager.initSlot K (ids, w) first) as [ids1 w1].
    cbn [fst snd] in Hstep.
    destruct Hstep as (Hfresh1 & Hlen1 & Hother1 & Hkeep1 & Hout1 & Hlog1 & Hzero1 & Hbuilt1).
    assert (Hslots1 : forall j, (S first <= j < S first + count)%nat ->
                        (j < length ids1)%nat /\ nth j ids1 (-1) = -1).
    { intros j Hj. destruct (Hslots j ltac:(lia)) as [Hjl Hjn].
      rewrite Hlen1. split; [exact Hjl |]. rewrite Hother1 by lia. exact Hjn. }
    specialize (IH (S first) ids1 w1 Hfresh1 Hout1 Hslots1). cbv zeta in IH.
    destruct IH as (Hlen & Hother & Hkeep & Hlog & Hdone).
    split; [rewrite Hlen; exact Hlen1 |].
    split; [intros j Hj; rewrite Hother by lia; apply Hother1; lia |].
    split; [intros b Hb; apply Hkeep, Hkeep1, Hb |].
    split.
    { destruct Hlog1 as [a1 E1]. destruct Hlog as [a2 E2]. exists (a1 ++ a2).
      rewrite E2, E1, app_assoc. reflexivity. }
    intros i Hi'. destruct (Nat.eq_dec i first) as [-> | Hne]; [| apply Hdone; lia].
    apply (slotDone_stable K script ids1 _ (renderer w1) _ (debugLog w1) _ first
             (Hother first ltac:(lia)) Hkeep Hlog).
    unfold slotDone. cbv zeta. split.
    + intros Hz. rewrite (Hzero1 Hz). exact Hinit.
    + intros Hz. specialize (Hbuilt1 Hz). destruct (slotCreated K script first).
      * exact Hbuilt1.
      * destruct Hbuilt1 as [Hsame Hin]. split; [rewrite Hsame; exact Hinit | exact Hin].
Qed.

Lemma nth_repeat_default {A : Type} (a : A) (n i : nat) : nth i (repeat a n) a = a.
Proof.
  revert i. induction n as [| n IH]; intros [| i]; cbn; try reflexivity. apply IH.
Qed.

(** Every slot of the table after [init]. *)
Lemma init_slots (K : Constants) (this : RenderChunkManager.t) (w : World) (i : nat) :
  freshHandles (renderer w) ->
  (i < length (RenderChunkManager.chasmWallIndexBufferIDs this))%nat ->
  slotDone K (outcomes (renderer w))
    (RenderChunkManager.chasmWallIndexBufferIDs (fst (RenderChunkManager.init K this w)))
    (renderer (snd (RenderChunkManager.init K this w)))
    (debugLog (snd (RenderChunkManager.init K this w))) i.
Proof.
  intros Hfresh Hi. unfold RenderChunkManager.init.
  set (count := length (RenderChunkManager.chasmWallIndexBufferIDs this)) in *.
  pose proof (init_loop K (outcomes (renderer w)) (length (repeat (-1) count)) 0
                (repeat (-1) count) w Hfresh eq_refl) as H.
  cbv zeta in H.
  destruct (fold_left _ _ _) as [ids w']. cbn [fst snd] in *.
  rewrite repeat_length in H.
  destruct H as (_ & _ & _ & _ & Hdone).
  - intros j Hj. rewrite repeat_length.
    split; [lia | apply nth_repeat_default].
  - apply Hdone. lia.
Qed.

Lemma init_length (K : Constants) (this : RenderChunkManager.t) (w : World) :
  length (RenderChunkManager.chasmWallIndexBufferIDs (fst (RenderChunkManager.init K this w)))
  = length (RenderChunkManager.chasmWallIndexBufferIDs this).
Proof.
  unfold RenderChunkManager.init.
  set (count := length (RenderChunkManager.chasmWallIndexBufferIDs this)).
  pose proof (fold_left_invariant (fun st => length (fst st) = count)
                (RenderChunkManager.initSlot K) (seq 0 (length (repeat (-1) count)))
                (repeat (-1) count, w)) as H.
  destruct (fold_left _ _ _) as [ids w']. cbn [fst] in *.
  apply H.
  - apply repeat_length.
  - intros [ids0 w0] i Hlen. cbn [fst] in *.
    unfold RenderChunkManager.initSlot.
    destruct (_ =? 0); [exact Hlen |].
    destruct (tryCreateIndexBuffer _ _) as [[id |] r]; [| exact Hlen].
    destruct (RenderChunkManager.tryWriteIndices _ _ _) as [total wi].
    cbn [fst]. rewrite length_setAt. exact Hlen.
Qed.

Lemma at_nth {A : Type} (l : list A) (i : nat) (d : A) :
  (i < length l)%nat -> at_ l (Z.of_nat i) = Some (nth i l d).
Proof.
  intros H. unfold at_. destruct (Z.ltb_spec (Z.of_nat i) 0); [lia |].
  rewrite Nat2Z.id. apply nth_error_nth'. exact H.
Qed.

(** With the face bits 1, 2, 4, 8, a combination with a face set has a slot
    of its own among the first fifteen, and the slot's faces are its own. *)
Lemma slot_of_combination (K : Constants) (n e s w : bool) :
  CHASM_WALL_NORTH K = 1 -> CHASM_WALL_EAST K = 2 ->
  CHASM_WALL_SOUTH K = 4 -> CHASM_WALL_WEST K = 8 ->
  n || e || s || w = true ->
  exists i : nat,
    (i < 15)%nat
    /\ GetChasmWallIndex K n e s w = Z.of_nat i
    /\ hasFace (Z.of_nat i + 1) (CHASM_WALL_NORTH K) = n
    /\ hasFace (Z.of_nat i + 1) (CHASM_WALL_EAST K) = e
    /\ hasFace (Z.of_nat i + 1) (CHASM_WALL_SOUTH K) = s
    /\ hasFace (Z.of_nat i + 1) (CHASM_WALL_WEST K) = w.
Proof.
  intros HN HE HS HW Hany. unfold GetChasmWallIndex. rewrite HN, HE, HS, HW.
  destruct n, e, s, w; try discriminate;
    match goal with
    | |- context [?a - 1] =>
        let v := eval cbv in (Z.to_nat (a - 1)) in
        exists v; cbv; repeat split; lia
    end.
Qed.

(** With the face bits 1, 2, 4, 8 every one of the first fifteen slots has a
    face, so the index buffer of slot [i] is the backend's creation [i]. *)
Lemma creationsBefore_bits (K : Constants) (i : nat) :
  CHASM_WALL_NORTH K = 1 -> CHASM_WALL_EAST K = 2 ->
  CHASM_WALL_SOUTH K = 4 -> CHASM_WALL_WEST K = 8 ->
  (i <= 15)%nat -> creationsBefore K i = i.
Proof.
  intros HN HE HS HW Hi. unfold creationsBefore.
  assert (Hall : forall j, (j < 15)%nat -> slotHasFaces K j = true).
  { intros j Hj. unfold slotHasFaces. rewrite HN, HE, HS, HW.
    do 15 (destruct j as [| j]; [vm_compute; reflexivity |]). lia. }
  assert (Hfilter : filter (slotHasFaces K) (seq 0 i) = seq 0 i).
  { apply forallb_filter_id. apply forallb_forall. intros j Hj. apply in_seq in Hj.
    apply Hall. lia. }
  rewrite Hfilter. apply length_seq.
Qed.

(** C9: the chasm wall table after [init], with the face bits 1, 2, 4, 8
    and at least fifteen slots, on a backend with a script of outcomes. The
    all-zero combination has no slot and so no buffer. A combination with a
    face set has the slot [GetChasmWallIndex] gives it, one of the first
    fifteen, whose index buffer is the creation of that number. When the
    backend creates it, the slot holds the handle of a live index buffer with
    exactly facesPresent * indicesPerFace indices, the two-triangle patterns
    of its faces in the order north, east, south, west. When the creation
    fails, the slot holds no buffer (-1) and the error naming the slot is in
    the debug log. *)
Theorem chasm_wall_table (K : Constants) (this : RenderChunkManager.t) (w : World)
  (n e s west : bool) :
  CHASM_WALL_NORTH K = 1 -> CHASM_WALL_EAST K = 2 ->
  CHASM_WALL_SOUTH K = 4 -> CHASM_WALL_WEST K = 8 ->
  (15 <= length (RenderChunkManager.chasmWallIndexBufferIDs this))%nat ->
  freshHandles (renderer w) ->
  let table := RenderChunkManager.chasmWallIndexBufferIDs
                 (fst (RenderChunkManager.init K this w)) in
  let r' := renderer (snd (RenderChunkManager.init K this w)) in
  let log' := debugLog (snd (RenderChunkManager.init K this w)) in
  let index := GetChasmWallIndex K n e s west in
  let slot := at_ table index in
  if n || e || s || west
  then 0 <= index < 15
       /\ if nth (Z.to_nat index) (outcomes (renderer w)) true
          then exists id, slot = Some id /\ holdsChasmWallBuffer K r' id n e s west
          else slot = Some (-1) /\ In (slotError index) log'
  else slot = None.
Proof.
  intros HN HE HS HW Hlen Hfresh table r' log' index slot.
  destruct (n || e || s || west) eqn:Hany.
  - destruct (slot_of_combination K n e s west HN HE HS HW Hany)
      as (i & Hi & Hidx & Hn & He & Hs & Hw).
    assert (Hil : (i < length (RenderChunkManager.chasmWallIndexBufferIDs this))%nat) by lia.
    pose proof (init_slots K this w i Hfresh Hil) as Hdone.
    unfold slotDone, slotCreated in Hdone. cbv zeta in Hdone.
    rewrite Hn, He, Hs, Hw in Hdone. fold table r' log' in Hdone.
    rewrite (creationsBefore_bits K i HN HE HS HW) in Hdone by lia.
    destruct Hdone as [_ Hbuilt].
    assert (Hslot : slot = Some (nth i table (-1))).
    { unfold slot, index. rewrite Hidx. apply at_nth. unfold table. rewrite init_length.
      exact Hil. }
    assert (Hfaces : facesPresent n e s west <> 0).
    { destruct n, e, s, west; try discriminate; cbv; discriminate. }
    specialize (Hbuilt Hfaces).
    unfold index. rewrite Hidx, Nat2Z.id. split; [lia |].
    destruct (nth i (outcomes (renderer w)) true).
    + exists (nth i table (-1)). split; assumption.
    + destruct Hbuilt as [Hnone Hin]. split; [rewrite Hslot, Hnone; reflexivity |].
      unfold index in Hin. exact Hin.
  - destruct n, e, s, west; try discriminate.
    unfold slot, index, GetChasmWallIndex. reflexivity.
Qed.

Lemma chasm_wall_table_witness :
  let table := RenderChunkManager.chasmWallIndexBufferIDs (fst Samples.started) in
  let index := GetChasmWallIndex Samples.arena true true false false in
  let slot := at_ table index in
  0 <= index < 15
  /\ if nth (Z.to_nat index) (outcomes (renderer Samples.quietBackend)) true
     then exists id, slot = Some id
            /\ holdsChasmWallBuffer Samples.arena (renderer (snd Samples.started)) id
                 true true false false
     else slot = Some (-1) /\ In (slotError index) (debugLog (snd Samples.started)).
Proof.
  apply (chasm_wall_table Samples.arena (RenderChunkManager.create Samples.arena)
           Samples.quietBackend true true false false);
    try reflexivity.
  split; [vm_compute; discriminate | intros b []].
Defined.

(** A combination with a face set may be left without a buffer: when the
    first creation call of the backend fails, the slot of the north-only
    combination holds -1, the backend holds no buffer for it and the error
    naming slot 0 is logged; the other fourteen slots get their buffers. *)
Lemma chasm_wall_slot_without_buffer :
  let started := RenderChunkManager.init Samples.arena
                   (RenderChunkManager.create Samples.arena) (Samples.backend [false]) in
  at_ (RenderChunkManager.chasmWallIndexBufferIDs (fst started))
    (GetChasmWallIndex Samples.arena true false false false) = Some (-1)
  /\ forallb (fun b => 0 <=? bufferID b) (buffers (renderer (snd started))) = true
  /\ length (buffers (renderer (snd started))) = 14%nat
  /\ debugLog (snd started) = [LogError "Couldn't create chasm wall index buffer 0."].
Proof. vm_compute. repeat split; reflexivity. Qed.

(** ** Deduplication in the texture caches *)

Lemma TextureAsset_eqb_eq (a b : TextureAsset) : TextureAsset_eqb a b = true <-> a = b.
Proof.
  unfold TextureAsset_eqb. destruct a as [fa ia], b as [fb ib]. cbn.
  rewrite andb_true_iff, String.eqb_eq. split.
  - intros [-> H]. destruct ia, ib; try discriminate; [| reflexivity].
    apply Z.eqb_eq in H. subst. reflexivity.
  - intros H. injection H as -> ->. split; [reflexivity |].
    destruct ib; [apply Z.eqb_refl | reflexivity].
Qed.

Lemma TextureAsset_eqb_refl (a : TextureAsset) : TextureAsset_eqb a a = true.
Proof. apply TextureAsset_eqb_eq. reflexivity. Qed.

Lemma TextureAssets_eqb_eq (l1 l2 : list TextureAsset) :
  TextureAssets_eqb l1 l2 = true <-> l1 = l2.
Proof.
  revert l2. induction l1 as [| a l1 IH]; intros [| b l2]; cbn; try (split; congruence).
  rewrite andb_true_iff, TextureAsset_eqb_eq, IH. split.
  - intros [-> ->]. reflexivity.
  - intros H. injection H as -> ->. split; reflexivity.
Qed.

(** Whether an asset is cached, as the loaders test it. *)
Lemma cached_iff (a : TextureAsset) (vt : list LoadedVoxelTexture) :
  existsb (fun loaded => TextureAsset_eqb (textureAsset loaded) a) vt = true
  <-> In a (cachedAssets vt).
Proof.
  unfold cachedAssets. rewrite existsb_exists, in_map_iff. split.
  - intros (x & Hx & He). apply TextureAsset_eqb_eq in He. exists x. split; assumption.
  - intros (x & He & Hx). exists x. split; [exact Hx |]. apply TextureAsset_eqb_eq, He.
Qed.

Lemma seen_iff (a : TextureAsset) (seen : list TextureAsset) :
  existsb (TextureAsset_eqb a) seen = true <-> In a seen.
Proof.
  rewrite existsb_exists. split.
  - intros (x & Hx & He). apply TextureAsset_eqb_eq in He. subst. exact Hx.
  - intros H. exists a. split; [exact H | apply TextureAsset_eqb_refl].
Qed.

Lemma tryCreateObjectTexture_neverFails (b : TextureBuilderID) (r : Renderer) :
  outcomes r = [] ->
  exists id r', tryCreateObjectTexture b r = (Some id, r') /\ outcomes r' = [].
Proof.
  intros H. unfold tryCreateObjectTexture, nextOutcome. rewrite H.
  eexists. eexists. split; [reflexivity | exact H].
Qed.


(** One asset, when nothing fails: the asset is cached afterwards, and a new
    entry is made exactly when it was not cached before. *)
Lemma LoadVoxelDefTexture_success (tm : TextureManager)
  (vt : list LoadedVoxelTexture) (w : World) (a : TextureAsset) :
  neverFails w -> tryGetTextureBuilderID tm a <> None ->
  let st' := LoadVoxelDefTexture tm (vt, w) a in
  neverFails (snd st')
  /\ cachedAssets (fst st')
     = (if existsb (fun loaded => TextureAsset_eqb (textureAsset loaded) a) vt
        then cachedAssets vt else cachedAssets vt ++ [a]).
Proof.
  intros Hw Ha. unfold LoadVoxelDefTexture.
  destruct (existsb _ vt); [split; [exact Hw | reflexivity] |].
  destruct (tryGetTextureBuilderID tm a) as [b |]; [| contradiction].
  destruct (tryCreateObjectTexture_neverFails b (renderer w) Hw) as (id & r' & -> & Hr').
  cbn. split; [exact Hr' |]. unfold cachedAssets. rewrite map_app. reflexivity.
Qed.

(** The count of the cache after a list of assets, when nothing fails. *)
Lemma load_assets_count (tm : TextureManager) (assets : list TextureAsset) :
  forall (vt : list LoadedVoxelTexture) (w : World) (seen : list TextureAsset),
    neverFails w -> knowsAll tm assets ->
    (forall a, In a (cachedAssets vt) <-> In a seen) ->
    let st' := fold_left (LoadVoxelDefTexture tm) assets (vt, w) in
    neverFails (snd st')
    /\ (length (fst st') + duplicates seen assets = length vt + length assets)%nat
    /\ (forall a, In a (cachedAssets (fst st')) <-> In a (rev assets ++ seen)).
Proof.
  induction assets as [| a assets IH]; intros vt w seen Hw Hk Hs; cbn [fold_left].
  - cbn. repeat split; try assumption; try lia; apply Hs.
  - assert (Ha : tryGetTextureBuilderID tm a <> None) by (apply Hk; left; reflexivity).
    pose proof (LoadVoxelDefTexture_success tm vt w a Hw Ha) as Hstep. cbv zeta in Hstep.
    destruct (LoadVoxelDefTexture tm (vt, w) a) as [vt1 w1]. cbn [fst snd] in Hstep.
    destruct Hstep as [Hw1 Hc1].
    assert (Hk1 : knowsAll tm assets) by (intros x Hx; apply Hk; right; exact Hx).
    assert (Hs1 : forall x, In x (cachedAssets vt1) <-> In x (a :: seen)).
    { intros x. rewrite Hc1.
      destruct (existsb _ vt) eqn:E.
      - apply cached_iff in E. rewrite Hs. cbn. split; [auto |].
        intros [<- | H]; [apply Hs, E | exact H].
      - rewrite in_app_iff, Hs. cbn. tauto. }
    specialize (IH vt1 w1 (a :: seen) Hw1 Hk1 Hs1). cbv zeta in IH.
    destruct IH as (Hwf & Hcount & Hset).
    split; [exact Hwf |]. split.
    + cbn [duplicates length].
      assert (Hlen : (length vt1 + (if existsb (TextureAsset_eqb a) seen then 1 else 0)
                      = length vt + 1)%nat).
      { assert (Hl : length vt1 = length (cachedAssets vt1))
          by (unfold cachedAssets; rewrite length_map; reflexivity).
        rewrite Hl, Hc1.
        destruct (existsb _ vt) eqn:E.
        - apply cached_iff, Hs, seen_iff in E. rewrite E.
          unfold cachedAssets. rewrite length_map. reflexivity.
        - destruct (existsb (TextureAsset_eqb a) seen) eqn:E2.
          + apply seen_iff, Hs, cached_iff in E2. rewrite E2 in E. discriminate.
          + rewrite length_app. unfold cachedAssets. rewrite length_map. cbn. lia. }
      lia.
    + intros x. rewrite Hset. cbn [rev]. rewrite <- app_assoc. reflexivity.
Qed.

Lemma fold_left_flat_map {A X Y : Type} (f : A -> Y -> A) (g : X -> list Y)
  (l : list X) (a : A) :
  fold_left (fun acc x => fold_left f (g x) acc) l a = fold_left f (flat_map g l) a.
Proof.
  revert a. induction l as [| x l IH]; intros a; cbn; [reflexivity |].
  rewrite fold_left_app. apply IH.
Qed.

(** The texture loop of [loadVoxelTextures] is one loop over all the assets
    of the chunk. *)
Lemma texture_loop_flat (chunk : VoxelChunk) (tm : TextureManager)
  (st : list LoadedVoxelTexture * World) :
  fold_left (fun st voxelTextureDef =>
               LoadVoxelDefTextures voxelTextureDef (fst st) tm (snd st))
    (chunkTextureDefs chunk) st
  = fold_left (LoadVoxelDefTexture tm) (chunkAssets chunk) st.
Proof.
  unfold chunkAssets. rewrite <- fold_left_flat_map.
  generalize (chunkTextureDefs chunk). intros defs. revert st.
  induction defs as [| def defs IH]; intros [vt w]; cbn; [reflexivity | apply IH].
Qed.

(** What [loadVoxelTextures] returns, by its two loops. *)
Lemma loadVoxelTextures_inv (this this' : RenderChunkManager.t) (chunk : VoxelChunk)
  (tm : TextureManager) (w w' : World) :
  RenderChunkManager.loadVoxelTextures this chunk tm w = Ok (this', w') ->
  exists w1,
    RenderChunkManager.voxelTextures this'
    = fst (fold_left (LoadVoxelDefTexture tm) (chunkAssets chunk)
             (RenderChunkManager.voxelTextures this, w))
    /\ w1 = snd (fold_left (LoadVoxelDefTexture tm) (chunkAssets chunk)
                   (RenderChunkManager.voxelTextures this, w))
    /\ foldResult (fun st chasmDefID =>
                     let '(lists, keys, w0) := st in
                     LoadChasmDefTextures chasmDefID chunk
                       (RenderChunkManager.voxelTextures this') lists keys tm w0)
         (indices (length (chunkChasmDefs chunk)))
         (RenderChunkManager.chasmFloorTextureLists this,
          RenderChunkManager.chasmTextureKeys this, w1)
       = Ok (RenderChunkManager.chasmFloorTextureLists this',
             RenderChunkManager.chasmTextureKeys this', w').
Proof.
  unfold RenderChunkManager.loadVoxelTextures. rewrite texture_loop_flat.
  destruct (fold_left _ (chunkAssets chunk) _) as [textures w1].
  destruct (foldResult _ _ _) as [[[lists keys] w2] |] eqn:E; [| discriminate].
  intros H. injection H as <- <-. exists w1. cbn. repeat split. exact E.
Qed.

Lemma loadVoxelChunk_inv (K : Constants) (this this' : RenderChunkManager.t)
  (chunk : VoxelChunk) (ceilingScale : double) (tm : TextureManager) (w w' : World) :
  RenderChunkManager.loadVoxelChunk K this chunk ceilingScale tm w = Ok (this', w') ->
  exists thisT wT,
    RenderChunkManager.loadVoxelTextures this chunk tm w = Ok (thisT, wT)
    /\ RenderChunkManager.voxelTextures this' = RenderChunkManager.voxelTextures thisT
    /\ RenderChunkManager.chasmFloorTextureLists this'
       = RenderChunkManager.chasmFloorTextureLists thisT
    /\ RenderChunkManager.chasmTextureKeys this' = RenderChunkManager.chasmTextureKeys thisT.
Proof.
  unfold RenderChunkManager.loadVoxelChunk.
  destruct (RenderChunkManager.loadVoxelTextures this chunk tm w) as [[thisT wT] |];
    [| discriminate].
  destruct (RenderChunkManager.loadVoxelMeshBuffers _ _ _ _ _) as [rc1 w2].
  destruct (RenderChunkManager.loadVoxelChasmWalls _ _ _ _) as [rc2 |]; [| discriminate].
  intros H. injection H as <- <-. exists thisT, wT. repeat split.
Qed.

(** *** The chasm floor lists *)

Lemma comparer_iff (l : LoadedChasmFloorTextureList) (d : ChasmDefinition) :
  LoadedChasmFloorComparer l d = true
  <-> animType l = chasmAnimType d
      /\ match animType l with
         | SolidColor => paletteIndex l = solidColorPaletteIndex d
         | Animated => textureAssets l = animatedTextureAssets d
         end.
Proof.
  unfold LoadedChasmFloorComparer.
  destruct (animType l), (chasmAnimType d); cbn; try (split; [discriminate | intros [H _]; discriminate]).
  - rewrite Z.eqb_eq. tauto.
  - destruct (Z.eqb_spec (Z.of_nat (length (textureAssets l)))
                (Z.of_nat (length (animatedTextureAssets d)))) as [Hl | Hl]; cbn.
    + rewrite TextureAssets_eqb_eq. tauto.
    + split; [discriminate |]. intros [_ H]. rewrite H in Hl. contradiction.
Qed.

Lemma comparer_sameFloorContent (l1 l2 : LoadedChasmFloorTextureList) (d : ChasmDefinition) :
  sameFloorContent l1 l2 -> LoadedChasmFloorComparer l2 d = true ->
  LoadedChasmFloorComparer l1 d = true.
Proof.
  intros [Ht Hc]. rewrite !comparer_iff. intros [Ht2 Hc2].
  split; [congruence |].
  rewrite <- Ht in Hc2. destruct (animType l1); congruence.
Qed.



Lemma at_In {A : Type} (l : list A) (i : Z) (x : A) : at_ l i = Some x -> In x l.
Proof.
  unfold at_. destruct (i <? 0); [discriminate |]. apply nth_error_In.
Qed.

Lemma at_range {A : Type} (l : list A) (i : Z) (x : A) :
  at_ l i = Some x -> 0 <= i < Z.of_nat (length l).
Proof.
  unfold at_. destruct (Z.ltb_spec i 0) as [Hneg | Hneg]; [discriminate |].
  intros H. assert (Hn : nth_error l (Z.to_nat i) <> None) by congruence.
  apply nth_error_Some in Hn. lia.
Qed.

Lemma at_app_l {A : Type} (l e : list A) (i : Z) (x : A) :
  at_ l i = Some x -> at_ (l ++ e) i = Some x.
Proof.
  intros H. pose proof (at_range l i x H) as Hr. unfold at_ in *.
  destruct (i <? 0); [discriminate |].
  rewrite nth_error_app1 by lia. exact H.
Qed.

Lemma at_app_inv {A : Type} (l : list A) (y : A) (i : Z) (x : A) :
  at_ (l ++ [y]) i = Some x ->
  at_ l i = Some x \/ (i = Z.of_nat (length l) /\ x = y).
Proof.
  intros H. pose proof (at_range _ _ _ H) as Hr. rewrite length_app in Hr. cbn in Hr.
  unfold at_ in *. destruct (Z.ltb_spec i 0) as [Hneg | Hneg]; [discriminate |].
  destruct (Z.lt_ge_cases i (Z.of_nat (length l))) as [Hlt | Hge].
  - left. rewrite nth_error_app1 in H by lia. exact H.
  - right. assert (Hi : i = Z.of_nat (length l)) by lia. split; [exact Hi |].
    subst i. rewrite Nat2Z.id, nth_error_app2, Nat.sub_diag in H by lia.
    cbn in H. congruence.
Qed.

Lemma findIndexFrom_Some {A : Type} (p : A -> bool) (l : list A) (i k : Z) :
  findIndexFrom p l i = Some k ->
  exists x, at_ l (k - i) = Some x /\ p x = true /\ i <= k.
Proof.
  revert i. induction l as [| a l IH]; intros i H; cbn in H; [discriminate |].
  destruct (p a) eqn:E.
  - injection H as <-. exists a. rewrite Z.sub_diag. repeat split; [exact E | lia].
  - destruct (IH (i + 1) H) as (x & Hx & Hp & Hle).
    exists x. split; [| split; [exact Hp | lia]].
    pose proof (at_range _ _ _ Hx) as Hr.
    unfold at_ in *. destruct (Z.ltb_spec (k - (i + 1)) 0) as [Hn1 | Hn1]; [discriminate |].
    destruct (Z.ltb_spec (k - i) 0) as [Hn2 | Hn2]; [lia |].
    replace (Z.to_nat (k - i)) with (S (Z.to_nat (k - (i + 1)))) by lia.
    exact Hx.
Qed.

Lemma uniqueFloorLists_add (lists : list LoadedChasmFloorTextureList)
  (new : LoadedChasmFloorTextureList) :
  uniqueFloorLists lists ->
  (forall l, In l lists -> ~ sameFloorContent l new) ->
  uniqueFloorLists (lists ++ [new]).
Proof.
  intros Hu Hnew i j li lj Hi Hj Hs.
  destruct (at_app_inv _ _ _ _ Hi) as [Hi' | [-> ->]];
    destruct (at_app_inv _ _ _ _ Hj) as [Hj' | [-> ->]].
  - apply (Hu i j li lj Hi' Hj' Hs).
  - exfalso. apply (Hnew li (at_In _ _ _ Hi') Hs).
  - exfalso. apply (Hnew lj (at_In _ _ _ Hj')).
    destruct Hs as [Ht Hc]. split; [congruence |].
    rewrite <- Ht. destruct (animType new); congruence.
  - reflexivity.
Qed.

(** The frame loop of an animated chasm, when nothing fails: every frame is
    loaded, in order. *)
Lemma chasm_frames_success (tm : TextureManager) (assets : list TextureAsset) :
  forall (accA : list TextureAsset) (accR : list ObjectTextureID) (w : World),
    neverFails w -> knowsAll tm assets ->
    exists refs w',
      fold_left (LoadChasmFrame tm) assets (accA, accR, w) = (accA ++ assets, accR ++ refs, w')
      /\ neverFails w' /\ length refs = length assets.
Proof.
  induction assets as [| a assets IH]; intros accA accR w Hw Hk; cbn [fold_left].
  - exists [], w. rewrite !app_nil_r. repeat split. exact Hw.
  - unfold LoadChasmFrame at 2.
    destruct (tryGetTextureBuilderID tm a) as [b |] eqn:Eb;
      [| exfalso; apply (Hk a (or_introl eq_refl) Eb)].
    destruct (tryCreateObjectTexture_neverFails b (renderer w) Hw) as (id & r' & -> & Hr').
    destruct (IH (accA ++ [a]) (accR ++ [id]) (withRenderer r' w) Hr')
      as (refs & w' & HE & Hw' & Hlen).
    { intros x Hx. apply Hk. right. exact Hx. }
    exists (id :: refs), w'. rewrite HE, <- !app_assoc. cbn. repeat split; [exact Hw' | lia].
Qed.

Lemma find_app_last {A : Type} (p : A -> bool) (l : list A) (x : A) :
  p x = true -> exists y, find p (l ++ [x]) = Some y.
Proof.
  intros H. induction l as [| a l IH]; cbn.
  - rewrite H. eauto.
  - destruct (p a); eauto.
Qed.

Lemma addChasmTextureKey_inv (pos : ChunkInt2) (id : ChasmDefID) (def : ChasmDefinition)
  (vt : list LoadedVoxelTexture) (idx : Z) (keys keys' : list LoadedChasmTextureKey.t) :
  addChasmTextureKey pos id def vt idx keys = Ok keys' ->
  exists wall, keys' = keys ++ [LoadedChasmTextureKey.init pos id idx wall].
Proof.
  unfold addChasmTextureKey. destruct (findIndex _ vt) as [wall |]; [| discriminate].
  destruct (_ && _); [| discriminate].
  intros H. injection H as <-. exists wall. reflexivity.
Qed.

(** A new floor list that holds the content of [d], appended to a cache in
    which no list holds it, keeps the cache free of duplicates and is what
    the new key resolves to. *)
Lemma new_floor_list (lists : list LoadedChasmFloorTextureList)
  (new : LoadedChasmFloorTextureList) (d : ChasmDefinition)
  (pos : ChunkInt2) (id : ChasmDefID) (wall : Z) :
  findIndex (fun textureList => LoadedChasmFloorComparer textureList d) lists = None ->
  LoadedChasmFloorComparer new d = true ->
  (uniqueFloorLists lists -> uniqueFloorLists (lists ++ [new]))
  /\ resolves (lists ++ [new])
       (LoadedChasmTextureKey.init pos id (Z.of_nat (length (lists ++ [new])) - 1) wall) d.
Proof.
  intros Hnone Hnew. split.
  - intros Hu. apply uniqueFloorLists_add; [exact Hu |].
    intros l Hl Hs.
    unfold findIndex in Hnone. rewrite findIndexFrom_None in Hnone.
    specialize (Hnone l Hl). cbn beta in Hnone.
    rewrite (comparer_sameFloorContent l new d Hs Hnew) in Hnone. discriminate.
  - exists new. cbn [LoadedChasmTextureKey.chasmFloorListIndex]. split; [| exact Hnew].
    rewrite length_app. cbn [length].
    replace (Z.of_nat (length lists + 1) - 1) with (Z.of_nat (length lists)) by lia.
    apply at_last.
Qed.

(** One chasm definition without a key yet, when nothing fails: the cache of
    floor lists stays free of duplicates, and the new key resolves to a list
    with the content of the definition. *)
Lemma LoadChasmDefTextures_success (id : ChasmDefID) (chunk : VoxelChunk)
  (vt : list LoadedVoxelTexture) (lists lists' : list LoadedChasmFloorTextureList)
  (keys keys' : list LoadedChasmTextureKey.t) (tm : TextureManager) (w w' : World) :
  neverFails w ->
  knowsAll tm (animatedTextureAssets (getChasmDef chunk id)) ->
  existsb (fun loadedKey => (LoadedChasmTextureKey.chasmDefID loadedKey =? id) &&
                            ChunkInt2_eqb (LoadedChasmTextureKey.chunkPos loadedKey)
                              (getPosition chunk)) keys = false ->
  LoadChasmDefTextures id chunk vt lists keys tm w = Ok (lists', keys', w') ->
  neverFails w'
  /\ (uniqueFloorLists lists -> uniqueFloorLists lists')
  /\ exists key,
       keys' = keys ++ [key]
       /\ LoadedChasmTextureKey.chunkPos key = getPosition chunk
       /\ LoadedChasmTextureKey.chasmDefID key = id
       /\ resolves lists' key (getChasmDef chunk id).
Proof.
  intros Hw Hk Hnokey. unfold LoadChasmDefTextures. rewrite Hnokey.
  set (d := getChasmDef chunk id) in *.
  destruct (findIndex _ lists) as [i |] eqn:Ef.
  { destruct (addChasmTextureKey _ _ _ _ _ _) as [k |] eqn:E; [| discriminate].
    intros H. injection H as <- <- <-.
    destruct (addChasmTextureKey_inv _ _ _ _ _ _ _ E) as [wall ->].
    split; [exact Hw |]. split; [auto |].
    eexists. split; [reflexivity |]. cbn. repeat split.
    unfold findIndex in Ef. destruct (findIndexFrom_Some _ _ _ _ Ef) as (x & Hx & Hp & _).
    exists x. cbn. rewrite Z.sub_0_r in Hx. split; assumption. }
  destruct (chasmAnimType d) eqn:Et.
  - unfold tryCreateObjectTextureDims, lockObjectTexture, nextOutcome.
    unfold neverFails in Hw. rewrite Hw. cbn [outcomes]. rewrite Hw.
    cbn [objectTextures nextID].
    destruct (find_app_last (fun t => gpuTextureID t =? nextID (renderer w))
                (objectTextures (renderer w))
                (mkGpuTexture (nextID (renderer w)) 1 1 false None
                   (repeat 0 (Z.to_nat (1 * 1))))) as [t Ht].
    { cbn. apply Z.eqb_refl. }
    rewrite Ht.
    destruct (isTrueColor t); [discriminate |].
    set (new := initColor (solidColorPaletteIndex d) (nextID (renderer w))).
    destruct (addChasmTextureKey _ _ _ _ _ _) as [k |] eqn:E; [| discriminate].
    intros H. injection H as <- <- <-.
    destruct (addChasmTextureKey_inv _ _ _ _ _ _ _ E) as [wall ->].
    assert (Hnew : LoadedChasmFloorComparer new d = true).
    { apply comparer_iff. cbn. split; [symmetry; exact Et | reflexivity]. }
    destruct (new_floor_list lists new d (getPosition chunk) id wall Ef Hnew) as [Hu Hr].
    split; [unfold neverFails; cbn; first [reflexivity | exact Hw] |]. split; [exact Hu |].
    eexists. split; [reflexivity |]. cbn. repeat split. exact Hr.
  - destruct (chasm_frames_success tm (animatedTextureAssets d) [] [] w Hw Hk)
      as (refs & w1 & HE & Hw1 & _).
    rewrite HE. cbn [app].
    set (new := initTextured (animatedTextureAssets d) refs).
    destruct (addChasmTextureKey _ _ _ _ _ _) as [k |] eqn:E; [| discriminate].
    intros H. injection H as <- <- <-.
    destruct (addChasmTextureKey_inv _ _ _ _ _ _ _ E) as [wall ->].
    assert (Hnew : LoadedChasmFloorComparer new d = true).
    { apply comparer_iff. cbn. split; [symmetry; exact Et | reflexivity]. }
    destruct (new_floor_list lists new d (getPosition chunk) id wall Ef Hnew) as [Hu Hr].
    split; [exact Hw1 |]. split; [exact Hu |].
    eexists. split; [reflexivity |]. cbn. repeat split. exact Hr.
Qed.

Lemma ChunkInt2_eqb_eq (a b : ChunkInt2) : ChunkInt2_eqb a b = true <-> a = b.
Proof.
  unfold ChunkInt2_eqb. destruct a as [ax ay], b as [bx by_]. cbn.
  rewrite andb_true_iff, !Z.eqb_eq. split.
  - intros [-> ->]. reflexivity.
  - intros H. injection H as -> ->. split; reflexivity.
Qed.

Lemma find_app_found {A : Type} (p : A -> bool) (l e : list A) (x : A) :
  find p l = Some x -> find p (l ++ e) = Some x.
Proof.
  induction l as [| a l IH]; cbn; [discriminate |].
  destruct (p a); [exact (fun H => H) | exact IH].
Qed.

Lemma find_app_new {A : Type} (p : A -> bool) (l : list A) (x : A) :
  (forall y, In y l -> p y = false) -> p x = true -> find p (l ++ [x]) = Some x.
Proof.
  intros Hl Hx. induction l as [| a l IH]; cbn.
  - rewrite Hx. reflexivity.
  - rewrite (Hl a (or_introl eq_refl)). apply IH. intros y Hy. apply Hl. right. exact Hy.
Qed.

Lemma resolves_extends (lists lists' : list LoadedChasmFloorTextureList)
  (key : LoadedChasmTextureKey.t) (d : ChasmDefinition) :
  extends lists lists' -> resolves lists key d -> resolves lists' key d.
Proof.
  intros [e ->] (l & Hl & Hc). exists l. split; [apply at_app_l, Hl | exact Hc].
Qed.

Lemma chasm_def_assets (chunk : VoxelChunk) (id : ChasmDefID) (a : TextureAsset) :
  In a (animatedTextureAssets (getChasmDef chunk id)) -> In a (chunkChasmAssets chunk).
Proof.
  unfold getChasmDef, chunkChasmAssets.
  destruct (at_ (chunkChasmDefs chunk) id) as [d |] eqn:E; [| intros []].
  intros H. apply in_flat_map. exists d. split; [eapply at_In, E | exact H].
Qed.

(** The keys and floor lists after the chasm loop of [loadVoxelTextures] over
    the definitions [first], ..., [first + count - 1] of a chunk, when
    nothing fails and the keys of the chunk's position are those of the
    definitions below [first]. *)
Lemma chasm_loop_success (chunk : VoxelChunk) (vt : list LoadedVoxelTexture)
  (tm : TextureManager) (count : nat) :
  forall (first : nat) (lists lists' : list LoadedChasmFloorTextureList)
         (keys keys' : list LoadedChasmTextureKey.t) (w w' : World),
    neverFails w ->
    knowsAll tm (chunkChasmAssets chunk) ->
    (forall key, In key keys ->
       LoadedChasmTextureKey.chunkPos key = getPosition chunk ->
       0 <= LoadedChasmTextureKey.chasmDefID key < Z.of_nat first) ->
    (forall id, 0 <= id < Z.of_nat first ->
       exists key, RenderChunkManager.findChasmTextureKey
                     (RenderChunkManager.mk vt lists keys [] [] []) (getPosition chunk) id
                   = Some key
                   /\ resolves lists key (getChasmDef chunk id)) ->
    foldResult (fun st chasmDefID =>
                  let '(l, k, w0) := st in
                  LoadChasmDefTextures chasmDefID chunk vt l k tm w0)
      (map Z.of_nat (seq first count)) (lists, keys, w) = Ok (lists', keys', w') ->
    neverFails w'
    /\ extends lists lists'
    /\ extends keys keys'
    /\ (uniqueFloorLists lists -> uniqueFloorLists lists')
    /\ (forall key, In key keys' ->
          In key keys \/ LoadedChasmTextureKey.chunkPos key = getPosition chunk)
    /\ (forall id, 0 <= id < Z.of_nat (first + count) ->
          exists key, RenderChunkManager.findChasmTextureKey
                        (RenderChunkManager.mk vt lists' keys' [] [] []) (getPosition chunk) id
                      = Some key
                      /\ resolves lists' key (getChasmDef chunk id)).
Proof.
  induction count as [| count IH];
    intros first lists lists' keys keys' w w' Hw Hk Hids Hres Hrun; cbn in Hrun.
  - injection Hrun as <- <- <-. rewrite Nat.add_0_r.
    repeat split; auto using extends_refl.
  - destruct (LoadChasmDefTextures _ _ _ _ _ _ _) as [[[lists1 keys1] w1] |] eqn:E;
      [| discriminate].
    assert (Hnokey : existsb
              (fun loadedKey =>
                 (LoadedChasmTextureKey.chasmDefID loadedKey =? Z.of_nat first) &&
                 ChunkInt2_eqb (LoadedChasmTextureKey.chunkPos loadedKey) (getPosition chunk))
              keys = false).
    { apply not_true_is_false. intros H. apply existsb_exists in H.
      destruct H as (key & Hin & Hp). apply andb_true_iff in Hp. destruct Hp as [Hid Hpos].
      apply Z.eqb_eq in Hid. apply ChunkInt2_eqb_eq in Hpos.
      specialize (Hids key Hin Hpos). lia. }
    assert (Hkd : knowsAll tm (animatedTextureAssets (getChasmDef chunk (Z.of_nat first)))).
    { intros a Ha. apply Hk. eapply chasm_def_assets, Ha. }
    destruct (LoadChasmDefTextures_success _ _ _ _ _ _ _ _ _ _ Hw Hkd Hnokey E)
      as (Hw1 & Hu1 & key & -> & Hkpos & Hkid & Hkres).
    destruct (LoadChasmDefTextures_extends _ _ _ _ _ _ _ _ _ _ E) as [Hel Hek].
    assert (Hids1 : forall k0, In k0 (keys ++ [key]) ->
              LoadedChasmTextureKey.chunkPos k0 = getPosition chunk ->
              0 <= LoadedChasmTextureKey.chasmDefID k0 < Z.of_nat (S first)).
    { intros k0 Hin Hp. apply in_app_iff in Hin. destruct Hin as [Hin | [<- | []]].
      - specialize (Hids k0 Hin Hp). lia.
      - rewrite Hkid. lia. }
    assert (Hres1 : forall id0, 0 <= id0 < Z.of_nat (S first) ->
              exists k0, RenderChunkManager.findChasmTextureKey
                           (RenderChunkManager.mk vt lists1 (keys ++ [key]) [] [] [])
                           (getPosition chunk) id0 = Some k0
                         /\ resolves lists1 k0 (getChasmDef chunk id0)).
    { intros id0 Hr. unfold RenderChunkManager.findChasmTextureKey in *.
      cbn [RenderChunkManager.chasmTextureKeys] in *.
      destruct (Z.eq_dec id0 (Z.of_nat first)) as [-> | Hne].
      - exists key. split; [| exact Hkres].
        apply find_app_new.
        + intros y Hy. apply not_true_is_false. intros Hp.
          apply andb_true_iff in Hp. destruct Hp as [Hpos Hid].
          apply Z.eqb_eq in Hid. apply ChunkInt2_eqb_eq in Hpos.
          specialize (Hids y Hy Hpos). lia.
        + rewrite Hkpos, Hkid, Z.eqb_refl.
          rewrite (proj2 (ChunkInt2_eqb_eq _ _) eq_refl). reflexivity.
      - destruct (Hres id0 ltac:(lia)) as (k0 & Hf & Hr0).
        exists k0. split; [apply find_app_found, Hf | eapply resolves_extends; eauto]. }
    specialize (IH (S first) lists1 lists' (keys ++ [key]) keys' w1 w' Hw1 Hk Hids1 Hres1 Hrun).
    destruct IH as (Hw' & Hel' & Hek' & Hu' & Hnew' & Hres').
    split; [exact Hw' |]. split; [eapply extends_trans; eauto |].
    split; [eapply extends_trans; eauto |]. split; [auto |]. split.
    + intros k0 Hin. destruct (Hnew' k0 Hin) as [Hold | Hp]; [| right; exact Hp].
      apply in_app_iff in Hold. destruct Hold as [Hold | [<- | []]]; [left | right]; assumption.
    + intros id0 Hr. apply Hres'. lia.
Qed.

(** *** A backend that never fails stays so *)

Lemma LoadVoxelDefTexture_neverFails (tm : TextureManager)
  (st : list LoadedVoxelTexture * World) (a : TextureAsset) :
  neverFails (snd st) -> neverFails (snd (LoadVoxelDefTexture tm st a)).
Proof.
  unfold LoadVoxelDefTexture, neverFails. destruct st as [vt w]. cbn [snd]. intros Hw.
  destruct (existsb _ vt); [exact Hw |].
  destruct (tryGetTextureBuilderID tm a) as [b |]; [| exact Hw].
  destruct (tryCreateObjectTexture_neverFails b (renderer w) Hw) as (id & r' & -> & Hr').
  exact Hr'.
Qed.

Lemma tryCreateBuffer_neverFails (kind : BufferKind) (count components : Z) (r : Renderer) :
  outcomes r = [] ->
  exists id r', tryCreateBuffer kind count components r = (Some id, r') /\ outcomes r' = [].
Proof.
  intros H. unfold tryCreateBuffer, nextOutcome. rewrite H.
  eexists. eexists. split; [reflexivity | exact H].
Qed.

Lemma createOpaqueIndexBuffer_neverFails (def : VoxelMeshDefinition)
  (st : RenderVoxelMeshDefinition.t * World) (i : nat) :
  neverFails (snd st) -> neverFails (snd (RenderChunkManager.createOpaqueIndexBuffer def st i)).
Proof.
  unfold RenderChunkManager.createOpaqueIndexBuffer, neverFails, tryCreateIndexBuffer.
  destruct st as [d w]. cbn [snd]. intros Hw.
  destruct (tryCreateBuffer_neverFails IndexBuffer
              (Z.of_nat (length (nth i (opaqueIndices def) []))) 1 (renderer w) Hw)
    as (id & r' & -> & Hr').
  exact Hr'.
Qed.

Lemma loadVoxelMeshBuffer_neverFails (K : Constants) (chunk : VoxelChunk)
  (st : RenderChunk.t * World) (i : nat) :
  neverFails (snd st) -> neverFails (snd (RenderChunkManager.loadVoxelMeshBuffer K chunk st i)).
Proof.
  unfold RenderChunkManager.loadVoxelMeshBuffer, tryCreateVertexBuffer,
    tryCreateAttributeBuffer, tryCreateIndexBuffer.
  destruct st as [rc w]. cbn [snd]. intros Hw.
  destruct (meshIsEmpty _); [exact Hw |].
  destruct (tryCreateBuffer_neverFails VertexBuffer
              (rendererVertexCount (getMeshDef chunk (Z.of_nat i)))
              (POSITION_COMPONENTS_PER_VERTEX K) (renderer w) Hw) as (vb & r & -> & Hr).
  destruct (tryCreateBuffer_neverFails AttributeBuffer
              (rendererVertexCount (getMeshDef chunk (Z.of_nat i)))
              (NORMAL_COMPONENTS_PER_VERTEX K) r Hr) as (nb & r1 & -> & Hr1).
  destruct (tryCreateBuffer_neverFails AttributeBuffer
              (rendererVertexCount (getMeshDef chunk (Z.of_nat i)))
              (TEX_COORDS_PER_VERTEX K) r1 Hr1) as (tb & r2 & -> & Hr2).
  match goal with
  | |- context [fold_left ?f ?l ?a] =>
      pose proof (fold_left_invariant (fun s => neverFails (snd s)) f l a Hr2
                    (fun s j => createOpaqueIndexBuffer_neverFails _ s j)) as Hfold;
      destruct (fold_left f l a) as [d4 w4]
  end.
  cbn [snd] in Hfold.
  destruct (_ >? 0); [| exact Hfold].
  destruct (tryCreateBuffer_neverFails IndexBuffer
              (Z.of_nat (length (alphaTestedIndices (getMeshDef chunk (Z.of_nat i))))) 1
              (renderer w4) Hfold) as (ab & r5 & -> & Hr5).
  exact Hr5.
Qed.

Lemma findChasmTextureKey_keys (a b : RenderChunkManager.t) (pos : ChunkInt2)
  (id : ChasmDefID) :
  RenderChunkManager.chasmTextureKeys a = RenderChunkManager.chasmTextureKeys b ->
  RenderChunkManager.findChasmTextureKey a pos id
  = RenderChunkManager.findChasmTextureKey b pos id.
Proof. unfold RenderChunkManager.findChasmTextureKey. intros ->. reflexivity. Qed.

(** The chasm loop of [loadVoxelTextures] for a chunk whose position has no
    key yet, when nothing fails. *)
Lemma chasm_loop_fresh (chunk : VoxelChunk) (vt : list LoadedVoxelTexture)
  (tm : TextureManager) (lists lists' : list LoadedChasmFloorTextureList)
  (keys keys' : list LoadedChasmTextureKey.t) (w w' : World) :
  neverFails w ->
  knowsAll tm (chunkChasmAssets chunk) ->
  noKeysAt keys (getPosition chunk) ->
  foldResult (fun st chasmDefID =>
                let '(l, k, w0) := st in
                LoadChasmDefTextures chasmDefID chunk vt l k tm w0)
    (indices (length (chunkChasmDefs chunk))) (lists, keys, w) = Ok (lists', keys', w') ->
  neverFails w'
  /\ extends lists lists'
  /\ extends keys keys'
  /\ (uniqueFloorLists lists -> uniqueFloorLists lists')
  /\ (forall key, In key keys' ->
        In key keys \/ LoadedChasmTextureKey.chunkPos key = getPosition chunk)
  /\ (forall id, 0 <= id < Z.of_nat (length (chunkChasmDefs chunk)) ->
        exists key, RenderChunkManager.findChasmTextureKey
                      (RenderChunkManager.mk vt lists' keys' [] [] []) (getPosition chunk) id
                    = Some key
                    /\ resolves lists' key (getChasmDef chunk id)).
Proof.
  intros Hw Hk Hfresh Hloop.
  apply (chasm_loop_success chunk vt tm (length (chunkChasmDefs chunk)) 0
           lists lists' keys keys' w w' Hw Hk).
  - intros key Hin Hpos. exfalso. apply (Hfresh key Hin Hpos).
  - intros id Hid. cbn in Hid. lia.
  - exact Hloop.
Qed.

(** Loading a chunk whose position has no key yet, when nothing fails. *)
Lemma loadVoxelChunk_success (K : Constants) (this this' : RenderChunkManager.t)
  (chunk : VoxelChunk) (ceilingScale : double) (tm : TextureManager) (w w' : World) :
  neverFails w ->
  knowsAll tm (chunkChasmAssets chunk) ->
  noKeysAt (RenderChunkManager.chasmTextureKeys this) (getPosition chunk) ->
  RenderChunkManager.loadVoxelChunk K this chunk ceilingScale tm w = Ok (this', w') ->
  neverFails w'
  /\ extends (RenderChunkManager.chasmFloorTextureLists this)
       (RenderChunkManager.chasmFloorTextureLists this')
  /\ extends (RenderChunkManager.chasmTextureKeys this)
       (RenderChunkManager.chasmTextureKeys this')
  /\ (uniqueFloorLists (RenderChunkManager.chasmFloorTextureLists this) ->
      uniqueFloorLists (RenderChunkManager.chasmFloorTextureLists this'))
  /\ (forall key, In key (RenderChunkManager.chasmTextureKeys this') ->
        In key (RenderChunkManager.chasmTextureKeys this)
        \/ LoadedChasmTextureKey.chunkPos key = getPosition chunk)
  /\ (forall id, 0 <= id < Z.of_nat (length (chunkChasmDefs chunk)) ->
        exists key,
          RenderChunkManager.findChasmTextureKey this' (getPosition chunk) id = Some key
          /\ resolves (RenderChunkManager.chasmFloorTextureLists this') key
               (getChasmDef chunk id)).
Proof.
  intros Hw Hk Hfresh Hload.
  destruct (loadVoxelChunk_inv _ _ _ _ _ _ _ _ Hload) as (thisT & wT & ET & _ & HL & HKeys).
  destruct (loadVoxelTextures_inv _ _ _ _ _ _ ET) as (w1 & _ & Hw1 & Hloop).
  assert (H1 : neverFails w1).
  { subst w1. apply (fold_left_invariant (fun s => neverFails (snd s))); [exact Hw |].
    intros s a Hs. apply LoadVoxelDefTexture_neverFails, Hs. }
  destruct (chasm_loop_fresh _ _ _ _ _ _ _ _ _ H1 Hk Hfresh Hloop)
    as (HwT & Hel & Hek & Hu & Hnew & Hres).
  assert (Hw' : neverFails w').
  { unfold RenderChunkManager.loadVoxelChunk in Hload. rewrite ET in Hload.
    unfold RenderChunkManager.loadVoxelMeshBuffers in Hload.
    match type of Hload with
    | context [fold_left ?f ?l ?a] =>
        pose proof (fold_left_invariant (fun s => neverFails (snd s)) f l a HwT
                      (fun s j => loadVoxelMeshBuffer_neverFails K chunk s j)) as Hfold;
        destruct (fold_left f l a) as [rc1 w2]
    end.
    destruct (RenderChunkManager.loadVoxelChasmWalls _ _ _ _) as [rc2 |]; [| discriminate].
    injection Hload as <- <-. exact Hfold. }
  split; [exact Hw' |].
  rewrite HL, HKeys. repeat split; try assumption.
  intros id Hid. destruct (Hres id Hid) as (key & Hf & Hr).
  exists key. split; [| exact Hr].
  rewrite <- Hf. apply findChasmTextureKey_keys. cbn. exact HKeys.
Qed.



(** *** Failed voxel textures *)

















(** ** Rebuilds and the lists they were not asked to update *)

(** C2: rebuilds with [updateStatics = true] and [updateAnimating = false]
    on chunks that were fully rebuilt before. For a chunk with one swinging
    door, the door list is not cleared and the door's draw call is appended
    to it again: the list grows from one call to two equal calls. For a chunk
    with one dry chasm walled on one side, the wall's draw call is appended
    again to the chasm list, which grows from two calls to three. *)
Theorem statics_rebuild_touches_animating_lists :
  let door1 := Samples.rebuilt Samples.doorChunk true true
                 (fst (Samples.loaded Samples.doorChunk [Samples.asset "door"])) in
  let chasm1 := Samples.rebuilt Samples.dryChasmChunk true true
                  (fst (Samples.loaded Samples.dryChasmChunk [Samples.asset "wall"])) in
  match RenderChunkManager.rebuildVoxelChunkDrawCalls Samples.arena door1
          Samples.doorChunk 1%Q 0%Q true false [],
        RenderChunkManager.rebuildVoxelChunkDrawCalls Samples.arena chasm1
          Samples.dryChasmChunk 1%Q 0%Q true false [] with
  | Ok (door2, _), Ok (chasm2, _) =>
      map (@length _) (Samples.drawCallsOf door1) = [0; 1; 0; 0]%nat
      /\ (exists call, nth 1 (Samples.drawCallsOf door1) [] = [call]
                       /\ nth 1 (Samples.drawCallsOf door2) [] = [call; call])
      /\ map (@length _) (Samples.drawCallsOf chasm1) = [0; 0; 2; 0]%nat
      /\ map (@length _) (Samples.drawCallsOf chasm2) = [0; 0; 3; 0]%nat
  | _, _ => False
  end.
Proof.
  vm_compute. split; [reflexivity |]. split; [| split; reflexivity].
  eexists. split; reflexivity.
Qed.

(** ** Draw calls appended by the assembler *)


Lemma appendCalls_noCalls_r (e : Emitted) : appendCalls e noCalls = e.
Proof.
  destruct e. unfold appendCalls. cbn. now rewrite !app_nil_r.
Qed.

Lemma appendCalls_noCalls_l (e : Emitted) : appendCalls noCalls e = e.
Proof.
  now destruct e.
Qed.

Lemma appendCalls_assoc (a b c : Emitted) :
  appendCalls (appendCalls a b) c = appendCalls a (appendCalls b c).
Proof.
  unfold appendCalls. cbn. now rewrite <- !app_assoc.
Qed.

Lemma within_noCalls (targets : DrawCallList -> bool) : within targets noCalls.
Proof.
  intros [] _; reflexivity.
Qed.

Lemma within_appendCalls (targets : DrawCallList -> bool) (a b : Emitted) :
  within targets a -> within targets b -> within targets (appendCalls a b).
Proof.
  intros Ha Hb target Ht.
  specialize (Ha target Ht). specialize (Hb target Ht).
  destruct target; cbn in *; now rewrite Ha, Hb.
Qed.

Lemma within_weaken (targets targets' : DrawCallList -> bool) (e : Emitted) :
  (forall target, targets target = true -> targets' target = true) ->
  within targets e -> within targets' e.
Proof.
  intros Hsub He target Ht. apply He.
  destruct (targets target) eqn:E; [| reflexivity].
  apply Hsub in E. congruence.
Qed.

Lemma cleared_idem (st : RenderChunkManager.DrawState) : cleared (cleared st) = cleared st.
Proof.
  reflexivity.
Qed.

Lemma callsOf_cleared (st : RenderChunkManager.DrawState) : callsOf (cleared st) = noCalls.
Proof.
  reflexivity.
Qed.

(** *** The operations of the assembler only append *)

Lemma Appends_weaken {A : Type} (targets targets' : DrawCallList -> bool)
  (m : M RenderChunkManager.DrawState A) :
  (forall target, targets target = true -> targets' target = true) ->
  Appends targets m -> Appends targets' m.
Proof.
  intros Hsub Hm st. specialize (Hm st).
  destruct (m (cleared st)) as [[a s] | f]; [| exact Hm].
  destruct Hm as [Hw Hrun]. split; [| exact Hrun].
  now apply within_weaken with targets.
Qed.

Lemma Appends_any {A : Type} (targets : DrawCallList -> bool)
  (m : M RenderChunkManager.DrawState A) :
  Appends targets m -> Appends anyVector m.
Proof.
  apply Appends_weaken. reflexivity.
Qed.

Lemma Appends_ret {A : Type} (targets : DrawCallList -> bool) (a : A) :
  Appends targets (ret a).
Proof.
  intros st. cbn. split; [apply within_noCalls |].
  exists st. repeat split. now rewrite appendCalls_noCalls_r.
Qed.

Lemma Appends_crash {A : Type} (targets : DrawCallList -> bool) (f : Fault) :
  Appends targets (@crash RenderChunkManager.DrawState A f).
Proof.
  intros st. reflexivity.
Qed.

Lemma Appends_lift {A : Type} (targets : DrawCallList -> bool) (r : Result A) :
  Appends targets (lift r).
Proof.
  destruct r as [a | f]; [apply (Appends_ret targets a) | apply Appends_crash].
Qed.

Lemma Appends_DebugAssert (targets : DrawCallList -> bool) (condition : bool) :
  Appends targets (DebugAssert condition).
Proof.
  destruct condition; [apply Appends_ret | apply Appends_crash].
Qed.

Lemma Appends_gets {A : Type} (targets : DrawCallList -> bool)
  (f : RenderChunkManager.DrawState -> A) :
  (forall st, f (cleared st) = f st) -> Appends targets (gets f).
Proof.
  intros Hf st. cbn. split; [apply within_noCalls |].
  exists st. rewrite Hf. repeat split. now rewrite appendCalls_noCalls_r.
Qed.

Lemma Appends_bind {A B : Type} (targets : DrawCallList -> bool)
  (m : M RenderChunkManager.DrawState A) (k : A -> M RenderChunkManager.DrawState B) :
  Appends targets m -> (forall a, Appends targets (k a)) -> Appends targets (bind m k).
Proof.
  intros Hm Hk st. unfold bind.
  pose proof (Hm st) as H1. pose proof (Hm (cleared st)) as H2.
  rewrite cleared_idem in H2.
  destruct (m (cleared st)) as [[a s] | f]; [| now rewrite H1].
  destruct H1 as (Hw & st' & Hrun & Hcl & Hcalls).
  destruct H2 as (_ & s0 & Hs0 & Hcs & _).
  injection Hs0 as <-.
  rewrite Hrun.
  pose proof (Hk a s) as H3. pose proof (Hk a st') as H4.
  rewrite Hcs in H3. rewrite Hcl in H4.
  destruct (k a (cleared st)) as [[b s2] | f].
  - destruct H3 as (Hw2 & s' & Hk1 & Hc1 & Hl1).
    destruct H4 as (_ & st'' & Hk2 & Hc2 & Hl2).
    rewrite Hk1. split.
    + rewrite Hl1. now apply within_appendCalls.
    + exists st''. split; [exact Hk2 |]. split; [congruence |].
      rewrite Hl2, Hcalls, Hl1. apply appendCalls_assoc.
  - now rewrite H3.
Qed.

Lemma Appends_forEach {X : Type} (targets : DrawCallList -> bool) (xs : list X)
  (body : X -> M RenderChunkManager.DrawState unit) :
  (forall x, Appends targets (body x)) -> Appends targets (forEach xs body).
Proof.
  intros Hbody. induction xs as [| x rest IH]; cbn [forEach].
  - apply Appends_ret.
  - apply Appends_bind; [apply Hbody | intros _; exact IH].
Qed.

Lemma Appends_logError (targets : DrawCallList -> bool) (msg : string) :
  Appends targets (RenderChunkManager.logError msg).
Proof.
  intros st. cbn. split; [apply within_noCalls |].
  eexists. split; [reflexivity |]. split; [reflexivity |].
  now rewrite appendCalls_noCalls_r.
Qed.

Lemma Appends_setMeshDefID (targets : DrawCallList -> bool) (voxel : VoxelInt3) (id : Z) :
  Appends targets
    (modify (fun st : RenderChunkManager.DrawState =>
               (RenderChunk.setMeshDefID voxel id (fst st), snd st))).
Proof.
  intros st. cbn. split; [apply within_noCalls |].
  eexists. split; [reflexivity |]. split; [reflexivity |].
  now rewrite appendCalls_noCalls_r.
Qed.

Lemma Appends_addVoxelDrawCall (targets : DrawCallList -> bool)
  (position preScaleTranslation : Double3) (rotationMatrix scaleMatrix : Matrix4d)
  (vertexBufferID : VertexBufferID) (normalBufferID texCoordBufferID : AttributeBufferID)
  (indexBufferID : IndexBufferID) (textureID0 : ObjectTextureID)
  (textureID1 : option ObjectTextureID) (textureSamplingType : TextureSamplingType)
  (vertexShaderType : VertexShaderType) (pixelShaderType : PixelShaderType)
  (pixelShaderParam0 : double) (drawCalls : DrawCallList) :
  targets drawCalls = true ->
  Appends targets
    (RenderChunkManager.addVoxelDrawCall position preScaleTranslation rotationMatrix
       scaleMatrix vertexBufferID normalBufferID texCoordBufferID indexBufferID
       textureID0 textureID1 textureSamplingType vertexShaderType pixelShaderType
       pixelShaderParam0 drawCalls).
Proof.
  intros Ht st. unfold RenderChunkManager.addVoxelDrawCall, modify.
  split.
  - intros target Hn.
    destruct drawCalls, target; try reflexivity; congruence.
  - eexists. split; [reflexivity |]. split.
    + destruct drawCalls; reflexivity.
    + destruct drawCalls; unfold appendCalls, callsOf; cbn; now rewrite ?app_nil_r.
Qed.

(** What a computation that only appends does in any state, from what it
    emits. *)
Lemma Appends_run {A : Type} (targets : DrawCallList -> bool)
  (m : M RenderChunkManager.DrawState A) (st : RenderChunkManager.DrawState) :
  Appends targets m ->
  match emitted m st with
  | Some (a, e) =>
      within targets e
      /\ exists st', m st = Ok (a, st') /\ cleared st' = cleared st
                     /\ callsOf st' = appendCalls (callsOf st) e
  | None => exists f, m st = Fatal f
  end.
Proof.
  intros Hm. specialize (Hm st). unfold emitted.
  destruct (m (cleared st)) as [[a s] | f]; [exact Hm | now exists f].
Qed.

Lemma emitted_ret {A : Type} (a : A) (st : RenderChunkManager.DrawState) :
  emitted (ret a) st = Some (a, noCalls).
Proof.
  reflexivity.
Qed.

Lemma emitted_bind {A B : Type} (targets : DrawCallList -> bool)
  (m : M RenderChunkManager.DrawState A) (k : A -> M RenderChunkManager.DrawState B)
  (st : RenderChunkManager.DrawState) :
  Appends targets m -> (forall a, Appends targets (k a)) ->
  emitted (bind m k) st
  = match emitted m st with
    | Some (a, e) =>
        match emitted (k a) st with
        | Some (b, e') => Some (b, appendCalls e e')
        | None => None
        end
    | None => None
    end.
Proof.
  intros Hm Hk. unfold emitted, bind.
  pose proof (Hm (cleared st)) as H1. rewrite cleared_idem in H1.
  destruct (m (cleared st)) as [[a s] | f]; [| reflexivity].
  destruct H1 as (_ & s0 & Hs0 & Hcs & _).
  injection Hs0 as <-.
  pose proof (Hk a s) as H2. rewrite Hcs in H2.
  destruct (k a (cleared st)) as [[b s2] | f].
  - destruct H2 as (_ & s' & Hk1 & _ & Hl). now rewrite Hk1, Hl.
  - now rewrite H2.
Qed.

Lemma emitted_within {A : Type} (targets : DrawCallList -> bool)
  (m : M RenderChunkManager.DrawState A) (st : RenderChunkManager.DrawState)
  (a : A) (e : Emitted) :
  Appends targets m -> emitted m st = Some (a, e) -> within targets e.
Proof.
  intros Hm He. pose proof (Appends_run targets m st Hm) as H.
  rewrite He in H. apply H.
Qed.

Ltac appends_step :=
  first
    [ apply Appends_ret | apply Appends_crash | apply Appends_lift
    | apply Appends_DebugAssert | apply Appends_logError | apply Appends_setMeshDefID
    | apply Appends_gets; reflexivity
    | apply Appends_addVoxelDrawCall; reflexivity
    | apply Appends_forEach; intros ?
    | apply Appends_bind; [| intros ?] ].

Ltac appends :=
  repeat first
    [ appends_step
    | match goal with
      | |- Appends _ (match ?x with _ => _ end) => destruct x
      end ].

Lemma findVoxelTextureID_Appends (targets : DrawCallList -> bool)
  (this : RenderChunkManager.t) (asset : TextureAsset) (msg : string) :
  Appends targets (RenderChunkManager.findVoxelTextureID this asset msg).
Proof.
  unfold RenderChunkManager.findVoxelTextureID. appends.
Qed.

Lemma opaqueDrawCall_Appends (this : RenderChunkManager.t) (chunkPos : ChunkInt2)
  (chasmAnimPercent : double) (voxelTextureDef : VoxelTextureDefinition)
  (voxelType : VoxelType) (renderMeshDef : RenderVoxelMeshDefinition.t)
  (worldPos : Double3) (chasmDefID : option ChasmDefID)
  (fadeAnimInst : option VoxelFadeAnimationInstance) (bufferIndex : Z) :
  Appends (DrawCallList_eqb (opaqueTarget chasmDefID fadeAnimInst))
    (RenderChunkManager.opaqueDrawCall this chunkPos chasmAnimPercent voxelTextureDef
       voxelType renderMeshDef worldPos chasmDefID fadeAnimInst bufferIndex).
Proof.
  unfold RenderChunkManager.opaqueDrawCall.
  destruct chasmDefID, fadeAnimInst; cbn [isSome negb opaqueTarget];
    apply Appends_bind;
    try (intros textureID; destruct (textureID <? 0); appends);
    appends; apply findVoxelTextureID_Appends.
Qed.

Lemma doorFaceDrawCall_Appends (K : Constants) (ceilingScale doorAnimPercent : double)
  (renderMeshDef : RenderVoxelMeshDefinition.t) (worldPos : Double3)
  (textureID : ObjectTextureID) (type : DoorType) (i : Z) :
  Appends (DrawCallList_eqb DoorDrawCalls)
    (RenderChunkManager.doorFaceDrawCall K ceilingScale doorAnimPercent renderMeshDef
       worldPos textureID type i).
Proof.
  unfold RenderChunkManager.doorFaceDrawCall. destruct type; appends.
Qed.

Lemma doorDrawCalls_Appends (K : Constants) (chunk : VoxelChunk) (ceilingScale : double)
  (x y z : nat) (renderMeshDef : RenderVoxelMeshDefinition.t) (worldPos : Double3)
  (textureID : ObjectTextureID) (doorDefID : Z) :
  Appends (DrawCallList_eqb DoorDrawCalls)
    (RenderChunkManager.doorDrawCalls K chunk ceilingScale x y z renderMeshDef worldPos
       textureID doorDefID).
Proof.
  unfold RenderChunkManager.doorDrawCalls.
  destruct (tryGetDoorVisibilityInst chunk x y z); [| appends].
  apply Appends_bind; [appends | intros _].
  destruct (doorType (getDoorDef chunk doorDefID)); appends;
    apply doorFaceDrawCall_Appends.
Qed.

Lemma alphaTestedDrawCalls_Appends (K : Constants) (this : RenderChunkManager.t)
  (chunk : VoxelChunk) (ceilingScale : double) (x y z : nat)
  (voxelTextureDef : VoxelTextureDefinition) (voxelType : VoxelType)
  (renderMeshDef : RenderVoxelMeshDefinition.t) (worldPos : Double3)
  (doorDefID : option Z) (isChasm : bool) :
  Appends (DrawCallList_eqb (alphaTestedTarget doorDefID))
    (RenderChunkManager.alphaTestedDrawCalls K this chunk ceilingScale x y z
       voxelTextureDef voxelType renderMeshDef worldPos doorDefID isChasm).
Proof.
  unfold RenderChunkManager.alphaTestedDrawCalls.
  apply Appends_bind; [appends | intros _].
  apply Appends_bind; [appends | intros textureAssetIndex].
  apply Appends_bind; [appends | intros asset].
  apply Appends_bind; [apply findVoxelTextureID_Appends | intros textureID].
  destruct (textureID <? 0); [appends |].
  destruct doorDefID as [id |]; cbn [alphaTestedTarget isSome].
  - apply doorDrawCalls_Appends.
  - appends.
Qed.

Lemma chasmWallDrawCall_Appends (this : RenderChunkManager.t) (chunkPos : ChunkInt2)
  (chasmAnimPercent : double) (updateStatics updateAnimating : bool) (voxel : VoxelInt3)
  (voxelTraitsDef : VoxelTraitsDefinition) (renderMeshDef : RenderVoxelMeshDefinition.t)
  (worldPos : Double3) (chasmDefID : ChasmDefID) :
  Appends (DrawCallList_eqb ChasmDrawCalls)
    (RenderChunkManager.chasmWallDrawCall this chunkPos chasmAnimPercent updateStatics
       updateAnimating voxel voxelTraitsDef renderMeshDef worldPos chasmDefID).
Proof.
  unfold RenderChunkManager.chasmWallDrawCall.
  apply Appends_bind; [appends | intros walls].
  destruct (find _ walls) as [[v id] |]; [| appends].
  apply Appends_bind; [appends | intros _].
  destruct (traitsUnion voxelTraitsDef); appends.
Qed.

Lemma voxelDrawCalls_Appends (K : Constants) (this : RenderChunkManager.t)
  (chunk : VoxelChunk) (ceilingScale chasmAnimPercent : double)
  (updateStatics updateAnimating : bool) (chunkPos : ChunkInt2) (voxel : VoxelInt3)
  (renderMeshDef : RenderVoxelMeshDefinition.t) :
  Appends anyVector
    (RenderChunkManager.voxelDrawCalls K this chunk ceilingScale chasmAnimPercent
       updateStatics updateAnimating chunkPos voxel renderMeshDef).
Proof.
  destruct voxel as [[x y] z]. unfold RenderChunkManager.voxelDrawCalls.
  apply Appends_bind.
  - match goal with |- Appends _ (if ?c then _ else _) => destruct c end; [| appends].
    apply Appends_forEach. intros bufferIndex.
    eapply Appends_any, opaqueDrawCall_Appends.
  - intros _. apply Appends_bind.
    + repeat match goal with |- Appends _ (if ?c then _ else _) => destruct c end;
        try apply Appends_ret.
      eapply Appends_any, alphaTestedDrawCalls_Appends.
    + intros goesOn. destruct goesOn; [| appends].
      destruct (tryGetChasmDefID chunk x y z); [| appends].
      eapply Appends_any, chasmWallDrawCall_Appends.
Qed.

Lemma loadVoxelDrawCallsAt_Appends (K : Constants) (this : RenderChunkManager.t)
  (chunk : VoxelChunk) (ceilingScale chasmAnimPercent : double)
  (updateStatics updateAnimating : bool) (chunkPos : ChunkInt2) (voxel : VoxelInt3) :
  Appends anyVector
    (RenderChunkManager.loadVoxelDrawCallsAt K this chunk ceilingScale chasmAnimPercent
       updateStatics updateAnimating chunkPos voxel).
Proof.
  destruct voxel as [[x y] z]. unfold RenderChunkManager.loadVoxelDrawCallsAt.
  destruct (meshIsEmpty _); [appends |].
  apply Appends_bind; [appends | intros mappings].
  destruct (find _ mappings) as [[k renderMeshDefID] |]; [| appends].
  apply Appends_bind; [appends | intros _].
  apply Appends_bind; [appends | intros renderMeshDefs].
  destruct (at_ renderMeshDefs renderMeshDefID); [| appends].
  apply voxelDrawCalls_Appends.
Qed.

Lemma chasmWallDrawCall_split (this : RenderChunkManager.t) (chunkPos : ChunkInt2)
  (chasmAnimPercent : double) (voxel : VoxelInt3)
  (voxelTraitsDef : VoxelTraitsDefinition) (renderMeshDef : RenderVoxelMeshDefinition.t)
  (worldPos : Double3) (chasmDefID : ChasmDefID) (st : RenderChunkManager.DrawState)
  (e : Emitted) :
  (traitsUnion voxelTraitsDef = TraitsChasm Dry ->
   find (fun kv => VoxelInt3_eqb (fst kv) voxel)
     (RenderChunk.chasmWallIndexBufferIDs (fst st)) = None) ->
  emitted (RenderChunkManager.chasmWallDrawCall this chunkPos chasmAnimPercent true true
             voxel voxelTraitsDef renderMeshDef worldPos chasmDefID) st = Some (tt, e) ->
  emitted (RenderChunkManager.chasmWallDrawCall this chunkPos chasmAnimPercent true false
             voxel voxelTraitsDef renderMeshDef worldPos chasmDefID) st = Some (tt, noCalls)
  /\ emitted (RenderChunkManager.chasmWallDrawCall this chunkPos chasmAnimPercent false true
                voxel voxelTraitsDef renderMeshDef worldPos chasmDefID) st = Some (tt, e).
Proof.
  intros Hdry.
  unfold emitted, RenderChunkManager.chasmWallDrawCall, bind, gets.
  cbn [fst snd cleared RenderChunk.chasmWallIndexBufferIDs].
  destruct (find _ _) as [[v id] |] eqn:Hfind.
  - destruct (VoxelType_eqb _ _); cbn [DebugAssert ret crash]; [| discriminate].
    destruct (traitsUnion voxelTraitsDef) as [| | | | | chasmType]; try discriminate.
    destruct chasmType; cbn [ChasmType_eqb negb andb orb].
    + specialize (Hdry eq_refl). discriminate.
    + intros H. split; [reflexivity | exact H].
    + intros H. split; [reflexivity | exact H].
  - cbn [ret]. intros H. split; [reflexivity | exact H].
Qed.

Lemma emitted_crash_bind {A B : Type} (f : Fault)
  (k : A -> M RenderChunkManager.DrawState B) (st : RenderChunkManager.DrawState) :
  emitted (bind (crash f) k) st = None.
Proof.
  reflexivity.
Qed.

Ltac empty_vectors W :=
  try pose proof (W StaticDrawCalls eq_refl);
  try pose proof (W DoorDrawCalls eq_refl);
  try pose proof (W ChasmDrawCalls eq_refl);
  try pose proof (W FadingDrawCalls eq_refl).

Ltac any_appends HO HA :=
  intros;
  repeat match goal with
         | |- Appends _ (if ?c then _ else _) => destruct c
         end;
  first [ apply Appends_ret
        | eapply Appends_any; exact HO
        | eapply Appends_any; exact HA
        | eapply Appends_any; apply chasmWallDrawCall_Appends
        | apply Appends_bind; any_appends HO HA ].

Lemma voxelDrawCalls_split (K : Constants) (this : RenderChunkManager.t)
  (chunk : VoxelChunk) (ceilingScale chasmAnimPercent : double) (chunkPos : ChunkInt2)
  (x y z : nat) (renderMeshDef : RenderVoxelMeshDefinition.t)
  (st : RenderChunkManager.DrawState) (e : Emitted) :
  (traitsUnion (getTraitsDef chunk (getTraitsDefID chunk x y z)) = TraitsChasm Dry ->
   find (fun kv => VoxelInt3_eqb (fst kv) (x, y, z))
     (RenderChunk.chasmWallIndexBufferIDs (fst st)) = None) ->
  emitted (RenderChunkManager.voxelDrawCalls K this chunk ceilingScale chasmAnimPercent
             true true chunkPos (x, y, z) renderMeshDef) st = Some (tt, e) ->
  exists e1 e2,
    emitted (RenderChunkManager.voxelDrawCalls K this chunk ceilingScale chasmAnimPercent
               true false chunkPos (x, y, z) renderMeshDef) st = Some (tt, e1)
    /\ emitted (RenderChunkManager.voxelDrawCalls K this chunk ceilingScale
                  chasmAnimPercent false true chunkPos (x, y, z) renderMeshDef) st
       = Some (tt, e2)
    /\ splitsInto eq e e1 e2.
Proof.
  intros Hdry. unfold RenderChunkManager.voxelDrawCalls.
  set (opaque := forEach _ _).
  set (alphaTested := RenderChunkManager.alphaTestedDrawCalls _ _ _ _ _ _ _ _ _ _ _ _ _).
  assert (HO : Appends (DrawCallList_eqb (opaqueTarget (tryGetChasmDefID chunk x y z)
                                             (tryGetFadeAnimInst chunk x y z))) opaque)
    by (apply Appends_forEach; intros i; apply opaqueDrawCall_Appends).
  assert (HA : Appends (DrawCallList_eqb (alphaTestedTarget (tryGetDoorDefID chunk x y z)))
                 alphaTested)
    by apply alphaTestedDrawCalls_Appends.
  assert (HAc : isSome (tryGetChasmDefID chunk x y z) = true ->
                emitted alphaTested st = None).
  { intros Hc. unfold alphaTested, RenderChunkManager.alphaTestedDrawCalls.
    rewrite Hc. reflexivity. }
  pose proof (fun id e => chasmWallDrawCall_split this chunkPos chasmAnimPercent (x, y, z)
                (getTraitsDef chunk (getTraitsDefID chunk x y z)) renderMeshDef
                (int_to_double (fst (RenderChunkManager.chunkVoxelToNewVoxel K chunkPos x z)),
                 fmul (int_to_double (Z.of_nat y)) ceilingScale,
                 int_to_double (snd (RenderChunkManager.chunkVoxelToNewVoxel K chunkPos x z)))
                id st e Hdry) as HW.
  pose proof (fun e => emitted_within _ opaque st tt e HO) as WO.
  pose proof (fun g e => emitted_within _ alphaTested st g e HA) as WA.
  clearbody opaque alphaTested.
  destruct (emitted opaque st) as [[[] eO] |] eqn:EO;
    destruct (emitted alphaTested st) as [[[|] eA] |] eqn:EA;
    destruct (tryGetChasmDefID chunk x y z) as [cid |];
    destruct (tryGetDoorDefID chunk x y z) as [did |];
    destruct (tryGetFadeAnimInst chunk x y z) as [fade |];
    destruct (RenderVoxelMeshDefinition.alphaTestedIndexBufferID renderMeshDef >=? 0);
    cbn [isSome negb orb andb opaqueTarget alphaTestedTarget] in *;
    try (specialize (HAc eq_refl); discriminate HAc).
  all: intros H.
  all: repeat (first [ rewrite (emitted_bind anyVector) in H by any_appends HO HA
                     | rewrite EO in H | rewrite EA in H | rewrite emitted_ret in H ];
               cbn beta iota in H).
  all: try discriminate H.
  all: try match type of H with
           | context [emitted ?wall ?s] =>
               destruct (emitted wall s) as [[[] eW] |] eqn:EW; [| discriminate H];
               destruct (HW _ _ EW) as [W1 W2]
           end.
  all: injection H as <-.
  all: eexists; eexists; split; [| split].
  all: try (repeat (first [ rewrite (emitted_bind anyVector) by any_appends HO HA
                          | rewrite EO | rewrite EA | rewrite W1 | rewrite W2
                          | rewrite emitted_ret ];
                    cbn beta iota);
            reflexivity).
  all: clear HW; specialize (WO _ eq_refl); empty_vectors WO;
    try (specialize (WA _ _ eq_refl); empty_vectors WA); cbn [callsIn] in *.
  all: unfold splitsInto, appendCalls; cbn [toStatic toDoor toChasm toFading noCalls].
  all: repeat match goal with
              | Hx : _ = [] |- _ => rewrite Hx; clear Hx
              end.
  all: cbn [app]; rewrite ?app_nil_r; repeat split.
Qed.

Lemma emitted_gets {A : Type} (f : RenderChunkManager.DrawState -> A)
  (st : RenderChunkManager.DrawState) :
  emitted (gets f) st = Some (f (cleared st), noCalls).
Proof.
  reflexivity.
Qed.

Lemma emitted_setMeshDefID (voxel : VoxelInt3) (id : Z) (st : RenderChunkManager.DrawState) :
  emitted (modify (fun st : RenderChunkManager.DrawState =>
                     (RenderChunk.setMeshDefID voxel id (fst st), snd st))) st
  = Some (tt, noCalls).
Proof.
  reflexivity.
Qed.

Lemma splitsInto_noCalls : splitsInto eq noCalls noCalls noCalls.
Proof.
  repeat split.
Qed.

Ltac at_appends :=
  intros;
  repeat first
    [ apply voxelDrawCalls_Appends
    | appends_step
    | match goal with
      | |- Appends _ (match ?x with _ => _ end) => destruct x
      end ].

Lemma loadVoxelDrawCallsAt_split (K : Constants) (this : RenderChunkManager.t)
  (chunk : VoxelChunk) (ceilingScale chasmAnimPercent : double) (chunkPos : ChunkInt2)
  (x y z : nat) (st : RenderChunkManager.DrawState) (e : Emitted) :
  (traitsUnion (getTraitsDef chunk (getTraitsDefID chunk x y z)) = TraitsChasm Dry ->
   find (fun kv => VoxelInt3_eqb (fst kv) (x, y, z))
     (RenderChunk.chasmWallIndexBufferIDs (fst st)) = None) ->
  emitted (RenderChunkManager.loadVoxelDrawCallsAt K this chunk ceilingScale
             chasmAnimPercent true true chunkPos (x, y, z)) st = Some (tt, e) ->
  exists e1 e2,
    emitted (RenderChunkManager.loadVoxelDrawCallsAt K this chunk ceilingScale
               chasmAnimPercent true false chunkPos (x, y, z)) st = Some (tt, e1)
    /\ emitted (RenderChunkManager.loadVoxelDrawCallsAt K this chunk ceilingScale
                  chasmAnimPercent false true chunkPos (x, y, z)) st = Some (tt, e2)
    /\ splitsInto eq e e1 e2.
Proof.
  intros Hdry. unfold RenderChunkManager.loadVoxelDrawCallsAt.
  destruct (meshIsEmpty _).
  { rewrite !emitted_ret. intros H. injection H as <-.
    exists noCalls, noCalls. repeat split. }
  repeat (rewrite (emitted_bind anyVector) by at_appends).
  rewrite !emitted_gets. cbn beta iota. cbn [fst cleared RenderChunk.meshDefMappings].
  destruct (find _ (RenderChunk.meshDefMappings (fst st))) as [[k renderMeshDefID] |];
    [| intros H; unfold emitted, crash in H; discriminate H].
  repeat (rewrite (emitted_bind anyVector) by at_appends).
  rewrite !emitted_setMeshDefID. cbn beta iota.
  repeat (rewrite (emitted_bind anyVector) by at_appends).
  rewrite !emitted_gets. cbn beta iota. cbn [fst cleared RenderChunk.meshDefs].
  destruct (at_ (RenderChunk.meshDefs (fst st)) renderMeshDefID) as [renderMeshDef |]; [| intros H; unfold emitted, crash in H; discriminate H].
  intros H.
  destruct (emitted (RenderChunkManager.voxelDrawCalls K this chunk ceilingScale
                       chasmAnimPercent true true chunkPos (x, y, z) renderMeshDef) st)
    as [[[] e0] |] eqn:E0; [| discriminate H].
  injection H as <-.
  destruct (voxelDrawCalls_split _ _ _ _ _ _ _ _ _ _ _ _ Hdry E0) as (e1 & e2 & H1 & H2 & Hs).
  rewrite H1, H2. eexists. eexists. split; [reflexivity |]. split; [reflexivity |].
  now rewrite !appendCalls_noCalls_l.
Qed.

Lemma emitted_cleared {A : Type} (m : M RenderChunkManager.DrawState A)
  (st st' : RenderChunkManager.DrawState) :
  cleared st = cleared st' -> emitted m st = emitted m st'.
Proof.
  intros H. unfold emitted. now rewrite H.
Qed.

Lemma splitsInto_appendCalls (e e1 e2 r r1 r2 : Emitted) :
  splitsInto eq e e1 e2 -> splitsInto (@Permutation _) r r1 r2 ->
  splitsInto (@Permutation _) (appendCalls e r) (appendCalls e1 r1) (appendCalls e2 r2).
Proof.
  intros (Hs & Hd & Hc & Hf) (Hs' & Hd' & Hc' & Hf').
  unfold splitsInto, appendCalls. cbn [toStatic toDoor toChasm toFading].
  rewrite Hs, Hd, Hc, Hf, Hd', Hc', Hf'. repeat split.
  rewrite Hs'. rewrite <- !app_assoc. apply Permutation_app_head.
  rewrite !app_assoc. apply Permutation_app_tail. apply Permutation_app_comm.
Qed.

Lemma voxel_loop_split (K : Constants) (this : RenderChunkManager.t) (chunk : VoxelChunk)
  (ceilingScale chasmAnimPercent : double) (chunkPos : ChunkInt2)
  (st : RenderChunkManager.DrawState) (voxels : list VoxelInt3) :
  noDryChasmWalls chunk (fst st) ->
  forall e,
    emitted (forEach voxels
               (RenderChunkManager.loadVoxelDrawCallsAt K this chunk ceilingScale
                  chasmAnimPercent true true chunkPos)) st = Some (tt, e) ->
    exists e1 e2,
      emitted (forEach voxels
                 (RenderChunkManager.loadVoxelDrawCallsAt K this chunk ceilingScale
                    chasmAnimPercent true false chunkPos)) st = Some (tt, e1)
      /\ emitted (forEach voxels
                    (RenderChunkManager.loadVoxelDrawCallsAt K this chunk ceilingScale
                       chasmAnimPercent false true chunkPos)) st = Some (tt, e2)
      /\ splitsInto (@Permutation _) e e1 e2.
Proof.
  intros Hdry. induction voxels as [| [[x y] z] rest IH]; intros e; cbn [forEach].
  - rewrite !emitted_ret. intros H. injection H as <-.
    exists noCalls, noCalls. repeat split. constructor.
  - repeat (rewrite (emitted_bind anyVector)
              by (intros; first [ apply loadVoxelDrawCallsAt_Appends
                                | apply Appends_forEach; intros;
                                  apply loadVoxelDrawCallsAt_Appends ])).
    destruct (emitted (RenderChunkManager.loadVoxelDrawCallsAt K this chunk ceilingScale
                         chasmAnimPercent true true chunkPos (x, y, z)) st)
      as [[[] ev] |] eqn:Ev; [| discriminate].
    destruct (emitted (forEach rest
                         (RenderChunkManager.loadVoxelDrawCallsAt K this chunk
                            ceilingScale chasmAnimPercent true true chunkPos)) st)
      as [[[] er] |] eqn:Er; [| discriminate].
    intros H. injection H as <-.
    destruct (loadVoxelDrawCallsAt_split _ _ _ _ _ _ _ _ _ _ _ (Hdry x y z) Ev)
      as (ev1 & ev2 & Hv1 & Hv2 & Hvs).
    destruct (IH er eq_refl) as (er1 & er2 & Hr1 & Hr2 & Hrs).
    rewrite Hv1, Hv2, Hr1, Hr2.
    eexists. eexists. split; [reflexivity |]. split; [reflexivity |].
    now apply splitsInto_appendCalls.
Qed.

Lemma loadVoxelDrawCalls_Appends (K : Constants) (this : RenderChunkManager.t)
  (chunk : VoxelChunk) (ceilingScale chasmAnimPercent : double)
  (updateStatics updateAnimating : bool) :
  Appends anyVector
    (RenderChunkManager.loadVoxelDrawCalls K this chunk ceilingScale chasmAnimPercent
       updateStatics updateAnimating).
Proof.
  unfold RenderChunkManager.loadVoxelDrawCalls.
  apply Appends_bind; [appends | intros chunkPos].
  apply Appends_bind; [appends | intros voxels].
  apply Appends_forEach. intros voxel. apply loadVoxelDrawCallsAt_Appends.
Qed.

Lemma emitted_loadVoxelDrawCalls (K : Constants) (this : RenderChunkManager.t)
  (chunk : VoxelChunk) (ceilingScale chasmAnimPercent : double)
  (updateStatics updateAnimating : bool) (st : RenderChunkManager.DrawState) :
  emitted (RenderChunkManager.loadVoxelDrawCalls K this chunk ceilingScale
             chasmAnimPercent updateStatics updateAnimating) st
  = match emitted (forEach (voxelsOf (RenderChunk.meshDefIDsWidth (fst st))
                              (RenderChunk.meshDefIDsHeight (fst st))
                              (RenderChunk.meshDefIDsDepth (fst st)))
                     (RenderChunkManager.loadVoxelDrawCallsAt K this chunk ceilingScale
                        chasmAnimPercent updateStatics updateAnimating
                        (RenderChunk.position (fst st)))) st with
    | Some (u, e) => Some (u, appendCalls noCalls (appendCalls noCalls e))
    | None => None
    end.
Proof.
  unfold RenderChunkManager.loadVoxelDrawCalls.
  assert (Hloop : forall chunkPos voxels,
             Appends anyVector
               (forEach voxels
                  (RenderChunkManager.loadVoxelDrawCallsAt K this chunk ceilingScale
                     chasmAnimPercent updateStatics updateAnimating chunkPos))).
  { intros. apply Appends_forEach. intros. apply loadVoxelDrawCallsAt_Appends. }
  rewrite (emitted_bind anyVector);
    [| appends | intros; apply Appends_bind; [appends | intros; apply Hloop]].
  rewrite emitted_gets. cbn beta iota.
  rewrite (emitted_bind anyVector); [| appends | intros; apply Hloop].
  rewrite emitted_gets. cbn beta iota.
  cbn [fst cleared RenderChunk.position RenderChunk.meshDefIDsWidth
       RenderChunk.meshDefIDsHeight RenderChunk.meshDefIDsDepth].
  destruct (emitted _ st) as [[u e] |]; reflexivity.
Qed.

Lemma loadVoxelDrawCalls_split (K : Constants) (this : RenderChunkManager.t)
  (chunk : VoxelChunk) (ceilingScale chasmAnimPercent : double)
  (st : RenderChunkManager.DrawState) (e : Emitted) :
  noDryChasmWalls chunk (fst st) ->
  emitted (RenderChunkManager.loadVoxelDrawCalls K this chunk ceilingScale
             chasmAnimPercent true true) st = Some (tt, e) ->
  exists e1 e2,
    emitted (RenderChunkManager.loadVoxelDrawCalls K this chunk ceilingScale
               chasmAnimPercent true false) st = Some (tt, e1)
    /\ emitted (RenderChunkManager.loadVoxelDrawCalls K this chunk ceilingScale
                  chasmAnimPercent false true) st = Some (tt, e2)
    /\ splitsInto (@Permutation _) e e1 e2.
Proof.
  intros Hdry. rewrite !emitted_loadVoxelDrawCalls.
  destruct (emitted (forEach _ (RenderChunkManager.loadVoxelDrawCallsAt K this chunk
                                  ceilingScale chasmAnimPercent true true _)) st)
    as [[[] e0] |] eqn:E0; [| discriminate].
  intros H. injection H as <-.
  destruct (voxel_loop_split _ _ _ _ _ _ _ _ Hdry _ E0) as (e1 & e2 & H1 & H2 & Hs).
  rewrite H1, H2. exists e1, e2. rewrite !appendCalls_noCalls_l. repeat split; apply Hs.
Qed.

Lemma loadVoxelDrawCalls_withRenderChunks (K : Constants) (this : RenderChunkManager.t)
  (chunks : list RenderChunk.t) (chunk : VoxelChunk) (ceilingScale chasmAnimPercent : double)
  (updateStatics updateAnimating : bool) :
  RenderChunkManager.loadVoxelDrawCalls K (RenderChunkManager.withRenderChunks chunks this)
    chunk ceilingScale chasmAnimPercent updateStatics updateAnimating
  = RenderChunkManager.loadVoxelDrawCalls K this chunk ceilingScale chasmAnimPercent
      updateStatics updateAnimating.
Proof.
  destruct this. reflexivity.
Qed.

Lemma nth_error_setAt {A : Type} (l : list A) (n : nat) (old x : A) :
  nth_error l n = Some old -> nth_error (setAt l n x) n = Some x.
Proof.
  revert n. induction l as [| a rest IH]; intros [| n] H; try discriminate; cbn in *.
  - reflexivity.
  - now apply IH.
Qed.

Lemma findIndexFrom_setAt {A : Type} (p : A -> bool) (l : list A) (n : nat) (old x : A)
  (k : Z) :
  nth_error l n = Some old -> p x = p old ->
  findIndexFrom p (setAt l n x) k = findIndexFrom p l k.
Proof.
  revert n k. induction l as [| a rest IH]; intros [| n] k H Hp; try discriminate; cbn in *.
  - injection H as ->. now rewrite Hp.
  - destruct (p a); [reflexivity |]. now apply IH.
Qed.

Lemma voxelDrawCalls_static_only (K : Constants) (this : RenderChunkManager.t)
  (chunk : VoxelChunk) (ceilingScale chasmAnimPercent : double)
  (updateStatics updateAnimating : bool) (chunkPos : ChunkInt2) (x y z : nat)
  (renderMeshDef : RenderVoxelMeshDefinition.t) :
  tryGetDoorDefID chunk x y z = None ->
  tryGetChasmDefID chunk x y z = None ->
  tryGetFadeAnimInst chunk x y z = None ->
  Appends (DrawCallList_eqb StaticDrawCalls)
    (RenderChunkManager.voxelDrawCalls K this chunk ceilingScale chasmAnimPercent
       updateStatics updateAnimating chunkPos (x, y, z) renderMeshDef).
Proof.
  intros Hdoor Hchasm Hfade. unfold RenderChunkManager.voxelDrawCalls.
  rewrite Hdoor, Hchasm, Hfade. cbn [isSome orb andb negb].
  apply Appends_bind.
  - destruct updateStatics; cbn [orb andb]; [| apply Appends_ret].
    apply Appends_forEach. intros bufferIndex.
    apply (opaqueDrawCall_Appends this chunkPos chasmAnimPercent _ _ renderMeshDef _
             None None bufferIndex).
  - intros _. apply Appends_bind.
    + destruct (_ >=? 0); [| apply Appends_ret].
      destruct updateStatics, updateAnimating; cbn [orb andb]; try apply Appends_ret;
        apply (alphaTestedDrawCalls_Appends K this chunk ceilingScale x y z _ _
                 renderMeshDef _ None false).
    + intros []; apply Appends_ret.
Qed.

Lemma voxelDrawCalls_chasm_only (K : Constants) (this : RenderChunkManager.t)
  (chunk : VoxelChunk) (ceilingScale chasmAnimPercent : double)
  (updateStatics updateAnimating : bool) (chunkPos : ChunkInt2) (x y z : nat)
  (renderMeshDef : RenderVoxelMeshDefinition.t) (chasmDefID : ChasmDefID) :
  tryGetChasmDefID chunk x y z = Some chasmDefID ->
  Appends (DrawCallList_eqb ChasmDrawCalls)
    (RenderChunkManager.voxelDrawCalls K this chunk ceilingScale chasmAnimPercent
       updateStatics updateAnimating chunkPos (x, y, z) renderMeshDef).
Proof.
  intros Hchasm. unfold RenderChunkManager.voxelDrawCalls.
  rewrite Hchasm. cbn [isSome].
  apply Appends_bind.
  - match goal with |- Appends _ (if ?c then _ else _) => destruct c end;
      [| apply Appends_ret].
    apply Appends_forEach. intros bufferIndex.
    destruct (tryGetFadeAnimInst chunk x y z) as [fade |].
    + apply (opaqueDrawCall_Appends this chunkPos chasmAnimPercent _ _ renderMeshDef _
               (Some chasmDefID) (Some fade) bufferIndex).
    + apply (opaqueDrawCall_Appends this chunkPos chasmAnimPercent _ _ renderMeshDef _
               (Some chasmDefID) None bufferIndex).
  - intros _. apply Appends_bind.
    + destruct (_ >=? 0); [| apply Appends_ret].
      match goal with |- Appends _ (if ?c then _ else _) => destruct c end;
        [| apply Appends_ret].
      intros st. reflexivity.
    + intros []; [apply chasmWallDrawCall_Appends | apply Appends_ret].
Qed.

Lemma emitted_bind_inv {A B : Type} (m : M RenderChunkManager.DrawState A)
  (k : A -> M RenderChunkManager.DrawState B) (st : RenderChunkManager.DrawState)
  (b : B) (e : Emitted) :
  Appends anyVector m -> (forall a, Appends anyVector (k a)) ->
  emitted (bind m k) st = Some (b, e) ->
  exists a e1 e2,
    emitted m st = Some (a, e1) /\ emitted (k a) st = Some (b, e2)
    /\ e = appendCalls e1 e2.
Proof.
  intros Hm Hk. rewrite (emitted_bind anyVector) by assumption.
  destruct (emitted m st) as [[a e1] |]; [| discriminate].
  destruct (emitted (k a) st) as [[b' e2] |] eqn:E2; [| discriminate].
  intros H. injection H as <- <-. exists a, e1, e2. repeat split. exact E2.
Qed.

(** What the draw calls of a loop lack, from what each iteration lacks. *)
Lemma emitted_forEach_all {X : Type} (P : Emitted -> Prop) (xs : list X)
  (body : X -> M RenderChunkManager.DrawState unit) (st : RenderChunkManager.DrawState) :
  P noCalls -> (forall a b, P a -> P b -> P (appendCalls a b)) ->
  (forall x, Appends anyVector (body x)) ->
  (forall x u e, In x xs -> emitted (body x) st = Some (u, e) -> P e) ->
  forall u e, emitted (forEach xs body) st = Some (u, e) -> P e.
Proof.
  intros H0 Happ Hbody. induction xs as [| x rest IH]; intros Hx u e; cbn [forEach].
  - rewrite emitted_ret. intros H. injection H as _ <-. exact H0.
  - intros H. apply emitted_bind_inv in H;
      [| apply Hbody | intros _; apply Appends_forEach, Hbody].
    destruct H as (a & e1 & e2 & H1 & H2 & ->).
    apply Happ.
    + apply (Hx x a e1 (or_introl eq_refl) H1).
    + apply (IH (fun y u' e' Hy => Hx y u' e' (or_intror Hy)) u e2 H2).
Qed.

Ltac block_appends HO HA :=
  intros;
  repeat match goal with
         | |- Appends _ (match ?c with _ => _ end) => destruct c
         end;
  first [ apply Appends_ret
        | eapply Appends_any; exact HO
        | eapply Appends_any; exact HA
        | eapply Appends_any; apply chasmWallDrawCall_Appends
        | apply Appends_bind; block_appends HO HA ].

(** The three blocks of [voxelDrawCalls], each under its update flag. *)
Lemma voxelDrawCalls_blocks (K : Constants) (this : RenderChunkManager.t)
  (chunk : VoxelChunk) (ceilingScale chasmAnimPercent : double)
  (updateStatics updateAnimating : bool) (chunkPos : ChunkInt2) (x y z : nat)
  (renderMeshDef : RenderVoxelMeshDefinition.t) (st : RenderChunkManager.DrawState)
  (u : unit) (e : Emitted) :
  emitted (RenderChunkManager.voxelDrawCalls K this chunk ceilingScale chasmAnimPercent
             updateStatics updateAnimating chunkPos (x, y, z) renderMeshDef) st
  = Some (u, e) ->
  let isDoor := isSome (tryGetDoorDefID chunk x y z) in
  let isChasm := isSome (tryGetChasmDefID chunk x y z) in
  let isFading := isSome (tryGetFadeAnimInst chunk x y z) in
  let canAnimate := isDoor || isChasm || isFading in
  exists eOpaque eAlphaTested eWall,
    e = appendCalls eOpaque (appendCalls eAlphaTested eWall)
    /\ within (DrawCallList_eqb (opaqueTarget (tryGetChasmDefID chunk x y z)
                                   (tryGetFadeAnimInst chunk x y z))) eOpaque
    /\ ((negb canAnimate && updateStatics) || (canAnimate && updateAnimating) = false ->
        eOpaque = noCalls)
    /\ (RenderVoxelMeshDefinition.opaqueIndexBufferIdCount renderMeshDef <= 0 ->
        eOpaque = noCalls)
    /\ within (DrawCallList_eqb (alphaTestedTarget (tryGetDoorDefID chunk x y z)))
         eAlphaTested
    /\ (updateStatics || (updateAnimating && isDoor) = false -> eAlphaTested = noCalls)
    /\ within (DrawCallList_eqb ChasmDrawCalls) eWall
    /\ (forall chasmType,
          traitsUnion (getTraitsDef chunk (getTraitsDefID chunk x y z))
          = TraitsChasm chasmType ->
          let isAnimatingChasm := negb (ChasmType_eqb chasmType Dry) in
          (negb isAnimatingChasm && updateStatics) || (isAnimatingChasm && updateAnimating)
          = false ->
          eWall = noCalls)
    /\ ((forall chasmType,
           traitsUnion (getTraitsDef chunk (getTraitsDefID chunk x y z))
           <> TraitsChasm chasmType) ->
        eWall = noCalls)
    /\ (find (fun kv => VoxelInt3_eqb (fst kv) (x, y, z))
          (RenderChunk.chasmWallIndexBufferIDs (fst st)) = None ->
        eWall = noCalls).
Proof.
  unfold RenderChunkManager.voxelDrawCalls. intros H. cbn zeta.
  set (opaque := forEach _ _) in H.
  set (alphaTested := RenderChunkManager.alphaTestedDrawCalls _ _ _ _ _ _ _ _ _ _ _ _ _) in H.
  assert (HO : Appends (DrawCallList_eqb (opaqueTarget (tryGetChasmDefID chunk x y z)
                                             (tryGetFadeAnimInst chunk x y z))) opaque)
    by (apply Appends_forEach; intros i; apply opaqueDrawCall_Appends).
  assert (HA : Appends (DrawCallList_eqb (alphaTestedTarget (tryGetDoorDefID chunk x y z)))
                 alphaTested)
    by apply alphaTestedDrawCalls_Appends.
  apply emitted_bind_inv in H; [| block_appends HO HA | block_appends HO HA].
  destruct H as ([] & eO & e' & HeO & H & ->).
  apply emitted_bind_inv in H; [| block_appends HO HA | block_appends HO HA].
  destruct H as (goesOn & eA & eW & HeA & HeW & ->).
  exists eO, eA, eW. split; [reflexivity |].
  split.
  { destruct ((_ && updateStatics) || _) in HeO.
    - apply (emitted_within _ _ _ _ _ HO HeO).
    - rewrite emitted_ret in HeO. injection HeO as <-. apply within_noCalls. }
  split.
  { intros Hgate. rewrite Hgate in HeO. rewrite emitted_ret in HeO. now injection HeO. }
  split.
  { intros Hcount. destruct ((_ && updateStatics) || _) in HeO.
    - subst opaque.
      replace (Z.to_nat (RenderVoxelMeshDefinition.opaqueIndexBufferIdCount renderMeshDef))
        with 0%nat in HeO by lia.
      cbn [indices seq map forEach] in HeO. rewrite emitted_ret in HeO. now injection HeO.
    - rewrite emitted_ret in HeO. now injection HeO. }
  split.
  { destruct (_ >=? 0) in HeA;
      [destruct (updateStatics || _) in HeA |];
      try (rewrite emitted_ret in HeA; injection HeA as _ <-; apply within_noCalls).
    apply (emitted_within _ _ _ _ _ HA HeA). }
  split.
  { intros Hgate. rewrite Hgate in HeA.
    destruct (_ >=? 0) in HeA; rewrite emitted_ret in HeA; now injection HeA. }
  assert (HeW' : goesOn = false \/ tryGetChasmDefID chunk x y z = None -> eW = noCalls).
  { intros [-> | Hnone].
    - rewrite emitted_ret in HeW. now injection HeW.
    - rewrite Hnone in HeW. destruct goesOn; rewrite emitted_ret in HeW; now injection HeW. }
  destruct goesOn; [| rewrite (HeW' (or_introl eq_refl));
                      repeat split; try reflexivity; apply within_noCalls].
  destruct (tryGetChasmDefID chunk x y z) as [chasmDefID |];
    [| rewrite (HeW' (or_intror eq_refl));
       repeat split; try reflexivity; apply within_noCalls].
  clear HeW'. split.
  { apply (emitted_within _ _ _ _ _
             (chasmWallDrawCall_Appends this chunkPos chasmAnimPercent updateStatics
                updateAnimating (x, y, z) _ renderMeshDef _ chasmDefID) HeW). }
  revert HeW. unfold emitted, RenderChunkManager.chasmWallDrawCall, bind, gets.
  cbn [fst snd cleared RenderChunk.chasmWallIndexBufferIDs].
  destruct (find _ _) as [[v id] |].
  - intros HeW. split; [| split; [| discriminate]].
    + intros chasmType Htraits Hgate. cbn zeta in Hgate. revert HeW.
      destruct (VoxelType_eqb _ _); cbn [DebugAssert ret crash]; [| discriminate].
      rewrite Htraits, Hgate. cbn [ret]. intros HeW. injection HeW as _ HeW.
      rewrite <- HeW. reflexivity.
    + intros Hother. revert HeW.
      destruct (VoxelType_eqb _ _); cbn [DebugAssert ret crash]; [| discriminate].
      destruct (traitsUnion _) as [| | | | | chasmType]; try discriminate.
      contradiction (Hother chasmType eq_refl).
  - cbn [ret]. intros HeW. injection HeW as _ HeW. rewrite <- HeW.
    repeat split; intros; reflexivity.
Qed.

Lemma within_one_vector (target other : DrawCallList) (e : Emitted) :
  within (DrawCallList_eqb target) e -> DrawCallList_eqb target other = false ->
  callsIn other e = [].
Proof.
  intros Hw Hne. apply Hw, Hne.
Qed.

(** What one iteration of [loadVoxelDrawCalls] emits: nothing for an empty
    mesh, the draw calls of the voxel with its mapped render mesh definition
    otherwise. *)
Lemma loadVoxelDrawCallsAt_emitted (K : Constants) (this : RenderChunkManager.t)
  (chunk : VoxelChunk) (ceilingScale chasmAnimPercent : double)
  (updateStatics updateAnimating : bool) (chunkPos : ChunkInt2) (x y z : nat)
  (st : RenderChunkManager.DrawState) (u : unit) (e : Emitted) :
  emitted (RenderChunkManager.loadVoxelDrawCallsAt K this chunk ceilingScale
             chasmAnimPercent updateStatics updateAnimating chunkPos (x, y, z)) st
  = Some (u, e) ->
  (meshIsEmpty (getMeshDef chunk (getMeshDefID chunk x y z)) = true /\ e = noCalls)
  \/ exists voxelMeshDefID renderMeshDefID renderMeshDef,
       meshIsEmpty (getMeshDef chunk (getMeshDefID chunk x y z)) = false
       /\ find (fun kv => fst kv =? getMeshDefID chunk x y z)
            (RenderChunk.meshDefMappings (fst st)) = Some (voxelMeshDefID, renderMeshDefID)
       /\ at_ (RenderChunk.meshDefs (fst st)) renderMeshDefID = Some renderMeshDef
       /\ emitted (RenderChunkManager.voxelDrawCalls K this chunk ceilingScale
                     chasmAnimPercent updateStatics updateAnimating chunkPos (x, y, z)
                     renderMeshDef) st = Some (u, e).
Proof.
  unfold RenderChunkManager.loadVoxelDrawCallsAt.
  destruct (meshIsEmpty _) eqn:Hempty.
  { rewrite emitted_ret. intros H. injection H as _ <-. left. split; reflexivity. }
  repeat (rewrite (emitted_bind anyVector) by at_appends).
  rewrite emitted_gets. cbn beta iota. cbn [fst cleared RenderChunk.meshDefMappings].
  destruct (find _ (RenderChunk.meshDefMappings (fst st))) as [[k renderMeshDefID] |]
    eqn:Hfind; [| intros H; unfold emitted, crash in H; discriminate H].
  repeat (rewrite (emitted_bind anyVector) by at_appends).
  rewrite emitted_setMeshDefID. cbn beta iota.
  repeat (rewrite (emitted_bind anyVector) by at_appends).
  rewrite emitted_gets. cbn beta iota. cbn [fst cleared RenderChunk.meshDefs].
  destruct (at_ (RenderChunk.meshDefs (fst st)) renderMeshDefID) as [renderMeshDef |]
    eqn:Hat; [| intros H; unfold emitted, crash in H; discriminate H].
  destruct (emitted (RenderChunkManager.voxelDrawCalls _ _ _ _ _ _ _ _ _ _) st)
    as [[u' e'] |] eqn:Ev; [| discriminate].
  intros H. rewrite !appendCalls_noCalls_l in H. injection H as <- <-.
  right. exists k, renderMeshDefID, renderMeshDef.
  split; [reflexivity |]. split; [reflexivity |]. split; [exact Hat | exact Ev].
Qed.

(** What one voxel emits: the calls of its opaque loop, those of its
    alpha-tested block and its chasm wall, in this order, each block when the
    update flags select it. *)
Lemma voxelDrawCalls_parts (K : Constants) (this : RenderChunkManager.t)
  (chunk : VoxelChunk) (ceilingScale chasmAnimPercent : double)
  (updateStatics updateAnimating : bool) (chunkPos : ChunkInt2) (x y z : nat)
  (renderMeshDef : RenderVoxelMeshDefinition.t) (st : RenderChunkManager.DrawState)
  (u : unit) (e : Emitted) :
  emitted (RenderChunkManager.voxelDrawCalls K this chunk ceilingScale chasmAnimPercent
             updateStatics updateAnimating chunkPos (x, y, z) renderMeshDef) st
  = Some (u, e) ->
  exists eOpaque eAlphaTested eWall,
    e = appendCalls eOpaque (appendCalls eAlphaTested eWall)
    /\ (if opaqueSelected chunk updateStatics updateAnimating x y z
        then emitted (opaqueCalls K this chunk ceilingScale chasmAnimPercent chunkPos
                        x y z renderMeshDef) st = Some (tt, eOpaque)
        else eOpaque = noCalls)
    /\ (if alphaTestedSelected chunk updateStatics updateAnimating x y z renderMeshDef
        then exists goesOn,
               emitted (alphaTestedCalls K this chunk ceilingScale chunkPos x y z
                          renderMeshDef) st = Some (goesOn, eAlphaTested)
        else eAlphaTested = noCalls)
    /\ within (DrawCallList_eqb (opaqueTarget (tryGetChasmDefID chunk x y z)
                                   (tryGetFadeAnimInst chunk x y z))) eOpaque
    /\ within (DrawCallList_eqb (alphaTestedTarget (tryGetDoorDefID chunk x y z)))
         eAlphaTested
    /\ within (DrawCallList_eqb ChasmDrawCalls) eWall
    /\ (tryGetChasmDefID chunk x y z = None -> eWall = noCalls)
    /\ (tryGetChasmDefID chunk x y z <> None -> eAlphaTested = noCalls).
Proof.
  intros H.
  unfold RenderChunkManager.voxelDrawCalls in H.
  assert (HO : Appends (DrawCallList_eqb (opaqueTarget (tryGetChasmDefID chunk x y z)
                                             (tryGetFadeAnimInst chunk x y z)))
                 (opaqueCalls K this chunk ceilingScale chasmAnimPercent chunkPos x y z
                    renderMeshDef))
    by (apply Appends_forEach; intros i; apply opaqueDrawCall_Appends).
  assert (HA : Appends (DrawCallList_eqb (alphaTestedTarget (tryGetDoorDefID chunk x y z)))
                 (alphaTestedCalls K this chunk ceilingScale chunkPos x y z renderMeshDef))
    by apply alphaTestedDrawCalls_Appends.
  change (forEach _ (RenderChunkManager.opaqueDrawCall _ _ _ _ _ _ _ _ _))
    with (opaqueCalls K this chunk ceilingScale chasmAnimPercent chunkPos x y z
            renderMeshDef) in H.
  change (RenderChunkManager.alphaTestedDrawCalls _ _ _ _ _ _ _ _ _ _ _ _ _)
    with (alphaTestedCalls K this chunk ceilingScale chunkPos x y z renderMeshDef) in H.
  apply emitted_bind_inv in H; [| block_appends HO HA | block_appends HO HA].
  destruct H as ([] & eO & e' & HeO & H & ->).
  apply emitted_bind_inv in H; [| block_appends HO HA | block_appends HO HA].
  destruct H as (goesOn & eA & eW & HeA & HeW & ->).
  exists eO, eA, eW. split; [reflexivity |].
  assert (HsO : if opaqueSelected chunk updateStatics updateAnimating x y z
                then emitted (opaqueCalls K this chunk ceilingScale chasmAnimPercent
                                chunkPos x y z renderMeshDef) st = Some (tt, eO)
                else eO = noCalls).
  { unfold opaqueSelected. cbn zeta. revert HeO.
    destruct ((_ && updateStatics) || _); [trivial |].
    rewrite emitted_ret. intros HeO. now injection HeO. }
  assert (HsA : if alphaTestedSelected chunk updateStatics updateAnimating x y z
                     renderMeshDef
                then exists g,
                       emitted (alphaTestedCalls K this chunk ceilingScale chunkPos x y z
                                  renderMeshDef) st = Some (g, eA)
                else eA = noCalls).
  { unfold alphaTestedSelected. revert HeA.
    destruct (_ >=? 0); cbn [andb];
      [destruct (updateStatics || _) |];
      try (rewrite emitted_ret; intros HeA; now injection HeA).
    intros HeA. now exists goesOn. }
  assert (HwO : within (DrawCallList_eqb (opaqueTarget (tryGetChasmDefID chunk x y z)
                                            (tryGetFadeAnimInst chunk x y z))) eO).
  { destruct (opaqueSelected _ _ _ _ _ _).
    - apply (emitted_within _ _ _ _ _ HO HsO).
    - subst eO. apply within_noCalls. }
  assert (HwA : within (DrawCallList_eqb (alphaTestedTarget (tryGetDoorDefID chunk x y z)))
                  eA).
  { destruct (alphaTestedSelected _ _ _ _ _ _ _).
    - destruct HsA as [g Hg]. apply (emitted_within _ _ _ _ _ HA Hg).
    - subst eA. apply within_noCalls. }
  split; [exact HsO |]. split; [exact HsA |]. split; [exact HwO |]. split; [exact HwA |].
  split; [| split].
  - destruct goesOn;
      [| rewrite emitted_ret in HeW; injection HeW as _ <-; apply within_noCalls].
    destruct (tryGetChasmDefID chunk x y z) as [chasmDefID |];
      [| rewrite emitted_ret in HeW; injection HeW as _ <-; apply within_noCalls].
    apply (emitted_within _ _ _ _ _
             (chasmWallDrawCall_Appends this chunkPos chasmAnimPercent updateStatics
                updateAnimating (x, y, z) _ renderMeshDef _ chasmDefID) HeW).
  - intros Hnone. rewrite Hnone in HeW.
    destruct goesOn; rewrite emitted_ret in HeW; now injection HeW.
  - intros Hchasm. destruct (alphaTestedSelected _ _ _ _ _ _ _); [| exact HsA].
    destruct HsA as [g Hg]. exfalso. revert Hg.
    unfold alphaTestedCalls, RenderChunkManager.alphaTestedDrawCalls, emitted.
    destruct (tryGetChasmDefID chunk x y z); [| contradiction].
    cbn. discriminate.
Qed.

(** The draw calls of a loop are those of its iterations, in order. *)
Lemma emitted_forEach_each {X : Type} (xs : list X)
  (body : X -> M RenderChunkManager.DrawState unit) (st : RenderChunkManager.DrawState)
  (u : unit) (e : Emitted) :
  (forall x, Appends anyVector (body x)) ->
  emitted (forEach xs body) st = Some (u, e) ->
  exists es,
    Forall2 (fun x ex => emitted (body x) st = Some (tt, ex)) xs es
    /\ e = fold_right appendCalls noCalls es.
Proof.
  intros Hbody. revert u e. induction xs as [| x rest IH]; intros u e; cbn [forEach].
  - rewrite emitted_ret. intros H. injection H as _ <-. exists []. split; [constructor |].
    reflexivity.
  - intros H. apply emitted_bind_inv in H;
      [| apply Hbody | intros _; apply Appends_forEach, Hbody].
    destruct H as ([] & e1 & e2 & H1 & H2 & ->).
    destruct (IH u e2 H2) as (es & Hall & ->).
    exists (e1 :: es). split; [constructor; assumption | reflexivity].
Qed.

Lemma toDoor_fold (es : list Emitted) :
  toDoor (fold_right appendCalls noCalls es) = concat (map toDoor es).
Proof.
  induction es as [| e es IH]; [reflexivity |].
  cbn [fold_right map concat]. cbn [appendCalls toDoor]. now rewrite IH.
Qed.

(** ** Rebuilding the statics and the animating voxels in two passes *)

Lemma within_only (target : DrawCallList) (e : Emitted) :
  within (DrawCallList_eqb target) e -> e = only target (callsIn target e).
Proof.
  intros Hw. destruct e as [s d c f].
  pose proof (Hw StaticDrawCalls) as Hs. pose proof (Hw DoorDrawCalls) as Hd.
  pose proof (Hw ChasmDrawCalls) as Hc. pose proof (Hw FadingDrawCalls) as Hf.
  destruct target; cbn in *;
    rewrite ?(Hs eq_refl), ?(Hd eq_refl), ?(Hc eq_refl), ?(Hf eq_refl); reflexivity.
Qed.

(** The routing of the draw calls of one voxel. *)
Lemma voxelDrawCalls_routing (K : Constants) (this : RenderChunkManager.t)
  (chunk : VoxelChunk) (ceilingScale chasmAnimPercent : double)
  (updateStatics updateAnimating : bool) (chunkPos : ChunkInt2) (x y z : nat)
  (renderMeshDef : RenderVoxelMeshDefinition.t) (st : RenderChunkManager.DrawState)
  (e : Emitted) :
  emitted (RenderChunkManager.voxelDrawCalls K this chunk ceilingScale chasmAnimPercent
             updateStatics updateAnimating chunkPos (x, y, z) renderMeshDef) st
  = Some (tt, e) ->
  exists opaque alphaTested wall : list RenderDrawCall.t,
    e = appendCalls
          (only (opaqueTarget (tryGetChasmDefID chunk x y z)
                   (tryGetFadeAnimInst chunk x y z)) opaque)
          (appendCalls
             (only (alphaTestedTarget (tryGetDoorDefID chunk x y z)) alphaTested)
             (only ChasmDrawCalls wall))
    /\ (if opaqueSelected chunk updateStatics updateAnimating x y z
        then emitted (opaqueCalls K this chunk ceilingScale chasmAnimPercent chunkPos
                        x y z renderMeshDef) st
             = Some (tt, only (opaqueTarget (tryGetChasmDefID chunk x y z)
                                 (tryGetFadeAnimInst chunk x y z)) opaque)
        else opaque = [])
    /\ (if alphaTestedSelected chunk updateStatics updateAnimating x y z renderMeshDef
        then exists goesOn,
               emitted (alphaTestedCalls K this chunk ceilingScale chunkPos x y z
                          renderMeshDef) st
               = Some (goesOn,
                       only (alphaTestedTarget (tryGetDoorDefID chunk x y z)) alphaTested)
        else alphaTested = [])
    /\ (tryGetDoorDefID chunk x y z = None ->
        tryGetChasmDefID chunk x y z = None ->
        tryGetFadeAnimInst chunk x y z = None ->
        toStatic e = opaque ++ alphaTested
        /\ toDoor e = [] /\ toChasm e = [] /\ toFading e = [])
    /\ (tryGetChasmDefID chunk x y z <> None ->
        toChasm e = opaque ++ wall
        /\ toStatic e = [] /\ toDoor e = [] /\ toFading e = [])
    /\ (tryGetDoorDefID chunk x y z <> None ->
        tryGetChasmDefID chunk x y z = None ->
        tryGetFadeAnimInst chunk x y z = None ->
        toStatic e = opaque /\ toDoor e = alphaTested
        /\ toChasm e = [] /\ toFading e = [])
    /\ (tryGetFadeAnimInst chunk x y z <> None ->
        tryGetDoorDefID chunk x y z = None ->
        tryGetChasmDefID chunk x y z = None ->
        toFading e = opaque /\ toStatic e = alphaTested
        /\ toDoor e = [] /\ toChasm e = []).
Proof.
  intros H. apply voxelDrawCalls_parts in H.
  destruct H as (eO & eA & eW & -> & HsO & HsA & HwO & HwA & HwW & HnoWall & HnoAlpha).
  pose proof (within_only _ _ HwO) as HeO. pose proof (within_only _ _ HwA) as HeA.
  pose proof (within_only _ _ HwW) as HeW.
  set (opaque := callsIn _ eO) in HeO. set (alphaTested := callsIn _ eA) in HeA.
  set (wall := callsIn _ eW) in HeW.
  exists opaque, alphaTested, wall.
  split; [now rewrite <- HeO, <- HeA, <- HeW |].
  split.
  { destruct (opaqueSelected _ _ _ _ _ _); [now rewrite <- HeO |].
    subst opaque. rewrite HsO. now destruct (opaqueTarget _ _). }
  split.
  { destruct (alphaTestedSelected _ _ _ _ _ _ _).
    - destruct HsA as [g Hg]. exists g. now rewrite <- HeA.
    - subst alphaTested. rewrite HsA. now destruct (alphaTestedTarget _). }
  rewrite HeO, HeA, HeW. clear HeO HeA HeW HsO HsA HwO HwA HwW.
  assert (Hwall : tryGetChasmDefID chunk x y z = None -> wall = []).
  { intros Hnone. subst wall. now rewrite (HnoWall Hnone). }
  assert (Halpha : tryGetChasmDefID chunk x y z <> None -> alphaTested = []).
  { intros Hsome. subst alphaTested. rewrite (HnoAlpha Hsome).
    now destruct (alphaTestedTarget _). }
  clearbody opaque alphaTested wall. clear HnoWall HnoAlpha.
  split; [| split; [| split]].
  - intros Hd Hc Hf. rewrite Hd, Hc, Hf, (Hwall Hc). cbn. now rewrite app_nil_r.
  - intros Hc. rewrite (Halpha Hc).
    destruct (tryGetChasmDefID chunk x y z); [| contradiction].
    destruct (tryGetDoorDefID chunk x y z); cbn; repeat split; reflexivity.
  - intros Hd Hc Hf. rewrite Hc, Hf, (Hwall Hc).
    destruct (tryGetDoorDefID chunk x y z); [| contradiction].
    cbn. rewrite !app_nil_r. repeat split; reflexivity.
  - intros Hf Hd Hc. rewrite Hc, Hd, (Hwall Hc).
    destruct (tryGetFadeAnimInst chunk x y z); [| contradiction].
    cbn. rewrite !app_nil_r. repeat split; reflexivity.
Qed.

(** A completed [loadVoxelDrawCalls] appends the draw calls of the voxels of
    the grid, in loop order. *)
Lemma loadVoxelDrawCalls_voxels (K : Constants) (this : RenderChunkManager.t)
  (chunk : VoxelChunk) (ceilingScale chasmAnimPercent : double)
  (updateStatics updateAnimating : bool) (st : RenderChunkManager.DrawState)
  (renderChunk' : RenderChunk.t) (log' : DebugLog) :
  RenderChunkManager.loadVoxelDrawCalls K this chunk ceilingScale chasmAnimPercent
    updateStatics updateAnimating st = Ok (tt, (renderChunk', log')) ->
  exists perVoxel : list Emitted,
    Forall2 (voxelCallsAt K this chunk ceilingScale chasmAnimPercent updateStatics
               updateAnimating st)
      (voxelsOf (RenderChunk.meshDefIDsWidth (fst st))
         (RenderChunk.meshDefIDsHeight (fst st))
         (RenderChunk.meshDefIDsDepth (fst st))) perVoxel
    /\ callsOf (renderChunk', log')
       = appendCalls (callsOf st) (fold_right appendCalls noCalls perVoxel).
Proof.
  intros Hrun.
  pose proof (Appends_run anyVector _ st
                (loadVoxelDrawCalls_Appends K this chunk ceilingScale chasmAnimPercent
                   updateStatics updateAnimating)) as Happ.
  rewrite emitted_loadVoxelDrawCalls in Happ.
  destruct (emitted (forEach _ _) st) as [[u e] |] eqn:Hloop.
  - destruct Happ as (_ & st' & Hst & _ & Hcalls).
    rewrite Hrun in Hst. injection Hst as _ <-.
    rewrite !appendCalls_noCalls_l in Hcalls.
    apply emitted_forEach_each in Hloop;
      [| intros voxel; apply loadVoxelDrawCallsAt_Appends].
    destruct Hloop as (es & Hall & ->).
    exists es. split; [| exact Hcalls].
    clear Hcalls. induction Hall as [| voxel ex voxels es Hvoxel _ IH]; [constructor |].
    constructor; [| exact IH].
    destruct voxel as [[x y] z]. apply loadVoxelDrawCallsAt_emitted in Hvoxel.
    unfold voxelCallsAt, voxelRenderMeshDef.
    destruct Hvoxel as [[Hempty ->] | (k & id & renderMeshDef & Hmesh & Hfind & Hat & H)].
    + now rewrite Hempty.
    + rewrite Hmesh, Hfind, Hat. exact H.
  - destruct Happ as [f Hf]. rewrite Hf in Hrun. discriminate.
Qed.

(** C1: when no dry chasm voxel of the chunk has a wall index buffer and the
    rebuild with both flags completes, the rebuild of the statics followed by
    the rebuild of the animating voxels completes as well; it leaves the door,
    chasm and fading vectors of the render chunk as the rebuild with both
    flags does, and a static vector with the same draw calls, possibly in
    another order. Draw calls are routed by kind: in any rebuild the calls of
    a voxel are those of its opaque loop in the vector of [opaqueTarget]
    (chasm, else fading, else static), those of its alpha-tested block in the
    vector of [alphaTestedTarget] (door, else static) and its chasm wall in
    the chasm vector. So a voxel that is no door, no chasm and not fading
    emits into the static vector only and a chasm voxel into the chasm vector
    only, while a door has its opaque calls in the static vector and its
    faces in the door vector, and a fading voxel its opaque calls in the
    fading vector and its alpha-tested call in the static vector. A completed
    [loadVoxelDrawCalls] appends exactly these calls, voxel by voxel in loop
    order. *)
Theorem two_pass_rebuild (K : Constants) (this : RenderChunkManager.t)
  (voxelChunk : VoxelChunk) (ceilingScale chasmAnimPercent : double) (log : DebugLog)
  (index : Z) (renderChunk : RenderChunk.t) (both : RenderChunkManager.t)
  (bothLog : DebugLog) :
  RenderChunkManager.tryGetRenderChunkIndex this (getPosition voxelChunk) = Some index ->
  at_ (RenderChunkManager.renderChunks this) index = Some renderChunk ->
  noDryChasmWalls voxelChunk renderChunk ->
  RenderChunkManager.rebuildVoxelChunkDrawCalls K this voxelChunk ceilingScale
    chasmAnimPercent true true log = Ok (both, bothLog) ->
  (exists statics staticsLog animating animatingLog renderChunkBoth renderChunkTwo,
      RenderChunkManager.rebuildVoxelChunkDrawCalls K this voxelChunk ceilingScale
        chasmAnimPercent true false log = Ok (statics, staticsLog)
      /\ RenderChunkManager.rebuildVoxelChunkDrawCalls K statics voxelChunk ceilingScale
           chasmAnimPercent false true staticsLog = Ok (animating, animatingLog)
      /\ at_ (RenderChunkManager.renderChunks both) index = Some renderChunkBoth
      /\ at_ (RenderChunkManager.renderChunks animating) index = Some renderChunkTwo
      /\ Permutation (RenderChunk.staticDrawCalls renderChunkBoth)
           (RenderChunk.staticDrawCalls renderChunkTwo)
      /\ RenderChunk.doorDrawCalls renderChunkBoth = RenderChunk.doorDrawCalls renderChunkTwo
      /\ RenderChunk.chasmDrawCalls renderChunkBoth
         = RenderChunk.chasmDrawCalls renderChunkTwo
      /\ RenderChunk.fadingDrawCalls renderChunkBoth
         = RenderChunk.fadingDrawCalls renderChunkTwo)
  /\ (forall updateStatics updateAnimating chunkPos x y z renderMeshDef st e,
        emitted (RenderChunkManager.voxelDrawCalls K this voxelChunk ceilingScale
                   chasmAnimPercent updateStatics updateAnimating chunkPos (x, y, z)
                   renderMeshDef) st = Some (tt, e) ->
        exists opaque alphaTested wall : list RenderDrawCall.t,
          e = appendCalls
                (only (opaqueTarget (tryGetChasmDefID voxelChunk x y z)
                         (tryGetFadeAnimInst voxelChunk x y z)) opaque)
                (appendCalls
                   (only (alphaTestedTarget (tryGetDoorDefID voxelChunk x y z)) alphaTested)
                   (only ChasmDrawCalls wall))
          /\ (if opaqueSelected voxelChunk updateStatics updateAnimating x y z
              then emitted (opaqueCalls K this voxelChunk ceilingScale chasmAnimPercent
                              chunkPos x y z renderMeshDef) st
                   = Some (tt, only (opaqueTarget (tryGetChasmDefID voxelChunk x y z)
                                       (tryGetFadeAnimInst voxelChunk x y z)) opaque)
              else opaque = [])
          /\ (if alphaTestedSelected voxelChunk updateStatics updateAnimating x y z
                   renderMeshDef
              then exists goesOn,
                     emitted (alphaTestedCalls K this voxelChunk ceilingScale chunkPos
                                x y z renderMeshDef) st
                     = Some (goesOn,
                             only (alphaTestedTarget (tryGetDoorDefID voxelChunk x y z))
                               alphaTested)
              else alphaTested = [])
          /\ (tryGetDoorDefID voxelChunk x y z = None ->
              tryGetChasmDefID voxelChunk x y z = None ->
              tryGetFadeAnimInst voxelChunk x y z = None ->
              toStatic e = opaque ++ alphaTested
              /\ toDoor e = [] /\ toChasm e = [] /\ toFading e = [])
          /\ (tryGetChasmDefID voxelChunk x y z <> None ->
              toChasm e = opaque ++ wall
              /\ toStatic e = [] /\ toDoor e = [] /\ toFading e = [])
          /\ (tryGetDoorDefID voxelChunk x y z <> None ->
              tryGetChasmDefID voxelChunk x y z = None ->
              tryGetFadeAnimInst voxelChunk x y z = None ->
              toStatic e = opaque /\ toDoor e = alphaTested
              /\ toChasm e = [] /\ toFading e = [])
          /\ (tryGetFadeAnimInst voxelChunk x y z <> None ->
              tryGetDoorDefID voxelChunk x y z = None ->
              tryGetChasmDefID voxelChunk x y z = None ->
              toFading e = opaque /\ toStatic e = alphaTested
              /\ toDoor e = [] /\ toChasm e = []))
  /\ (forall updateStatics updateAnimating st renderChunk' log',
        RenderChunkManager.loadVoxelDrawCalls K this voxelChunk ceilingScale
          chasmAnimPercent updateStatics updateAnimating st
        = Ok (tt, (renderChunk', log')) ->
        exists perVoxel : list Emitted,
          Forall2 (voxelCallsAt K this voxelChunk ceilingScale chasmAnimPercent
                     updateStatics updateAnimating st)
            (voxelsOf (RenderChunk.meshDefIDsWidth (fst st))
               (RenderChunk.meshDefIDsHeight (fst st))
               (RenderChunk.meshDefIDsDepth (fst st))) perVoxel
          /\ callsOf (renderChunk', log')
             = appendCalls (callsOf st) (fold_right appendCalls noCalls perVoxel)).
Proof.
  intros Hindex Hat Hdry Hboth. split; [| split].
  - unfold RenderChunkManager.rebuildVoxelChunkDrawCalls in Hboth |- *.
    rewrite Hindex, Hat in Hboth. rewrite Hindex, Hat.
    assert (Hnth : nth_error (RenderChunkManager.renderChunks this) (Z.to_nat index)
                   = Some renderChunk).
    { unfold at_ in Hat. now destruct (index <? 0). }
    (* the rebuild with both flags *)
    pose proof (Appends_run anyVector _
                  (RenderChunkManager.clearDrawCalls true true renderChunk, log)
                  (loadVoxelDrawCalls_Appends K this voxelChunk ceilingScale
                     chasmAnimPercent true true)) as Rboth.
    destruct (emitted _ _) as [[[] e] |] eqn:Eboth in Rboth.
    2:{ destruct Rboth as [f Hf]. rewrite Hf in Hboth. discriminate Hboth. }
    destruct Rboth as (_ & [rcB logB] & HrunB & _ & HcallsB).
    rewrite HrunB in Hboth. injection Hboth as <- <-.
    destruct (loadVoxelDrawCalls_split K this voxelChunk ceilingScale chasmAnimPercent
                (RenderChunkManager.clearDrawCalls true true renderChunk, log) e Hdry Eboth) as (e1 & e2 & E1 & E2 & Hs & Hd & Hc & Hf).
    (* the rebuild of the statics *)
    pose proof (Appends_run anyVector _
                  (RenderChunkManager.clearDrawCalls true false renderChunk, log)
                  (loadVoxelDrawCalls_Appends K this voxelChunk ceilingScale
                     chasmAnimPercent true false)) as Rstatics.
    rewrite (emitted_cleared _
               (RenderChunkManager.clearDrawCalls true false renderChunk, log)
               (RenderChunkManager.clearDrawCalls true true renderChunk, log) eq_refl),
      E1 in Rstatics.
    destruct Rstatics as (_ & [rc1 log1] & Hrun1 & Hcl1 & Hcalls1).
    rewrite Hrun1.
    (* the rebuild of the animating voxels *)
    assert (Hpos : RenderChunk.position rc1 = RenderChunk.position renderChunk).
    { apply (f_equal (fun s => RenderChunk.position (fst s))) in Hcl1. exact Hcl1. }
    pose proof (Appends_run anyVector _
                  (RenderChunkManager.clearDrawCalls false true rc1, log1)
                  (loadVoxelDrawCalls_Appends K this voxelChunk ceilingScale
                     chasmAnimPercent false true)) as Rtwo.
    rewrite (emitted_cleared _
               (RenderChunkManager.clearDrawCalls false true rc1, log1)
               (RenderChunkManager.clearDrawCalls true true renderChunk, log) Hcl1),
      E2 in Rtwo.
    destruct Rtwo as (_ & [rc2 log2] & Hrun2 & _ & Hcalls2).
    eexists. eexists. eexists. eexists. exists rcB, rc2.
    split; [reflexivity |].
    unfold RenderChunkManager.tryGetRenderChunkIndex, findIndex.
    cbn [RenderChunkManager.renderChunks RenderChunkManager.withRenderChunks].
    rewrite (findIndexFrom_setAt _ _ _ renderChunk rc1 0 Hnth) by now rewrite Hpos.
    unfold RenderChunkManager.tryGetRenderChunkIndex, findIndex in Hindex.
    rewrite Hindex.
    assert (Hneg : (index <? 0) = false).
    { unfold at_ in Hat. destruct (index <? 0); [discriminate | reflexivity]. }
    unfold at_ at 1. rewrite Hneg, (nth_error_setAt _ _ renderChunk rc1 Hnth).
    rewrite loadVoxelDrawCalls_withRenderChunks, Hrun2.
    split; [reflexivity |].
    unfold at_. rewrite Hneg.
    cbn [RenderChunkManager.renderChunks RenderChunkManager.withRenderChunks].
    split; [apply (nth_error_setAt _ _ renderChunk), Hnth |].
    split; [apply (nth_error_setAt _ _ rc1), (nth_error_setAt _ _ renderChunk), Hnth |].
    apply (f_equal toStatic) in HcallsB as HsB. apply (f_equal toDoor) in HcallsB as HdB.
    apply (f_equal toChasm) in HcallsB as HcB. apply (f_equal toFading) in HcallsB as HfB.
    apply (f_equal toStatic) in Hcalls1 as Hs1.
    apply (f_equal toStatic) in Hcalls2 as Hs2. apply (f_equal toDoor) in Hcalls2 as Hd2.
    apply (f_equal toChasm) in Hcalls2 as Hc2. apply (f_equal toFading) in Hcalls2 as Hf2.
    cbn in HsB, HdB, HcB, HfB, Hs1, Hs2, Hd2, Hc2, Hf2.
    rewrite HsB, HdB, HcB, HfB, Hs2, Hd2, Hc2, Hf2, Hs1.
    repeat split; assumption.
  - intros updateStatics updateAnimating chunkPos x y z renderMeshDef st e He.
    apply (voxelDrawCalls_routing K this voxelChunk ceilingScale chasmAnimPercent
             updateStatics updateAnimating chunkPos x y z renderMeshDef st e He).
  - intros updateStatics updateAnimating st renderChunk' log' Hrun.
    apply (loadVoxelDrawCalls_voxels K this voxelChunk ceilingScale chasmAnimPercent
             updateStatics updateAnimating st renderChunk' log' Hrun).
Qed.

Lemma two_pass_rebuild_witness :
  let this := fst (Samples.loaded Samples.wetChasmChunk
                     [Samples.asset "wall"; Samples.asset "water0"]) in
  let both := Samples.rebuilt Samples.wetChasmChunk true true this in
  exists statics staticsLog animating animatingLog renderChunkBoth renderChunkTwo,
    RenderChunkManager.rebuildVoxelChunkDrawCalls Samples.arena this Samples.wetChasmChunk
      1%Q 0%Q true false [] = Ok (statics, staticsLog)
    /\ RenderChunkManager.rebuildVoxelChunkDrawCalls Samples.arena statics
         Samples.wetChasmChunk 1%Q 0%Q false true staticsLog = Ok (animating, animatingLog)
    /\ at_ (RenderChunkManager.renderChunks both) 0 = Some renderChunkBoth
    /\ at_ (RenderChunkManager.renderChunks animating) 0 = Some renderChunkTwo
    /\ Permutation (RenderChunk.staticDrawCalls renderChunkBoth)
         (RenderChunk.staticDrawCalls renderChunkTwo)
    /\ RenderChunk.doorDrawCalls renderChunkBoth = RenderChunk.doorDrawCalls renderChunkTwo
    /\ RenderChunk.chasmDrawCalls renderChunkBoth = RenderChunk.chasmDrawCalls renderChunkTwo
    /\ RenderChunk.fadingDrawCalls renderChunkBoth
       = RenderChunk.fadingDrawCalls renderChunkTwo.
Proof.
  intros this both.
  refine (proj1 (two_pass_rebuild Samples.arena this Samples.wetChasmChunk 1%Q 0%Q [] 0
                   (hd (RenderChunk.init Samples.arena (0, 0) 1)
                      (RenderChunkManager.renderChunks this))
                   both [] _ _ _ _)).
  - vm_compute. reflexivity.
  - vm_compute. reflexivity.
  - intros x y z. destruct x, y, z; cbn; discriminate.
  - vm_compute. reflexivity.
Defined.

Lemma two_pass_rebuild_differs :
  let dry := fst (Samples.loaded Samples.dryChasmChunk [Samples.asset "wall"]) in
  let fading := fst (Samples.loaded Samples.fadingRaisedChunk
                       [Samples.asset "side"; Samples.asset "bottom"; Samples.asset "top"]) in
  match RenderChunkManager.rebuildVoxelChunkDrawCalls Samples.arena dry
          Samples.dryChasmChunk 1%Q 0%Q true true [],
        RenderChunkManager.rebuildVoxelChunkDrawCalls Samples.arena dry
          Samples.dryChasmChunk 1%Q 0%Q true false [],
        RenderChunkManager.rebuildVoxelChunkDrawCalls Samples.arena fading
          Samples.fadingRaisedChunk 1%Q 0%Q true true [] with
  | Ok (both, _), Ok (statics, staticsLog), Ok (faded, _) =>
      match RenderChunkManager.rebuildVoxelChunkDrawCalls Samples.arena statics
              Samples.dryChasmChunk 1%Q 0%Q false true staticsLog with
      | Ok (animating, _) =>
          map (@length _) (Samples.drawCallsOf both) = [0; 0; 2; 0]%nat
          /\ map (@length _) (Samples.drawCallsOf animating) = [0; 0; 1; 0]%nat
          /\ map (@length _) (Samples.drawCallsOf faded) = [1; 0; 0; 2]%nat
      | Fatal _ => False
      end
  | _, _, _ => False
  end.
Proof.
  vm_compute. repeat split.
Qed.

(** ** Door transforms *)

(** The loop over the faces of a door: one draw call per visible face,
    appended to the door list in face order. *)
Lemma door_face_loop (K : Constants) (ceilingScale openPercent : double)
  (renderMeshDef : RenderVoxelMeshDefinition.t) (worldPos : Double3)
  (textureID : ObjectTextureID) (type : DoorType) (visible : Z -> bool) (faces : list Z) :
  type <> Splitting ->
  forall (rc : RenderChunk.t) (log : DebugLog),
  exists calls,
    forEach faces
      (fun i => if negb (visible i) then ret tt
                else RenderChunkManager.doorFaceDrawCall K ceilingScale openPercent
                       renderMeshDef worldPos textureID type i) (rc, log)
    = Ok (tt, (RenderChunk.withDrawCalls (RenderChunk.staticDrawCalls rc)
                 (RenderChunk.doorDrawCalls rc ++ calls)
                 (RenderChunk.chasmDrawCalls rc) (RenderChunk.fadingDrawCalls rc) rc, log))
    /\ Forall2 (isDoorFaceCall K ceilingScale openPercent renderMeshDef worldPos textureID type)
         (filter visible faces) calls.
Proof.
  intros Htype. induction faces as [| i faces IH]; intros rc log.
  - exists []. split; [| constructor].
    destruct rc. cbn. rewrite app_nil_r. reflexivity.
  - cbn [forEach filter]. destruct (visible i) eqn:Ev; cbn [negb].
    + assert (Hstep : exists call,
                RenderChunkManager.doorFaceDrawCall K ceilingScale openPercent renderMeshDef
                  worldPos textureID type i (rc, log)
                = Ok (tt, (RenderChunk.emplace_back DoorDrawCalls call rc, log))
                /\ isDoorFaceCall K ceilingScale openPercent renderMeshDef worldPos textureID
                     type i call).
      { destruct type; try contradiction; eexists; (split; [reflexivity |]);
          cbn; repeat split; reflexivity. }
      destruct Hstep as (c & Hc & Hface).
      unfold bind. rewrite Hc.
      destruct (IH (RenderChunk.emplace_back DoorDrawCalls c rc) log) as (calls & Hrun & Hall).
      exists (c :: calls). split; [| constructor; assumption].
      rewrite Hrun. destruct rc. cbn. rewrite <- app_assoc. reflexivity.
    + unfold bind. cbn. apply IH.
Qed.

(** The door branch, when it does not end in a fault, emits one draw call
    per visible face of the door. *)
Lemma doorDrawCalls_emitted (K : Constants) (chunk : VoxelChunk) (ceilingScale : double)
  (x y z : nat) (renderMeshDef : RenderVoxelMeshDefinition.t) (worldPos : Double3)
  (textureID : ObjectTextureID) (doorDefID : Z) (doorVisInst : VoxelDoorVisibilityInstance)
  (st : RenderChunkManager.DrawState) (goesOn : bool) (e : Emitted) :
  tryGetDoorVisibilityInst chunk x y z = Some doorVisInst ->
  emitted (RenderChunkManager.doorDrawCalls K chunk ceilingScale x y z renderMeshDef
             worldPos textureID doorDefID) st = Some (goesOn, e) ->
  Forall2 (isDoorFaceCall K ceilingScale (doorOpenPercent chunk x y z) renderMeshDef
             worldPos textureID (doorType (getDoorDef chunk doorDefID)))
    (visibleFaceIndices K doorVisInst) (toDoor e).
Proof.
  intros Hvis. unfold emitted, RenderChunkManager.doorDrawCalls. rewrite Hvis.
  fold (doorOpenPercent chunk x y z).
  destruct (_ <=? MAX_FACE_COUNT K); [| discriminate].
  unfold DebugAssert, bind at 1, ret at 1.
  assert (Hloop : doorType (getDoorDef chunk doorDefID) <> Splitting ->
                  exists calls,
                    forEach (indices (FACE_COUNT K))
                      (fun i =>
                         if negb (nth (Z.to_nat i)
                                    (RenderChunkManager.visibleDoorFaces K doorVisInst) false)
                         then ret tt
                         else RenderChunkManager.doorFaceDrawCall K ceilingScale
                                (doorOpenPercent chunk x y z) renderMeshDef worldPos
                                textureID (doorType (getDoorDef chunk doorDefID)) i)
                      (cleared st)
                    = Ok (tt, (RenderChunk.withDrawCalls [] ([] ++ calls) [] []
                                 (fst (cleared st)), []))
                    /\ Forall2 (isDoorFaceCall K ceilingScale (doorOpenPercent chunk x y z)
                                  renderMeshDef worldPos textureID
                                  (doorType (getDoorDef chunk doorDefID)))
                         (visibleFaceIndices K doorVisInst) calls).
  { intros Htype.
    apply (door_face_loop K ceilingScale (doorOpenPercent chunk x y z) renderMeshDef
             worldPos textureID (doorType (getDoorDef chunk doorDefID))
             (fun i => nth (Z.to_nat i)
                         (RenderChunkManager.visibleDoorFaces K doorVisInst) false)
             (indices (FACE_COUNT K)) Htype (fst (cleared st)) []). }
  destruct (doorType (getDoorDef chunk doorDefID)); try discriminate;
    (destruct Hloop as (calls & Hrun & Hall); [discriminate |]);
    unfold bind; rewrite Hrun; cbn [ret];
    intros H; injection H as _ <-; exact Hall.
Qed.

(** The alpha-tested block of a door with a loaded texture and a visibility
    instance: one draw call per visible face. *)
Lemma alphaTestedCalls_door (K : Constants) (this : RenderChunkManager.t)
  (chunk : VoxelChunk) (ceilingScale : double) (chunkPos : ChunkInt2) (x y z : nat)
  (renderMeshDef : RenderVoxelMeshDefinition.t) (doorDefID : Z)
  (textureID : ObjectTextureID) (doorVisInst : VoxelDoorVisibilityInstance)
  (st : RenderChunkManager.DrawState) (goesOn : bool) (e : Emitted) :
  tryGetDoorDefID chunk x y z = Some doorDefID ->
  alphaTestedTextureOf this chunk x y z = Some textureID ->
  0 <= textureID ->
  tryGetDoorVisibilityInst chunk x y z = Some doorVisInst ->
  emitted (alphaTestedCalls K this chunk ceilingScale chunkPos x y z renderMeshDef) st
  = Some (goesOn, e) ->
  Forall2 (isDoorFaceCall K ceilingScale (doorOpenPercent chunk x y z) renderMeshDef
             (voxelWorldPos K chunkPos ceilingScale x y z) textureID
             (doorType (getDoorDef chunk doorDefID)))
    (visibleFaceIndices K doorVisInst) (toDoor e).
Proof.
  intros Hdoor Htex Hpos Hvis.
  unfold alphaTestedTextureOf, RenderChunkManager.getVoxelTextureID in Htex.
  destruct (GetVoxelAlphaTestedTextureAssetIndex _) as [textureAssetIndex | f] eqn:Hidx;
    [| discriminate].
  destruct (getTextureAsset _ _) as [asset | f] eqn:Hasset; [| discriminate].
  destruct (find _ _) as [loadedTexture |] eqn:Hfind; [| discriminate].
  injection Htex as Htex.
  intros H.
  apply (doorDrawCalls_emitted K chunk ceilingScale x y z renderMeshDef _ textureID
           doorDefID doorVisInst st goesOn e Hvis).
  revert H.
  unfold alphaTestedCalls, RenderChunkManager.alphaTestedDrawCalls, emitted.
  rewrite Hdoor, Hidx.
  destruct (isSome (tryGetChasmDefID chunk x y z)); [discriminate |].
  unfold RenderChunkManager.findVoxelTextureID, bind, lift, DebugAssert, ret.
  cbn beta iota. rewrite Hasset. cbn beta iota. rewrite Hfind, Htex.
  destruct (Z.ltb_spec textureID 0) as [Hneg | _]; [lia |].
  trivial.
Qed.

(** The door draw calls of one iteration of [loadVoxelDrawCalls]. *)
Lemma loadVoxelDrawCallsAt_door (K : Constants) (this : RenderChunkManager.t)
  (chunk : VoxelChunk) (ceilingScale chasmAnimPercent : double)
  (updateStatics updateAnimating : bool) (voxel : VoxelInt3)
  (st : RenderChunkManager.DrawState) (u : unit) (e : Emitted) :
  updateStatics || updateAnimating = true ->
  emitted (RenderChunkManager.loadVoxelDrawCallsAt K this chunk ceilingScale
             chasmAnimPercent updateStatics updateAnimating
             (RenderChunk.position (fst st)) voxel) st = Some (u, e) ->
  doorCallsAt K this chunk ceilingScale (fst st) voxel (toDoor e).
Proof.
  intros Hflags H. destruct voxel as [[x y] z].
  apply loadVoxelDrawCallsAt_emitted in H.
  unfold doorCallsAt, voxelRenderMeshDef.
  destruct H as [[Hempty ->] | (k & renderMeshDefID & renderMeshDef & Hmesh & Hfind & Hat & H)].
  - rewrite Hempty. destruct (tryGetDoorDefID chunk x y z); [| reflexivity].
    intros ? ? ? Hnone. discriminate.
  - rewrite Hmesh, Hfind, Hat.
    apply voxelDrawCalls_parts in H.
    destruct H as (eO & eA & eW & -> & _ & HsA & HwO & HwA & HwW & _ & _).
    assert (HdO : toDoor eO = []).
    { apply (within_one_vector _ DoorDrawCalls _ HwO).
      unfold opaqueTarget.
      destruct (isSome (tryGetChasmDefID chunk x y z)),
        (isSome (tryGetFadeAnimInst chunk x y z)); reflexivity. }
    assert (HdW : toDoor eW = [])
      by (apply (within_one_vector _ DoorDrawCalls _ HwW); reflexivity).
    cbn [appendCalls toDoor]. rewrite HdO, HdW, app_nil_r. cbn [app].
    destruct (tryGetDoorDefID chunk x y z) as [doorDefID |] eqn:Hdoor.
    + intros meshDef textureID doorVisInst Hdef Hbuffer Htex Hpos Hvis.
      injection Hdef as <-.
      unfold alphaTestedSelected in HsA. rewrite Hdoor in HsA.
      destruct (Z.geb_spec (RenderVoxelMeshDefinition.alphaTestedIndexBufferID renderMeshDef)
                  0) as [_ | Hlt]; [| lia].
      cbn [isSome andb] in HsA. rewrite andb_true_r, Hflags in HsA.
      destruct HsA as [goesOn HeA].
      apply (alphaTestedCalls_door K this chunk ceilingScale _ x y z renderMeshDef doorDefID
               textureID doorVisInst st goesOn eA Hdoor Htex Hpos Hvis HeA).
    + apply (within_one_vector _ DoorDrawCalls _ HwA). reflexivity.
Qed.

(** *** The transforms at the ends of the door animation *)

Lemma roundResult_bounded (x : Q) :
  (- (2) <= x <= 2)%Q -> roundResult x = Finite (round64 x).
Proof.
  intros [Hlo Hhi]. apply roundResult_inIntRange. split.
  - apply (Qle_trans _ (- (2))%Q); [vm_compute; discriminate | exact Hlo].
  - apply (Qle_trans _ 2%Q); [exact Hhi | vm_compute; discriminate].
Qed.

Lemma representable_0 : representable 0.
Proof. apply (representable_Z 0). vm_compute. discriminate. Qed.

Lemma representable_1 : representable 1.
Proof. apply (representable_Z 1). vm_compute. discriminate. Qed.

(** Below a binary64 number between 1 and 2 there is the binary64 number
    [2^-52] lower. *)
Lemma representable_pred (h : Q) :
  representable h -> (1 <= h <= 2)%Q ->
  exists b, representable b /\ (b == h - pow2 (-52))%Q.
Proof.
  intros Hrep [H1 H2].
  assert (Hk : exists k, 2 ^ 52 <= k <= 2 ^ 53 /\ (h == inject_Z k * pow2 (-52))%Q).
  { destruct (Qlt_le_dec h 2) as [Hlt | Hge].
    - assert (Hpos : (0 < h)%Q) by lra.
      assert (Hlog : ilog2 h = 0).
      { apply ilog2_unique.
        - rewrite pow2_0. exact H1.
        - change (pow2 (0 + 1)) with 2%Q. exact Hlt. }
      assert (HE : ulpExponent h = -52).
      { destruct (ulpExponent_cases h) as (Ha & Hb & [Hc | Hc]); lia. }
      pose proof (mantissa_bounds h Hpos) as [Hn Hn'].
      cbn zeta in Hn, Hn'.
      exists (roundHalfEven (h / pow2 (ulpExponent h))).
      split; [split; [apply Hn'; lia | apply Hn] |].
      pose proof (roundPositive_eq h) as Heq.
      rewrite <- (round64_pos h Hpos) in Heq. unfold representable in Hrep.
      rewrite Hrep in Heq. rewrite HE in Heq at 2. exact Heq.
    - exists (2 ^ 53). split; [lia |].
      assert (Hh : (h == 2)%Q) by lra. rewrite Hh. vm_compute. reflexivity. }
  destruct Hk as (k & Hk & Hh).
  exists (round64 (inject_Z (k - 1) * pow2 (-52))).
  split; [apply round64_idempotent |].
  rewrite (round64_exact _ (k - 1) (-52)); [| lia | lia | reflexivity].
  rewrite Hh. unfold Z.sub. rewrite inject_Z_plus.
  change (inject_Z (- (1))) with (- (1))%Q. ring.
Qed.

(** The rotation of a swinging door: none when it is closed, and less than
    [HalfPi] in magnitude however far it is open. *)
Lemma swingRotationAmount_bounds (K : Constants) (h e : Q) :
  HalfPi K = Finite h -> Epsilon K = Finite e ->
  representable h -> (1 <= h <= 2)%Q -> (pow2 (-52) <= e <= h)%Q ->
  swingRotationAmount K (Finite 0) = Finite 0
  /\ forall p : Q, (0 <= p <= 1)%Q ->
       exists r, swingRotationAmount K (Finite p) = Finite r /\ (- h < r <= 0)%Q.
Proof.
  intros Hh He Hrep Hh12 [He1 He2].
  destruct (representable_pred h Hrep Hh12) as (b & Hb & Hbh).
  pose proof (pow2_pos (-52)) as Hulp.
  set (d := round64 (h + - e)).
  assert (Hd0 : (0 <= d)%Q) by (apply round64_ge; [apply representable_0 | lra]).
  assert (Hdb : (d <= b)%Q) by (apply round64_le; [exact Hb | lra]).
  assert (Hsub : fneg (fsub (HalfPi K) (Epsilon K)) = Finite (- d)).
  { rewrite Hh, He. unfold fsub, fadd, fneg.
    rewrite roundResult_bounded by (split; lra). reflexivity. }
  assert (Hrun : forall p : Q, (0 <= p <= 1)%Q ->
                   swingRotationAmount K (Finite p) = Finite (round64 (- d * p))
                   /\ (- h < round64 (- d * p) <= 0)%Q).
  { intros p [Hp0 Hp1]. unfold swingRotationAmount. rewrite Hsub. unfold fmul.
    assert (Hprod : (- d <= - d * p <= 0)%Q) by (split; nra).
    rewrite roundResult_bounded by (split; lra).
    split; [reflexivity |]. split.
    - apply (Qlt_le_trans _ (- d)); [lra |].
      apply round64_ge; [apply representable_opp, round64_idempotent | apply Hprod].
    - apply round64_le; [apply representable_0 | apply Hprod]. }
  split.
  - destruct (Hrun 0%Q) as [-> _]; [split; lra |].
    f_equal. apply round64_zero. ring.
  - intros p Hp. exists (round64 (- d * p)). apply Hrun, Hp.
Qed.

(** The scale of a sliding or raising door: 1 when it is closed, and within
    [2^-53] of [DOOR_MIN_VISIBLE] when it is open. *)
Lemma doorScaleAmount_ends (K : Constants) (m : Q) :
  DOOR_MIN_VISIBLE K = Finite m -> (0 <= m <= 1)%Q ->
  doorTexCoordMin K (Finite 0) = Finite 0
  /\ doorScaleAmount K (Finite 0) = Finite 1
  /\ exists s, doorScaleAmount K (Finite 1) = Finite s
               /\ (Qabs (s - m) <= pow2 (-53))%Q.
Proof.
  intros Hm [Hm0 Hm1].
  set (a := round64 (1 + - m)).
  assert (Ha0 : (0 <= a)%Q) by (apply round64_ge; [apply representable_0 | lra]).
  assert (Ha1 : (a <= 1)%Q) by (apply round64_le; [apply representable_1 | lra]).
  assert (Hsub : fsub (Finite 1) (DOOR_MIN_VISIBLE K) = Finite a).
  { rewrite Hm. unfold fsub, fadd, fneg.
    rewrite roundResult_bounded by (split; lra). reflexivity. }
  assert (Hmin0 : doorTexCoordMin K (Finite 0) = Finite 0).
  { unfold doorTexCoordMin. rewrite Hsub. unfold fmul.
    rewrite roundResult_bounded by (split; nra).
    f_equal. apply round64_zero. ring. }
  split; [exact Hmin0 |]. split.
  - unfold doorScaleAmount. rewrite Hmin0. unfold fsub, fadd, fneg.
    rewrite roundResult_bounded by (split; lra).
    vm_compute. reflexivity.
  - exists (round64 (1 + - a)).
    assert (Hmin1 : doorTexCoordMin K (Finite 1) = Finite a).
    { unfold doorTexCoordMin. rewrite Hsub. unfold fmul.
      rewrite roundResult_bounded by (split; lra).
      f_equal. rewrite (round64_comp _ a) by ring. apply round64_idempotent. }
    split.
    + unfold doorScaleAmount. rewrite Hmin1. unfold fsub, fadd, fneg.
      rewrite roundResult_bounded by (split; lra). reflexivity.
    + assert (E1 : (Qabs (a - (1 + - m)) <= pow2 (-54))%Q).
      { apply round64_error_unit. apply Qabs_Qle_condition. split; lra. }
      assert (E2 : (Qabs (round64 (1 + - a) - (1 + - a)) <= pow2 (-54))%Q).
      { apply round64_error_unit. apply Qabs_Qle_condition. split; lra. }
      apply Qabs_Qle_condition in E1, E2. apply Qabs_Qle_condition.
      assert (Hp : (pow2 (-53) == pow2 (-54) + pow2 (-54))%Q)
        by (vm_compute; reflexivity).
      rewrite Hp. split; lra.
Qed.

(** C8: the door draw calls of a completed [loadVoxelDrawCalls] that updates
    the statics or the animating voxels. The door list of the render chunk
    grows by the door calls of the voxels of the grid, in loop order: none for
    a voxel that is no door; for a door whose mesh is mapped to a render mesh
    definition with an alpha-tested index buffer, whose texture is loaded and
    which has a visibility instance, exactly one draw call per visible face,
    in face order, each with the transform of its door type in binary64
    arithmetic: rotation by the base angle plus -(HalfPi - Epsilon) *
    openPercent (Swinging), Z scale 1 - uMin with uMin = (1 - MIN_VISIBLE) *
    openPercent (Sliding), Y scale 1 - vMin and pre-scale translation
    -ceilingScale on Y (Raising). For a binary64 HalfPi between 1 and 2 and
    Epsilon from 2^-52 to HalfPi the rotation amount is 0 for a closed door
    and stays below HalfPi in magnitude on [0, 1]. For MIN_VISIBLE in [0, 1]
    the scale is 1 for a closed door and within 2^-53 of MIN_VISIBLE for an
    open one. *)
Theorem door_transforms (K : Constants) (this : RenderChunkManager.t) (chunk : VoxelChunk)
  (ceilingScale chasmAnimPercent : double) (updateStatics updateAnimating : bool)
  (renderChunk renderChunk' : RenderChunk.t) (log log' : DebugLog) :
  updateStatics || updateAnimating = true ->
  RenderChunkManager.loadVoxelDrawCalls K this chunk ceilingScale chasmAnimPercent
    updateStatics updateAnimating (renderChunk, log) = Ok (tt, (renderChunk', log')) ->
  (exists perVoxel : list (list RenderDrawCall.t),
     Forall2 (doorCallsAt K this chunk ceilingScale renderChunk)
       (voxelsOf (RenderChunk.meshDefIDsWidth renderChunk)
          (RenderChunk.meshDefIDsHeight renderChunk)
          (RenderChunk.meshDefIDsDepth renderChunk)) perVoxel
     /\ RenderChunk.doorDrawCalls renderChunk'
        = RenderChunk.doorDrawCalls renderChunk ++ concat perVoxel)
  /\ (forall h e : Q,
        HalfPi K = Finite h -> Epsilon K = Finite e ->
        representable h -> (1 <= h <= 2)%Q -> (pow2 (-52) <= e <= h)%Q ->
        swingRotationAmount K (Finite 0) = Finite 0
        /\ forall p : Q, (0 <= p <= 1)%Q ->
             exists r, swingRotationAmount K (Finite p) = Finite r /\ (- h < r <= 0)%Q)
  /\ (forall m : Q,
        DOOR_MIN_VISIBLE K = Finite m -> (0 <= m <= 1)%Q ->
        doorTexCoordMin K (Finite 0) = Finite 0
        /\ doorScaleAmount K (Finite 0) = Finite 1
        /\ exists s, doorScaleAmount K (Finite 1) = Finite s
                     /\ (Qabs (s - m) <= pow2 (-53))%Q).
Proof.
  intros Hflags Hrun.
  split; [| split; [apply swingRotationAmount_bounds | apply doorScaleAmount_ends]].
  pose proof (Appends_run anyVector _ (renderChunk, log)
                (loadVoxelDrawCalls_Appends K this chunk ceilingScale chasmAnimPercent
                   updateStatics updateAnimating)) as Happ.
  rewrite emitted_loadVoxelDrawCalls in Happ. cbn [fst] in Happ.
  destruct (emitted (forEach _ _) (renderChunk, log)) as [[u e] |] eqn:Hloop.
  - destruct Happ as (_ & st' & Hst & _ & Hcalls).
    rewrite Hrun in Hst. injection Hst as _ <-.
    rewrite !appendCalls_noCalls_l in Hcalls.
    apply emitted_forEach_each in Hloop;
      [| intros voxel; apply loadVoxelDrawCallsAt_Appends].
    destruct Hloop as (es & Hall & ->).
    exists (map toDoor es). split.
    + clear Hcalls. induction Hall as [| voxel ex voxels es Hvoxel _ IH]; [constructor |].
      cbn [map]. constructor; [| exact IH].
      apply (loadVoxelDrawCallsAt_door K this chunk ceilingScale chasmAnimPercent
               updateStatics updateAnimating voxel (renderChunk, log) tt ex Hflags Hvoxel).
    + apply (f_equal toDoor) in Hcalls. cbn [callsOf toDoor appendCalls fst] in Hcalls.
      rewrite Hcalls, toDoor_fold. reflexivity.
  - destruct Happ as [f Hf]. rewrite Hf in Hrun. discriminate.
Qed.

Lemma door_transforms_witness :
  let this := fst (Samples.loaded Samples.doorChunk [Samples.asset "door"]) in
  let renderChunk := hd (RenderChunk.init Samples.arena (0, 0) 1)
                       (RenderChunkManager.renderChunks this) in
  exists renderChunk' log' call others r s,
    RenderChunkManager.loadVoxelDrawCalls Samples.arena this Samples.doorChunk 1%Q 0%Q
      true true (renderChunk, []) = Ok (tt, (renderChunk', log'))
    /\ Forall2 (doorCallsAt Samples.arena this Samples.doorChunk 1%Q renderChunk)
         (voxelsOf (RenderChunk.meshDefIDsWidth renderChunk)
            (RenderChunk.meshDefIDsHeight renderChunk)
            (RenderChunk.meshDefIDsDepth renderChunk)) ([call] :: others)
    /\ RenderChunk.doorDrawCalls renderChunk'
       = RenderChunk.doorDrawCalls renderChunk ++ concat ([call] :: others)
    /\ isDoorFaceCall Samples.arena 1%Q (Finite (1 # 2))
         (RenderVoxelMeshDefinition.mk 16 17 18 [-1; -1; -1] 0 19)
         (Finite 0, Finite 0, Finite 0) 15 Swinging 0 call
    /\ swingRotationAmount Samples.arena (Finite (1 # 2)) = Finite r
    /\ (- Samples.halfPi < r <= 0)%Q
    /\ doorScaleAmount Samples.arena (Finite 1) = Finite s
    /\ (Qabs (s - Samples.doorMinVisible) <= pow2 (-53))%Q.
Proof.
  intros this renderChunk.
  destruct (RenderChunkManager.loadVoxelDrawCalls Samples.arena this Samples.doorChunk
              1%Q 0%Q true true (renderChunk, []))
    as [[[] [renderChunk' log']] | f] eqn:Hrun; [| vm_compute in Hrun; discriminate].
  destruct (door_transforms Samples.arena this Samples.doorChunk 1%Q 0%Q true true
              renderChunk renderChunk' [] log' eq_refl Hrun)
    as ((perVoxel & Hall & Hdoor) & Hswing & Hscale).
  assert (H1 : (1 <= Samples.halfPi <= 2)%Q) by (split; vm_compute; discriminate).
  assert (H2 : (pow2 (-52) <= Samples.epsilon <= Samples.halfPi)%Q)
    by (split; vm_compute; discriminate).
  assert (H3 : (0 <= 1 # 2 <= 1)%Q) by (split; vm_compute; discriminate).
  assert (H4 : (0 <= Samples.doorMinVisible <= 1)%Q) by (split; vm_compute; discriminate).
  destruct (Hswing Samples.halfPi Samples.epsilon eq_refl eq_refl (round64_idempotent _)
              H1 H2) as [_ Hrot].
  destruct (Hrot (1 # 2)%Q H3) as (r & Hr & Hbound).
  destruct (Hscale Samples.doorMinVisible eq_refl H4) as (_ & _ & s & Hs & Herr).
  assert (Hv : exists rest,
             voxelsOf (RenderChunk.meshDefIDsWidth renderChunk)
               (RenderChunk.meshDefIDsHeight renderChunk)
               (RenderChunk.meshDefIDsDepth renderChunk) = (0, 0, 0)%nat :: rest)
    by (vm_compute; eexists; reflexivity).
  destruct Hv as [rest Hv].
  assert (Hfirst : exists calls others, perVoxel = calls :: others
                     /\ doorCallsAt Samples.arena this Samples.doorChunk 1%Q renderChunk
                          (0, 0, 0)%nat calls).
  { rewrite Hv in Hall. inversion Hall as [| v c0 vs cs Hat Hrest]; subst.
    exists c0, cs. split; [reflexivity | exact Hat]. }
  destruct Hfirst as (calls & others & -> & Hat).
  assert (Hfaces : Forall2 (isDoorFaceCall Samples.arena 1%Q (Finite (1 # 2))
                              (RenderVoxelMeshDefinition.mk 16 17 18 [-1; -1; -1] 0 19)
                              (Finite 0, Finite 0, Finite 0) 15 Swinging) [0] calls).
  { apply (Hat (RenderVoxelMeshDefinition.mk 16 17 18 [-1; -1; -1] 0 19) 15
             (mkVoxelDoorVisibilityInstance [PositiveX] 1)).
    - vm_compute. reflexivity.
    - vm_compute. discriminate.
    - vm_compute. reflexivity.
    - vm_compute. discriminate.
    - reflexivity. }
  assert (Hone : exists call, calls = [call]
                   /\ isDoorFaceCall Samples.arena 1%Q (Finite (1 # 2))
                        (RenderVoxelMeshDefinition.mk 16 17 18 [-1; -1; -1] 0 19)
                        (Finite 0, Finite 0, Finite 0) 15 Swinging 0 call).
  { inversion Hfaces as [| i call is_ cs Hcall Hnil]; subst.
    inversion Hnil; subst. exists call. split; [reflexivity | exact Hcall]. }
  destruct Hone as (call & -> & Hcall).
  exists renderChunk', log', call, others, r, s.
  split; [reflexivity |]. split; [exact Hall |]. split; [exact Hdoor |].
  split; [exact Hcall |]. split; [exact Hr |]. split; [exact Hbound |].
  split; [exact Hs | exact Herr].
Defined.

(** With MIN_VISIBLE the binary64 number nearest 0.1, the scale of a fully
    open sliding door is below MIN_VISIBLE: 1 - (1 - 0.1) is not 0.1 in
    binary64. The draw call of the open door carries that scale. *)
Lemma open_door_scale_below_min_visible :
  let this := fst (Samples.loaded Samples.openSlidingDoorChunk [Samples.asset "door"]) in
  DOOR_MIN_VISIBLE Samples.arena = Finite (round64 (1 # 10))
  /\ doorScaleAmount Samples.arena (Finite 1)
     = Finite (900719925474099 # 9007199254740992)
  /\ (900719925474099 # 9007199254740992 < round64 (1 # 10))%Q
  /\ map (map RenderDrawCall.scale)
       (Samples.drawCallsOf (Samples.rebuilt Samples.openSlidingDoorChunk true true this))
     = [[]; [Matrix4d_scale (Finite 1) (Finite 1)
               (Finite (900719925474099 # 9007199254740992))]; []; []].
Proof.
  vm_compute. repeat split.
Qed.

(** * Further properties *)

(** ** The mesh size tables *)

Lemma Ok_inj {A : Type} (a b : A) : Ok a = Ok b -> a = b.
Proof.
  intros H. now injection H.
Qed.

(** X1: [GetOpaqueIndexCount] returns a count exactly for the buffer indices
    below [GetOpaqueIndexBufferCount] of the voxel type, and
    [GetAlphaTestedIndexCount] exactly for those below
    [GetAlphaTestedIndexBufferCount]; any other index ends in
    [DebugUnhandledReturnMsg]. *)
Theorem index_counts_match_buffer_counts (indicesPerTriangle : Z) (voxelType : VoxelType)
  (bufferIndex : Z) :
  ((exists n, ArenaMeshUtils.GetOpaqueIndexCount indicesPerTriangle voxelType bufferIndex
              = Ok n)
   <-> 0 <= bufferIndex < ArenaMeshUtils.GetOpaqueIndexBufferCount voxelType)
  /\ ((exists n, ArenaMeshUtils.GetAlphaTestedIndexCount indicesPerTriangle voxelType
                   bufferIndex = Ok n)
      <-> 0 <= bufferIndex < ArenaMeshUtils.GetAlphaTestedIndexBufferCount voxelType)
  /\ (ArenaMeshUtils.GetOpaqueIndexCount indicesPerTriangle voxelType bufferIndex
      = Fatal UnhandledReturn
      <-> ~ 0 <= bufferIndex < ArenaMeshUtils.GetOpaqueIndexBufferCount voxelType)
  /\ (ArenaMeshUtils.GetAlphaTestedIndexCount indicesPerTriangle voxelType bufferIndex
      = Fatal UnhandledReturn
      <-> ~ 0 <= bufferIndex < ArenaMeshUtils.GetAlphaTestedIndexBufferCount voxelType).
Proof.
  unfold ArenaMeshUtils.GetOpaqueIndexCount, ArenaMeshUtils.GetAlphaTestedIndexCount.
  destruct voxelType; cbn [ArenaMeshUtils.GetOpaqueIndexBufferCount
                           ArenaMeshUtils.GetAlphaTestedIndexBufferCount];
    destruct (Z.eqb_spec bufferIndex 0); destruct (Z.eqb_spec bufferIndex 1);
    destruct (Z.eqb_spec bufferIndex 2); cbn [orb];
    repeat split; intros; try lia; try discriminate; try (eexists; reflexivity);
    try match goal with
        | H : exists _, Fatal _ = Ok _ |- _ => destruct H; discriminate
        end.
Qed.

(** X2: the mesh of every voxel type fits the arrays of [InitCache]: it has
    at most [MAX_VERTICES] renderer vertices and no fewer than its unique
    vertices, at most three opaque index buffers and one alpha-tested index
    buffer, and, with at most three indices per triangle, every index buffer
    holds between one triangle's worth and [MAX_INDICES] indices. *)
Theorem voxel_mesh_fits_init_cache (K : Constants) (indicesPerTriangle : Z)
  (voxelType : VoxelType) :
  0 < indicesPerTriangle <= 3 ->
  0 <= POSITION_COMPONENTS_PER_VERTEX K ->
  0 <= NORMAL_COMPONENTS_PER_VERTEX K ->
  0 <= TEX_COORDS_PER_VERTEX K ->
  0 <= ArenaMeshUtils.GetUniqueVertexCount voxelType
    <= ArenaMeshUtils.GetRendererVertexCount voxelType
  /\ ArenaMeshUtils.GetRendererVertexCount voxelType <= ArenaMeshUtils.MAX_VERTICES
  /\ ArenaMeshUtils.GetRendererVertexPositionComponentCount K voxelType
     <= ArenaMeshUtils.MAX_VERTICES * POSITION_COMPONENTS_PER_VERTEX K
  /\ ArenaMeshUtils.GetRendererVertexNormalComponentCount K voxelType
     <= ArenaMeshUtils.MAX_VERTICES * NORMAL_COMPONENTS_PER_VERTEX K
  /\ ArenaMeshUtils.GetRendererVertexTexCoordCount K voxelType
     <= ArenaMeshUtils.MAX_VERTICES * TEX_COORDS_PER_VERTEX K
  /\ 0 <= ArenaMeshUtils.GetOpaqueIndexBufferCount voxelType <= 3
  /\ 0 <= ArenaMeshUtils.GetAlphaTestedIndexBufferCount voxelType <= 1
  /\ (forall bufferIndex n,
        ArenaMeshUtils.GetOpaqueIndexCount indicesPerTriangle voxelType bufferIndex = Ok n ->
        indicesPerTriangle <= n <= ArenaMeshUtils.MAX_INDICES)
  /\ (forall bufferIndex n,
        ArenaMeshUtils.GetAlphaTestedIndexCount indicesPerTriangle voxelType bufferIndex
        = Ok n ->
        indicesPerTriangle <= n <= ArenaMeshUtils.MAX_INDICES).
Proof.
  intros Hipt Hp Hn Ht.
  unfold ArenaMeshUtils.GetRendererVertexPositionComponentCount,
    ArenaMeshUtils.GetRendererVertexNormalComponentCount,
    ArenaMeshUtils.GetRendererVertexTexCoordCount, ArenaMeshUtils.MAX_VERTICES,
    ArenaMeshUtils.MAX_INDICES.
  assert (Hcount : 0 <= ArenaMeshUtils.GetRendererVertexCount voxelType <= 24)
    by (destruct voxelType; cbn; lia).
  assert (Hopaque : forall bufferIndex n,
             ArenaMeshUtils.GetOpaqueIndexCount indicesPerTriangle voxelType bufferIndex
             = Ok n -> indicesPerTriangle <= n <= 36).
  { intros bufferIndex n. unfold ArenaMeshUtils.GetOpaqueIndexCount.
    destruct voxelType; try discriminate;
      destruct (bufferIndex =? 0); destruct (bufferIndex =? 1);
      destruct (bufferIndex =? 2); cbn [orb]; intros H; try discriminate;
      apply Ok_inj in H; lia. }
  assert (Halpha : forall bufferIndex n,
             ArenaMeshUtils.GetAlphaTestedIndexCount indicesPerTriangle voxelType
               bufferIndex = Ok n -> indicesPerTriangle <= n <= 36).
  { intros bufferIndex n. unfold ArenaMeshUtils.GetAlphaTestedIndexCount.
    destruct voxelType; try discriminate;
      destruct (bufferIndex =? 0); intros H; try discriminate;
      apply Ok_inj in H; lia. }
  split; [destruct voxelType; cbn; lia |].
  split; [lia |].
  split; [nia |]. split; [nia |]. split; [nia |].
  split; [destruct voxelType; cbn; lia |].
  split; [destruct voxelType; cbn; lia |].
  split; [exact Hopaque | exact Halpha].
Qed.

Lemma voxel_mesh_fits_init_cache_witness :
  ArenaMeshUtils.GetRendererVertexPositionComponentCount Samples.arena VT_Wall
  <= ArenaMeshUtils.MAX_VERTICES * POSITION_COMPONENTS_PER_VERTEX Samples.arena
  /\ forall bufferIndex n,
       ArenaMeshUtils.GetAlphaTestedIndexCount 3 VT_Raised bufferIndex = Ok n ->
       3 <= n <= ArenaMeshUtils.MAX_INDICES.
Proof.
  assert (Hipt : 0 < 3 <= 3) by lia.
  assert (Hp : 0 <= POSITION_COMPONENTS_PER_VERTEX Samples.arena)
    by (vm_compute; discriminate).
  assert (Hn : 0 <= NORMAL_COMPONENTS_PER_VERTEX Samples.arena)
    by (vm_compute; discriminate).
  assert (Ht : 0 <= TEX_COORDS_PER_VERTEX Samples.arena)
    by (vm_compute; discriminate).
  split.
  - exact (proj1 (proj2 (proj2
             (voxel_mesh_fits_init_cache Samples.arena 3 VT_Wall Hipt Hp Hn Ht)))).
  - exact (proj2 (proj2 (proj2 (proj2 (proj2 (proj2 (proj2 (proj2
             (voxel_mesh_fits_init_cache Samples.arena 3 VT_Raised Hipt Hp Hn Ht))))))))).
Defined.

(** X3: the texture slot lookups of the draw call assembler cover the index
    buffers of the mesh tables: every opaque index buffer of a voxel type has
    a texture slot among the first three, every voxel type with an
    alpha-tested index buffer takes slot 0 for it, and no two index buffers
    of a voxel type share a slot. *)
Theorem texture_slots_cover_index_buffers (voxelType : VoxelType) :
  (forall bufferIndex,
     0 <= bufferIndex < ArenaMeshUtils.GetOpaqueIndexBufferCount voxelType ->
     exists slot, GetVoxelOpaqueTextureAssetIndex voxelType bufferIndex = Ok slot
                  /\ 0 <= slot < 3)
  /\ (0 < ArenaMeshUtils.GetAlphaTestedIndexBufferCount voxelType ->
      GetVoxelAlphaTestedTextureAssetIndex voxelType = Ok 0)
  /\ (forall i j slot,
        0 <= i < ArenaMeshUtils.GetOpaqueIndexBufferCount voxelType ->
        0 <= j < ArenaMeshUtils.GetOpaqueIndexBufferCount voxelType ->
        GetVoxelOpaqueTextureAssetIndex voxelType i = Ok slot ->
        GetVoxelOpaqueTextureAssetIndex voxelType j = Ok slot ->
        i = j)
  /\ (forall i slot,
        0 <= i < ArenaMeshUtils.GetOpaqueIndexBufferCount voxelType ->
        0 < ArenaMeshUtils.GetAlphaTestedIndexBufferCount voxelType ->
        GetVoxelOpaqueTextureAssetIndex voxelType i = Ok slot ->
        GetVoxelAlphaTestedTextureAssetIndex voxelType <> Ok slot).
Proof.
  repeat split.
  - intros i Hi. destruct voxelType; cbn in *; try lia;
      try (exists i; split; [reflexivity | lia]).
    + destruct (Z.eqb_spec i 0); [exists 1; split; [reflexivity | lia] |].
      destruct (Z.eqb_spec i 1); [exists 2; split; [reflexivity | lia] | lia].
    + destruct (Z.eqb_spec i 0); [exists 0; split; [reflexivity | lia] | lia].
  - destruct voxelType; cbn; try lia; reflexivity.
  - intros i j slot Hi Hj. destruct voxelType; cbn in *; try lia;
      try (intros H1 H2; congruence);
      destruct (Z.eqb_spec i 0); destruct (Z.eqb_spec j 0);
      destruct (Z.eqb_spec i 1); destruct (Z.eqb_spec j 1);
      intros H1 H2; try lia; congruence.
  - intros i slot Hi Ha. destruct voxelType; cbn in *; try lia.
    destruct (Z.eqb_spec i 0); [intros H; injection H as <-; discriminate |].
    destruct (Z.eqb_spec i 1); [intros H; injection H as <-; discriminate | lia].
Qed.

(** ** Render chunks: lookup, load and unload *)

Lemma findIndexFrom_split {A : Type} (p : A -> bool) (l : list A) (k i : Z) :
  findIndexFrom p l k = Some i ->
  exists before x after,
    l = before ++ x :: after
    /\ i = k + Z.of_nat (length before)
    /\ p x = true
    /\ forall y, In y before -> p y = false.
Proof.
  revert k. induction l as [| a rest IH]; intros k; cbn [findIndexFrom]; [discriminate |].
  destruct (p a) eqn:Ea.
  - intros H. injection H as <-. exists [], a, rest. cbn.
    repeat split; [lia | exact Ea | intros y []].
  - intros H. destruct (IH _ H) as (before & x & after & -> & -> & Hx & Hbefore).
    exists (a :: before), x, after. cbn [app length].
    repeat split; [lia | exact Hx |].
    intros y [<- | Hy]; [exact Ea | apply Hbefore, Hy].
Qed.

Lemma findIndexFrom_app_found {A : Type} (p : A -> bool) (l e : list A) (k i : Z) :
  findIndexFrom p l k = Some i -> findIndexFrom p (l ++ e) k = Some i.
Proof.
  revert k. induction l as [| a rest IH]; intros k; cbn; [discriminate |].
  destruct (p a); [trivial | apply IH].
Qed.

Lemma at_middle {A : Type} (before after : list A) (x : A) :
  at_ (before ++ x :: after) (Z.of_nat (length before)) = Some x.
Proof.
  unfold at_. destruct (Z.ltb_spec (Z.of_nat (length before)) 0); [lia |].
  rewrite Nat2Z.id, nth_error_app2 by lia. now rewrite Nat.sub_diag.
Qed.

Lemma eraseAt_middle {A : Type} (before after : list A) (x : A) :
  RenderChunkManager.eraseAt (before ++ x :: after) (length before) = before ++ after.
Proof.
  induction before as [| a rest IH]; cbn; [reflexivity | now rewrite IH].
Qed.

Lemma position_eqb (rc : RenderChunk.t) (chunkPos : ChunkInt2) :
  ChunkInt2_eqb (RenderChunk.position rc) chunkPos = true
  <-> RenderChunk.position rc = chunkPos.
Proof.
  apply ChunkInt2_eqb_eq.
Qed.

Lemma position_neqb (rc : RenderChunk.t) (chunkPos : ChunkInt2) :
  ChunkInt2_eqb (RenderChunk.position rc) chunkPos = false
  <-> RenderChunk.position rc <> chunkPos.
Proof.
  rewrite <- position_eqb. destruct (ChunkInt2_eqb _ _); split; congruence.
Qed.

(** The render chunk a lookup finds is the first one at the position. *)
Lemma lookup_split (this : RenderChunkManager.t) (chunkPos : ChunkInt2) (i : Z) :
  RenderChunkManager.tryGetRenderChunkIndex this chunkPos = Some i ->
  exists before rc after,
    RenderChunkManager.renderChunks this = before ++ rc :: after
    /\ i = Z.of_nat (length before)
    /\ RenderChunk.position rc = chunkPos
    /\ forall rc', In rc' before -> RenderChunk.position rc' <> chunkPos.
Proof.
  intros H. apply findIndexFrom_split in H.
  destruct H as (before & rc & after & Hl & Hi & Hrc & Hbefore).
  exists before, rc, after. repeat split; [exact Hl | lia | now apply position_eqb |].
  intros rc' Hin. apply position_neqb, Hbefore, Hin.
Qed.

(** X4: [tryGetRenderChunkIndex] returns the index of the first render chunk
    at the position, and no index exactly when no render chunk is at the
    position. *)
Theorem render_chunk_lookup_finds_first (this : RenderChunkManager.t)
  (chunkPos : ChunkInt2) :
  match RenderChunkManager.tryGetRenderChunkIndex this chunkPos with
  | Some i =>
      exists before rc after,
        RenderChunkManager.renderChunks this = before ++ rc :: after
        /\ i = Z.of_nat (length before)
        /\ at_ (RenderChunkManager.renderChunks this) i = Some rc
        /\ RenderChunk.position rc = chunkPos
        /\ forall rc', In rc' before -> RenderChunk.position rc' <> chunkPos
  | None =>
      forall rc, In rc (RenderChunkManager.renderChunks this) ->
                 RenderChunk.position rc <> chunkPos
  end.
Proof.
  destruct (RenderChunkManager.tryGetRenderChunkIndex this chunkPos) as [i |] eqn:E.
  - destruct (lookup_split _ _ _ E) as (before & rc & after & Hl & Hi & Hrc & Hbefore).
    exists before, rc, after. rewrite Hl, Hi, at_middle. repeat split; assumption.
  - intros rc Hin. apply position_neqb.
    apply (proj1 (findIndexFrom_None _ _ _) E rc Hin).
Qed.

Lemma registerMeshDefinition_calls (id : Z) (d : RenderVoxelMeshDefinition.t)
  (rc : RenderChunk.t) :
  drawCallsOfChunk (RenderChunkManager.registerMeshDefinition id d rc)
  = drawCallsOfChunk rc
  /\ RenderChunk.height (RenderChunkManager.registerMeshDefinition id d rc)
     = RenderChunk.height rc
  /\ RenderChunk.chasmWallIndexBufferIDs (RenderChunkManager.registerMeshDefinition id d rc)
     = RenderChunk.chasmWallIndexBufferIDs rc.
Proof.
  repeat split.
Qed.

Lemma loadVoxelMeshBuffer_calls (K : Constants) (chunk : VoxelChunk)
  (st : RenderChunk.t * World) (i : nat) :
  drawCallsOfChunk (fst (RenderChunkManager.loadVoxelMeshBuffer K chunk st i))
  = drawCallsOfChunk (fst st)
  /\ RenderChunk.height (fst (RenderChunkManager.loadVoxelMeshBuffer K chunk st i))
     = RenderChunk.height (fst st)
  /\ RenderChunk.chasmWallIndexBufferIDs
       (fst (RenderChunkManager.loadVoxelMeshBuffer K chunk st i))
     = RenderChunk.chasmWallIndexBufferIDs (fst st).
Proof.
  destruct st as [rc w]. unfold RenderChunkManager.loadVoxelMeshBuffer.
  repeat match goal with
         | |- context [if ?c then _ else _] => destruct c
         | |- context [match ?x with (_, _) => _ end] => destruct x
         | |- context [match ?x with Some _ => _ | None => _ end] => destruct x
         end; cbn [fst]; repeat split.
Qed.

Lemma loadVoxelMeshBuffers_calls (K : Constants) (rc : RenderChunk.t) (chunk : VoxelChunk)
  (ceilingScale : double) (w : World) :
  drawCallsOfChunk (fst (RenderChunkManager.loadVoxelMeshBuffers K rc chunk ceilingScale w))
  = drawCallsOfChunk rc
  /\ RenderChunk.height
       (fst (RenderChunkManager.loadVoxelMeshBuffers K rc chunk ceilingScale w))
     = RenderChunk.height rc
  /\ RenderChunk.chasmWallIndexBufferIDs
       (fst (RenderChunkManager.loadVoxelMeshBuffers K rc chunk ceilingScale w))
     = RenderChunk.chasmWallIndexBufferIDs rc.
Proof.
  unfold RenderChunkManager.loadVoxelMeshBuffers.
  apply (fold_left_invariant
           (fun st => drawCallsOfChunk (fst st) = drawCallsOfChunk rc
                      /\ RenderChunk.height (fst st) = RenderChunk.height rc
                      /\ RenderChunk.chasmWallIndexBufferIDs (fst st)
                         = RenderChunk.chasmWallIndexBufferIDs rc)).
  - repeat split.
  - intros st i (Hc & Hh & Hw).
    destruct (loadVoxelMeshBuffer_calls K chunk st i) as (Hc' & Hh' & Hw').
    repeat split; congruence.
Qed.

Lemma loadVoxelChasmWalls_calls (K : Constants) (this : RenderChunkManager.t)
  (rc rc' : RenderChunk.t) (chunk : VoxelChunk) :
  RenderChunkManager.loadVoxelChasmWalls K this rc chunk = Ok rc' ->
  drawCallsOfChunk rc' = drawCallsOfChunk rc
  /\ RenderChunk.height rc' = RenderChunk.height rc.
Proof.
  unfold RenderChunkManager.loadVoxelChasmWalls.
  destruct (RenderChunk.chasmWallIndexBufferIDs rc); [| discriminate].
  apply (foldResult_invariant
           (fun r => drawCallsOfChunk r = drawCallsOfChunk rc
                     /\ RenderChunk.height r = RenderChunk.height rc)).
  - split; reflexivity.
  - intros r [[x y] z] r' [Hc Hh]. unfold RenderChunkManager.loadVoxelChasmWall.
    destruct (tryGetChasmWallInst chunk x y z) as [inst |].
    + destruct (_ >? 0); [| discriminate].
      destruct (at_ _ _); [| discriminate].
      intros H. injection H as <-. split; [exact Hc | exact Hh].
    + intros H. injection H as <-. split; assumption.
Qed.

Lemma flat_map_calls_app (l : list RenderChunk.t) (rc : RenderChunk.t) :
  drawCallsOfChunk rc = [] ->
  flat_map drawCallsOfChunk (l ++ [rc]) = flat_map drawCallsOfChunk l.
Proof.
  intros H. rewrite flat_map_app. cbn. now rewrite H, !app_nil_r.
Qed.

(** X5: a completed [loadVoxelChunk] appends exactly one render chunk, at the
    chunk's position and height and without draw calls, and leaves the
    earlier render chunks, the chasm wall table and the draw call cache as
    they were. A lookup of the position finds the new render chunk only if
    none was at that position before, and a refresh of the draw call list
    yields what it yielded before the load. *)
Theorem load_appends_empty_render_chunk (K : Constants)
  (this this' : RenderChunkManager.t) (chunk : VoxelChunk) (ceilingScale : double)
  (textureManager : TextureManager) (w w' : World) :
  RenderChunkManager.loadVoxelChunk K this chunk ceilingScale textureManager w
  = Ok (this', w') ->
  exists renderChunk,
    RenderChunkManager.renderChunks this'
    = RenderChunkManager.renderChunks this ++ [renderChunk]
    /\ RenderChunk.position renderChunk = getPosition chunk
    /\ RenderChunk.height renderChunk = getHeight chunk
    /\ drawCallsOfChunk renderChunk = []
    /\ RenderChunkManager.chasmWallIndexBufferIDs this'
       = RenderChunkManager.chasmWallIndexBufferIDs this
    /\ RenderChunkManager.getVoxelDrawCalls this' = RenderChunkManager.getVoxelDrawCalls this
    /\ RenderChunkManager.tryGetRenderChunkIndex this' (getPosition chunk)
       = Some (match RenderChunkManager.tryGetRenderChunkIndex this (getPosition chunk) with
               | Some i => i
               | None => Z.of_nat (length (RenderChunkManager.renderChunks this))
               end)
    /\ RenderChunkManager.getVoxelDrawCalls
         (RenderChunkManager.rebuildVoxelDrawCallsList this')
       = RenderChunkManager.getVoxelDrawCalls
           (RenderChunkManager.rebuildVoxelDrawCallsList this).
Proof.
  unfold RenderChunkManager.loadVoxelChunk. intros H.
  destruct (RenderChunkManager.loadVoxelTextures this chunk textureManager w)
    as [[this1 w1] |] eqn:Ht; [| discriminate].
  destruct (loadVoxelTextures_extends _ _ _ _ _ _ Ht) as (_ & _ & _ & Hrc & Htable).
  assert (Hcache : RenderChunkManager.drawCallsCache this1
                   = RenderChunkManager.drawCallsCache this).
  { unfold RenderChunkManager.loadVoxelTextures in Ht.
    destruct (fold_left _ _ _) as [textures w0] in Ht.
    destruct (foldResult _ _ _) as [[[lists keys] w2] |] in Ht; [| discriminate].
    injection Ht as <- _. reflexivity. }
  destruct (RenderChunkManager.loadVoxelMeshBuffers K _ chunk ceilingScale w1)
    as [rc1 w2] eqn:Hm.
  destruct (RenderChunkManager.loadVoxelChasmWalls K this1 rc1 chunk) as [rc2 |] eqn:Hw;
    [| discriminate].
  injection H as <- <-.
  pose proof (loadVoxelMeshBuffers_position K
                (RenderChunk.init K (getPosition chunk) (getHeight chunk))
                chunk ceilingScale w1) as Hp1.
  destruct (loadVoxelMeshBuffers_calls K
              (RenderChunk.init K (getPosition chunk) (getHeight chunk))
              chunk ceilingScale w1) as (Hc1 & Hh1 & _).
  rewrite Hm in Hp1, Hc1, Hh1. cbn [fst] in Hp1, Hc1, Hh1.
  pose proof (loadVoxelChasmWalls_position _ _ _ _ _ Hw) as Hp2.
  destruct (loadVoxelChasmWalls_calls _ _ _ _ _ Hw) as (Hc2 & Hh2).
  assert (Hpos : RenderChunk.position rc2 = getPosition chunk) by (rewrite Hp2, Hp1; reflexivity).
  assert (Hcalls : drawCallsOfChunk rc2 = []) by (rewrite Hc2, Hc1; reflexivity).
  exists rc2.
  cbn [RenderChunkManager.renderChunks RenderChunkManager.withRenderChunks
       RenderChunkManager.chasmWallIndexBufferIDs RenderChunkManager.getVoxelDrawCalls
       RenderChunkManager.drawCallsCache].
  rewrite Hrc.
  split; [reflexivity |]. split; [exact Hpos |].
  split; [rewrite Hh2, Hh1; reflexivity |].
  split; [exact Hcalls |]. split; [exact Htable |]. split; [exact Hcache |].
  split.
  - unfold RenderChunkManager.tryGetRenderChunkIndex, findIndex.
    cbn [RenderChunkManager.renderChunks RenderChunkManager.withRenderChunks].
    destruct (findIndexFrom _ (RenderChunkManager.renderChunks this) 0) as [i |] eqn:Ei.
    + now apply findIndexFrom_app_found.
    + rewrite (findIndexFrom_last _ _ rc2 0 Ei) by now apply position_eqb.
      reflexivity.
  - unfold RenderChunkManager.rebuildVoxelDrawCallsList.
    cbn [RenderChunkManager.renderChunks RenderChunkManager.withRenderChunks
         RenderChunkManager.getVoxelDrawCalls RenderChunkManager.drawCallsCache].
    apply (flat_map_calls_app _ rc2 Hcalls).
Qed.

Lemma load_appends_empty_render_chunk_witness :
  exists renderChunk,
    RenderChunkManager.renderChunks
      (fst (Samples.loaded Samples.wallChunk
              [Samples.asset "side"; Samples.asset "bottom"; Samples.asset "top"]))
    = RenderChunkManager.renderChunks (fst Samples.started) ++ [renderChunk]
    /\ RenderChunk.position renderChunk = getPosition Samples.wallChunk
    /\ drawCallsOfChunk renderChunk = [].
Proof.
  destruct (load_appends_empty_render_chunk Samples.arena (fst Samples.started)
              (fst (Samples.loaded Samples.wallChunk
                      [Samples.asset "side"; Samples.asset "bottom"; Samples.asset "top"]))
              Samples.wallChunk 1%Q
              (Samples.textureManagerOf
                 [Samples.asset "side"; Samples.asset "bottom"; Samples.asset "top"])
              (snd Samples.started)
              (snd (Samples.loaded Samples.wallChunk
                      [Samples.asset "side"; Samples.asset "bottom"; Samples.asset "top"])))
    as (rc & Hrc & Hpos & _ & Hcalls & _).
  - vm_compute. reflexivity.
  - exists rc. split; [exact Hrc |]. split; [exact Hpos | exact Hcalls].
Defined.

(** X6: [unloadVoxelChunk] removes the first render chunk at the position and
    nothing else: the render chunks before and after it keep their order, the
    texture caches, the chasm wall table, the draw call cache and the debug
    log stay as they are, and the backend is the one left by freeing that
    render chunk's buffers. When no render chunk is at the position, the
    manager and the world are returned unchanged. *)
Theorem unload_removes_first_render_chunk (this : RenderChunkManager.t)
  (chunkPos : ChunkInt2) (w : World) :
  match RenderChunkManager.tryGetRenderChunkIndex this chunkPos with
  | None => RenderChunkManager.unloadVoxelChunk this chunkPos w = (this, w)
  | Some i =>
      exists before renderChunk after,
        RenderChunkManager.renderChunks this = before ++ renderChunk :: after
        /\ i = Z.of_nat (length before)
        /\ RenderChunk.position renderChunk = chunkPos
        /\ (forall rc', In rc' before -> RenderChunk.position rc' <> chunkPos)
        /\ RenderChunkManager.unloadVoxelChunk this chunkPos w
           = (RenderChunkManager.withRenderChunks (before ++ after) this,
              withRenderer (snd (RenderChunk.freeBuffers renderChunk (renderer w))) w)
  end.
Proof.
  destruct (RenderChunkManager.tryGetRenderChunkIndex this chunkPos) as [i |] eqn:E.
  - destruct (lookup_split _ _ _ E) as (before & rc & after & Hl & Hi & Hrc & Hbefore).
    exists before, rc, after. repeat split; try assumption.
    unfold RenderChunkManager.unloadVoxelChunk.
    unfold RenderChunkManager.tryGetRenderChunkIndex in E. rewrite E.
    rewrite Hl, Hi, at_middle, Nat2Z.id, eraseAt_middle.
    destruct (RenderChunk.freeBuffers rc (renderer w)) as [rcF rF]. reflexivity.
  - unfold RenderChunkManager.unloadVoxelChunk.
    unfold RenderChunkManager.tryGetRenderChunkIndex in E. now rewrite E.
Qed.

(** X7: the draw call list after an unload. Refreshed before the unload, the
    list holds the draw calls of the unloaded render chunk between those of
    the render chunks before and after it; refreshed after the unload, it
    holds the same calls without that segment. The unload itself does not
    refresh the list: until [rebuildVoxelDrawCallsList] runs,
    [getVoxelDrawCalls] returns what it returned before. *)
Theorem unload_then_refresh_drops_calls (this : RenderChunkManager.t)
  (chunkPos : ChunkInt2) (w : World) (i : Z) (renderChunk : RenderChunk.t) :
  RenderChunkManager.tryGetRenderChunkIndex this chunkPos = Some i ->
  at_ (RenderChunkManager.renderChunks this) i = Some renderChunk ->
  let unloaded := fst (RenderChunkManager.unloadVoxelChunk this chunkPos w) in
  RenderChunkManager.getVoxelDrawCalls unloaded = RenderChunkManager.getVoxelDrawCalls this
  /\ exists callsBefore callsAfter,
       RenderChunkManager.getVoxelDrawCalls
         (RenderChunkManager.rebuildVoxelDrawCallsList this)
       = callsBefore ++ drawCallsOfChunk renderChunk ++ callsAfter
       /\ RenderChunkManager.getVoxelDrawCalls
            (RenderChunkManager.rebuildVoxelDrawCallsList unloaded)
          = callsBefore ++ callsAfter.
Proof.
  intros E Hat unloaded. subst unloaded.
  destruct (lookup_split _ _ _ E) as (before & rc & after & Hl & Hi & Hrc & Hbefore).
  assert (Heq : rc = renderChunk).
  { rewrite Hl, Hi, at_middle in Hat. now injection Hat. }
  subst rc.
  unfold RenderChunkManager.unloadVoxelChunk.
  unfold RenderChunkManager.tryGetRenderChunkIndex in E. rewrite E.
  rewrite Hl, Hi, at_middle, Nat2Z.id, eraseAt_middle.
  destruct (RenderChunk.freeBuffers renderChunk (renderer w)) as [rcF rF].
  cbn [fst]. split; [reflexivity |].
  exists (flat_map drawCallsOfChunk before), (flat_map drawCallsOfChunk after).
  unfold RenderChunkManager.rebuildVoxelDrawCallsList.
  cbn [RenderChunkManager.renderChunks RenderChunkManager.withRenderChunks
       RenderChunkManager.getVoxelDrawCalls RenderChunkManager.drawCallsCache].
  rewrite Hl. split.
  - change (flat_map drawCallsOfChunk (before ++ renderChunk :: after)
            = flat_map drawCallsOfChunk before ++ drawCallsOfChunk renderChunk
              ++ flat_map drawCallsOfChunk after).
    now rewrite flat_map_app.
  - change (flat_map drawCallsOfChunk (before ++ after)
            = flat_map drawCallsOfChunk before ++ flat_map drawCallsOfChunk after).
    apply flat_map_app.
Qed.

Lemma unload_then_refresh_drops_calls_witness :
  let this := Samples.rebuilt Samples.wallChunk true true
                (fst (Samples.loaded Samples.wallChunk
                        [Samples.asset "side"; Samples.asset "bottom"; Samples.asset "top"])) in
  RenderChunkManager.getVoxelDrawCalls
    (fst (RenderChunkManager.unloadVoxelChunk this (0, 0) (snd Samples.started)))
  = RenderChunkManager.getVoxelDrawCalls this.
Proof.
  intros this.
  exact (proj1 (unload_then_refresh_drops_calls this (0, 0) (snd Samples.started) 0
                  (hd (RenderChunk.init Samples.arena (0, 0) 1)
                     (RenderChunkManager.renderChunks this))
                  ltac:(vm_compute; reflexivity) ltac:(vm_compute; reflexivity))).
Defined.

(** ** What a rebuild of the draw calls leaves alone *)

Lemma setAt_middle {A : Type} (before after : list A) (old x : A) :
  setAt (before ++ old :: after) (length before) x = before ++ x :: after.
Proof.
  induction before as [| a rest IH]; cbn; [reflexivity | now rewrite IH].
Qed.

Lemma within_noVector (e : Emitted) : within noVector e -> e = noCalls.
Proof.
  intros H. destruct e as [s d c f].
  pose proof (H StaticDrawCalls eq_refl) as Hs. pose proof (H DoorDrawCalls eq_refl) as Hd.
  pose proof (H ChasmDrawCalls eq_refl) as Hc. pose proof (H FadingDrawCalls eq_refl) as Hf.
  cbn in Hs, Hd, Hc, Hf. now subst.
Qed.

(** A rebuild, from what the assembler emits for the render chunk. *)
Lemma rebuild_run (K : Constants) (this : RenderChunkManager.t) (voxelChunk : VoxelChunk)
  (ceilingScale chasmAnimPercent : double) (updateStatics updateAnimating : bool)
  (log : DebugLog) (before after : list RenderChunk.t) (renderChunk : RenderChunk.t) :
  RenderChunkManager.renderChunks this = before ++ renderChunk :: after ->
  RenderChunkManager.tryGetRenderChunkIndex this (getPosition voxelChunk)
  = Some (Z.of_nat (length before)) ->
  match emitted (RenderChunkManager.loadVoxelDrawCalls K this voxelChunk ceilingScale
                   chasmAnimPercent updateStatics updateAnimating) (renderChunk, log) with
  | Some (_, e) =>
      exists renderChunk' log',
        RenderChunkManager.rebuildVoxelChunkDrawCalls K this voxelChunk ceilingScale
          chasmAnimPercent updateStatics updateAnimating log
        = Ok (RenderChunkManager.withRenderChunks (before ++ renderChunk' :: after) this,
              log')
        /\ cleared (renderChunk', log') = cleared (renderChunk, log)
        /\ callsOf (renderChunk', log')
           = appendCalls
               (callsOf (RenderChunkManager.clearDrawCalls updateStatics updateAnimating
                           renderChunk, log)) e
  | None =>
      exists f,
        RenderChunkManager.rebuildVoxelChunkDrawCalls K this voxelChunk ceilingScale
          chasmAnimPercent updateStatics updateAnimating log = Fatal f
  end.
Proof.
  intros Hl Hindex. unfold RenderChunkManager.rebuildVoxelChunkDrawCalls.
  rewrite Hindex, Hl, at_middle, Nat2Z.id.
  pose proof (Appends_run anyVector _
                (RenderChunkManager.clearDrawCalls updateStatics updateAnimating renderChunk,
                 log)
                (loadVoxelDrawCalls_Appends K this voxelChunk ceilingScale chasmAnimPercent
                   updateStatics updateAnimating)) as Hrun.
  rewrite (emitted_cleared _
             (RenderChunkManager.clearDrawCalls updateStatics updateAnimating renderChunk, log)
             (renderChunk, log) eq_refl) in Hrun.
  destruct (emitted _ (renderChunk, log)) as [[u e] |].
  - destruct Hrun as (_ & [rc' log'] & Hrun & Hcl & Hcalls).
    exists rc', log'. rewrite Hrun, setAt_middle. repeat split; assumption.
  - destruct Hrun as [f Hf]. exists f. now rewrite Hf.
Qed.

Lemma cleared_fields (rc rc' : RenderChunk.t) (log log' : DebugLog) :
  cleared (rc', log') = cleared (rc, log) ->
  RenderChunk.position rc' = RenderChunk.position rc
  /\ RenderChunk.height rc' = RenderChunk.height rc
  /\ RenderChunk.meshDefs rc' = RenderChunk.meshDefs rc
  /\ RenderChunk.meshDefMappings rc' = RenderChunk.meshDefMappings rc
  /\ RenderChunk.chasmWallIndexBufferIDs rc' = RenderChunk.chasmWallIndexBufferIDs rc.
Proof.
  intros H. unfold cleared in H. cbn [fst] in H. injection H as Hp Hh Hd Hm _ _ _ Hw.
  repeat split; assumption.
Qed.

(** X8: a completed rebuild changes one render chunk at most, the first one
    at the chunk's position, and in it only the draw call vectors and the
    mesh id grid: its position, height, mesh definitions, mesh mappings and
    chasm wall buffers stay, as do the other render chunks, the texture
    caches, the chasm wall table and the draw call cache, which is not
    refreshed. *)
Theorem rebuild_changes_one_render_chunk (K : Constants) (this this' : RenderChunkManager.t)
  (voxelChunk : VoxelChunk) (ceilingScale chasmAnimPercent : double)
  (updateStatics updateAnimating : bool) (log log' : DebugLog) :
  RenderChunkManager.rebuildVoxelChunkDrawCalls K this voxelChunk ceilingScale
    chasmAnimPercent updateStatics updateAnimating log = Ok (this', log') ->
  RenderChunkManager.voxelTextures this' = RenderChunkManager.voxelTextures this
  /\ RenderChunkManager.chasmFloorTextureLists this'
     = RenderChunkManager.chasmFloorTextureLists this
  /\ RenderChunkManager.chasmTextureKeys this' = RenderChunkManager.chasmTextureKeys this
  /\ RenderChunkManager.chasmWallIndexBufferIDs this'
     = RenderChunkManager.chasmWallIndexBufferIDs this
  /\ RenderChunkManager.getVoxelDrawCalls this' = RenderChunkManager.getVoxelDrawCalls this
  /\ match RenderChunkManager.tryGetRenderChunkIndex this (getPosition voxelChunk) with
     | None => RenderChunkManager.renderChunks this' = RenderChunkManager.renderChunks this
     | Some i =>
         exists before renderChunk renderChunk' after,
           RenderChunkManager.renderChunks this = before ++ renderChunk :: after
           /\ i = Z.of_nat (length before)
           /\ RenderChunkManager.renderChunks this' = before ++ renderChunk' :: after
           /\ RenderChunk.position renderChunk' = RenderChunk.position renderChunk
           /\ RenderChunk.height renderChunk' = RenderChunk.height renderChunk
           /\ RenderChunk.meshDefs renderChunk' = RenderChunk.meshDefs renderChunk
           /\ RenderChunk.meshDefMappings renderChunk'
              = RenderChunk.meshDefMappings renderChunk
           /\ RenderChunk.chasmWallIndexBufferIDs renderChunk'
              = RenderChunk.chasmWallIndexBufferIDs renderChunk
     end.
Proof.
  intros H.
  destruct (RenderChunkManager.tryGetRenderChunkIndex this (getPosition voxelChunk))
    as [i |] eqn:Hindex.
  - destruct (lookup_split _ _ _ Hindex) as (before & rc & after & Hl & Hi & _ & _).
    subst i.
    pose proof (rebuild_run K this voxelChunk ceilingScale chasmAnimPercent updateStatics
                  updateAnimating log before after rc Hl Hindex) as Hrun.
    destruct (emitted _ (rc, log)) as [[u e] |].
    + destruct Hrun as (rc' & logR & Hrun & Hcl & _).
      rewrite Hrun in H. injection H as <- <-.
      destruct (cleared_fields _ _ _ _ Hcl) as (Hp & Hh & Hd & Hm & Hw).
      cbn [RenderChunkManager.voxelTextures RenderChunkManager.chasmFloorTextureLists
           RenderChunkManager.chasmTextureKeys RenderChunkManager.chasmWallIndexBufferIDs
           RenderChunkManager.getVoxelDrawCalls RenderChunkManager.drawCallsCache
           RenderChunkManager.renderChunks RenderChunkManager.withRenderChunks].
      repeat (split; [reflexivity |]).
      exists before, rc, rc', after. repeat split; assumption.
    + destruct Hrun as [f Hf]. rewrite Hf in H. discriminate H.
  - unfold RenderChunkManager.rebuildVoxelChunkDrawCalls in H. rewrite Hindex in H.
    injection H as <- <-. repeat split.
Qed.

Lemma rebuild_changes_one_render_chunk_witness :
  let this := fst (Samples.loaded Samples.wallChunk
                     [Samples.asset "side"; Samples.asset "bottom"; Samples.asset "top"]) in
  RenderChunkManager.getVoxelDrawCalls (Samples.rebuilt Samples.wallChunk true true this)
  = RenderChunkManager.getVoxelDrawCalls this.
Proof.
  intros this.
  exact (proj1 (proj2 (proj2 (proj2 (proj2
           (rebuild_changes_one_render_chunk Samples.arena this
              (Samples.rebuilt Samples.wallChunk true true this) Samples.wallChunk
              1%Q 0%Q true true [] [] ltac:(vm_compute; reflexivity))))))).
Defined.

(** The vectors one voxel adds nothing to, by update flag. *)
Lemma voxelDrawCalls_untouched (K : Constants) (this : RenderChunkManager.t)
  (chunk : VoxelChunk) (ceilingScale chasmAnimPercent : double)
  (updateStatics updateAnimating : bool) (chunkPos : ChunkInt2) (x y z : nat)
  (renderMeshDef : RenderVoxelMeshDefinition.t) (st : RenderChunkManager.DrawState)
  (u : unit) (e : Emitted) :
  emitted (RenderChunkManager.voxelDrawCalls K this chunk ceilingScale chasmAnimPercent
             updateStatics updateAnimating chunkPos (x, y, z) renderMeshDef) st
  = Some (u, e) ->
  (updateAnimating = false -> toFading e = [])
  /\ (updateAnimating = false -> tryGetDoorDefID chunk x y z = None -> toDoor e = [])
  /\ (updateAnimating = false ->
      (traitsUnion (getTraitsDef chunk (getTraitsDefID chunk x y z)) = TraitsChasm Dry ->
       find (fun kv => VoxelInt3_eqb (fst kv) (x, y, z))
         (RenderChunk.chasmWallIndexBufferIDs (fst st)) = None) ->
      toChasm e = [])
  /\ (updateStatics = false ->
      (tryGetDoorDefID chunk x y z <> None ->
       RenderVoxelMeshDefinition.opaqueIndexBufferIdCount renderMeshDef <= 0) ->
      toStatic e = [])
  /\ (updateStatics = false -> updateAnimating = false -> e = noCalls).
Proof.
  intros H. apply voxelDrawCalls_blocks in H. cbn zeta in H.
  destruct H as (eO & eA & eW & -> & HwO & HgO & HcO & HwA & HgA & HwW & HgW & HoW & HfW).
  assert (HeW : updateAnimating = false ->
                (traitsUnion (getTraitsDef chunk (getTraitsDefID chunk x y z))
                 = TraitsChasm Dry ->
                 find (fun kv => VoxelInt3_eqb (fst kv) (x, y, z))
                   (RenderChunk.chasmWallIndexBufferIDs (fst st)) = None) ->
                eW = noCalls).
  { intros -> Hdry.
    destruct (traitsUnion (getTraitsDef chunk (getTraitsDefID chunk x y z)))
      as [| | | | | chasmType] eqn:Htraits;
      try (apply HoW; intros chasmType'; discriminate).
    destruct chasmType.
    - apply HfW, Hdry. reflexivity.
    - apply (HgW Wet eq_refl). now destruct updateStatics.
    - apply (HgW Lava eq_refl). now destruct updateStatics. }
  assert (HeWff : updateStatics = false -> updateAnimating = false -> eW = noCalls).
  { intros -> ->.
    destruct (traitsUnion (getTraitsDef chunk (getTraitsDefID chunk x y z)))
      as [| | | | | chasmType] eqn:Htraits;
      try (apply HoW; intros chasmType'; discriminate).
    apply (HgW chasmType eq_refl). now destruct chasmType. }
  destruct (tryGetDoorDefID chunk x y z) as [doorDefID |];
    destruct (tryGetChasmDefID chunk x y z) as [chasmDefID |];
    destruct (tryGetFadeAnimInst chunk x y z) as [fade |];
    cbn [isSome orb negb andb opaqueTarget alphaTestedTarget] in *.
  all: unfold appendCalls; cbn [toStatic toDoor toChasm toFading].
  all: pose proof (within_one_vector _ StaticDrawCalls _ HwO) as HOs;
    pose proof (within_one_vector _ DoorDrawCalls _ HwO) as HOd;
    pose proof (within_one_vector _ ChasmDrawCalls _ HwO) as HOc;
    pose proof (within_one_vector _ FadingDrawCalls _ HwO) as HOf;
    pose proof (within_one_vector _ StaticDrawCalls _ HwA) as HAs;
    pose proof (within_one_vector _ DoorDrawCalls _ HwA) as HAd;
    pose proof (within_one_vector _ ChasmDrawCalls _ HwA) as HAc;
    pose proof (within_one_vector _ FadingDrawCalls _ HwA) as HAf;
    pose proof (within_one_vector _ StaticDrawCalls _ HwW eq_refl) as HWs;
    pose proof (within_one_vector _ DoorDrawCalls _ HwW eq_refl) as HWd;
    pose proof (within_one_vector _ FadingDrawCalls _ HwW eq_refl) as HWf;
    cbn [DrawCallList_eqb callsIn] in *.
  all: repeat split.
  all: intros; subst;
    rewrite ?andb_false_r, ?andb_true_r, ?orb_false_r in *;
    cbn [orb andb negb] in *.
  all: repeat match goal with
              | Hx : ?a = ?a -> _ |- _ => specialize (Hx eq_refl)
              | Hx : Some _ <> None -> _ |- _ =>
                  specialize (Hx ltac:(discriminate))
              | Hx : _ <= 0 -> _ = noCalls, Hy : _ <= 0 |- _ => specialize (Hx Hy)
              | Hx : (_ -> find _ _ = None) -> _, Hy : _ -> find _ _ = None |- _ =>
                  specialize (Hx Hy)
              end.
  all: subst; cbn [toStatic toDoor toChasm toFading noCalls app];
    rewrite ?HOs, ?HOd, ?HOc, ?HOf, ?HAs, ?HAd, ?HAc, ?HAf, ?HWs, ?HWd, ?HWf;
    try reflexivity; try congruence.
Qed.

(** The vectors a run of [loadVoxelDrawCalls] adds nothing to, by update
    flag. *)
Lemma loadVoxelDrawCalls_untouched (K : Constants) (this : RenderChunkManager.t)
  (chunk : VoxelChunk) (ceilingScale chasmAnimPercent : double)
  (updateStatics updateAnimating : bool) (st : RenderChunkManager.DrawState)
  (u : unit) (e : Emitted) :
  emitted (RenderChunkManager.loadVoxelDrawCalls K this chunk ceilingScale
             chasmAnimPercent updateStatics updateAnimating) st = Some (u, e) ->
  (updateAnimating = false -> toFading e = [])
  /\ (updateAnimating = false -> noDoors chunk -> toDoor e = [])
  /\ (updateAnimating = false -> noDryChasmWalls chunk (fst st) -> toChasm e = [])
  /\ (updateStatics = false -> doorsHaveNoOpaqueBuffers chunk (fst st) -> toStatic e = [])
  /\ (updateStatics = false -> updateAnimating = false -> e = noCalls).
Proof.
  rewrite emitted_loadVoxelDrawCalls.
  destruct (emitted (forEach _ _) st) as [[u' e'] |] eqn:Eloop; [| discriminate].
  intros H. rewrite !appendCalls_noCalls_l in H. injection H as _ <-.
  revert u' e' Eloop.
  apply (emitted_forEach_all
           (fun e =>
              (updateAnimating = false -> toFading e = [])
              /\ (updateAnimating = false -> noDoors chunk -> toDoor e = [])
              /\ (updateAnimating = false -> noDryChasmWalls chunk (fst st) ->
                  toChasm e = [])
              /\ (updateStatics = false -> doorsHaveNoOpaqueBuffers chunk (fst st) ->
                  toStatic e = [])
              /\ (updateStatics = false -> updateAnimating = false -> e = noCalls))).
  - repeat split.
  - intros a b (Ha1 & Ha2 & Ha3 & Ha4 & Ha5) (Hb1 & Hb2 & Hb3 & Hb4 & Hb5).
    unfold appendCalls. cbn [toStatic toDoor toChasm toFading].
    repeat split; intros.
    + now rewrite Ha1, Hb1.
    + now rewrite Ha2, Hb2.
    + now rewrite Ha3, Hb3.
    + now rewrite Ha4, Hb4.
    + now rewrite Ha5, Hb5.
  - intros voxel. apply loadVoxelDrawCallsAt_Appends.
  - intros [[x y] z] u' e' _ Hv.
    apply loadVoxelDrawCallsAt_emitted in Hv.
    destruct Hv as [[_ ->] | (k & id & rmd & _ & Hfind & Hat & Hv)];
      [repeat split |].
    apply voxelDrawCalls_untouched in Hv.
    destruct Hv as (H1 & H2 & H3 & H4 & H5).
    repeat split; intros.
    + now apply H1.
    + now apply H2.
    + apply H3; [assumption |]. intros Hdry.
      match goal with Hn : noDryChasmWalls _ _ |- _ => apply (Hn x y z Hdry) end.
    + apply H4; [assumption |]. intros Hdoor.
      match goal with
      | Hn : doorsHaveNoOpaqueBuffers _ _ |- _ => apply (Hn x y z k id rmd Hdoor Hfind Hat)
      end.
    + now apply H5.
Qed.

(** X9: the vectors a completed rebuild leaves as they were. With
    [updateAnimating] off the fading vector stays, the door vector stays in a
    chunk without doors and the chasm vector stays when no dry chasm has a
    wall index buffer; with [updateStatics] off the static vector stays when
    the door voxels are drawn with meshes without opaque index buffers; with
    both flags off all four vectors stay. *)
Theorem partial_rebuild_keeps_vectors (K : Constants) (this this' : RenderChunkManager.t)
  (voxelChunk : VoxelChunk) (ceilingScale chasmAnimPercent : double)
  (updateStatics updateAnimating : bool) (log log' : DebugLog) (index : Z)
  (renderChunk : RenderChunk.t) :
  RenderChunkManager.tryGetRenderChunkIndex this (getPosition voxelChunk) = Some index ->
  at_ (RenderChunkManager.renderChunks this) index = Some renderChunk ->
  RenderChunkManager.rebuildVoxelChunkDrawCalls K this voxelChunk ceilingScale
    chasmAnimPercent updateStatics updateAnimating log = Ok (this', log') ->
  exists renderChunk',
    at_ (RenderChunkManager.renderChunks this') index = Some renderChunk'
    /\ (updateAnimating = false ->
        RenderChunk.fadingDrawCalls renderChunk' = RenderChunk.fadingDrawCalls renderChunk)
    /\ (updateAnimating = false -> noDoors voxelChunk ->
        RenderChunk.doorDrawCalls renderChunk' = RenderChunk.doorDrawCalls renderChunk)
    /\ (updateAnimating = false -> noDryChasmWalls voxelChunk renderChunk ->
        RenderChunk.chasmDrawCalls renderChunk' = RenderChunk.chasmDrawCalls renderChunk)
    /\ (updateStatics = false -> doorsHaveNoOpaqueBuffers voxelChunk renderChunk ->
        RenderChunk.staticDrawCalls renderChunk' = RenderChunk.staticDrawCalls renderChunk)
    /\ (updateStatics = false -> updateAnimating = false ->
        drawCallsOfChunk renderChunk' = drawCallsOfChunk renderChunk).
Proof.
  intros Hindex Hat H.
  destruct (lookup_split _ _ _ Hindex) as (before & rc & after & Hl & Hi & _ & _).
  subst index. rewrite Hl, at_middle in Hat. injection Hat as ->.
  pose proof (rebuild_run K this voxelChunk ceilingScale chasmAnimPercent updateStatics
                updateAnimating log before after renderChunk Hl Hindex) as Hrun.
  destruct (emitted _ (renderChunk, log)) as [[u e] |] eqn:Ee.
  2:{ destruct Hrun as [f Hf]. rewrite Hf in H. discriminate H. }
  destruct Hrun as (rc' & logR & Hrun & _ & Hcalls).
  rewrite Hrun in H. injection H as <- <-.
  exists rc'.
  cbn [RenderChunkManager.renderChunks RenderChunkManager.withRenderChunks].
  split; [apply at_middle |].
  apply loadVoxelDrawCalls_untouched in Ee. cbn [fst] in Ee.
  destruct Ee as (H1 & H2 & H3 & H4 & H5).
  apply (f_equal toStatic) in Hcalls as Hs. apply (f_equal toDoor) in Hcalls as Hd.
  apply (f_equal toChasm) in Hcalls as Hc. apply (f_equal toFading) in Hcalls as Hf.
  cbn in Hs, Hd, Hc, Hf.
  repeat split; intros; subst.
  - rewrite Hf, H1, app_nil_r; reflexivity.
  - rewrite Hd, H2, app_nil_r; trivial.
  - rewrite Hc, H3, app_nil_r; trivial.
  - rewrite Hs, H4, app_nil_r; trivial.
  - unfold drawCallsOfChunk. rewrite Hs, Hd, Hc, Hf, (H5 eq_refl eq_refl).
    cbn. now rewrite !app_nil_r.
Qed.

Lemma partial_rebuild_keeps_vectors_witness :
  let this := Samples.rebuilt Samples.doorChunk true true
                (fst (Samples.loaded Samples.doorChunk [Samples.asset "door"])) in
  let renderChunk := hd (RenderChunk.init Samples.arena (0, 0) 1)
                       (RenderChunkManager.renderChunks this) in
  exists renderChunk',
    at_ (RenderChunkManager.renderChunks (Samples.rebuilt Samples.doorChunk false true this))
      0 = Some renderChunk'
    /\ RenderChunk.staticDrawCalls renderChunk' = RenderChunk.staticDrawCalls renderChunk.
Proof.
  intros this renderChunk.
  destruct (partial_rebuild_keeps_vectors Samples.arena this
              (Samples.rebuilt Samples.doorChunk false true this) Samples.doorChunk
              1%Q 0%Q false true [] [] 0 renderChunk)
    as (rc' & Hat & _ & _ & _ & Hstatic & _).
  - vm_compute. reflexivity.
  - vm_compute. reflexivity.
  - vm_compute. reflexivity.
  - exists rc'. split; [exact Hat |]. apply Hstatic; [reflexivity |].
    intros x y z k id d Hdoor Hfind Hd.
    destruct x as [| x]; [destruct y as [| y]; [destruct z as [| z] |] |];
      try (contradiction Hdoor; reflexivity).
    vm_compute in Hfind. injection Hfind as <- <-.
    vm_compute in Hd. injection Hd as <-. vm_compute. discriminate.
Defined.

(** The lookup and the render chunk after the render chunk found for a
    position is replaced by one at the same position. *)
Lemma lookup_after_replace (this : RenderChunkManager.t) (chunkPos : ChunkInt2)
  (before after : list RenderChunk.t) (rc rc' : RenderChunk.t) :
  RenderChunkManager.renderChunks this = before ++ rc :: after ->
  RenderChunkManager.tryGetRenderChunkIndex this chunkPos
  = Some (Z.of_nat (length before)) ->
  RenderChunk.position rc' = RenderChunk.position rc ->
  RenderChunkManager.tryGetRenderChunkIndex
    (RenderChunkManager.withRenderChunks (before ++ rc' :: after) this) chunkPos
  = Some (Z.of_nat (length before)).
Proof.
  intros Hl Hindex Hpos.
  unfold RenderChunkManager.tryGetRenderChunkIndex, findIndex in *.
  cbn [RenderChunkManager.renderChunks RenderChunkManager.withRenderChunks].
  rewrite Hl in Hindex. rewrite <- (setAt_middle before after rc rc').
  rewrite (findIndexFrom_setAt _ _ _ rc rc' 0); [exact Hindex | | now rewrite Hpos].
  rewrite nth_error_app2 by lia. now rewrite Nat.sub_diag.
Qed.

(** X10: a rebuild with both flags set forgets what earlier rebuilds left in
    the vectors: after any completed rebuild of the chunk, whatever its
    flags, a rebuild with both flags completes whenever it completes without
    that earlier rebuild, and leaves the same four vectors. In particular
    rebuilding twice with both flags gives the vectors of rebuilding once. *)
Theorem full_rebuild_forgets_earlier_calls (K : Constants)
  (this earlier both : RenderChunkManager.t) (voxelChunk : VoxelChunk)
  (ceilingScale chasmAnimPercent : double) (updateStatics updateAnimating : bool)
  (log earlierLog bothLog : DebugLog) (index : Z) :
  RenderChunkManager.tryGetRenderChunkIndex this (getPosition voxelChunk) = Some index ->
  RenderChunkManager.rebuildVoxelChunkDrawCalls K this voxelChunk ceilingScale
    chasmAnimPercent updateStatics updateAnimating log = Ok (earlier, earlierLog) ->
  RenderChunkManager.rebuildVoxelChunkDrawCalls K this voxelChunk ceilingScale
    chasmAnimPercent true true log = Ok (both, bothLog) ->
  exists again againLog renderChunkBoth renderChunkAgain,
    RenderChunkManager.rebuildVoxelChunkDrawCalls K earlier voxelChunk ceilingScale
      chasmAnimPercent true true earlierLog = Ok (again, againLog)
    /\ at_ (RenderChunkManager.renderChunks both) index = Some renderChunkBoth
    /\ at_ (RenderChunkManager.renderChunks again) index = Some renderChunkAgain
    /\ RenderChunk.staticDrawCalls renderChunkAgain
       = RenderChunk.staticDrawCalls renderChunkBoth
    /\ RenderChunk.doorDrawCalls renderChunkAgain = RenderChunk.doorDrawCalls renderChunkBoth
    /\ RenderChunk.chasmDrawCalls renderChunkAgain
       = RenderChunk.chasmDrawCalls renderChunkBoth
    /\ RenderChunk.fadingDrawCalls renderChunkAgain
       = RenderChunk.fadingDrawCalls renderChunkBoth.
Proof.
  intros Hindex Hearlier Hboth.
  destruct (lookup_split _ _ _ Hindex) as (before & rc & after & Hl & Hi & _ & _).
  subst index.
  (* the earlier rebuild *)
  pose proof (rebuild_run K this voxelChunk ceilingScale chasmAnimPercent updateStatics
                updateAnimating log before after rc Hl Hindex) as Hrun1.
  destruct (emitted _ (rc, log)) as [[u1 e1] |] in Hrun1.
  2:{ destruct Hrun1 as [f Hf]. rewrite Hf in Hearlier. discriminate Hearlier. }
  destruct Hrun1 as (rc1 & log1 & Hrun1 & Hcl1 & _).
  rewrite Hrun1 in Hearlier. injection Hearlier as <- <-.
  (* the rebuild with both flags *)
  pose proof (rebuild_run K this voxelChunk ceilingScale chasmAnimPercent true true
                log before after rc Hl Hindex) as HrunB.
  destruct (emitted _ (rc, log)) as [[uB eB] |] eqn:EB in HrunB.
  2:{ destruct HrunB as [f Hf]. rewrite Hf in Hboth. discriminate Hboth. }
  destruct HrunB as (rcB & logB & HrunB & _ & HcallsB).
  rewrite HrunB in Hboth. injection Hboth as <- <-.
  (* the rebuild with both flags after the earlier one *)
  destruct (cleared_fields _ _ _ _ Hcl1) as (Hpos & _).
  pose proof (rebuild_run K
                (RenderChunkManager.withRenderChunks (before ++ rc1 :: after) this)
                voxelChunk ceilingScale chasmAnimPercent true true log1 before after rc1
                eq_refl (lookup_after_replace _ _ _ _ _ _ Hl Hindex Hpos)) as HrunA.
  rewrite loadVoxelDrawCalls_withRenderChunks in HrunA.
  rewrite (emitted_cleared _ (rc1, log1) (rc, log) Hcl1), EB in HrunA.
  destruct HrunA as (rcA & logA & HrunA & _ & HcallsA).
  eexists. eexists. exists rcB, rcA.
  split; [exact HrunA |].
  cbn [RenderChunkManager.renderChunks RenderChunkManager.withRenderChunks].
  split; [apply at_middle |]. split; [apply at_middle |].
  apply (f_equal toStatic) in HcallsB as HsB. apply (f_equal toDoor) in HcallsB as HdB.
  apply (f_equal toChasm) in HcallsB as HcB. apply (f_equal toFading) in HcallsB as HfB.
  apply (f_equal toStatic) in HcallsA as HsA. apply (f_equal toDoor) in HcallsA as HdA.
  apply (f_equal toChasm) in HcallsA as HcA. apply (f_equal toFading) in HcallsA as HfA.
  cbn in HsB, HdB, HcB, HfB, HsA, HdA, HcA, HfA.
  repeat split; congruence.
Qed.

Lemma full_rebuild_forgets_earlier_calls_witness :
  let this := Samples.rebuilt Samples.doorChunk true true
                (fst (Samples.loaded Samples.doorChunk [Samples.asset "door"])) in
  exists again againLog renderChunkBoth renderChunkAgain,
    RenderChunkManager.rebuildVoxelChunkDrawCalls Samples.arena
      (Samples.rebuilt Samples.doorChunk true false this) Samples.doorChunk 1%Q 0%Q
      true true [] = Ok (again, againLog)
    /\ at_ (RenderChunkManager.renderChunks
              (Samples.rebuilt Samples.doorChunk true true this)) 0
       = Some renderChunkBoth
    /\ at_ (RenderChunkManager.renderChunks again) 0 = Some renderChunkAgain
    /\ RenderChunk.doorDrawCalls renderChunkAgain
       = RenderChunk.doorDrawCalls renderChunkBoth.
Proof.
  intros this.
  destruct (full_rebuild_forgets_earlier_calls Samples.arena this
              (Samples.rebuilt Samples.doorChunk true false this)
              (Samples.rebuilt Samples.doorChunk true true this) Samples.doorChunk
              1%Q 0%Q true false [] [] [] 0)
    as (again & againLog & rcB & rcA & Hrun & HatB & HatA & _ & Hdoor & _).
  - vm_compute. reflexivity.
  - vm_compute. reflexivity.
  - vm_compute. reflexivity.
  - exists again, againLog, rcB, rcA. repeat split; assumption.
Defined.

(** ** The texture caches after a load *)

Lemma getVoxelTextureID_cached (this : RenderChunkManager.t) (asset : TextureAsset) :
  (exists id, RenderChunkManager.getVoxelTextureID this asset = Ok id)
  <-> In asset (cachedAssets (RenderChunkManager.voxelTextures this)).
Proof.
  unfold RenderChunkManager.getVoxelTextureID. rewrite <- cached_iff.
  destruct (find _ _) as [loaded |] eqn:Hfind.
  - split; [intros _ | intros _; now exists (objectTextureRef loaded)].
    apply existsb_exists. exists loaded. apply find_some in Hfind. exact Hfind.
  - split; [intros [id H]; discriminate |].
    intros H. apply existsb_exists in H. destruct H as (loaded & Hin & Hp).
    rewrite (find_none _ _ Hfind loaded Hin) in Hp. discriminate.
Qed.

Lemma LoadVoxelDefTexture_subset (tm : TextureManager)
  (st : list LoadedVoxelTexture * World) (a b : TextureAsset) :
  In b (cachedAssets (fst (LoadVoxelDefTexture tm st a))) ->
  In b (cachedAssets (fst st)) \/ b = a.
Proof.
  destruct st as [vt w]. unfold LoadVoxelDefTexture.
  destruct (existsb _ vt); [now left |].
  destruct (tryGetTextureBuilderID tm a); [| now left].
  destruct (tryCreateObjectTexture _ _) as [[id |] r]; [| now left].
  cbn [fst]. unfold cachedAssets. rewrite map_app, in_app_iff. cbn.
  intros [H | [H | []]]; [now left | now right].
Qed.

Lemma load_assets_subset (tm : TextureManager) (assets : list TextureAsset) (b : TextureAsset) :
  forall st,
    In b (cachedAssets (fst (fold_left (LoadVoxelDefTexture tm) assets st))) ->
    In b (cachedAssets (fst st)) \/ In b assets.
Proof.
  induction assets as [| a rest IH]; intros st; cbn [fold_left]; [now left |].
  intros H. apply IH in H. destruct H as [H | H]; [| right; now right].
  apply LoadVoxelDefTexture_subset in H. destruct H as [H | ->]; [now left |].
  right. now left.
Qed.

(** X11: the voxel texture cache after a completed [loadVoxelChunk]. An
    asset that resolved to a handle before the load resolves to the same
    handle after it; an asset that resolves after the load resolved before
    it or is named by a texture definition of the chunk; and when no backend
    call fails and the texture manager knows the chunk's assets, every asset
    named by a texture definition of the chunk resolves. *)
Theorem loaded_textures_resolve (K : Constants) (this this' : RenderChunkManager.t)
  (chunk : VoxelChunk) (ceilingScale : double) (textureManager : TextureManager)
  (w w' : World) :
  RenderChunkManager.loadVoxelChunk K this chunk ceilingScale textureManager w
  = Ok (this', w') ->
  (forall asset id,
     RenderChunkManager.getVoxelTextureID this asset = Ok id ->
     RenderChunkManager.getVoxelTextureID this' asset = Ok id)
  /\ (forall asset id,
        RenderChunkManager.getVoxelTextureID this' asset = Ok id ->
        (exists id0, RenderChunkManager.getVoxelTextureID this asset = Ok id0)
        \/ In asset (chunkAssets chunk))
  /\ (neverFails w -> knowsAll textureManager (chunkAssets chunk) ->
      forall asset, In asset (chunkAssets chunk) ->
        exists id, RenderChunkManager.getVoxelTextureID this' asset = Ok id).
Proof.
  intros H.
  destruct (loadVoxelChunk_inv _ _ _ _ _ _ _ _ H) as (thisT & wT & Ht & Hvt & _).
  destruct (loadVoxelTextures_extends _ _ _ _ _ _ Ht) as ([added Hext] & _).
  destruct (loadVoxelTextures_inv _ _ _ _ _ _ Ht) as (w1 & Hfold & _).
  split; [| split].
  - intros asset id. unfold RenderChunkManager.getVoxelTextureID.
    rewrite Hvt, Hext.
    destruct (find _ (RenderChunkManager.voxelTextures this)) as [loaded |] eqn:Hfind;
      [| discriminate].
    now rewrite (find_app_found _ _ added _ Hfind).
  - intros asset id Hid.
    assert (Hin : In asset (cachedAssets (RenderChunkManager.voxelTextures this')))
      by (apply getVoxelTextureID_cached; now exists id).
    rewrite Hvt, Hfold in Hin. apply load_assets_subset in Hin.
    destruct Hin as [Hin | Hin]; [left | now right].
    now apply getVoxelTextureID_cached.
  - intros Hw Hknows asset Hin. apply getVoxelTextureID_cached.
    rewrite Hvt, Hfold.
    destruct (load_assets_count textureManager (chunkAssets chunk)
                (RenderChunkManager.voxelTextures this) w
                (cachedAssets (RenderChunkManager.voxelTextures this)) Hw Hknows
                (fun a => iff_refl _)) as (_ & _ & Hiff).
    apply Hiff. apply in_or_app. left. now apply in_rev in Hin.
Qed.

Lemma loaded_textures_resolve_witness :
  exists id,
    RenderChunkManager.getVoxelTextureID
      (fst (Samples.loaded Samples.wallChunk
              [Samples.asset "side"; Samples.asset "bottom"; Samples.asset "top"]))
      (Samples.asset "bottom") = Ok id.
Proof.
  assert (Hload : RenderChunkManager.loadVoxelChunk Samples.arena (fst Samples.started)
                    Samples.wallChunk 1%Q
                    (Samples.textureManagerOf
                       [Samples.asset "side"; Samples.asset "bottom"; Samples.asset "top"])
                    (snd Samples.started)
                  = Ok (fst (Samples.loaded Samples.wallChunk
                               [Samples.asset "side"; Samples.asset "bottom";
                                Samples.asset "top"]),
                        snd (Samples.loaded Samples.wallChunk
                               [Samples.asset "side"; Samples.asset "bottom";
                                Samples.asset "top"]))).
  { vm_compute. reflexivity. }
  assert (Hquiet : neverFails (snd Samples.started)).
  { vm_compute. reflexivity. }
  assert (Hknows : knowsAll
                     (Samples.textureManagerOf
                        [Samples.asset "side"; Samples.asset "bottom"; Samples.asset "top"])
                     (chunkAssets Samples.wallChunk)).
  { intros a Hin.
    repeat (destruct Hin as [<- | Hin]; [vm_compute; discriminate |]).
    destruct Hin. }
  assert (Hin : In (Samples.asset "bottom") (chunkAssets Samples.wallChunk)).
  { right. left. reflexivity. }
  exact (proj2 (proj2
           (loaded_textures_resolve Samples.arena (fst Samples.started)
              (fst (Samples.loaded Samples.wallChunk
                      [Samples.asset "side"; Samples.asset "bottom"; Samples.asset "top"]))
              Samples.wallChunk 1%Q
              (Samples.textureManagerOf
                 [Samples.asset "side"; Samples.asset "bottom"; Samples.asset "top"])
              (snd Samples.started)
              (snd (Samples.loaded Samples.wallChunk
                      [Samples.asset "side"; Samples.asset "bottom"; Samples.asset "top"]))
              Hload)) Hquiet Hknows (Samples.asset "bottom") Hin).
Defined.

Lemma addChasmTextureKey_range (pos : ChunkInt2) (id : ChasmDefID) (def : ChasmDefinition)
  (vt : list LoadedVoxelTexture) (idx : Z) (keys keys' : list LoadedChasmTextureKey.t) :
  addChasmTextureKey pos id def vt idx keys = Ok keys' ->
  exists wall,
    keys' = keys ++ [LoadedChasmTextureKey.init pos id idx wall]
    /\ 0 <= idx
    /\ 0 <= wall < Z.of_nat (length vt).
Proof.
  unfold addChasmTextureKey.
  destruct (findIndex _ vt) as [wall |] eqn:Hwall; [| discriminate].
  destruct (Z.geb_spec idx 0) as [Hge | Hlt]; [| discriminate]. cbn [andb].
  destruct (wall >=? 0); [| discriminate].
  intros H. injection H as <-. exists wall. split; [reflexivity |]. split; [lia |].
  apply findIndexFrom_Some in Hwall. destruct Hwall as (x & Hat & _ & _).
  apply at_range in Hat. lia.
Qed.

Lemma findIndex_range {A : Type} (p : A -> bool) (l : list A) (i : Z) :
  findIndex p l = Some i -> 0 <= i < Z.of_nat (length l).
Proof.
  intros H. apply findIndexFrom_Some in H. destruct H as (x & Hat & _ & _).
  apply at_range in Hat. lia.
Qed.

(** A completed [LoadChasmDefTextures] adds at most one key. A key is added
    only when none was there for the chunk position and chasm definition; it
    is for that position and definition and points into the floor texture
    lists as they are afterwards and into the voxel textures. *)
Lemma LoadChasmDefTextures_key (id : ChasmDefID) (chunk : VoxelChunk)
  (vt : list LoadedVoxelTexture) (lists lists' : list LoadedChasmFloorTextureList)
  (keys keys' : list LoadedChasmTextureKey.t) (tm : TextureManager) (w w' : World) :
  LoadChasmDefTextures id chunk vt lists keys tm w = Ok (lists', keys', w') ->
  (lists' = lists /\ keys' = keys)
  \/ (existsb (fun loadedKey =>
                 (LoadedChasmTextureKey.chasmDefID loadedKey =? id) &&
                 ChunkInt2_eqb (LoadedChasmTextureKey.chunkPos loadedKey) (getPosition chunk))
        keys = false
      /\ exists key,
           keys' = keys ++ [key]
           /\ LoadedChasmTextureKey.chunkPos key = getPosition chunk
           /\ LoadedChasmTextureKey.chasmDefID key = id
           /\ 0 <= LoadedChasmTextureKey.chasmFloorListIndex key < Z.of_nat (length lists')
           /\ 0 <= LoadedChasmTextureKey.chasmWallIndex key < Z.of_nat (length vt)).
Proof.
  unfold LoadChasmDefTextures.
  destruct (existsb _ keys) eqn:Hkey.
  { intros H. injection H as <- <- _. now left. }
  assert (Hfinish : forall l idx w0,
             0 <= idx < Z.of_nat (length l) ->
             match addChasmTextureKey (getPosition chunk) id (getChasmDef chunk id) vt idx
                     keys with
             | Ok k => Ok (l, k, w0)
             | Fatal f => Fatal f
             end = Ok (lists', keys', w') ->
             exists key,
               keys' = keys ++ [key]
               /\ LoadedChasmTextureKey.chunkPos key = getPosition chunk
               /\ LoadedChasmTextureKey.chasmDefID key = id
               /\ 0 <= LoadedChasmTextureKey.chasmFloorListIndex key
                    < Z.of_nat (length lists')
               /\ 0 <= LoadedChasmTextureKey.chasmWallIndex key < Z.of_nat (length vt)).
  { intros l idx w0 Hidx.
    destruct (addChasmTextureKey _ _ _ _ _ _) as [k |] eqn:Hadd; [| discriminate].
    intros H. injection H as <- <- _.
    apply addChasmTextureKey_range in Hadd. destruct Hadd as (wall & -> & _ & Hwall).
    eexists. split; [reflexivity |]. cbn. repeat split; lia. }
  destruct (findIndex _ lists) as [idx |] eqn:Hidx.
  { intros H. right. split; [reflexivity |].
    apply (Hfinish lists idx w (findIndex_range _ _ _ Hidx) H). }
  destruct (chasmAnimType (getChasmDef chunk id)).
  - destruct (tryCreateObjectTextureDims _ _ _ _) as [[tex |] r].
    + destruct (lockObjectTexture tex r) as [[trueColor |] r1].
      * destruct trueColor; [discriminate |].
        intros H. right. split; [reflexivity |].
        refine (Hfinish _ _ _ _ H). rewrite length_app. cbn. lia.
      * intros H. injection H as <- <- _. now left.
    + intros H. injection H as <- <- _. now left.
  - destruct (fold_left _ _ _) as [[assets refs] w1].
    intros H. right. split; [reflexivity |].
    refine (Hfinish _ _ _ _ H). rewrite length_app. cbn. lia.
Qed.

Lemma keysUnique_add (keys : list LoadedChasmTextureKey.t) (key : LoadedChasmTextureKey.t) :
  keysUnique keys ->
  existsb (fun loadedKey =>
             (LoadedChasmTextureKey.chasmDefID loadedKey
              =? LoadedChasmTextureKey.chasmDefID key) &&
             ChunkInt2_eqb (LoadedChasmTextureKey.chunkPos loadedKey)
               (LoadedChasmTextureKey.chunkPos key)) keys = false ->
  keysUnique (keys ++ [key]).
Proof.
  intros Hu Hnew i j ki kj Hi Hj Hpos Hid.
  assert (Hold : forall k, In k keys ->
                   LoadedChasmTextureKey.chunkPos k = LoadedChasmTextureKey.chunkPos key ->
                   LoadedChasmTextureKey.chasmDefID k = LoadedChasmTextureKey.chasmDefID key ->
                   False).
  { intros k Hin Hp Hd.
    assert (Hex : existsb (fun loadedKey =>
                             (LoadedChasmTextureKey.chasmDefID loadedKey
                              =? LoadedChasmTextureKey.chasmDefID key) &&
                             ChunkInt2_eqb (LoadedChasmTextureKey.chunkPos loadedKey)
                               (LoadedChasmTextureKey.chunkPos key)) keys = true).
    { apply existsb_exists. exists k. split; [exact Hin |].
      rewrite Hd, Hp, Z.eqb_refl. apply ChunkInt2_eqb_eq. reflexivity. }
    congruence. }
  apply at_app_inv in Hi. apply at_app_inv in Hj.
  destruct Hi as [Hi | [-> ->]]; destruct Hj as [Hj | [-> ->]].
  - apply (Hu i j ki kj Hi Hj Hpos Hid).
  - exfalso. apply (Hold ki (at_In _ _ _ Hi) Hpos Hid).
  - exfalso. apply (Hold kj (at_In _ _ _ Hj)); congruence.
  - reflexivity.
Qed.

(** X12: the chasm texture keys stay well formed over a completed
    [loadVoxelChunk]: when every key points into the floor texture lists and
    into the voxel textures before the load, so does every key after it, and
    when no two keys were for the same chunk position and chasm definition,
    none are afterwards. With keys in range, [getChasmWallTextureID], which
    indexes the voxel textures without a check, is never out of range: it
    returns a handle when the key exists and fails its assertion when not. *)
Theorem chasm_keys_stay_in_range (K : Constants) (this this' : RenderChunkManager.t)
  (chunk : VoxelChunk) (ceilingScale : double) (textureManager : TextureManager)
  (w w' : World) :
  keysInRange this ->
  RenderChunkManager.loadVoxelChunk K this chunk ceilingScale textureManager w
  = Ok (this', w') ->
  keysInRange this'
  /\ (keysUnique (RenderChunkManager.chasmTextureKeys this) ->
      keysUnique (RenderChunkManager.chasmTextureKeys this'))
  /\ (forall chunkPos chasmDefID,
        match RenderChunkManager.findChasmTextureKey this' chunkPos chasmDefID with
        | Some _ =>
            exists id, RenderChunkManager.getChasmWallTextureID this' chunkPos chasmDefID
                       = Ok id
        | None =>
            RenderChunkManager.getChasmWallTextureID this' chunkPos chasmDefID
            = Fatal AssertionFailed
        end).
Proof.
  intros Hrange H.
  destruct (loadVoxelChunk_inv _ _ _ _ _ _ _ _ H) as (thisT & wT & Ht & Hvt & Hlists & Hkeys).
  destruct (loadVoxelTextures_extends _ _ _ _ _ _ Ht) as ([added Hext] & _).
  destruct (loadVoxelTextures_inv _ _ _ _ _ _ Ht) as (w1 & _ & _ & Hloop).
  assert (Hinv :
    (forall key, In key (RenderChunkManager.chasmTextureKeys thisT) ->
       0 <= LoadedChasmTextureKey.chasmFloorListIndex key
         < Z.of_nat (length (RenderChunkManager.chasmFloorTextureLists thisT))
       /\ 0 <= LoadedChasmTextureKey.chasmWallIndex key
            < Z.of_nat (length (RenderChunkManager.voxelTextures thisT)))
    /\ (keysUnique (RenderChunkManager.chasmTextureKeys this) ->
        keysUnique (RenderChunkManager.chasmTextureKeys thisT))).
  { revert Hloop.
    apply (foldResult_invariant
             (fun st : list LoadedChasmFloorTextureList * list LoadedChasmTextureKey.t * World =>
                (forall key, In key (snd (fst st)) ->
                   0 <= LoadedChasmTextureKey.chasmFloorListIndex key
                     < Z.of_nat (length (fst (fst st)))
                   /\ 0 <= LoadedChasmTextureKey.chasmWallIndex key
                        < Z.of_nat (length (RenderChunkManager.voxelTextures thisT)))
                /\ (keysUnique (RenderChunkManager.chasmTextureKeys this) ->
                    keysUnique (snd (fst st))))).
    - cbn [fst snd]. split; [| trivial].
      intros key Hin. destruct (Hrange key Hin) as [Hf Hwall].
      split; [exact Hf |]. rewrite Hext, length_app. lia.
    - intros [[lists keys] w0] id [[lists2 keys2] w2] [Hr Hu] Hstep. cbn [fst snd] in *.
      destruct (LoadChasmDefTextures_extends _ _ _ _ _ _ _ _ _ _ Hstep) as [[addedL HL] _].
      apply LoadChasmDefTextures_key in Hstep.
      destruct Hstep as [[-> ->] | (Hnew & key & -> & Hpos & Hid & Hfloor & Hwall)];
        [split; assumption |].
      split.
      + intros k Hin. apply in_app_iff in Hin. destruct Hin as [Hin | [<- | []]].
        * destruct (Hr k Hin) as [Hf Hwl]. split; [| exact Hwl].
          rewrite HL, length_app. lia.
        * split; assumption.
      + intros Hu0. apply keysUnique_add; [now apply Hu |]. now rewrite Hid, Hpos. }
  destruct Hinv as [Hrange' Hunique'].
  assert (HrangeT : keysInRange this').
  { intros key Hin. rewrite Hkeys in Hin. rewrite Hlists, Hvt. now apply Hrange'. }
  split; [exact HrangeT |]. split; [now rewrite Hkeys |].
  intros chunkPos chasmDefID. unfold RenderChunkManager.getChasmWallTextureID.
  destruct (RenderChunkManager.findChasmTextureKey this' chunkPos chasmDefID)
    as [key |] eqn:Hfind; [| reflexivity].
  apply find_some in Hfind. destruct Hfind as [Hin _].
  destruct (HrangeT key Hin) as [_ Hwall].
  unfold at_. destruct (Z.ltb_spec (LoadedChasmTextureKey.chasmWallIndex key) 0); [lia |].
  destruct (nth_error _ _) as [texture |] eqn:Hnth; [now eexists |].
  apply nth_error_None in Hnth. lia.
Qed.

Lemma chasm_keys_stay_in_range_witness :
  keysInRange (fst (Samples.loaded Samples.wetChasmChunk
                      [Samples.asset "wall"; Samples.asset "water0"])).
Proof.
  assert (Hbefore : keysInRange (fst Samples.started)).
  { unfold keysInRange. vm_compute. intros key []. }
  assert (Hload : RenderChunkManager.loadVoxelChunk Samples.arena (fst Samples.started)
                    Samples.wetChasmChunk 1%Q
                    (Samples.textureManagerOf [Samples.asset "wall"; Samples.asset "water0"])
                    (snd Samples.started)
                  = Ok (fst (Samples.loaded Samples.wetChasmChunk
                               [Samples.asset "wall"; Samples.asset "water0"]),
                        snd (Samples.loaded Samples.wetChasmChunk
                               [Samples.asset "wall"; Samples.asset "water0"]))).
  { vm_compute. reflexivity. }
  exact (proj1 (chasm_keys_stay_in_range Samples.arena (fst Samples.started)
                  (fst (Samples.loaded Samples.wetChasmChunk
                          [Samples.asset "wall"; Samples.asset "water0"]))
                  Samples.wetChasmChunk 1%Q
                  (Samples.textureManagerOf [Samples.asset "wall"; Samples.asset "water0"])
                  (snd Samples.started)
                  (snd (Samples.loaded Samples.wetChasmChunk
                          [Samples.asset "wall"; Samples.asset "water0"]))
                  Hbefore Hload)).
Defined.

Lemma key_exists_iff (this : RenderChunkManager.t) (chunkPos : ChunkInt2)
  (chasmDefID : ChasmDefID) :
  RenderChunkManager.findChasmTextureKey this chunkPos chasmDefID <> None
  <-> existsb (fun loadedKey =>
                 (LoadedChasmTextureKey.chasmDefID loadedKey =? chasmDefID) &&
                 ChunkInt2_eqb (LoadedChasmTextureKey.chunkPos loadedKey) chunkPos)
        (RenderChunkManager.chasmTextureKeys this) = true.
Proof.
  unfold RenderChunkManager.findChasmTextureKey.
  rewrite existsb_exists. split.
  - destruct (find _ _) as [key |] eqn:Hfind; [intros _ | congruence].
    apply find_some in Hfind. destruct Hfind as [Hin Hp].
    exists key. split; [exact Hin |]. now rewrite andb_comm.
  - intros (key & Hin & Hp) Hnone.
    pose proof (find_none _ _ Hnone key Hin) as Hf. cbn beta in Hf.
    rewrite andb_comm in Hf. congruence.
Qed.

(** X13: a chasm definition whose key exists is not looked at again. When
    every chasm definition id of the chunk has a key at the chunk's position,
    [loadVoxelTextures] completes and leaves the floor texture lists and the
    keys as they are, whatever the chasm definitions of the chunk say: a
    chunk loaded at a position that still has keys is drawn with the chasm
    textures those keys point to. *)
Theorem existing_chasm_keys_are_kept (this : RenderChunkManager.t) (chunk : VoxelChunk)
  (textureManager : TextureManager) (w : World) :
  (forall chasmDefID,
     0 <= chasmDefID < Z.of_nat (length (chunkChasmDefs chunk)) ->
     RenderChunkManager.findChasmTextureKey this (getPosition chunk) chasmDefID <> None) ->
  exists this' w',
    RenderChunkManager.loadVoxelTextures this chunk textureManager w = Ok (this', w')
    /\ RenderChunkManager.chasmFloorTextureLists this'
       = RenderChunkManager.chasmFloorTextureLists this
    /\ RenderChunkManager.chasmTextureKeys this' = RenderChunkManager.chasmTextureKeys this
    /\ (forall chasmDefID,
          RenderChunkManager.findChasmTextureKey this' (getPosition chunk) chasmDefID
          = RenderChunkManager.findChasmTextureKey this (getPosition chunk) chasmDefID).
Proof.
  intros Hkeys. unfold RenderChunkManager.loadVoxelTextures.
  destruct (fold_left _ (chunkTextureDefs chunk) _) as [textures w1].
  assert (Hloop : forall ids w0,
             (forall id, In id ids -> 0 <= id < Z.of_nat (length (chunkChasmDefs chunk))) ->
             foldResult (fun st chasmDefID =>
                           let '(lists, keys, w2) := st in
                           LoadChasmDefTextures chasmDefID chunk textures lists keys
                             textureManager w2)
               ids (RenderChunkManager.chasmFloorTextureLists this,
                    RenderChunkManager.chasmTextureKeys this, w0)
             = Ok (RenderChunkManager.chasmFloorTextureLists this,
                   RenderChunkManager.chasmTextureKeys this, w0)).
  { induction ids as [| id rest IH]; intros w0 Hids; cbn [foldResult]; [reflexivity |].
    unfold LoadChasmDefTextures at 1.
    rewrite (proj1 (key_exists_iff this (getPosition chunk) id)
               (Hkeys id (Hids id (or_introl eq_refl)))).
    apply IH. intros id' Hin. apply Hids. now right. }
  rewrite Hloop.
  - eexists. eexists. split; [reflexivity |]. repeat split.
  - intros id Hin. unfold indices in Hin. apply in_map_iff in Hin.
    destruct Hin as (n & <- & Hn). apply in_seq in Hn. lia.
Qed.

Lemma existing_chasm_keys_are_kept_witness :
  let this := fst (RenderChunkManager.unloadVoxelChunk
                     (fst (Samples.loaded Samples.wetChasmChunk
                             [Samples.asset "wall"; Samples.asset "water0"]))
                     (0, 0)
                     (snd (Samples.loaded Samples.wetChasmChunk
                             [Samples.asset "wall"; Samples.asset "water0"]))) in
  exists this' w',
    RenderChunkManager.loadVoxelTextures this Samples.dryChasmChunk
      (Samples.textureManagerOf [Samples.asset "wall"]) (snd Samples.started)
    = Ok (this', w')
    /\ RenderChunkManager.chasmFloorTextureLists this'
       = RenderChunkManager.chasmFloorTextureLists this.
Proof.
  intros this.
  destruct (existing_chasm_keys_are_kept this Samples.dryChasmChunk
              (Samples.textureManagerOf [Samples.asset "wall"]) (snd Samples.started))
    as (this' & w' & Hload & Hlists & _).
  - intros id Hid. assert (id = 0) as -> by (change (0 <= id < 1) in Hid; lia).
    vm_compute. discriminate.
  - exists this', w'. split; [exact Hload | exact Hlists].
Defined.

Lemma nextOutcome_neverFails (r : Renderer) :
  outcomes r = [] -> nextOutcome r = (true, r).
Proof.
  intros H. unfold nextOutcome. now rewrite H.
Qed.

Lemma LoadChasmDefTextures_complete (id : ChasmDefID) (chunk : VoxelChunk)
  (vt : list LoadedVoxelTexture) (lists lists' : list LoadedChasmFloorTextureList)
  (keys keys' : list LoadedChasmTextureKey.t) (tm : TextureManager) (w w' : World) :
  neverFails w ->
  knowsAll tm (animatedTextureAssets (getChasmDef chunk id)) ->
  LoadChasmDefTextures id chunk vt lists keys tm w = Ok (lists', keys', w') ->
  neverFails w' /\ (floorListsComplete lists -> floorListsComplete lists').
Proof.
  intros Hw Hknows. unfold LoadChasmDefTextures.
  destruct (existsb _ keys).
  { intros H. injection H as <- _ <-. split; [exact Hw | trivial]. }
  assert (Hfinish : forall l idx w0,
             match addChasmTextureKey (getPosition chunk) id (getChasmDef chunk id) vt idx
                     keys with
             | Ok k => Ok (l, k, w0)
             | Fatal f => Fatal f
             end = Ok (lists', keys', w') -> l = lists' /\ w0 = w').
  { intros l idx w0. destruct (addChasmTextureKey _ _ _ _ _ _); [| discriminate].
    intros H. injection H as <- _ <-. split; reflexivity. }
  assert (Hadd : forall new,
             match animType new with
             | SolidColor => length (objectTextureRefs new) = 1%nat
             | Animated => length (objectTextureRefs new) = length (textureAssets new)
             end ->
             floorListsComplete lists -> floorListsComplete (lists ++ [new])).
  { intros new Hnew Hc l Hin. apply in_app_iff in Hin.
    destruct Hin as [Hin | [<- | []]]; [now apply Hc | exact Hnew]. }
  destruct (findIndex _ lists).
  { intros H. apply Hfinish in H. destruct H as [<- <-]. split; [exact Hw | trivial]. }
  destruct (chasmAnimType (getChasmDef chunk id)).
  - unfold tryCreateObjectTextureDims. rewrite (nextOutcome_neverFails _ Hw).
    unfold lockObjectTexture. cbn [outcomes]. rewrite nextOutcome_neverFails by exact Hw.
    destruct (find _ _) as [texture |].
    + destruct (isTrueColor texture); [discriminate |].
      intros H. apply Hfinish in H. destruct H as [<- <-].
      split; [exact Hw |]. apply Hadd. reflexivity.
    + intros H. injection H as <- _ <-. split; [exact Hw | trivial].
  - destruct (chasm_frames_success tm (animatedTextureAssets (getChasmDef chunk id))
                [] [] w Hw Hknows) as (refs & w1 & Hfold & Hw1 & Hlen).
    rewrite Hfold. intros H. apply Hfinish in H. destruct H as [<- <-].
    split; [exact Hw1 |]. apply Hadd. cbn. now rewrite Hlen.
Qed.

(** A complete floor texture list with a frame has a handle for every
    animation percent. *)
Lemma complete_list_has_frame (textureList : LoadedChasmFloorTextureList) (p : double) :
  (1 <= length (objectTextureRefs textureList))%nat ->
  exists index handle,
    getTextureIndex textureList p = Ok index
    /\ at_ (objectTextureRefs textureList) index = Some handle.
Proof.
  intros Hlen.
  assert (HF : 1 <= Z.of_nat (length (objectTextureRefs textureList))) by lia.
  destruct (getTextureIndex_total textureList p HF) as (index & Hidx & Hrange).
  exists index. unfold at_. destruct (Z.ltb_spec index 0); [lia |].
  destruct (nth_error _ _) as [handle |] eqn:Hnth; [now exists handle |].
  apply nth_error_None in Hnth. lia.
Qed.

(** X14: the chasm floor textures after a completed [loadVoxelChunk] on a
    backend without failures, for a chunk whose position has no keys yet and
    whose chasm texture assets the texture manager knows. The floor texture
    lists stay complete, and [getChasmFloorTextureID] returns a handle for
    every chasm definition of the chunk that has a frame and every animation
    percent from 0 to 1; the handle belongs to a floor texture list with the
    content of that chasm definition. *)
Theorem loaded_chasm_floor_resolves (K : Constants) (this this' : RenderChunkManager.t)
  (chunk : VoxelChunk) (ceilingScale : double) (textureManager : TextureManager)
  (w w' : World) :
  neverFails w ->
  knowsAll textureManager (chunkChasmAssets chunk) ->
  noKeysAt (RenderChunkManager.chasmTextureKeys this) (getPosition chunk) ->
  floorListsComplete (RenderChunkManager.chasmFloorTextureLists this) ->
  RenderChunkManager.loadVoxelChunk K this chunk ceilingScale textureManager w
  = Ok (this', w') ->
  floorListsComplete (RenderChunkManager.chasmFloorTextureLists this')
  /\ forall chasmDefID chasmAnimPercent,
       0 <= chasmDefID < Z.of_nat (length (chunkChasmDefs chunk)) ->
       (chasmAnimType (getChasmDef chunk chasmDefID) = Animated ->
        1 <= Z.of_nat (length (animatedTextureAssets (getChasmDef chunk chasmDefID)))
          <= INT_MAX) ->
       (0 <= chasmAnimPercent <= 1)%Q ->
       exists handle textureList,
         RenderChunkManager.getChasmFloorTextureID this' (getPosition chunk) chasmDefID
           chasmAnimPercent = Ok handle
         /\ In textureList (RenderChunkManager.chasmFloorTextureLists this')
         /\ In handle (objectTextureRefs textureList)
         /\ LoadedChasmFloorComparer textureList (getChasmDef chunk chasmDefID) = true.
Proof.
  intros Hw Hknows Hnokeys Hcomplete H.
  destruct (loadVoxelChunk_success _ _ _ _ _ _ _ _ Hw Hknows Hnokeys H)
    as (_ & _ & _ & _ & _ & Hresolve).
  destruct (loadVoxelChunk_inv _ _ _ _ _ _ _ _ H) as (thisT & wT & Ht & _ & Hlists & _).
  destruct (loadVoxelTextures_inv _ _ _ _ _ _ Ht) as (w1 & _ & Hw1 & Hloop).
  assert (Hcomplete' : floorListsComplete (RenderChunkManager.chasmFloorTextureLists this')).
  { rewrite Hlists.
    assert (Hnf1 : neverFails w1).
    { subst w1.
      apply (fold_left_invariant (fun st => neverFails (snd st))); [exact Hw |].
      intros st a. apply LoadVoxelDefTexture_neverFails. }
    revert Hloop.
    generalize (RenderChunkManager.chasmFloorTextureLists thisT).
    generalize (RenderChunkManager.chasmTextureKeys thisT).
    intros keysT listsT Hloop.
    apply (foldResult_invariant
             (fun st : list LoadedChasmFloorTextureList * list LoadedChasmTextureKey.t * World =>
                neverFails (snd st) /\ floorListsComplete (fst (fst st)))
             _ _
             (RenderChunkManager.chasmFloorTextureLists this,
              RenderChunkManager.chasmTextureKeys this, w1)
             (listsT, keysT, wT) (conj Hnf1 Hcomplete)) in Hloop; [apply Hloop |].
    intros [[lists keys] w0] id [[lists2 keys2] w2] [Hnf Hc] Hstep. cbn [fst snd] in *.
    apply LoadChasmDefTextures_complete in Hstep; [| exact Hnf |].
    - destruct Hstep as [Hnf2 Hc2]. split; [exact Hnf2 | now apply Hc2].
    - intros a Hin. apply Hknows. apply (chasm_def_assets chunk id a Hin). }
  split; [exact Hcomplete' |].
  intros chasmDefID p Hid Hframes Hp.
  destruct (Hresolve chasmDefID Hid) as (key & Hkey & textureList & Hat & Hcmp).
  assert (Hin : In textureList (RenderChunkManager.chasmFloorTextureLists this'))
    by (apply (at_In _ _ _ Hat)).
  pose proof (Hcomplete' textureList Hin) as Hlen.
  apply comparer_iff in Hcmp as Hcontent. destruct Hcontent as [Hanim Hsame].
  assert (Hcount : (1 <= length (objectTextureRefs textureList))%nat
                   /\ Z.of_nat (length (objectTextureRefs textureList)) <= INT_MAX).
  { destruct (animType textureList).
    - rewrite Hlen. unfold INT_MAX. split; lia.
    - rewrite Hlen, Hsame. specialize (Hframes (eq_sym Hanim)). lia. }
  destruct (complete_list_has_frame textureList (Finite p) (proj1 Hcount))
    as (index & handle & Hidx & Hhandle).
  exists handle, textureList.
  unfold RenderChunkManager.getChasmFloorTextureID. rewrite Hkey, Hat, Hidx, Hhandle.
  repeat split; try assumption. apply (at_In _ _ _ Hhandle).
Qed.

Lemma loaded_chasm_floor_resolves_witness :
  exists handle textureList,
    RenderChunkManager.getChasmFloorTextureID
      (fst (Samples.loaded (Samples.twoFrameChasmChunk (0, 0))
              [Samples.asset "wall"; Samples.asset "water0"; Samples.asset "water1"]))
      (0, 0) 0 (1 # 2)%Q = Ok handle
    /\ In textureList
         (RenderChunkManager.chasmFloorTextureLists
            (fst (Samples.loaded (Samples.twoFrameChasmChunk (0, 0))
                    [Samples.asset "wall"; Samples.asset "water0"; Samples.asset "water1"])))
    /\ In handle (objectTextureRefs textureList)
    /\ LoadedChasmFloorComparer textureList Samples.twoFrameChasmDef = true.
Proof.
  refine (proj2
            (loaded_chasm_floor_resolves Samples.arena (fst Samples.started)
               (fst (Samples.loaded (Samples.twoFrameChasmChunk (0, 0))
                       [Samples.asset "wall"; Samples.asset "water0"; Samples.asset "water1"]))
               (Samples.twoFrameChasmChunk (0, 0)) 1%Q
               (Samples.textureManagerOf
                  [Samples.asset "wall"; Samples.asset "water0"; Samples.asset "water1"])
               (snd Samples.started)
               (snd (Samples.loaded (Samples.twoFrameChasmChunk (0, 0))
                       [Samples.asset "wall"; Samples.asset "water0"; Samples.asset "water1"]))
               _ _ _ _ _) 0 (1 # 2)%Q _ _ _).
  - reflexivity.
  - intros a Hin.
    repeat (destruct Hin as [<- | Hin]; [vm_compute; discriminate |]).
    destruct Hin.
  - unfold noKeysAt. vm_compute. intros key [].
  - unfold floorListsComplete. vm_compute. intros l [].
  - vm_compute. reflexivity.
  - vm_compute. split; [discriminate | reflexivity].
  - intros _. vm_compute. split; discriminate.
  - split; vm_compute; discriminate.
Defined.

(** ** Mesh definitions and their mappings *)

(** One iteration of [loadVoxelMeshBuffers] leaves the render chunk as it
    is, after a failed buffer creation, or registers one render mesh
    definition for the mesh definition of the chunk; it registers one when
    the mesh is empty and when no backend call fails. *)
Lemma loadVoxelMeshBuffer_registers (K : Constants) (chunk : VoxelChunk)
  (st : RenderChunk.t * World) (i : nat) :
  (fst (RenderChunkManager.loadVoxelMeshBuffer K chunk st i) = fst st
   /\ meshIsEmpty (getMeshDef chunk (Z.of_nat i)) = false
   /\ ~ neverFails (snd st))
  \/ exists d,
       fst (RenderChunkManager.loadVoxelMeshBuffer K chunk st i)
       = RenderChunkManager.registerMeshDefinition (Z.of_nat i) d (fst st).
Proof.
  destruct st as [rc w]. unfold RenderChunkManager.loadVoxelMeshBuffer.
  destruct (meshIsEmpty _) eqn:Hempty; [right; eexists; reflexivity |].
  assert (Hfail : forall kind count components r,
             tryCreateBuffer kind count components (renderer w) = (None, r) ->
             ~ neverFails w).
  { intros kind count components r Hc Hnf.
    destruct (tryCreateBuffer_neverFails kind count components (renderer w) Hnf)
      as (id & r' & Hok & _). congruence. }
  unfold tryCreateVertexBuffer.
  destruct (tryCreateBuffer VertexBuffer _ _ (renderer w)) as [[vb |] r] eqn:Hv.
  2:{ left. cbn [fst snd]. repeat split. apply (Hfail _ _ _ _ Hv). }
  assert (Hr : ~ outcomes r = [] -> ~ neverFails w).
  { intros Hn Hnf.
    destruct (tryCreateBuffer_neverFails VertexBuffer (rendererVertexCount
                (getMeshDef chunk (Z.of_nat i))) (POSITION_COMPONENTS_PER_VERTEX K)
                (renderer w) Hnf) as (id & r' & Hok & Hr').
    rewrite Hok in Hv. injection Hv as _ <-. contradiction. }
  unfold tryCreateAttributeBuffer.
  destruct (tryCreateBuffer AttributeBuffer _ (NORMAL_COMPONENTS_PER_VERTEX K) r)
    as [[nb |] r1] eqn:Hn.
  2:{ left. cbn [fst snd]. repeat split. apply Hr. intros Hnf.
      destruct (tryCreateBuffer_neverFails AttributeBuffer (rendererVertexCount
                  (getMeshDef chunk (Z.of_nat i))) (NORMAL_COMPONENTS_PER_VERTEX K) r Hnf)
        as (id & r' & Hok & _). congruence. }
  assert (Hr1 : ~ outcomes r1 = [] -> ~ neverFails w).
  { intros Hn1. apply Hr. intros Hnf.
    destruct (tryCreateBuffer_neverFails AttributeBuffer (rendererVertexCount
                (getMeshDef chunk (Z.of_nat i))) (NORMAL_COMPONENTS_PER_VERTEX K) r Hnf)
      as (id & r' & Hok & Hr').
    rewrite Hok in Hn. injection Hn as _ <-. contradiction. }
  destruct (tryCreateBuffer AttributeBuffer _ (TEX_COORDS_PER_VERTEX K) r1)
    as [[tb |] r2] eqn:Ht.
  2:{ left. cbn [fst snd]. repeat split. apply Hr1. intros Hnf.
      destruct (tryCreateBuffer_neverFails AttributeBuffer (rendererVertexCount
                  (getMeshDef chunk (Z.of_nat i))) (TEX_COORDS_PER_VERTEX K) r1 Hnf)
        as (id & r' & Hok & _). congruence. }
  assert (Hr2 : ~ outcomes r2 = [] -> ~ neverFails w).
  { intros Hn2. apply Hr1. intros Hnf.
    destruct (tryCreateBuffer_neverFails AttributeBuffer (rendererVertexCount
                (getMeshDef chunk (Z.of_nat i))) (TEX_COORDS_PER_VERTEX K) r1 Hnf)
      as (id & r' & Hok & Hr').
    rewrite Hok in Ht. injection Ht as _ <-. contradiction. }
  destruct (fold_left _ _ _) as [d4 w4] eqn:Hfold.
  assert (Hw4 : ~ neverFails w4 -> ~ neverFails w).
  { intros Hn4. apply Hr2. intros Hnf. apply Hn4.
    pose proof (fold_left_invariant (fun s => neverFails (snd s))
                  (RenderChunkManager.createOpaqueIndexBuffer (getMeshDef chunk (Z.of_nat i)))
                  (seq 0 (length (opaqueIndices (getMeshDef chunk (Z.of_nat i)))))
                  (RenderVoxelMeshDefinition.mk vb nb tb
                     (RenderVoxelMeshDefinition.opaqueIndexBufferIDs
                        RenderVoxelMeshDefinition.default) 0 (-1), withRenderer r2 w)
                  Hnf (fun s x => createOpaqueIndexBuffer_neverFails _ s x)) as Hinv.
    rewrite Hfold in Hinv. exact Hinv. }
  destruct (_ >? 0); [| right; eexists; reflexivity].
  unfold tryCreateIndexBuffer.
  destruct (tryCreateBuffer IndexBuffer _ _ (renderer w4)) as [[ab |] r5] eqn:Ha;
    [right; eexists; reflexivity |].
  left. cbn [fst snd]. repeat split. apply Hw4. intros Hnf.
  destruct (tryCreateBuffer_neverFails IndexBuffer
              (Z.of_nat (length (alphaTestedIndices (getMeshDef chunk (Z.of_nat i))))) 1
              (renderer w4) Hnf) as (id & r' & Hok & _).
  congruence.
Qed.

Lemma find_key_In (mappings : list (Z * Z)) (id k v : Z) :
  find (fun kv => fst kv =? id) mappings = Some (k, v) -> In (k, v) mappings /\ k = id.
Proof.
  intros H. apply find_some in H. destruct H as [Hin Hk]. cbn in Hk.
  split; [exact Hin | lia].
Qed.

Lemma In_find_key (mappings : list (Z * Z)) (id v : Z) :
  In (id, v) mappings -> exists v', find (fun kv => fst kv =? id) mappings = Some (id, v').
Proof.
  intros Hin. destruct (find (fun kv => fst kv =? id) mappings) as [[k v'] |] eqn:Hfind.
  - apply find_key_In in Hfind as [_ ->]. now exists v'.
  - pose proof (find_none _ _ Hfind (id, v) Hin) as Hn. cbn in Hn. lia.
Qed.

(** The mesh mappings after the first [n] iterations of
    [loadVoxelMeshBuffers] on a render chunk without mesh definitions. *)
Lemma mesh_mappings_after (K : Constants) (chunk : VoxelChunk) (rc : RenderChunk.t)
  (w : World) (n : nat) :
  RenderChunk.meshDefs rc = [] -> RenderChunk.meshDefMappings rc = [] ->
  let st := fold_left (RenderChunkManager.loadVoxelMeshBuffer K chunk) (seq 0 n) (rc, w) in
  (forall k v, In (k, v) (RenderChunk.meshDefMappings (fst st)) ->
     0 <= k < Z.of_nat n /\ 0 <= v < Z.of_nat (length (RenderChunk.meshDefs (fst st))))
  /\ (forall k, 0 <= k < Z.of_nat n ->
        meshIsEmpty (getMeshDef chunk k) = true \/ neverFails w ->
        exists v, In (k, v) (RenderChunk.meshDefMappings (fst st)))
  /\ (neverFails w -> neverFails (snd st)).
Proof.
  intros Hdefs Hmaps. induction n as [| n IH]; cbn zeta.
  - cbn [seq fold_left fst snd]. rewrite Hmaps. repeat split; try lia; try contradiction.
    trivial.
  - rewrite seq_S, fold_left_app. cbn [fold_left Nat.add].
    cbn zeta in IH.
    destruct (fold_left _ (seq 0 n) (rc, w)) as [rcN wN] eqn:Hfold. cbn [fst snd] in IH.
    destruct IH as (Hrange & Htotal & Hnf).
    pose proof (loadVoxelMeshBuffer_neverFails K chunk (rcN, wN) n) as Hstep.
    destruct (loadVoxelMeshBuffer_registers K chunk (rcN, wN) n)
      as [(Hsame & Hnonempty & Hfails) | [d Hreg]]; cbn [fst snd] in *.
    + rewrite Hsame. repeat split.
      * apply Hrange in H. lia.
      * apply Hrange in H. lia.
      * apply (Hrange k v H).
      * apply (Hrange k v H).
      * intros k Hk Hwhy.
        assert (Hkn : k <> Z.of_nat n).
        { intros ->. destruct Hwhy as [He | Hw]; [congruence | now apply Hfails, Hnf]. }
        apply Htotal; [lia | exact Hwhy].
      * intros Hw. now apply Hstep, Hnf.
    + rewrite Hreg. unfold RenderChunkManager.registerMeshDefinition.
      cbn [RenderChunk.addMeshDefinition RenderChunk.emplaceMeshDefMapping
           RenderChunk.meshDefMappings RenderChunk.meshDefs].
      assert (Hnew : existsb (fun kv : Z * Z => fst kv =? Z.of_nat n)
                       (RenderChunk.meshDefMappings rcN) = false).
      { destruct (existsb _ _) eqn:E; [| reflexivity].
        apply existsb_exists in E. destruct E as ([k v] & Hin & Hk). cbn in Hk.
        apply Hrange in Hin. lia. }
      rewrite Hnew, length_app. cbn [length].
      split; [| split].
      * intros k v Hin. apply in_app_iff in Hin.
        destruct Hin as [Hin | [Heq | []]].
        -- apply Hrange in Hin. lia.
        -- injection Heq as <- <-. lia.
      * intros k Hk Hwhy. destruct (Z.eq_dec k (Z.of_nat n)) as [-> | Hne].
        -- eexists. apply in_app_iff. right. left. reflexivity.
        -- destruct (Htotal k ltac:(lia) Hwhy) as [v Hin].
           exists v. apply in_app_iff. now left.
      * intros Hw. now apply Hstep, Hnf.
Qed.

(** X15: [loadVoxelMeshBuffers], run on a render chunk without mesh
    definitions as [loadVoxelChunk] runs it, leaves mappings that are sound:
    the mapping found for a voxel mesh id is keyed by that id, the id is one
    of the chunk's mesh definitions, and the mapped value indexes the render
    chunk's mesh definitions. The mappings cover every empty mesh of the
    chunk, and every mesh when no backend call fails. *)
Theorem mesh_mappings_index_mesh_definitions (K : Constants) (rc : RenderChunk.t)
  (chunk : VoxelChunk) (ceilingScale : double) (w : World) :
  RenderChunk.meshDefs rc = [] -> RenderChunk.meshDefMappings rc = [] ->
  let rc' := fst (RenderChunkManager.loadVoxelMeshBuffers K rc chunk ceilingScale w) in
  (forall id k v,
     find (fun kv => fst kv =? id) (RenderChunk.meshDefMappings rc') = Some (k, v) ->
     k = id /\ 0 <= id < Z.of_nat (length (chunkMeshDefs chunk))
     /\ exists d, at_ (RenderChunk.meshDefs rc') v = Some d)
  /\ (forall id, 0 <= id < Z.of_nat (length (chunkMeshDefs chunk)) ->
        meshIsEmpty (getMeshDef chunk id) = true \/ neverFails w ->
        exists v,
          find (fun kv => fst kv =? id) (RenderChunk.meshDefMappings rc') = Some (id, v)).
Proof.
  intros Hdefs Hmaps rc'.
  destruct (mesh_mappings_after K chunk rc w (length (chunkMeshDefs chunk)) Hdefs Hmaps)
    as (Hrange & Htotal & _).
  fold (RenderChunkManager.loadVoxelMeshBuffers K rc chunk ceilingScale w) in Hrange, Htotal.
  fold rc' in Hrange, Htotal.
  split.
  - intros id k v Hfind. apply find_key_In in Hfind as [Hin ->].
    destruct (Hrange id v Hin) as [Hid Hv].
    split; [reflexivity |]. split; [exact Hid |].
    unfold at_. destruct (Z.ltb_spec v 0) as [Hneg | _]; [lia |].
    destruct (nth_error (RenderChunk.meshDefs rc') (Z.to_nat v)) as [d |] eqn:Hnth.
    + now exists d.
    + apply nth_error_None in Hnth. lia.
  - intros id Hid Hwhy. destruct (Htotal id Hid Hwhy) as [v Hin].
    apply (In_find_key _ _ _ Hin).
Qed.

Lemma mesh_mappings_index_mesh_definitions_witness :
  exists v,
    find (fun kv => fst kv =? 1)
      (RenderChunk.meshDefMappings
         (fst (RenderChunkManager.loadVoxelMeshBuffers Samples.arena
                 (RenderChunk.init Samples.arena (0, 0) 1) Samples.wallChunk 1%Q
                 Samples.quietBackend)))
    = Some (1, v).
Proof.
  apply (proj2 (mesh_mappings_index_mesh_definitions Samples.arena
                  (RenderChunk.init Samples.arena (0, 0) 1) Samples.wallChunk 1%Q
                  Samples.quietBackend eq_refl eq_refl) 1).
  - vm_compute. split; [discriminate | reflexivity].
  - right. reflexivity.
Defined.

Lemma in_voxelsOf (width height depth x y z : nat) :
  (x < width)%nat -> (y < height)%nat -> (z < depth)%nat ->
  In (x, y, z) (voxelsOf width height depth).
Proof.
  intros Hx Hy Hz. unfold voxelsOf.
  apply in_flat_map. exists z. split; [apply in_seq; lia |].
  apply in_flat_map. exists y. split; [apply in_seq; lia |].
  apply in_map_iff. exists x. split; [reflexivity | apply in_seq; lia].
Qed.

(** A loop over [xs] ends in a fault when one of its iterations does. *)
Lemma emitted_forEach_fault {X : Type} (xs : list X)
  (body : X -> M RenderChunkManager.DrawState unit) (st : RenderChunkManager.DrawState)
  (x : X) :
  (forall y, Appends anyVector (body y)) ->
  In x xs -> emitted (body x) st = None -> emitted (forEach xs body) st = None.
Proof.
  intros Hbody. induction xs as [| y rest IH]; intros Hin Hx; [contradiction |].
  cbn [forEach].
  rewrite (emitted_bind anyVector)
    by (try apply Hbody; intros _; apply Appends_forEach, Hbody).
  destruct Hin as [-> | Hin].
  - now rewrite Hx.
  - destruct (emitted (body y) st) as [[u e] |]; [| reflexivity].
    now rewrite (IH Hin Hx).
Qed.

(** X16: when a voxel of the render chunk's grid has a non-empty mesh whose
    id has no mapping in the render chunk, as after a failed buffer creation
    in [loadVoxelMeshBuffers], [rebuildVoxelChunkDrawCalls] ends in a fault
    whatever its flags: it never returns with the voxel skipped. *)
Theorem rebuild_stops_at_unmapped_mesh (K : Constants) (this : RenderChunkManager.t)
  (voxelChunk : VoxelChunk) (ceilingScale chasmAnimPercent : double)
  (updateStatics updateAnimating : bool) (log : DebugLog) (index : Z)
  (renderChunk : RenderChunk.t) (x y z : nat) :
  RenderChunkManager.tryGetRenderChunkIndex this (getPosition voxelChunk) = Some index ->
  at_ (RenderChunkManager.renderChunks this) index = Some renderChunk ->
  (x < RenderChunk.meshDefIDsWidth renderChunk)%nat ->
  (y < RenderChunk.meshDefIDsHeight renderChunk)%nat ->
  (z < RenderChunk.meshDefIDsDepth renderChunk)%nat ->
  meshIsEmpty (getMeshDef voxelChunk (getMeshDefID voxelChunk x y z)) = false ->
  find (fun kv => fst kv =? getMeshDefID voxelChunk x y z)
    (RenderChunk.meshDefMappings renderChunk) = None ->
  exists f,
    RenderChunkManager.rebuildVoxelChunkDrawCalls K this voxelChunk ceilingScale
      chasmAnimPercent updateStatics updateAnimating log = Fatal f.
Proof.
  intros Hindex Hat Hx Hy Hz Hmesh Hfind.
  unfold RenderChunkManager.rebuildVoxelChunkDrawCalls. rewrite Hindex, Hat.
  set (st := (RenderChunkManager.clearDrawCalls updateStatics updateAnimating renderChunk,
              log)).
  assert (Hnone : emitted (RenderChunkManager.loadVoxelDrawCalls K this voxelChunk
                             ceilingScale chasmAnimPercent updateStatics updateAnimating)
                    st = None).
  { rewrite emitted_loadVoxelDrawCalls.
    rewrite (emitted_forEach_fault _ _ st (x, y, z)); [reflexivity | | |].
    - intros v. apply loadVoxelDrawCallsAt_Appends.
    - apply in_voxelsOf; assumption.
    - unfold emitted, RenderChunkManager.loadVoxelDrawCallsAt.
      rewrite Hmesh. cbn [bind gets cleared fst snd st RenderChunk.meshDefMappings
                               RenderChunkManager.clearDrawCalls RenderChunk.withDrawCalls].
      rewrite Hfind. reflexivity. }
  pose proof (loadVoxelDrawCalls_Appends K this voxelChunk ceilingScale chasmAnimPercent
                updateStatics updateAnimating st) as Hrun.
  unfold emitted in Hnone.
  destruct (RenderChunkManager.loadVoxelDrawCalls K this voxelChunk ceilingScale
              chasmAnimPercent updateStatics updateAnimating (cleared st))
    as [[u s] | f]; [discriminate Hnone |].
  rewrite Hrun. now exists f.
Qed.

Lemma rebuild_stops_at_unmapped_mesh_witness :
  let this :=
    match RenderChunkManager.loadVoxelChunk Samples.arena (fst Samples.started)
            Samples.wallChunk 1%Q
            (Samples.textureManagerOf
               [Samples.asset "side"; Samples.asset "bottom"; Samples.asset "top"])
            (Samples.backend [true; true; true; false]) with
    | Ok s => fst s
    | Fatal _ => fst Samples.started
    end in
  exists f,
    RenderChunkManager.rebuildVoxelChunkDrawCalls Samples.arena this Samples.wallChunk
      1%Q 0%Q true false [] = Fatal f.
Proof.
  intros this.
  apply (rebuild_stops_at_unmapped_mesh Samples.arena this Samples.wallChunk 1%Q 0%Q
           true false [] 0
           (nth 0 (RenderChunkManager.renderChunks this)
              (RenderChunk.init Samples.arena (0, 0) 1)) 0 0 0).
  - vm_compute. reflexivity.
  - vm_compute. reflexivity.
  - vm_compute. lia.
  - vm_compute. lia.
  - vm_compute. lia.
  - vm_compute. reflexivity.
  - vm_compute. reflexivity.
Defined.
